(* ===== verification/_CoqProject ===== *)
-Q . S2P
Prelude.v
DList.v
Tkernel.v
Kernel.v
Inv.v
Moves.v
Rules.v
Wait.v
Sched.v
Check.v
Timer.v
Block.v
TimerHandler.v
Task.v
KernelTasks.v
Semaphore.v
EventFlag.v
Mailbox.v
IntCtl.v
Start.v
Boot.v
Trap.v
Types.v
Globals.v
Calls.v
System.v
Nesting.v
LifeCycle.v
Delivery.v
Memory.v
Frame.v
Context.v
Examples.v
Scenarios.v
