(* ===== verification/Prelude.v ===== *)
(** * tsukumo-core: a verification development of the kernel (root file)

    tsukumo-core is a small real-time kernel in C for one RISC-V hart, with a
    micro T-Kernel API: tasks with 16 priorities, semaphores, event flags and
    mailboxes, waits with a time limit in ticks of 10 ms, and interrupt
    handlers. This library is a model of its C code, function by function, with
    theorems about what each call does to the state, on every branch.

    ** The program

    All state is in global variables: tables of control blocks, a free list
    for each table, one ready queue for each priority, the timer queue, the wait
    queue of each object and the message queue of each mailbox, all of them
    intrusive circular lists ([src/kernel/list.h]); [current] and [next], the
    task that runs and the one to switch to. A call of the API checks its
    arguments, disables interrupts ([DI]), changes the lists and the blocks,
    asks for a switch by writing the machine software interrupt ([dispatch]),
    and restores the interrupt flag ([EI]): the pending switch is taken there,
    by the trap entry, which calls [schedule]. The timer interrupt calls
    [tkmc_timer_handler], an external one [tkmc_external_interrupt].

    ** The files

    - [Prelude]: machine integers, the effect monad [M] (a run returns, halts in
      a hook that does not return, is wild, i.e. undefined in C, or hangs, i.e.
      out of fuel), weakest preconditions [wp], which are total correctness.
    - [DList]: [src/kernel/list.h] over any type of addresses, as updates of a heap
      of links; [rep L Q]: the heap [L] holds exactly the rings [Q], a map from
      list heads to their members in order; each operation is an operation on
      the members.
    - [Tkernel]: [src/include/tk], [src/include/sys/config.h], [profile.h]; the
      IDs, error codes and packets of the API.
    - [Kernel]: the control blocks and the global variables (record [kernel]),
      the interrupt flag, the CLINT and PLIC registers, [context.h],
      [dispatch.h], [panic.c], loops over lists.
    - [Inv]: the invariant [inv k Q]: every task is on exactly the queues its
      state says, every object has its wait queue, in the order of its
      attribute, and its values in range; [settled]: nobody waits for what is
      there; [sched_ok]: what [current] and [next] are. [wf] (in [Sched]) is
      all three, and holds between any two calls.
    - [Moves]: what keeps the invariant when a task moves from queue to queue;
      [Rules]: a [wp] rule for each primitive.
    - [Wait]: [tkmc_complete_wait] and [tkmc_sem_serve_waiters] of task.c and
      semaphore.c, which call each other, and the account of the units that the end
      of a wait gives on ([completed], [units_left]); [Sched]: [tkmc_yield] and the requests
      to switch; [Timer] and [TimerHandler]: [src/kernel/timer.c], with the history
      that the loop of the handler must have ([expired]) and the account of the
      waits it ends ([ledger]); [Block]: joining
      a wait queue, and handing something to a waiter; [Task]:
      [src/kernel/task.c]; [KernelTasks]: the initial task of [ini_tsk.c] and the
      idle task of [idl_tsk.S]; [Semaphore], [EventFlag], [Mailbox]: the files of
      these names; [IntCtl]: [intctl.c]; [Start]: [schedule] and [tkmc_start] of
      [start.c].
    - [Boot]: from memory that is all zero, [tkmc_start] establishes the
      invariant. [Trap]: the reset code, the vector and the trap entries of
      [src/kernel/asm/rv32/start.S], with [mstatus] and [mie] as the record [CSR].
    - [Types]: the ranges of the C types of all fields ([typed]), and that every
      function keeps them ([Ty]). [Globals]: what every function leaves alone
      (class [Keeps]). [Calls]: the calls of [src/include/tk/tkernel.h] as one type
      [api], what each of them asks of its caller ([owed], [admissible]) and gives
      the rest of the system ([call_post]), and the specification of the life of a
      task ([moves]), with the waits that each call may end ([releases]).
    - [System]: the step relation of the whole: [step] on pairs of a kernel and
      the rests of the calls its tasks are in; an interrupt comes when the flag and
      its bit of [mie] let it in ([taken]); [reachable] from the reset; the
      invariant [sys_ok]; what a trap does to the frames of the tasks ([switched]).
      [Nesting]: the states inside handlers, as deep as interrupts nest.
      [LifeCycle]: every operation against [moves].
    - [Delivery]: the order in which messages are received. [Memory]: [memset.c],
      [memcpy.c] and [clear_bss], over a RAM of bytes. [Frame]: [SAVE_FRAME] and
      [RESTORE_FRAME] of start.S and [launch_task.S], on the registers of a hart
      and the RAM of words. [Context]: both with the steps of [System], from the trap
      that interrupts a task to the one that gives it its registers back.
    - [Check]: boolean versions of the invariant, as [host_check_kernel_queues] of
      [src/test/host/fakes.c]; [Examples] and [Scenarios]: concrete runs from the
      boot on, and each theorem applied to a state reached this way.

    ** How the definitions read

    A function of the C code is a definition of its name in the monad [M]. A
    pointer to a control block is its index in the table; the address of a list
    node is a value of [link]; RAM of the application and of the task stacks is a
    map of words, in which a call finds what its pointers point at. A call that
    may wait is split where it is switched out: the first part ends in
    [Suspend co], and [resume co] is the rest, run when the task runs again. A
    hook that does not return ([panic.c]) ends the run in [Halt].

    The machine time is a function from the number of reads of MTIME so far to
    its value, so that it goes on while the code reads it.

    ** What the theorems show

    - The whole system ([System]): every state that can be reached satisfies the
      invariant; nothing the system may do next hangs or is undefined; without a
      pending switch the highest ready task runs; a wait with a time limit ends
      in the first timer interrupt after its ticks, by E_TMOUT or by units that the
      account of this interrupt shows; nobody waits for what is there; the rest of
      a call gives the cause of the wake-up; the idle task executes [wfi] exactly
      when no other task is ready, with interrupts off; every field has a value of its C type; and
      what becomes of a task that is started again before the switch it asked for.
    - Interrupts ([Nesting]): no switch happens inside a handler, because of the masks
      of [mie], nor at the end of a nested interrupt, because of the depth: the task
      that was interrupted stays current, on its frame. Handlers nest at most as deep
      as the PLIC has priorities, because each runs at the threshold of its source.
    - Context switches ([Context]): a task that is interrupted, by any trap, gets its
      registers, [mepc] and stack pointer back when it runs again, whatever the other
      tasks, handlers and traps did in between, unless somebody wrote to its frame.
    - The life of a task ([LifeCycle]): no operation of the kernel takes a task to
      another state than the specification lets it, nor moves its frame; a call ends
      the waits of the queue it is about and no others.
    - Every call ([Calls]): it ends, keeps the invariant, and an error code that is
      returned at once means that nothing changed. What is asked of the caller is
      part of these theorems: arguments of their types, no switch pending in a task
      with interrupts on ([quiet]), the clock in reach where a call reads it, and a
      message in no queue where a call gets as far as it ([may_send]).
    - Each call on every branch (the files of the components): its result, the
      control blocks and the members of every queue afterwards, against reference
      functions on lists: [grant] for a semaphore, [deliver] for a flag,
      [insert_stable] for messages, [a_wakes] and [a_gives] for the tasks released.
    - The timer ([Timer], [TimerHandler]): the edges passed, the ticks taken off,
      the order of the waits that end and who gets the units they leave, the bounds of the conversion of time, and
      that the compare value is never early while its halves are written.
    - Order and equivalence: messages come back in order ([Delivery]); the loops
      over words copy and fill what loops over bytes do ([Memory]).
    - Frames ([Frame]): what is saved comes back, and a started task begins at its
      entry with its arguments, [tk_ext_tsk] as return address and an empty stack.

    ** Fuel and bounds

    - Walks over lists have [walk_fuel], one more than the nodes there are; a list
      of the invariant has no node twice, so no walk runs out.
    - [tkmc_sem_serve_waiters] and [tkmc_complete_wait] call each other to depth
      two in the code; the model has the two levels as two definitions.
    - [pass_elapsed_periods] has [EDGE_FUEL] = 4096 edges: enough while the timer
      interrupt is late by less than [MAX_LAG] = 10^8 counts (10 s) and the clock
      goes on by at most [READ_STEP] = 10^4 counts (1 ms) from read to read.
      [timer_in_reach] is this assumption; an unbounded delay would need no more
      than a larger number, and the theorems on the timer say what it is for.
    - [read_mtime] repeats while the high word changes: two rounds are enough for
      such a clock. The loops of [Memory] have one round for each byte and one more.
    - Integers keep their width: the 32-bit wrap-around of ticks, counts and
      addresses is written out ([u32], [i32]), and signed sums that C leaves
      undefined on overflow go through [int_op], which is wild there; the theorems
      show that it never is.

    ** Not modelled, and why

    - The change of [sp] to the interrupt stack in start.S: it says where the
      handlers have their stack, which no modelled code reads. [System] takes the
      frame of a trap as an address; [Frame] is about what is in it.
    - How long [wfi] waits; that it is executed, and with which interrupt flag, is
      in the log of the machine ([wfi_log]).
    - The choice of the PLIC between sources that wait: in [System] any source may
      be claimed, in [Nesting] any above the threshold. [isr_depth] is a number without bound; [Nesting] shows that it has one.
    - [usermain]: code of the application, a parameter of [tkmc_ini_tsk]. A handler
      and the code of a task are any sequence of calls and of changes of RAM.
    - [in_b], [in_h], [out_b], [out_h]: the kernel does not use them. It does not use
      [in_d] and [out_d] either, for a reason that [Examples] shows.
    - The kernel's calls of [memset] on whole control blocks are written as fields
      that are zero; [Memory] is about the function.
    - Tests, build files and docs. *)

From stdpp Require Export base gmap list sets fin_maps.
From Stdlib Require Export ZArith Lia Sorted.

#[export] Set Default Goal Selector "!".

Declare Scope tk_scope.
Delimit Scope tk_scope with tk.

(** ** Machine integers

    A C integer is a [Z]; the conversions below are the wrap-arounds C
    prescribes for the unsigned types and the implementation (clang) defines
    for the signed ones. *)

Definition u8 (x : Z) : Z := x mod 2 ^ 8.
Definition u16 (x : Z) : Z := x mod 2 ^ 16.
Definition u32 (x : Z) : Z := x mod 2 ^ 32.
Definition u64 (x : Z) : Z := x mod 2 ^ 64.

Definition i16 (x : Z) : Z :=
  let y := u16 x in if decide (y < 2 ^ 15)%Z then y else (y - 2 ^ 16)%Z.
Definition i32 (x : Z) : Z :=
  let y := u32 x in if decide (y < 2 ^ 31)%Z then y else (y - 2 ^ 32)%Z.

(** The values of the 32-bit C types [UINT]/[UW] and [INT]/[W]. *)
Definition is_u32 (x : Z) : Prop := (0 <= x < 2 ^ 32)%Z.
Definition is_i32 (x : Z) : Prop := (- 2 ^ 31 <= x < 2 ^ 31)%Z.

(** Bitwise complement of a 32-bit unsigned value. *)
Definition not32 (x : Z) : Z := Z.lxor (u32 x) (Z.ones 32).

(** ** The effect monad

    The state of type [S] is passed explicitly. A computation returns, or
    calls a hook that never returns ([Halt], with the state it stopped in), or
    does something C leaves undefined ([Wild]: an access through a pointer to
    no object, a signed overflow), or runs out of the fuel that bounds a loop
    ([Hang]). *)

Inductive result (S A : Type) : Type :=
  | Ret (a : A) (s : S)
  | Halt (s : S)
  | Wild
  | Hang.
Arguments Ret {S A} a s.
Arguments Halt {S A} s.
Arguments Wild {S A}.
Arguments Hang {S A}.

Definition M (S A : Type) : Type := S -> result S A.

Section monad.
Context {S : Type}.

Definition ret {A} (a : A) : M S A := fun s => Ret a s.
Definition bind {A B} (m : M S A) (f : A -> M S B) : M S B :=
  fun s =>
    match m s with
    | Ret a s' => f a s'
    | Halt s' => Halt s'
    | Wild => Wild
    | Hang => Hang
    end.
Definition gets {A} (f : S -> A) : M S A := fun s => Ret (f s) s.
Definition modify (f : S -> S) : M S unit := fun s => Ret tt (f s).
Definition wild {A} : M S A := fun _ => Wild.
Definition hang {A} : M S A := fun _ => Hang.
Definition halt {A} : M S A := fun s => Halt s.

(** A read or an update that may fail; a failure is undefined behaviour. *)
Definition gets_opt {A} (f : S -> option A) : M S A :=
  fun s => match f s with Some a => Ret a s | None => Wild end.
Definition modify_opt (f : S -> option S) : M S unit :=
  fun s => match f s with Some s' => Ret tt s' | None => Wild end.
End monad.

Notation "x <- m ;; k" := (bind m (fun x => k))
  (at level 100, m at next level, right associativity) : tk_scope.
Notation "m ;;; k" := (bind m (fun _ => k))
  (at level 100, k at level 200, right associativity) : tk_scope.
Open Scope Z_scope.
Open Scope tk_scope.

(** Signed arithmetic in C: an overflow is undefined behaviour. *)
Definition int_op {S} (x : Z) : M S Z :=
  if decide (is_i32 x) then ret x else wild.

#[export] Instance is_u32_dec x : Decision (is_u32 x).
Proof. unfold is_u32. apply _. Defined.
#[export] Instance is_i32_dec x : Decision (is_i32 x).
Proof. unfold is_i32. apply _. Defined.

(** ** Weakest preconditions

    [wp m Phi s]: run from [s], [m] returns, and [Phi] holds of what it
    returns. It is total correctness: a run that is wild, stops or hangs does
    not satisfy it. *)

Definition wp {S A} (m : M S A) (Phi : A -> S -> Prop) (s : S) : Prop :=
  match m s with
  | Ret a s' => Phi a s'
  | _ => False
  end.

Section wp.
Context {S : Type}.
Implicit Types s : S.

Lemma wp_bind {A B} (m : M S A) (f : A -> M S B) Phi s :
  wp m (fun a s' => wp (f a) Phi s') s -> wp (bind m f) Phi s.
Proof. unfold wp, bind. by destruct (m s). Qed.

Lemma wp_seq_assoc {A B C} (m : M S A) (f : M S B) (g : M S C) Phi s :
  wp ((m ;;; f) ;;; g) Phi s -> wp (m ;;; f ;;; g) Phi s.
Proof. unfold wp, bind. by destruct (m s). Qed.

Lemma wp_assoc_seq {A B C} (m : M S A) (f : M S B) (g : M S C) Phi s :
  wp (m ;;; f ;;; g) Phi s -> wp ((m ;;; f) ;;; g) Phi s.
Proof. unfold wp, bind. by destruct (m s). Qed.

Lemma wp_seq_assoc_bind {A B C} (m : M S A) (f : A -> M S B) (g : M S C) Phi s :
  wp ((x <- m ;; f x) ;;; g) Phi s -> wp (x <- m ;; f x ;;; g) Phi s.
Proof. unfold wp, bind. by destruct (m s). Qed.

Lemma run_bind {A B} (m : M S A) (f : A -> M S B) s a s' :
  m s = Ret a s' -> bind m f s = f a s'.
Proof. unfold bind. by intros ->. Qed.

Lemma wp_mono {A} (m : M S A) (Phi Psi : A -> S -> Prop) s :
  wp m Phi s -> (forall a s', Phi a s' -> Psi a s') -> wp m Psi s.
Proof. unfold wp. destruct (m s); auto. Qed.

Lemma wp_returns {A} (m : M S A) Phi s :
  wp m Phi s <-> exists a s', m s = Ret a s' /\ Phi a s'.
Proof.
  unfold wp. split; [destruct (m s); by eauto|].
  by intros (a & s' & -> & H).
Qed.

Lemma wp_run {A} (m : M S A) Phi s a s' :
  m s = Ret a s' -> Phi a s' -> wp m Phi s.
Proof. unfold wp. by intros ->. Qed.

Lemma wp_ret {A} (a : A) Phi s : Phi a s -> wp (ret a) Phi s.
Proof. done. Qed.
Lemma wp_gets {A} (f : S -> A) Phi s : Phi (f s) s -> wp (gets f) Phi s.
Proof. done. Qed.
Lemma wp_modify (f : S -> S) Phi s : Phi tt (f s) -> wp (modify f) Phi s.
Proof. done. Qed.
Lemma wp_gets_opt {A} (f : S -> option A) Phi s a :
  f s = Some a -> Phi a s -> wp (gets_opt f) Phi s.
Proof. unfold wp, gets_opt. by intros ->. Qed.
Lemma wp_modify_opt (f : S -> option S) Phi s s' :
  f s = Some s' -> Phi tt s' -> wp (modify_opt f) Phi s.
Proof. unfold wp, modify_opt. by intros ->. Qed.
Lemma wp_int_op x Phi s : is_i32 x -> Phi x s -> wp (int_op x) Phi s.
Proof. intros H HP. unfold int_op. by rewrite decide_True. Qed.
End wp.

(** [step] runs one primitive of the monad and leaves the rest. *)
Ltac step :=
  lazymatch goal with
  | |- wp (bind _ _) _ _ => apply wp_bind; step
  | |- wp (ret _) _ _ => apply wp_ret
  | |- wp (gets _) _ _ => apply wp_gets
  | |- wp (modify _) _ _ => apply wp_modify
  | |- wp (gets_opt _) _ _ => eapply wp_gets_opt
  | |- wp (modify_opt _) _ _ => eapply wp_modify_opt
  | |- wp (int_op _) _ _ => apply wp_int_op
  | _ => idtac
  end.

(** ** Hint databases

    [tk] holds the lemmas that settle the side conditions of the components'
    proofs: ranges of constants, membership in the queues, bit tests. *)
Create HintDb tk discriminated.
#[export] Hint Constants Opaque : tk.
#[export] Hint Extern 5 (_ <= _ < _) => lia : tk.
#[export] Hint Extern 5 (_ <= _ <= _) => lia : tk.
