(* ===== verification/DList.v ===== *)
(** * The intrusive list of [src/kernel/list.h]

    A [tkmc_list_head] is a node of type [A] (an address); the heap of links
    maps a node to its [(next, prev)] pair. The operations are the inline
    functions of the header, word for word, in the option monad: [None] is an
    access through a pointer that is no node (NULL, the poison value).

    The abstract view is a map [Q] from the heads of circular lists to the
    nodes on them, in order; [rep L Q] says that the heap holds exactly these
    rings and that they do not overlap. Each operation has a lemma that says
    what it does to [Q]. *)

From S2P Require Import Prelude.

Open Scope Z_scope.

(** ** The operations *)

Section ops.
Context {A : Type} `{Countable A}.
Variable poison : A.
Abbreviation heap := (gmap A (A * A)).

Definition lnext (L : heap) (n : A) : option A := fst <$> L !! n.
Definition lprev (L : heap) (n : A) : option A := snd <$> L !! n.
Definition set_lnext (n v : A) (L : heap) : option heap :=
  p ← L !! n; Some (<[n := (v, snd p)]> L).
Definition set_lprev (n v : A) (L : heap) : option heap :=
  p ← L !! n; Some (<[n := (fst p, v)]> L).

Definition tkmc_init_list_head (head : A) (L : heap) : option heap :=
  L ← set_lnext head head L; set_lprev head head L.

Definition tkmc_list_empty (head : A) (L : heap) : option bool :=
  n ← lnext L head; Some (bool_decide (head = n)).

Definition tkmc_list_del (head : A) (L : heap) : option heap :=
  prev ← lprev L head;
  next ← lnext L head;
  L ← set_lnext prev next L;
  L ← set_lprev next prev L;
  L ← set_lprev head poison L;
  set_lnext head poison L.

Definition tkmc_list_add_between (new prev next : A) (L : heap) : option heap :=
  L ← set_lprev next new L;
  L ← set_lnext new next L;
  L ← set_lprev new prev L;
  set_lnext prev new L.

Definition tkmc_list_add (new head : A) (L : heap) : option heap :=
  next ← lnext L head; tkmc_list_add_between new head next L.

Definition tkmc_list_add_tail (new head : A) (L : heap) : option heap :=
  prev ← lprev L head; tkmc_list_add_between new prev head L.
End ops.

Lemma elem_of_snoc {A} (x y : A) xs : x ∈ xs ++ [y] <-> x ∈ xs \/ x = y.
Proof. rewrite elem_of_app, list_elem_of_singleton. done. Qed.

(** ** Rings and the abstract queues *)

Section rings.
Context {A : Type} `{Countable A}.
Variable poison : A.
Abbreviation heap := (gmap A (A * A)).
Abbreviation queues := (gmap A (list A)).
Implicit Types (L : heap) (Q : queues) (a b h n m : A) (xs ys : list A).

Definition lnk L a b : Prop := lnext L a = Some b /\ lprev L b = Some a.

(** The last node of the list [a :: xs]. *)
Fixpoint tail_of a xs : A :=
  match xs with
  | [] => a
  | x :: xs => tail_of x xs
  end.

Fixpoint path L a xs : Prop :=
  match xs with
  | [] => True
  | x :: xs => lnk L a x /\ path L x xs
  end.

Definition ring L h xs : Prop :=
  path L h xs /\ lnk L (tail_of h xs) h /\ NoDup (h :: xs).

Definition rep L Q : Prop :=
  (forall h xs, Q !! h = Some xs -> ring L h xs) /\
  (forall h1 xs1 h2 xs2 n,
      Q !! h1 = Some xs1 -> Q !! h2 = Some xs2 ->
      n ∈ h1 :: xs1 -> n ∈ h2 :: xs2 -> h1 = h2).

(** [n] is linked into the list of head [h]. *)
Definition inq Q h n : Prop := exists xs, Q !! h = Some xs /\ n ∈ xs.
(** [n] is a head of an empty list, as [tkmc_init_list_head] leaves it. *)
Definition alone Q n : Prop := Q !! n = Some [].
(** [n] is on no list: it may be linked in, or initialised. *)
Definition loose Q n : Prop :=
  (Q !! n = None \/ Q !! n = Some []) /\ forall h, ~ inq Q h n.

(** Take [n] off every list; append it to [h]; put it before or after
    others. *)
Definition without n xs : list A := filter (fun m => m <> n) xs.
Definition qrm n Q : queues := delete n (without n <$> Q).
Definition qset h xs n Q : queues := <[h := xs]> (qrm n Q).
Definition qpush h n Q : queues := qset h (default [] (Q !! h) ++ [n]) n Q.

(** *** Single links *)

Lemma lnext_set_lnext L L' n v m :
  set_lnext n v L = Some L' ->
  lnext L' m = if decide (m = n) then Some v else lnext L m.
Proof.
  unfold set_lnext, lnext. intros Hs.
  destruct (L !! n) as [p|] eqn:E; simplify_eq/=.
  case_decide as Hd; [subst; by rewrite lookup_insert_eq|].
  by rewrite lookup_insert_ne.
Qed.

Lemma lprev_set_lnext L L' n v m :
  set_lnext n v L = Some L' -> lprev L' m = lprev L m.
Proof.
  unfold set_lnext, lprev. intros Hs.
  destruct (L !! n) as [p|] eqn:E; simplify_eq/=.
  destruct (decide (m = n)) as [->|]; [by rewrite lookup_insert_eq, E|].
  by rewrite lookup_insert_ne.
Qed.

Lemma lprev_set_lprev L L' n v m :
  set_lprev n v L = Some L' ->
  lprev L' m = if decide (m = n) then Some v else lprev L m.
Proof.
  unfold set_lprev, lprev. intros Hs.
  destruct (L !! n) as [p|] eqn:E; simplify_eq/=.
  case_decide as Hd; [subst; by rewrite lookup_insert_eq|].
  by rewrite lookup_insert_ne.
Qed.

Lemma lnext_set_lprev L L' n v m :
  set_lprev n v L = Some L' -> lnext L' m = lnext L m.
Proof.
  unfold set_lprev, lnext. intros Hs.
  destruct (L !! n) as [p|] eqn:E; simplify_eq/=.
  destruct (decide (m = n)) as [->|]; [by rewrite lookup_insert_eq, E|].
  by rewrite lookup_insert_ne.
Qed.

Lemma set_lnext_dom L L' n v : set_lnext n v L = Some L' -> dom L' = dom L.
Proof.
  unfold set_lnext. intros Hs. destruct (L !! n) eqn:E; simplify_eq/=.
  by apply dom_insert_lookup_L.
Qed.

Lemma set_lprev_dom L L' n v : set_lprev n v L = Some L' -> dom L' = dom L.
Proof.
  unfold set_lprev. intros Hs. destruct (L !! n) eqn:E; simplify_eq/=.
  by apply dom_insert_lookup_L.
Qed.

Lemma set_lnext_ok L n v :
  n ∈ dom L -> exists L', set_lnext n v L = Some L'.
Proof. rewrite elem_of_dom. unfold set_lnext. intros [p ->]. by eexists. Qed.

Lemma set_lprev_ok L n v :
  n ∈ dom L -> exists L', set_lprev n v L = Some L'.
Proof. rewrite elem_of_dom. unfold set_lprev. intros [p ->]. by eexists. Qed.

Lemma lnext_dom L n m : lnext L n = Some m -> n ∈ dom L.
Proof. unfold lnext. rewrite elem_of_dom. destruct (L !! n); [by eexists|done]. Qed.

Lemma lprev_dom L n m : lprev L n = Some m -> n ∈ dom L.
Proof. unfold lprev. rewrite elem_of_dom. destruct (L !! n); [by eexists|done]. Qed.

(** *** Paths *)

Lemma tail_of_in a xs : tail_of a xs ∈ a :: xs.
Proof.
  revert a; induction xs as [|x xs IH]; intros a; simpl; [set_solver|].
  specialize (IH x). set_solver.
Qed.

Lemma tail_of_app a xs x ys : tail_of a (xs ++ x :: ys) = tail_of x ys.
Proof. revert a; induction xs as [|z zs IH]; intros a; [done|apply IH]. Qed.

Lemma path_app L a xs x ys :
  path L a (xs ++ x :: ys) <->
  path L a xs /\ lnk L (tail_of a xs) x /\ path L x ys.
Proof.
  revert a; induction xs as [|y ys' IH]; intros a; simpl; [tauto|].
  rewrite IH. tauto.
Qed.

Lemma path_frame L L' a xs :
  path L a xs -> NoDup (a :: xs) ->
  (forall m, m ∈ a :: xs -> m <> tail_of a xs -> lnext L' m = lnext L m) ->
  (forall m, m ∈ xs -> lprev L' m = lprev L m) ->
  path L' a xs.
Proof.
  revert a; induction xs as [|x xs IH]; intros a Hp Hnd Hn Hv; [done|].
  destruct Hp as [[H1 H2] Hp]. simpl in Hn.
  apply NoDup_cons in Hnd as [Ha Hnd].
  pose proof (tail_of_in x xs) as Hl. split.
  - split.
    + rewrite Hn; [done|set_solver|]. intros ->. done.
    + rewrite Hv; [done|set_solver].
  - apply IH; [done|done| |].
    + intros m Hm. apply Hn. set_solver.
    + intros m Hm. apply Hv. set_solver.
Qed.

Lemma path_next L a xs m :
  path L a xs -> m ∈ xs -> m ∈ dom L.
Proof.
  revert a; induction xs as [|x xs IH]; intros a; simpl; [set_solver|].
  intros [[_ Hx] Hp] [->|Hm]%elem_of_cons; [by eapply lprev_dom|].
  by eapply IH.
Qed.

Lemma ring_dom L h xs m : ring L h xs -> m ∈ h :: xs -> m ∈ dom L.
Proof.
  intros (Hp & [_ Hh] & _) [->|Hm]%elem_of_cons; [by eapply lprev_dom|].
  by eapply path_next.
Qed.

(** *** The abstract queues *)

Lemma without_notin n xs : n ∉ xs -> without n xs = xs.
Proof.
  intros Hn. unfold without. induction xs as [|x xs IH]; [done|].
  rewrite filter_cons_True by set_solver. f_equal. apply IH. set_solver.
Qed.

Lemma without_split n xs ys :
  NoDup (xs ++ n :: ys) -> without n (xs ++ n :: ys) = xs ++ ys.
Proof.
  intros Hnd. unfold without. rewrite filter_app, filter_cons_False by auto.
  apply NoDup_app in Hnd as (_ & Hd & [Hn _]%NoDup_cons).
  fold (without n xs) (without n ys). rewrite !without_notin; set_solver.
Qed.

Lemma elem_of_without n m xs : m ∈ without n xs <-> m <> n /\ m ∈ xs.
Proof. unfold without. by rewrite list_elem_of_filter. Qed.

Lemma lookup_qrm n Q h :
  qrm n Q !! h = if decide (h = n) then None else without n <$> Q !! h.
Proof.
  unfold qrm. case_decide as Hd; [subst; by rewrite lookup_delete_eq|].
  by rewrite lookup_delete_ne, lookup_fmap by done.
Qed.

Lemma lookup_qset h xs n Q h' :
  qset h xs n Q !! h' =
  if decide (h' = h) then Some xs
  else if decide (h' = n) then None else without n <$> Q !! h'.
Proof.
  unfold qset. case_decide; [subst; by rewrite lookup_insert_eq|].
  by rewrite lookup_insert_ne, lookup_qrm.
Qed.

Lemma rep_inq_unique L Q h1 h2 n :
  rep L Q -> inq Q h1 n -> inq Q h2 n -> h1 = h2.
Proof.
  intros [_ Hd] (xs1 & H1 & Hn1) (xs2 & H2 & Hn2).
  apply (Hd h1 xs1 h2 xs2 n); set_solver.
Qed.

Lemma rep_ring L Q h xs : rep L Q -> Q !! h = Some xs -> ring L h xs.
Proof. intros [Hr _]. apply Hr. Qed.

(** The links say what is on a ring. *)
Lemma ring_unique L h xs ys : ring L h xs -> ring L h ys -> xs = ys.
Proof.
  intros (Hp & Ht & [Hh _]%NoDup_cons) (Hp' & Ht' & [Hh' _]%NoDup_cons).
  assert (Hu : forall xs a ys, path L a xs -> lnk L (tail_of a xs) h -> h ∉ xs ->
    path L a ys -> lnk L (tail_of a ys) h -> h ∉ ys -> xs = ys); [|by eapply Hu].
  clear. induction xs as [|x xs IH]; intros a [|y ys]; simpl; try done.
  - intros _ [E _] _ [[E' _] _] _ Hn. destruct Hn. simplify_eq. by left.
  - intros [[E _] _] _ Hn _ [E' _] _. destruct Hn. simplify_eq. by left.
  - intros [[E _] Hp] Ht Hn [[E' _] Hp'] Ht' Hn'. assert (y = x) as -> by congruence. f_equal.
    apply (IH x ys); try done; set_solver.
Qed.

Lemma rep_nodup L Q h xs : rep L Q -> Q !! h = Some xs -> NoDup (h :: xs).
Proof. intros Hr Hq. by destruct (rep_ring _ _ _ _ Hr Hq) as (_ & _ & ?). Qed.

Lemma rep_inq_no_head L Q h n : rep L Q -> inq Q h n -> Q !! n = None.
Proof.
  intros Hrep (xs & Hh & Hn). destruct (Q !! n) as [ys|] eqn:E; [|done].
  exfalso. destruct Hrep as [Hr Hd].
  assert (h = n) as -> by (apply (Hd h xs n ys n); set_solver).
  simplify_eq. destruct (Hr _ _ Hh) as (_ & _ & Hnd).
  apply NoDup_cons in Hnd as [? _]. done.
Qed.

Lemma rep_alone_loose L Q n : rep L Q -> alone Q n -> loose Q n.
Proof.
  intros Hrep Ha. split; [by right|]. intros h Hi.
  pose proof (rep_inq_no_head _ _ _ _ Hrep Hi). unfold alone in *. congruence.
Qed.

Lemma rep_dom L Q h xs m : rep L Q -> Q !! h = Some xs -> m ∈ h :: xs -> m ∈ dom L.
Proof. intros Hrep Hq. eapply ring_dom. by eapply rep_ring. Qed.

Lemma ring_frame L L' h xs :
  ring L h xs ->
  (forall m, m ∈ h :: xs -> lnext L' m = lnext L m /\ lprev L' m = lprev L m) ->
  ring L' h xs.
Proof.
  intros (Hp & [H1 H2] & Hnd) Hf. split; [|split; [split|done]].
  - eapply path_frame; [done|done| |].
    + intros m Hm _. apply Hf. done.
    + intros m Hm. apply Hf. set_solver.
  - rewrite (proj1 (Hf _ (tail_of_in h xs))). done.
  - destruct (Hf h); [set_solver|]. congruence.
Qed.

(** An update of the links around one ring, which takes [n] in or out. *)
Lemma rep_update L L' Q h xs xs' n :
  rep L Q -> Q !! h = Some xs -> (loose Q n \/ n ∈ xs) -> n <> h ->
  ring L' h xs' -> (forall m, m ∈ xs' -> m ∈ n :: xs) ->
  (forall m, m ∉ h :: n :: xs ->
     lnext L' m = lnext L m /\ lprev L' m = lprev L m) ->
  rep L' (qset h xs' n Q).
Proof.
  intros Hrep Hh Hn Hnh Hr' Hsub Hf.
  assert (Hother : forall h2 ys, h2 <> h -> qset h xs' n Q !! h2 = Some ys ->
    Q !! h2 = Some ys /\ forall m, m ∈ h2 :: ys -> m ∉ h :: n :: xs).
  { intros h2 ys Hne. rewrite lookup_qset, decide_False by done.
    case_decide as Hd; [done|]. intros (zs & Hz & ->)%fmap_Some.
    destruct Hrep as [Hr Hdj].
    assert (n ∉ zs) as Hnz.
    { intros Hnz. destruct Hn as [[_ Hl]|Hn].
      - apply (Hl h2). by exists zs.
      - apply Hne. apply (Hdj h2 zs h xs n); set_solver. }
    rewrite without_notin by done. split; [done|]. intros m Hm Hin.
    destruct (decide (m = n)) as [->|]; [set_solver|].
    apply Hne. apply (Hdj h2 zs h xs m); set_solver. }
  assert (Hone : qset h xs' n Q !! h = Some xs')
    by (rewrite lookup_qset; by rewrite decide_True).
  split.
  - intros h2 ys Hq. destruct (decide (h2 = h)) as [->|Hne].
    + simplify_eq. done.
    + destruct (Hother _ _ Hne Hq) as [Hq2 Hdis].
      eapply ring_frame; [by eapply rep_ring|]. auto.
  - intros h1 ys1 h2 ys2 m H1 H2 Hm1 Hm2.
    destruct (decide (h1 = h)) as [->|Hne1], (decide (h2 = h)) as [->|Hne2];
      [done| | |].
    + destruct (Hother _ _ Hne2 H2) as [_ Hdis]. simplify_eq.
      destruct (Hdis m Hm2). set_solver.
    + destruct (Hother _ _ Hne1 H1) as [_ Hdis]. simplify_eq.
      destruct (Hdis m Hm1). set_solver.
    + destruct (Hother _ _ Hne1 H1), (Hother _ _ Hne2 H2).
      by eapply (proj2 Hrep).
Qed.

(** *** The operations on the abstract queues *)

Lemma rep_init L Q n :
  rep L Q -> (forall h, ~ inq Q h n) -> n ∈ dom L ->
  exists L', tkmc_init_list_head n L = Some L' /\ rep L' (<[n := []]> Q) /\
    dom L' = dom L.
Proof.
  intros Hrep Hl Hdom. unfold tkmc_init_list_head.
  destruct (set_lnext_ok L n n Hdom) as [L1 E1]. rewrite E1. simpl.
  pose proof (set_lnext_dom _ _ _ _ E1) as D1.
  destruct (set_lprev_ok L1 n n) as [L2 E2]; [by rewrite D1|].
  pose proof (set_lprev_dom _ _ _ _ E2) as D2.
  exists L2. split; [done|]. split; [|congruence].
  assert (Hnx : forall m, lnext L2 m = if decide (m = n) then Some n else lnext L m).
  { intros m. rewrite (lnext_set_lprev _ _ _ _ _ E2).
    by rewrite (lnext_set_lnext _ _ _ _ _ E1). }
  assert (Hpv : forall m, lprev L2 m = if decide (m = n) then Some n else lprev L m).
  { intros m. rewrite (lprev_set_lprev _ _ _ _ _ E2).
    by rewrite (lprev_set_lnext _ _ _ _ _ E1). }
  assert (Hother : forall h xs, h <> n -> Q !! h = Some xs -> n ∉ h :: xs).
  { intros h xs Hne Hq Hin. apply (Hl h). exists xs. set_solver. }
  split.
  - intros h xs Hq. destruct (decide (h = n)) as [->|Hne].
    + rewrite lookup_insert_eq in Hq. simplify_eq. repeat split; simpl.
      * by rewrite Hnx, decide_True.
      * by rewrite Hpv, decide_True.
      * apply NoDup_singleton.
    + rewrite lookup_insert_ne in Hq by done.
      eapply ring_frame; [by eapply rep_ring|]. intros m Hm.
      rewrite Hnx, Hpv, !decide_False; [done|..]; intros ->;
        by eapply Hother.
  - intros h1 ys1 h2 ys2 m H1 H2 Hm1 Hm2.
    destruct (decide (h1 = n)) as [->|Hne1], (decide (h2 = n)) as [->|Hne2];
      [done| | |].
    + rewrite lookup_insert_eq in H1. rewrite lookup_insert_ne in H2 by done.
      simplify_eq. pose proof (Hother _ _ Hne2 H2). set_solver.
    + rewrite lookup_insert_eq in H2. rewrite lookup_insert_ne in H1 by done.
      simplify_eq. pose proof (Hother _ _ Hne1 H1). set_solver.
    + rewrite lookup_insert_ne in H1, H2 by done.
      by eapply (proj2 Hrep h1 ys1 h2 ys2 m).
Qed.

(** The links of a node on no list are overwritten. *)
Lemma rep_forget L Q n a b :
  rep L Q -> (forall h, ~ inq Q h n) -> n ∈ dom L ->
  exists L1 L2, set_lnext n a L = Some L1 /\ set_lprev n b L1 = Some L2 /\
    rep L2 (delete n Q) /\ dom L2 = dom L.
Proof.
  intros Hrep Hl Hdom. destruct (set_lnext_ok L n a Hdom) as [L1 E1].
  pose proof (set_lnext_dom _ _ _ _ E1) as D1.
  destruct (set_lprev_ok L1 n b) as [L2 E2]; [by rewrite D1|].
  pose proof (set_lprev_dom _ _ _ _ E2) as D2.
  exists L1, L2. split; [done|]. split; [done|]. split; [|congruence].
  assert (Hsub : forall h xs, delete n Q !! h = Some xs -> Q !! h = Some xs /\ h <> n).
  { intros h xs Hd. by apply lookup_delete_Some in Hd as [? ?]. }
  split.
  - intros h xs [Hq Hne]%Hsub. eapply ring_frame; [by eapply rep_ring|].
    intros m Hm. assert (m <> n).
    { intros ->. apply elem_of_cons in Hm as [->|Hm]; [done|]. apply (Hl h). by exists xs. }
    rewrite (lnext_set_lprev _ _ _ _ _ E2), (lnext_set_lnext _ _ _ _ _ E1), decide_False by done.
    rewrite (lprev_set_lprev _ _ _ _ _ E2), (lprev_set_lnext _ _ _ _ _ E1), decide_False by done.
    done.
  - intros h1 xs1 h2 xs2 m [H1 _]%Hsub [H2 _]%Hsub. by apply (proj2 Hrep).
Qed.

Lemma rep_empty L Q h xs :
  rep L Q -> Q !! h = Some xs ->
  tkmc_list_empty h L = Some (bool_decide (xs = [])).
Proof.
  intros Hrep Hq. destruct (rep_ring _ _ _ _ Hrep Hq) as (Hp & [Hl _] & Hnd).
  unfold tkmc_list_empty. destruct xs as [|x xs]; simpl in *.
  - rewrite Hl. simpl. by rewrite !bool_decide_true.
  - destruct Hp as [[-> _] _]. simpl. rewrite !bool_decide_false; [done..|].
    intros ->. apply NoDup_cons in Hnd as [Hn _]. set_solver.
Qed.

(** The node after [x], and the one before it, on the ring of [h]. *)
Lemma rep_next L Q h xs x ys :
  rep L Q -> Q !! h = Some (xs ++ x :: ys) ->
  lnext L x = Some (default h (head ys)).
Proof.
  intros Hrep Hq. destruct (rep_ring _ _ _ _ Hrep Hq) as (Hp & [Hl _] & _).
  apply path_app in Hp as (_ & _ & Hp). rewrite tail_of_app in Hl.
  destruct ys as [|y ys]; simpl in *; [done|]. by destruct Hp as [[? _] _].
Qed.

Lemma rep_first L Q h xs :
  rep L Q -> Q !! h = Some xs -> lnext L h = Some (default h (head xs)).
Proof.
  intros Hrep Hq. destruct (rep_ring _ _ _ _ Hrep Hq) as (Hp & [Hl _] & _).
  destruct xs as [|y ys]; simpl in *; [done|]. by destruct Hp as [[? _] _].
Qed.

Lemma rep_prev L Q h xs x ys :
  rep L Q -> Q !! h = Some (xs ++ x :: ys) ->
  lprev L x = Some (tail_of h xs).
Proof.
  intros Hrep Hq. destruct (rep_ring _ _ _ _ Hrep Hq) as (Hp & _ & _).
  by apply path_app in Hp as (_ & [_ ?] & _).
Qed.

Lemma rep_last L Q h xs :
  rep L Q -> Q !! h = Some xs -> lprev L h = Some (tail_of h xs).
Proof.
  intros Hrep Hq. by destruct (rep_ring _ _ _ _ Hrep Hq) as (_ & [_ ?] & _).
Qed.

Lemma list_del_links L n prev next :
  lprev L n = Some prev -> lnext L n = Some next ->
  prev ∈ dom L -> next ∈ dom L ->
  exists L', tkmc_list_del poison n L = Some L' /\ dom L' = dom L /\
    (forall m, lnext L' m = if decide (m = n) then Some poison
                            else if decide (m = prev) then Some next
                            else lnext L m) /\
    (forall m, lprev L' m = if decide (m = n) then Some poison
                            else if decide (m = next) then Some prev
                            else lprev L m).
Proof.
  intros Hp Hn Dp Dn. unfold tkmc_list_del. rewrite Hp, Hn. simpl.
  pose proof (lprev_dom _ _ _ Hp) as D.
  destruct (set_lnext_ok L prev next Dp) as [L1 E1]. rewrite E1. simpl.
  pose proof (set_lnext_dom _ _ _ _ E1) as D1.
  destruct (set_lprev_ok L1 next prev) as [L2 E2]; [congruence|]. rewrite E2. simpl.
  pose proof (set_lprev_dom _ _ _ _ E2) as D2.
  destruct (set_lprev_ok L2 n poison) as [L3 E3]; [congruence|]. rewrite E3. simpl.
  pose proof (set_lprev_dom _ _ _ _ E3) as D3.
  destruct (set_lnext_ok L3 n poison) as [L4 E4]; [congruence|]. rewrite E4.
  pose proof (set_lnext_dom _ _ _ _ E4) as D4.
  exists L4. split; [done|]. split; [congruence|]. split; intros m.
  - rewrite (lnext_set_lnext _ _ _ _ _ E4), (lnext_set_lprev _ _ _ _ _ E3),
      (lnext_set_lprev _ _ _ _ _ E2), (lnext_set_lnext _ _ _ _ _ E1). done.
  - rewrite (lprev_set_lnext _ _ _ _ _ E4), (lprev_set_lprev _ _ _ _ _ E3),
      (lprev_set_lprev _ _ _ _ _ E2), (lprev_set_lnext _ _ _ _ _ E1). done.
Qed.

Lemma list_add_links L new prev next :
  new ∈ dom L -> prev ∈ dom L -> next ∈ dom L ->
  exists L', tkmc_list_add_between new prev next L = Some L' /\ dom L' = dom L /\
    (forall m, lnext L' m = if decide (m = prev) then Some new
                            else if decide (m = new) then Some next
                            else lnext L m) /\
    (forall m, lprev L' m = if decide (m = new) then Some prev
                            else if decide (m = next) then Some new
                            else lprev L m).
Proof.
  intros D Dp Dn. unfold tkmc_list_add_between.
  destruct (set_lprev_ok L next new Dn) as [L1 E1]. rewrite E1. simpl.
  pose proof (set_lprev_dom _ _ _ _ E1) as D1.
  destruct (set_lnext_ok L1 new next) as [L2 E2]; [congruence|]. rewrite E2. simpl.
  pose proof (set_lnext_dom _ _ _ _ E2) as D2.
  destruct (set_lprev_ok L2 new prev) as [L3 E3]; [congruence|]. rewrite E3. simpl.
  pose proof (set_lprev_dom _ _ _ _ E3) as D3.
  destruct (set_lnext_ok L3 prev new) as [L4 E4]; [congruence|]. rewrite E4.
  pose proof (set_lnext_dom _ _ _ _ E4) as D4.
  exists L4. split; [done|]. split; [congruence|]. split; intros m.
  - rewrite (lnext_set_lnext _ _ _ _ _ E4), (lnext_set_lprev _ _ _ _ _ E3),
      (lnext_set_lnext _ _ _ _ _ E2), (lnext_set_lprev _ _ _ _ _ E1). done.
  - rewrite (lprev_set_lnext _ _ _ _ _ E4), (lprev_set_lprev _ _ _ _ _ E3),
      (lprev_set_lnext _ _ _ _ _ E2), (lprev_set_lprev _ _ _ _ _ E1). done.
Qed.

Lemma nodup_split h xs n ys :
  NoDup (h :: xs ++ n :: ys) ->
  NoDup (h :: xs) /\ NoDup (n :: ys) /\
  forall a b, a ∈ h :: xs -> b ∈ n :: ys -> a <> b.
Proof.
  rewrite app_comm_cons. intros (H1 & H2 & H3)%NoDup_app.
  split; [done|]. split; [done|]. intros a b Ha Hb ->. by eapply H2.
Qed.

Lemma ring_del L L' h xs n ys :
  let p := tail_of h xs in let s := default h (head ys) in
  ring L h (xs ++ n :: ys) ->
  (forall m, lnext L' m = if decide (m = n) then Some poison
                          else if decide (m = p) then Some s else lnext L m) ->
  (forall m, lprev L' m = if decide (m = n) then Some poison
                          else if decide (m = s) then Some p else lprev L m) ->
  ring L' h (xs ++ ys).
Proof.
  intros p s (Hp & [Hl1 Hl2] & Hnd) Hn Hv.
  apply path_app in Hp as (Hp1 & _ & Hp2). rewrite tail_of_app in Hl1, Hl2.
  destruct (nodup_split _ _ _ _ Hnd) as (Nd1 & Nd2 & Hdis).
  pose proof (tail_of_in h xs) as Hpin. fold p in Hpin.
  assert (Hhn : h <> n) by (apply Hdis; set_solver).
  assert (Hpath : (forall m, m ∈ xs -> m <> s) -> path L' h xs).
  { intros Hs. eapply path_frame; [done|done| |].
    - intros m Hm Hmp. rewrite Hn, !decide_False; [done|done|].
      apply Hdis; set_solver.
    - intros m Hm. rewrite Hv, !decide_False; [done|by apply Hs|].
      apply Hdis; set_solver. }
  assert (Hps : lnext L' p = Some s).
  { rewrite Hn, decide_False, decide_True; [done|done|]. apply Hdis; set_solver. }
  assert (Hsp : s <> n -> lprev L' s = Some p).
  { intros Hsn. by rewrite Hv, decide_False, decide_True. }
  destruct ys as [|y ys]; simpl in *; subst s.
  - rewrite app_nil_r. repeat split; [|done|by apply Hsp|done].
    apply Hpath. intros m Hm ->. apply NoDup_cons in Nd1 as [? _]. done.
  - apply NoDup_cons in Nd2 as [Hny Nd2].
    assert (Hyn : y <> n) by set_solver.
    pose proof (tail_of_in y ys) as Hz.
    split; [|split].
    + apply path_app. split; [apply Hpath|split; [split; auto|]].
      { intros m Hm. apply Hdis; set_solver. }
      destruct Hp2 as [_ Hp2].
      eapply path_frame; [done|done| |].
      * intros m Hm _. rewrite Hn, !decide_False; [done| |set_solver].
        intros ->. apply (Hdis p p Hpin); [set_solver|done].
      * intros m Hm. rewrite Hv, !decide_False; [done| |set_solver].
        intros ->. apply NoDup_cons in Nd2 as [? _]. done.
    + rewrite tail_of_app. split.
      * rewrite Hn, !decide_False; [done| |intros E; congruence].
        intros E. rewrite E in Hz. apply (Hdis p p Hpin); [set_solver|done].
      * rewrite Hv, !decide_False; [done| |done]. apply Hdis; set_solver.
    + rewrite app_comm_cons. rewrite app_comm_cons in Hnd.
      apply NoDup_app in Hnd as (? & Hd & [_ ?]%NoDup_cons).
      apply NoDup_app. split; [done|]. split; [|done]. set_solver.
Qed.

Lemma nodup_insert (h n : A) xs ys : NoDup (h :: xs ++ ys) -> n ∉ h :: xs ++ ys ->
  NoDup (h :: xs ++ n :: ys).
Proof.
  rewrite !app_comm_cons. intros (? & ? & ?)%NoDup_app Hnew.
  apply NoDup_app. split; [done|]. split; [set_solver|].
  apply NoDup_cons. split; [set_solver|done].
Qed.

Lemma ring_add L L' h xs n ys :
  let p := tail_of h xs in let s := default h (head ys) in
  ring L h (xs ++ ys) -> n ∉ h :: xs ++ ys ->
  (forall m, lnext L' m = if decide (m = p) then Some n
                          else if decide (m = n) then Some s else lnext L m) ->
  (forall m, lprev L' m = if decide (m = n) then Some p
                          else if decide (m = s) then Some n else lprev L m) ->
  ring L' h (xs ++ n :: ys).
Proof.
  intros p s (Hp & [Hl1 Hl2] & Hnd) Hnew Hn Hv.
  pose proof (tail_of_in h xs) as Hpin. fold p in Hpin.
  pose proof (nodup_insert h n xs ys Hnd Hnew) as Hnd'.
  destruct (nodup_split _ _ _ _ Hnd') as (Nd1 & Nd2 & Hdis).
  apply NoDup_cons in Nd2 as [Hny Nd2].
  assert (Hpn : p <> n) by (apply Hdis; set_solver).
  assert (Hhn : h <> n) by set_solver.
  assert (Hpath : path L h xs -> (forall m, m ∈ xs -> m <> s) -> path L' h xs).
  { intros Hp1 Hs. eapply path_frame; [done|done| |].
    - intros m Hm Hmp. rewrite Hn, !decide_False; [done| |done].
      apply Hdis; set_solver.
    - intros m Hm. rewrite Hv, !decide_False; [done|by apply Hs|].
      apply Hdis; set_solver. }
  assert (Hpn' : lnk L' p n).
  { split; [by rewrite Hn, decide_True|by rewrite Hv, decide_True]. }
  destruct ys as [|y ys]; simpl in *; subst s.
  - rewrite app_nil_r in *. split; [|split; [split|done]].
    + apply path_app. split; [|done]. apply Hpath; [done|].
      intros m Hm ->. apply NoDup_cons in Nd1 as [? _]. done.
    + rewrite tail_of_app. simpl. rewrite Hn, decide_False, decide_True; done.
    + rewrite tail_of_app. simpl. rewrite Hv, decide_False, decide_True; done.
  - apply path_app in Hp as (Hp1 & _ & Hp2).
    rewrite tail_of_app in Hl1, Hl2. pose proof (tail_of_in y ys) as Hz.
    assert (Hyn : y <> n) by set_solver.
    split; [|split; [split|done]].
    + apply path_app. split; [apply Hpath; [done|]|split; [done|]].
      { intros m Hm. apply Hdis; set_solver. }
      simpl. split; [split|].
      * rewrite Hn, decide_False, decide_True; [done|done|congruence].
      * rewrite Hv, decide_False, decide_True; done.
      * eapply path_frame; [done|done| |].
        -- intros m Hm _. rewrite Hn, !decide_False; [done|set_solver|].
           intros ->. apply (Hdis p p Hpin); [set_solver|done].
        -- intros m Hm. rewrite Hv, !decide_False; [done| |set_solver].
           intros ->. apply NoDup_cons in Nd2 as [? _]. done.
    + rewrite tail_of_app. simpl. rewrite Hn, !decide_False; [done| |].
      * intros E. rewrite E in Hz. done.
      * intros E. rewrite E in Hz. apply (Hdis p p Hpin); [set_solver|done].
    + rewrite tail_of_app. simpl. rewrite Hv, !decide_False; [done| |done].
      apply Hdis; set_solver.
Qed.

Lemma default_head_in h ys : default h (head ys) ∈ h :: ys.
Proof. destruct ys; set_solver. Qed.

Lemma rep_del L Q h n :
  rep L Q -> inq Q h n ->
  exists L', tkmc_list_del poison n L = Some L' /\ rep L' (qrm n Q) /\
    dom L' = dom L.
Proof.
  intros Hrep Hin. pose proof (rep_inq_no_head _ _ _ _ Hrep Hin) as Hno.
  destruct Hin as (zs & Hh & Hn).
  assert (Hnh : n <> h) by congruence.
  apply list_elem_of_split in Hn as (xs & ys & ->).
  pose proof (rep_prev _ _ _ _ _ _ Hrep Hh) as Hp.
  pose proof (rep_next _ _ _ _ _ _ Hrep Hh) as Hx.
  pose proof (tail_of_in h xs) as Hpi. pose proof (default_head_in h ys) as Hsi.
  destruct (list_del_links L n _ _ Hp Hx) as (L' & E & D & F1 & F2).
  { eapply rep_dom; [done..|]. set_solver. }
  { eapply rep_dom; [done..|]. set_solver. }
  exists L'. split; [done|]. split; [|done].
  pose proof (rep_ring _ _ _ _ Hrep Hh) as Hring.
  pose proof (ring_del _ _ _ _ _ _ Hring F1 F2) as Hring'.
  replace (qrm n Q) with (qset h (xs ++ ys) n Q).
  - eapply (rep_update L L' Q h (xs ++ n :: ys) (xs ++ ys) n);
      [done..|right; set_solver|done|done|set_solver|].
    intros m Hm. rewrite F1, F2, !decide_False; set_solver.
  - apply map_eq. intros k. rewrite lookup_qset, lookup_qrm.
    destruct (decide (k = h)) as [->|]; [|done].
    rewrite decide_False, Hh by done. simpl. rewrite without_split; [done|].
    by destruct Hring as (_ & _ & [_ ?]%NoDup_cons).
Qed.

Lemma rep_add_between L Q h n xs ys :
  rep L Q -> Q !! h = Some (xs ++ ys) -> loose Q n -> n <> h -> n ∈ dom L ->
  exists L',
    tkmc_list_add_between n (tail_of h xs) (default h (head ys)) L = Some L' /\
    rep L' (qset h (xs ++ n :: ys) n Q) /\ dom L' = dom L.
Proof.
  intros Hrep Hh Hl Hnh Hdom.
  pose proof (tail_of_in h xs) as Hpi. pose proof (default_head_in h ys) as Hsi.
  destruct (list_add_links L n (tail_of h xs) (default h (head ys)) Hdom)
    as (L' & E & D & F1 & F2).
  { eapply rep_dom; [done..|]. set_solver. }
  { eapply rep_dom; [done..|]. set_solver. }
  exists L'. split; [done|]. split; [|done].
  pose proof (rep_ring _ _ _ _ Hrep Hh) as Hring.
  assert (n ∉ h :: xs ++ ys) as Hni.
  { intros Hi. apply (proj2 Hl h). exists (xs ++ ys). set_solver. }
  eapply rep_update; [done|done|by left|done| |set_solver|].
  - eapply ring_add; done.
  - intros m Hm. rewrite F1, F2, !decide_False; set_solver.
Qed.

Lemma rep_add_tail L Q h n xs :
  rep L Q -> Q !! h = Some xs -> loose Q n -> n <> h -> n ∈ dom L ->
  exists L', tkmc_list_add_tail n h L = Some L' /\ rep L' (qpush h n Q) /\
    dom L' = dom L.
Proof.
  intros Hrep Hh Hl Hnh Hdom. unfold tkmc_list_add_tail, qpush.
  rewrite (rep_last _ _ _ _ Hrep Hh), Hh. simpl.
  apply (rep_add_between L Q h n xs []); try done. by rewrite app_nil_r.
Qed.

(** [tkmc_list_add] behind the node before [x] puts [n] before [x]. *)
Lemma rep_add_before L Q h n xs x ys :
  rep L Q -> Q !! h = Some (xs ++ x :: ys) -> loose Q n -> n <> h -> n ∈ dom L ->
  exists p L', lprev L x = Some p /\ tkmc_list_add n p L = Some L' /\
    rep L' (qset h (xs ++ n :: x :: ys) n Q) /\ dom L' = dom L.
Proof.
  intros Hrep Hh Hl Hnh Hdom. exists (tail_of h xs).
  destruct (rep_add_between L Q h n xs (x :: ys)) as (L' & E & HL); try done.
  exists L'. split; [by eapply rep_prev|]. split; [|done].
  destruct (rep_ring _ _ _ _ Hrep Hh) as (Hp & _ & _).
  apply path_app in Hp as (_ & [Hx _] & _).
  unfold tkmc_list_add. by rewrite Hx.
Qed.

(** A ring is no longer than the heap is large: the bound on every walk. *)
Lemma rep_length L Q h xs :
  rep L Q -> Q !! h = Some xs -> (length xs < size L)%nat.
Proof.
  intros Hrep Hh. pose proof (rep_nodup _ _ _ _ Hrep Hh) as Hnd.
  rewrite <- size_dom. change (S (length xs) <= size (dom L))%nat.
  change (S (length xs)) with (length (h :: xs)).
  rewrite <- (size_list_to_set (C := gset A)) by done.
  apply subseteq_size. intros m Hm%elem_of_list_to_set.
  by eapply rep_dom.
Qed.

(** *** Where a node is, after an update *)

Lemma inq_qrm Q n h m : inq (qrm n Q) h m <-> h <> n /\ m <> n /\ inq Q h m.
Proof.
  unfold inq. split.
  - intros (xs & Hx & Hm). rewrite lookup_qrm in Hx. case_decide; [done|].
    apply fmap_Some in Hx as (ys & Hy & ->).
    apply elem_of_without in Hm as [? ?]. eauto.
  - intros (Hh & Hm & ys & Hy & Hi). exists (without n ys).
    rewrite lookup_qrm, decide_False, Hy by done. by rewrite elem_of_without.
Qed.

Lemma inq_qset Q n hd xs h m :
  inq (qset hd xs n Q) h m <->
  (h = hd /\ m ∈ xs) \/ (h <> hd /\ h <> n /\ m <> n /\ inq Q h m).
Proof.
  unfold qset. destruct (decide (h = hd)) as [->|Hne].
  - unfold inq. rewrite lookup_insert_eq. naive_solver.
  - rewrite <- (inq_qrm Q n h m). unfold inq at 1.
    rewrite lookup_insert_ne by done. unfold inq. naive_solver.
Qed.

Lemma alone_qrm Q n m : m <> n -> alone Q m -> alone (qrm n Q) m.
Proof. unfold alone. intros Hne Ha. by rewrite lookup_qrm, decide_False, Ha. Qed.

Lemma alone_qset Q n hd xs m :
  m <> n -> m <> hd -> alone Q m -> alone (qset hd xs n Q) m.
Proof.
  unfold alone. intros Hne Hh Ha. by rewrite lookup_qset, !decide_False, Ha.
Qed.

Lemma loose_qrm L Q h n : rep L Q -> inq Q h n -> loose (qrm n Q) n.
Proof.
  intros Hrep Hin. split.
  - left. by rewrite lookup_qrm, decide_True.
  - intros h' (_ & ? & _)%inq_qrm. done.
Qed.
End rings.
