(* ===== verification/Tkernel.v ===== *)
(** * Types and constants of the API

    [src/include/tk/tkernel.h], [src/include/tk/errno.h],
    [src/include/sys/config.h], [src/include/sys/profile.h],
    [src/kernel/object_id.h] and the CLINT part of
    [src/kernel/asm/rv32/address.h]. The typedefs of [src/typedef.h.in] are the
    machine integers of the prelude. *)

From S2P Require Import Prelude.

Open Scope Z_scope.

(** ** errno.h *)

Definition MERCD (er : Z) : Z := Z.shiftr er 16.
Definition SERCD (er : Z) : Z := i16 (u32 er mod 65536).
Definition ERCD (mer ser : Z) : Z := mer * 65536 + u16 ser.

Definition E_OK := ERCD 0 0.
Definition E_SYS := ERCD (-5) 0.
Definition E_NOCOP := ERCD (-6) 0.
Definition E_NOSPT := ERCD (-9) 0.
Definition E_RSFN := ERCD (-10) 0.
Definition E_RSATR := ERCD (-11) 0.
Definition E_PAR := ERCD (-17) 0.
Definition E_ID := ERCD (-18) 0.
Definition E_CTX := ERCD (-25) 0.
Definition E_MACV := ERCD (-26) 0.
Definition E_OACV := ERCD (-27) 0.
Definition E_ILUSE := ERCD (-28) 0.
Definition E_NOMEM := ERCD (-33) 0.
Definition E_LIMIT := ERCD (-34) 0.
Definition E_OBJ := ERCD (-41) 0.
Definition E_NOEXS := ERCD (-42) 0.
Definition E_QOVR := ERCD (-43) 0.
Definition E_RLWAI := ERCD (-49) 0.
Definition E_TMOUT := ERCD (-50) 0.
Definition E_DLT := ERCD (-51) 0.
Definition E_DISWAI := ERCD (-52) 0.
Definition E_IO := ERCD (-57) 0.
Definition E_NOMDA := ERCD (-58) 0.
Definition E_BUSY := ERCD (-65) 0.
Definition E_ABORT := ERCD (-66) 0.
Definition E_RONLY := ERCD (-67) 0.

Definition error_codes : list Z :=
  [E_OK; E_SYS; E_NOCOP; E_NOSPT; E_RSFN; E_RSATR; E_PAR; E_ID; E_CTX; E_MACV;
   E_OACV; E_ILUSE; E_NOMEM; E_LIMIT; E_OBJ; E_NOEXS; E_QOVR; E_RLWAI; E_TMOUT;
   E_DLT; E_DISWAI; E_IO; E_NOMDA; E_BUSY; E_ABORT; E_RONLY].

(** ** tkernel.h *)

Definition TA_ASM := 0x0.
Definition TA_HLNG := 0x1.
Definition TA_USERBUF := 0x20.
Definition TA_RNG0 := 0x0.
Definition TA_RNG1 := 0x100.
Definition TA_RNG2 := 0x200.
Definition TA_RNG3 := 0x300.

Definition TA_TFIFO := 0x0.
Definition TA_TPRI := 0x1.
Definition TA_WSGL := 0x0.
Definition TA_WMUL := 0x8.
Definition TA_FIRST := 0x0.
Definition TA_CNT := 0x2.
Definition TA_MFIFO := 0x0.
Definition TA_MPRI := 0x2.

Definition TTS_NOEXS := 0x0.
Definition TTS_RUN := 0x1.
Definition TTS_RDY := 0x2.
Definition TTS_WAI := 0x4.
Definition TTS_DMT := 0x10.

Definition TTW_SLP := 0x1.
Definition TTW_DLY := 0x2.
Definition TTW_SEM := 0x4.
Definition TTW_FLG := 0x8.
Definition TTW_MBX := 0x40.

Definition TWF_ANDW := 0x00.
Definition TWF_ORW := 0x01.
Definition TWF_CLR := 0x10.
Definition TWF_BITCLR := 0x20.

Definition TMO_POL := 0.
Definition TMO_FEVR := -1.

(** ** config.h and profile.h *)

Definition CFN_MAX_PRI := 16.
Definition CFN_MAX_TSKID := 32.
Definition CFN_MAX_SEMID := 16.
Definition CFN_MAX_FLGID := 16.
Definition CFN_MAX_MBXID := 8.
Definition TK_WAKEUP_MAXCNT := 4095.
Definition TK_SEMAPHORE_MAXCNT := 32767.

(** ** Function pointers

    Where the linker puts a function is outside the source, so an address in
    the text segment is a symbol: an entry point of the kernel or of the
    application. [None] is NULL. *)

Inductive text : Type :=
  | F_tk_ext_tsk
  | F_tkmc_ini_tsk
  | F_tkmc_idl_tsk
  | F_user (a : Z).

#[export] Instance text_eq_dec : EqDecision text.
Proof. solve_decision. Defined.

Abbreviation FP := (option text).

(** ** Packets of the creation calls *)

Record T_CTSK := mk_T_CTSK {
  ct_exinf : Z;
  tskatr : Z;
  ct_task : FP;
  ct_itskpri : Z;
  stksz : Z;
  bufptr : Z;
}.

Record T_CFLG := mk_T_CFLG { cf_exinf : Z; cf_flgatr : Z; iflgptn : Z }.
Record T_CSEM := mk_T_CSEM {
  cs_exinf : Z; cs_sematr : Z; cs_isemcnt : Z; cs_maxsem : Z }.
Record T_CMBX := mk_T_CMBX { cm_exinf : Z; cm_mbxatr : Z }.

(** ** object_id.h *)

Definition tkmc_id_in_range (id max : Z) : bool :=
  bool_decide (1 <= id) && bool_decide (id <= max).

(** ** address.h: the CLINT *)

Definition CLINT_BASE_ADDRESS := 0x2000000.
Definition CLINT_MSIP_OFFSET := 0x0.
Definition CLINT_MTIMECMP_OFFSET := 0x4000.
Definition CLINT_MTIME_OFFSET := 0xBFF8.
Definition CLINT_MSIP_ADDRESS := CLINT_BASE_ADDRESS + CLINT_MSIP_OFFSET.
Definition CLINT_MTIME_ADDRESS := CLINT_BASE_ADDRESS + CLINT_MTIME_OFFSET.
Definition CLINT_MTIMECMP_ADDRESS := CLINT_BASE_ADDRESS + CLINT_MTIMECMP_OFFSET.

(** ** address.h: the PLIC, and the interrupt numbers of config.h *)

Definition PLIC_BASE_ADDRESS := 0xC000000.
Definition PLIC_PRIORITY_OFFSET := 0x0.
Definition PLIC_ENABLE_OFFSET := 0x2000.
Definition PLIC_THRESHOLD_OFFSET := 0x200000.
Definition PLIC_CLAIM_OFFSET := 0x200004.
Definition PLIC_SOURCE_COUNT := 96.
Definition PLIC_MAX_PRIORITY := 7.
Definition CFN_MAX_INTNO := 32.

Record T_DINT := mk_T_DINT { intatr : Z; inthdr : FP }.

(** ** Properties *)

Lemma id_in_range_spec id max :
  tkmc_id_in_range id max = true <-> 1 <= id <= max.
Proof. unfold tkmc_id_in_range. rewrite andb_true_iff, !bool_decide_eq_true. lia. Qed.

(** A main code and a sub code come apart again. *)
Lemma ercd_roundtrip mer ser : MERCD (ERCD mer ser) = mer /\ SERCD (ERCD mer ser) = i16 ser.
Proof.
  assert (Hu : 0 <= u16 ser < 2 ^ 16) by (apply Z.mod_pos_bound; lia).
  unfold MERCD, SERCD, ERCD. rewrite Z.shiftr_div_pow2 by lia. split.
  - change (2 ^ 16) with 65536 in *. rewrite Z.div_add_l by lia. rewrite Z.div_small; lia.
  - assert (E : u32 (mer * 65536 + u16 ser) mod 65536 = u16 ser).
    { unfold u32. rewrite Z.mod_mod_divide by (by exists 65536).
      rewrite Z.add_comm, Z.mod_add by lia. by apply Z.mod_small. }
    rewrite E. unfold i16. assert (Eu : u16 (u16 ser) = u16 ser) by (by apply Z.mod_small).
    by rewrite Eu.
Qed.

(** The codes differ, have no sub code, and all but E_OK are negative. *)
Lemma error_codes_distinct : NoDup error_codes /\
  Forall (fun e => SERCD e = 0 /\ (e = E_OK \/ e < 0)) error_codes.
Proof. split; apply (bool_decide_unpack _); by vm_compute. Qed.
