(* ===== verification/Kernel.v ===== *)
(** * The kernel's state and the machine around it

    The control blocks ([src/kernel/task.h], [semaphore.h], [event_flag.h],
    [mailbox.h]), the global variables of the kernel's C files as one record,
    the interrupt flag and its macros ([src/include/sys/interrupt.h]), the
    CLINT registers behind [src/include/sys/ioport.h], and the context checks
    of [src/kernel/context.h] and [dispatch.h].

    A pointer to a control block is the index of its table entry. The list
    nodes live in one heap of links; the address of a node is a value of
    [link], so [container_of] is a match on it. *)

From S2P Require Import Prelude DList Tkernel.

Open Scope Z_scope.

(** ** Addresses of list nodes *)

Inductive link : Type :=
  | LNull                (** NULL *)
  | LPoison              (** 0xdeadbeef *)
  | LFreeTcb             (** &tkmc_free_tcb *)
  | LFreeSem             (** &tkmc_free_semcb *)
  | LFreeFlg             (** &tkmc_free_flbcb *)
  | LFreeMbx             (** &tkmc_free_mbxcb *)
  | LTimer               (** &tkmc_timer_queue *)
  | LReady (i : Z)       (** &tkmc_ready_queue[i] *)
  | LHead (t : Z)        (** &tkmc_tcbs[t].head *)
  | LWait (t : Z)        (** &tkmc_tcbs[t].winfo.wait_queue *)
  | LSem (s : Z)         (** &tkmc_semcbs[s].wait_queue *)
  | LFlg (f : Z)         (** &tkmc_flgcbs[f].wait_queue *)
  | LMbx (m : Z)         (** &tkmc_mbxcbs[m].wait_queue *)
  | LMbxq (m : Z)        (** &tkmc_mbxcbs[m].mbx_queue *)
  | LMsg (a : Z).        (** &((T_MSG * )a)->list *)

#[export] Instance link_eq_dec : EqDecision link.
Proof. solve_decision. Defined.

Definition link_code (l : link) : Z * Z :=
  match l with
  | LNull => (0, 0) | LPoison => (0, 1) | LFreeTcb => (0, 2)
  | LFreeSem => (0, 3) | LFreeFlg => (0, 4) | LFreeMbx => (0, 5)
  | LTimer => (0, 6) | LReady i => (1, i) | LHead t => (2, t)
  | LWait t => (3, t) | LSem s => (4, s) | LFlg f => (5, f)
  | LMbx m => (6, m) | LMbxq m => (7, m) | LMsg a => (8, a)
  end.

Definition link_decode (c : Z * Z) : option link :=
  match c with
  | (0, 0) => Some LNull | (0, 1) => Some LPoison | (0, 2) => Some LFreeTcb
  | (0, 3) => Some LFreeSem | (0, 4) => Some LFreeFlg | (0, 5) => Some LFreeMbx
  | (0, 6) => Some LTimer | (1, i) => Some (LReady i) | (2, t) => Some (LHead t)
  | (3, t) => Some (LWait t) | (4, s) => Some (LSem s) | (5, f) => Some (LFlg f)
  | (6, m) => Some (LMbx m) | (7, m) => Some (LMbxq m) | (8, a) => Some (LMsg a)
  | _ => None
  end.

#[export] Instance link_countable : Countable link.
Proof. apply (inj_countable link_code link_decode). by intros []. Defined.

(** ** Control blocks *)

(** The union of [WaitInfo]: which member was written last. A read of another
    member is undefined. [WInfoZero] is what [memset] leaves. *)
Inductive WaitInfo : Type :=
  | WInfoZero
  | WEventFlag (waiptn wfmode flgptn : Z)
  | WSemaphore (semcnt semcb : Z)
  | WMailbox (msg : Z).

(** A word of RAM: a number, or the address of a function. *)
Inductive cell : Type :=
  | CWord (z : Z)
  | CText (f : text).

#[export] Instance cell_eq_dec : EqDecision cell.
Proof. solve_decision. Defined.

(** [TCB]; its two list nodes are in the heap of links. *)
Record TCB := mk_TCB {
  tskid : Z;
  itskpri : Z;
  tskstat : Z;
  tskwait : Z;
  sp : Z;
  initial_sp : Z;
  task : FP;
  exinf : Z;
  delay_ticks : Z;
  wupcause : Z;
  wupcnt : Z;
  winfo : WaitInfo;
}.

Definition set_tskid (v : Z) (r : TCB) : TCB :=
  mk_TCB v (itskpri r) (tskstat r) (tskwait r) (sp r) (initial_sp r) (task r) (exinf r) (delay_ticks r) (wupcause r) (wupcnt r) (winfo r).
Definition set_itskpri (v : Z) (r : TCB) : TCB :=
  mk_TCB (tskid r) v (tskstat r) (tskwait r) (sp r) (initial_sp r) (task r) (exinf r) (delay_ticks r) (wupcause r) (wupcnt r) (winfo r).
Definition set_tskstat (v : Z) (r : TCB) : TCB :=
  mk_TCB (tskid r) (itskpri r) v (tskwait r) (sp r) (initial_sp r) (task r) (exinf r) (delay_ticks r) (wupcause r) (wupcnt r) (winfo r).
Definition set_tskwait (v : Z) (r : TCB) : TCB :=
  mk_TCB (tskid r) (itskpri r) (tskstat r) v (sp r) (initial_sp r) (task r) (exinf r) (delay_ticks r) (wupcause r) (wupcnt r) (winfo r).
Definition set_sp (v : Z) (r : TCB) : TCB :=
  mk_TCB (tskid r) (itskpri r) (tskstat r) (tskwait r) v (initial_sp r) (task r) (exinf r) (delay_ticks r) (wupcause r) (wupcnt r) (winfo r).
Definition set_initial_sp (v : Z) (r : TCB) : TCB :=
  mk_TCB (tskid r) (itskpri r) (tskstat r) (tskwait r) (sp r) v (task r) (exinf r) (delay_ticks r) (wupcause r) (wupcnt r) (winfo r).
Definition set_task (v : FP) (r : TCB) : TCB :=
  mk_TCB (tskid r) (itskpri r) (tskstat r) (tskwait r) (sp r) (initial_sp r) v (exinf r) (delay_ticks r) (wupcause r) (wupcnt r) (winfo r).
Definition set_exinf (v : Z) (r : TCB) : TCB :=
  mk_TCB (tskid r) (itskpri r) (tskstat r) (tskwait r) (sp r) (initial_sp r) (task r) v (delay_ticks r) (wupcause r) (wupcnt r) (winfo r).
Definition set_delay_ticks (v : Z) (r : TCB) : TCB :=
  mk_TCB (tskid r) (itskpri r) (tskstat r) (tskwait r) (sp r) (initial_sp r) (task r) (exinf r) v (wupcause r) (wupcnt r) (winfo r).
Definition set_wupcause (v : Z) (r : TCB) : TCB :=
  mk_TCB (tskid r) (itskpri r) (tskstat r) (tskwait r) (sp r) (initial_sp r) (task r) (exinf r) (delay_ticks r) v (wupcnt r) (winfo r).
Definition set_wupcnt (v : Z) (r : TCB) : TCB :=
  mk_TCB (tskid r) (itskpri r) (tskstat r) (tskwait r) (sp r) (initial_sp r) (task r) (exinf r) (delay_ticks r) (wupcause r) v (winfo r).
Definition set_winfo (v : WaitInfo) (r : TCB) : TCB :=
  mk_TCB (tskid r) (itskpri r) (tskstat r) (tskwait r) (sp r) (initial_sp r) (task r) (exinf r) (delay_ticks r) (wupcause r) (wupcnt r) v.

(** [SEMCB], less its list node. *)
Record SEMCB := mk_SEMCB {
  semid : Z;
  sem_exinf : Z;
  sematr : Z;
  semcnt : Z;
  maxsem : Z;
}.

Definition set_semid (v : Z) (r : SEMCB) : SEMCB :=
  mk_SEMCB v (sem_exinf r) (sematr r) (semcnt r) (maxsem r).
Definition set_sem_exinf (v : Z) (r : SEMCB) : SEMCB :=
  mk_SEMCB (semid r) v (sematr r) (semcnt r) (maxsem r).
Definition set_sematr (v : Z) (r : SEMCB) : SEMCB :=
  mk_SEMCB (semid r) (sem_exinf r) v (semcnt r) (maxsem r).
Definition set_semcnt (v : Z) (r : SEMCB) : SEMCB :=
  mk_SEMCB (semid r) (sem_exinf r) (sematr r) v (maxsem r).
Definition set_maxsem (v : Z) (r : SEMCB) : SEMCB :=
  mk_SEMCB (semid r) (sem_exinf r) (sematr r) (semcnt r) v.

(** [FLGCB], less its list node. *)
Record FLGCB := mk_FLGCB {
  flgid : Z;
  flg_exinf : Z;
  flgatr : Z;
  flgptn : Z;
}.

Definition set_flgid (v : Z) (r : FLGCB) : FLGCB :=
  mk_FLGCB v (flg_exinf r) (flgatr r) (flgptn r).
Definition set_flg_exinf (v : Z) (r : FLGCB) : FLGCB :=
  mk_FLGCB (flgid r) v (flgatr r) (flgptn r).
Definition set_flgatr (v : Z) (r : FLGCB) : FLGCB :=
  mk_FLGCB (flgid r) (flg_exinf r) v (flgptn r).
Definition set_flgptn (v : Z) (r : FLGCB) : FLGCB :=
  mk_FLGCB (flgid r) (flg_exinf r) (flgatr r) v.

(** [MBXCB], less its two list nodes. *)
Record MBXCB := mk_MBXCB {
  mbxid : Z;
  mbx_exinf : Z;
  mbxatr : Z;
}.

Definition set_mbxid (v : Z) (r : MBXCB) : MBXCB :=
  mk_MBXCB v (mbx_exinf r) (mbxatr r).
Definition set_mbx_exinf (v : Z) (r : MBXCB) : MBXCB :=
  mk_MBXCB (mbxid r) v (mbxatr r).
Definition set_mbxatr (v : Z) (r : MBXCB) : MBXCB :=
  mk_MBXCB (mbxid r) (mbx_exinf r) v.

(** The records of [panic.h]. *)
Record panic_records := mk_panics {
  last_trap : Z * Z * Z;            (** mcause, mepc, mtval *)
  last_startup_failure : Z * Z;     (** stage, error *)
  last_context_failure : Z * Z;     (** api, error *)
}.

(** The registers of the PLIC, as [src/test/host/fakes.c] keeps them:
    [pl_claim] is the source a claim will give, [pl_completed] the completions
    it took (last first) and [pl_ignored] counts those of a source that was not
    enabled, which the PLIC ignores. *)
Record PLIC := mk_PLIC {
  pl_priority : gmap Z Z;
  pl_enable : gmap Z Z;
  pl_threshold : Z;
  pl_claim : Z;
  pl_completed : list Z;
  pl_ignored : Z;
}.

Definition set_pl_priority (v : gmap Z Z) (r : PLIC) : PLIC :=
  mk_PLIC v (pl_enable r) (pl_threshold r) (pl_claim r) (pl_completed r) (pl_ignored r).
Definition set_pl_enable (v : gmap Z Z) (r : PLIC) : PLIC :=
  mk_PLIC (pl_priority r) v (pl_threshold r) (pl_claim r) (pl_completed r) (pl_ignored r).
Definition set_pl_threshold (v : Z) (r : PLIC) : PLIC :=
  mk_PLIC (pl_priority r) (pl_enable r) v (pl_claim r) (pl_completed r) (pl_ignored r).
Definition set_pl_claim (v : Z) (r : PLIC) : PLIC :=
  mk_PLIC (pl_priority r) (pl_enable r) (pl_threshold r) v (pl_completed r) (pl_ignored r).
Definition set_pl_completed (v : list Z) (r : PLIC) : PLIC :=
  mk_PLIC (pl_priority r) (pl_enable r) (pl_threshold r) (pl_claim r) v (pl_ignored r).
Definition set_pl_ignored (v : Z) (r : PLIC) : PLIC :=
  mk_PLIC (pl_priority r) (pl_enable r) (pl_threshold r) (pl_claim r) (pl_completed r) v.

(** The other control registers of the hart that the trap entries use: the fields
    MPIE and MPP of mstatus, and the register mie, which has a bit for each kind
    of interrupt. *)
Record CSR := mk_CSR {
  mpie : bool;
  mpp : Z;
  mie_bits : Z;
}.

Definition set_mpie (v : bool) (r : CSR) : CSR := mk_CSR v (mpp r) (mie_bits r).
Definition set_mpp (v : Z) (r : CSR) : CSR := mk_CSR (mpie r) v (mie_bits r).
Definition set_mie_bits (v : Z) (r : CSR) : CSR := mk_CSR (mpie r) (mpp r) v.

(** The state: the global variables of the kernel ([links] to [panics];
    [s_mtimecmp] is the variable of timer.c, [s_handlers] the one of intctl.c),
    then the machine: [mie] is mstatus.MIE, [csrs] the other registers of the
    traps, [msip] and [mtimecmp] are CLINT registers ([cmp_log] the values
    [mtimecmp] has had, last first), [clk n] is the machine time at the [n]-th
    read of a device register and [reads] counts the reads, [mem] is the RAM the
    kernel accesses outside its own variables (task stacks, priorities of
    messages, results of the calls), and [wfi_log] has the value of mstatus.MIE at
    each [wfi] the hart has executed, last first. *)
Record kernel := mk_kernel {
  links : gmap link (link * link);
  tcbs : gmap Z TCB;
  semcbs : gmap Z SEMCB;
  flgcbs : gmap Z FLGCB;
  mbxcbs : gmap Z MBXCB;
  current : option Z;
  next : option Z;
  isr_depth : Z;
  s_mtimecmp : Z;
  s_handlers : gmap Z FP;
  panics : panic_records;
  mie : bool;
  csrs : CSR;
  msip : Z;
  mtimecmp : Z;
  cmp_log : list Z;
  clk : nat -> Z;
  reads : nat;
  plic : PLIC;
  mem : gmap Z cell;
  wfi_log : list bool;
}.

Definition set_links (v : gmap link (link * link)) (r : kernel) : kernel :=
  mk_kernel v (tcbs r) (semcbs r) (flgcbs r) (mbxcbs r) (current r) (next r) (isr_depth r) (s_mtimecmp r) (s_handlers r) (panics r) (mie r) (csrs r) (msip r) (mtimecmp r) (cmp_log r) (clk r) (reads r) (plic r) (mem r) (wfi_log r).
Definition set_tcbs (v : gmap Z TCB) (r : kernel) : kernel :=
  mk_kernel (links r) v (semcbs r) (flgcbs r) (mbxcbs r) (current r) (next r) (isr_depth r) (s_mtimecmp r) (s_handlers r) (panics r) (mie r) (csrs r) (msip r) (mtimecmp r) (cmp_log r) (clk r) (reads r) (plic r) (mem r) (wfi_log r).
Definition set_semcbs (v : gmap Z SEMCB) (r : kernel) : kernel :=
  mk_kernel (links r) (tcbs r) v (flgcbs r) (mbxcbs r) (current r) (next r) (isr_depth r) (s_mtimecmp r) (s_handlers r) (panics r) (mie r) (csrs r) (msip r) (mtimecmp r) (cmp_log r) (clk r) (reads r) (plic r) (mem r) (wfi_log r).
Definition set_flgcbs (v : gmap Z FLGCB) (r : kernel) : kernel :=
  mk_kernel (links r) (tcbs r) (semcbs r) v (mbxcbs r) (current r) (next r) (isr_depth r) (s_mtimecmp r) (s_handlers r) (panics r) (mie r) (csrs r) (msip r) (mtimecmp r) (cmp_log r) (clk r) (reads r) (plic r) (mem r) (wfi_log r).
Definition set_mbxcbs (v : gmap Z MBXCB) (r : kernel) : kernel :=
  mk_kernel (links r) (tcbs r) (semcbs r) (flgcbs r) v (current r) (next r) (isr_depth r) (s_mtimecmp r) (s_handlers r) (panics r) (mie r) (csrs r) (msip r) (mtimecmp r) (cmp_log r) (clk r) (reads r) (plic r) (mem r) (wfi_log r).
Definition set_current (v : option Z) (r : kernel) : kernel :=
  mk_kernel (links r) (tcbs r) (semcbs r) (flgcbs r) (mbxcbs r) v (next r) (isr_depth r) (s_mtimecmp r) (s_handlers r) (panics r) (mie r) (csrs r) (msip r) (mtimecmp r) (cmp_log r) (clk r) (reads r) (plic r) (mem r) (wfi_log r).
Definition set_next (v : option Z) (r : kernel) : kernel :=
  mk_kernel (links r) (tcbs r) (semcbs r) (flgcbs r) (mbxcbs r) (current r) v (isr_depth r) (s_mtimecmp r) (s_handlers r) (panics r) (mie r) (csrs r) (msip r) (mtimecmp r) (cmp_log r) (clk r) (reads r) (plic r) (mem r) (wfi_log r).
Definition set_isr_depth (v : Z) (r : kernel) : kernel :=
  mk_kernel (links r) (tcbs r) (semcbs r) (flgcbs r) (mbxcbs r) (current r) (next r) v (s_mtimecmp r) (s_handlers r) (panics r) (mie r) (csrs r) (msip r) (mtimecmp r) (cmp_log r) (clk r) (reads r) (plic r) (mem r) (wfi_log r).
Definition set_s_mtimecmp (v : Z) (r : kernel) : kernel :=
  mk_kernel (links r) (tcbs r) (semcbs r) (flgcbs r) (mbxcbs r) (current r) (next r) (isr_depth r) v (s_handlers r) (panics r) (mie r) (csrs r) (msip r) (mtimecmp r) (cmp_log r) (clk r) (reads r) (plic r) (mem r) (wfi_log r).
Definition set_s_handlers (v : gmap Z FP) (r : kernel) : kernel :=
  mk_kernel (links r) (tcbs r) (semcbs r) (flgcbs r) (mbxcbs r) (current r) (next r) (isr_depth r) (s_mtimecmp r) v (panics r) (mie r) (csrs r) (msip r) (mtimecmp r) (cmp_log r) (clk r) (reads r) (plic r) (mem r) (wfi_log r).
Definition set_panics (v : panic_records) (r : kernel) : kernel :=
  mk_kernel (links r) (tcbs r) (semcbs r) (flgcbs r) (mbxcbs r) (current r) (next r) (isr_depth r) (s_mtimecmp r) (s_handlers r) v (mie r) (csrs r) (msip r) (mtimecmp r) (cmp_log r) (clk r) (reads r) (plic r) (mem r) (wfi_log r).
Definition set_mie (v : bool) (r : kernel) : kernel :=
  mk_kernel (links r) (tcbs r) (semcbs r) (flgcbs r) (mbxcbs r) (current r) (next r) (isr_depth r) (s_mtimecmp r) (s_handlers r) (panics r) v (csrs r) (msip r) (mtimecmp r) (cmp_log r) (clk r) (reads r) (plic r) (mem r) (wfi_log r).
Definition set_csrs (v : CSR) (r : kernel) : kernel :=
  mk_kernel (links r) (tcbs r) (semcbs r) (flgcbs r) (mbxcbs r) (current r) (next r) (isr_depth r) (s_mtimecmp r) (s_handlers r) (panics r) (mie r) v (msip r) (mtimecmp r) (cmp_log r) (clk r) (reads r) (plic r) (mem r) (wfi_log r).
Definition set_msip (v : Z) (r : kernel) : kernel :=
  mk_kernel (links r) (tcbs r) (semcbs r) (flgcbs r) (mbxcbs r) (current r) (next r) (isr_depth r) (s_mtimecmp r) (s_handlers r) (panics r) (mie r) (csrs r) v (mtimecmp r) (cmp_log r) (clk r) (reads r) (plic r) (mem r) (wfi_log r).
Definition set_mtimecmp (v : Z) (r : kernel) : kernel :=
  mk_kernel (links r) (tcbs r) (semcbs r) (flgcbs r) (mbxcbs r) (current r) (next r) (isr_depth r) (s_mtimecmp r) (s_handlers r) (panics r) (mie r) (csrs r) (msip r) v (cmp_log r) (clk r) (reads r) (plic r) (mem r) (wfi_log r).
Definition set_cmp_log (v : list Z) (r : kernel) : kernel :=
  mk_kernel (links r) (tcbs r) (semcbs r) (flgcbs r) (mbxcbs r) (current r) (next r) (isr_depth r) (s_mtimecmp r) (s_handlers r) (panics r) (mie r) (csrs r) (msip r) (mtimecmp r) v (clk r) (reads r) (plic r) (mem r) (wfi_log r).
Definition set_clk (v : nat -> Z) (r : kernel) : kernel :=
  mk_kernel (links r) (tcbs r) (semcbs r) (flgcbs r) (mbxcbs r) (current r) (next r) (isr_depth r) (s_mtimecmp r) (s_handlers r) (panics r) (mie r) (csrs r) (msip r) (mtimecmp r) (cmp_log r) v (reads r) (plic r) (mem r) (wfi_log r).
Definition set_reads (v : nat) (r : kernel) : kernel :=
  mk_kernel (links r) (tcbs r) (semcbs r) (flgcbs r) (mbxcbs r) (current r) (next r) (isr_depth r) (s_mtimecmp r) (s_handlers r) (panics r) (mie r) (csrs r) (msip r) (mtimecmp r) (cmp_log r) (clk r) v (plic r) (mem r) (wfi_log r).
Definition set_plic (v : PLIC) (r : kernel) : kernel :=
  mk_kernel (links r) (tcbs r) (semcbs r) (flgcbs r) (mbxcbs r) (current r) (next r) (isr_depth r) (s_mtimecmp r) (s_handlers r) (panics r) (mie r) (csrs r) (msip r) (mtimecmp r) (cmp_log r) (clk r) (reads r) v (mem r) (wfi_log r).
Definition set_mem (v : gmap Z cell) (r : kernel) : kernel :=
  mk_kernel (links r) (tcbs r) (semcbs r) (flgcbs r) (mbxcbs r) (current r) (next r) (isr_depth r) (s_mtimecmp r) (s_handlers r) (panics r) (mie r) (csrs r) (msip r) (mtimecmp r) (cmp_log r) (clk r) (reads r) (plic r) v (wfi_log r).
Definition set_wfi_log (v : list bool) (r : kernel) : kernel :=
  mk_kernel (links r) (tcbs r) (semcbs r) (flgcbs r) (mbxcbs r) (current r) (next r) (isr_depth r) (s_mtimecmp r) (s_handlers r) (panics r) (mie r) (csrs r) (msip r) (mtimecmp r) (cmp_log r) (clk r) (reads r) (plic r) (mem r) v.

(** ** The monad at this state *)

Abbreviation K := (M kernel).

Definition tcb_get (t : Z) : K TCB := gets_opt (fun k => tcbs k !! t).
Definition tcb_upd (t : Z) (f : TCB -> TCB) : K unit :=
  modify_opt (fun k => c ← tcbs k !! t; Some (set_tcbs (<[t := f c]> (tcbs k)) k)).
Definition sem_get (s : Z) : K SEMCB := gets_opt (fun k => semcbs k !! s).
Definition sem_upd (s : Z) (f : SEMCB -> SEMCB) : K unit :=
  modify_opt (fun k => c ← semcbs k !! s; Some (set_semcbs (<[s := f c]> (semcbs k)) k)).
Definition flg_get (s : Z) : K FLGCB := gets_opt (fun k => flgcbs k !! s).
Definition flg_upd (s : Z) (f : FLGCB -> FLGCB) : K unit :=
  modify_opt (fun k => c ← flgcbs k !! s; Some (set_flgcbs (<[s := f c]> (flgcbs k)) k)).
Definition mbx_get (s : Z) : K MBXCB := gets_opt (fun k => mbxcbs k !! s).
Definition mbx_upd (s : Z) (f : MBXCB -> MBXCB) : K unit :=
  modify_opt (fun k => c ← mbxcbs k !! s; Some (set_mbxcbs (<[s := f c]> (mbxcbs k)) k)).

(** [*tcb] for the variable [current]: a NULL pointer is no task. *)
Definition current_tcb : K Z := gets_opt current.

(** RAM words. A store needs no check here: the caller gives the buffer. *)
Definition load_w (a : Z) : K cell := gets_opt (fun k => mem k !! a).
Definition store_w (a : Z) (v : cell) : K unit :=
  modify (fun k => set_mem (<[a := v]> (mem k)) k).

(** ** list.h on the heap of the kernel *)

Definition on_links (f : gmap link (link * link) -> option (gmap link (link * link))) : K unit :=
  modify_opt (fun k => L ← f (links k); Some (set_links L k)).

Definition list_init (n : link) : K unit := on_links (tkmc_init_list_head n).
Definition list_empty (n : link) : K bool :=
  gets_opt (fun k => tkmc_list_empty n (links k)).
Definition list_next (n : link) : K link := gets_opt (fun k => lnext (links k) n).
Definition list_prev (n : link) : K link := gets_opt (fun k => lprev (links k) n).
Definition list_del (n : link) : K unit := on_links (tkmc_list_del LPoison n).
Definition list_add (n h : link) : K unit := on_links (tkmc_list_add n h).
Definition list_add_tail (n h : link) : K unit := on_links (tkmc_list_add_tail n h).

(** [tkmc_list_entry] for each type and member the kernel uses. An address of
    another kind is not inside such an object: the result must not be used. *)
Definition tcb_of_head (l : link) : K Z :=
  match l with LHead t => ret t | _ => wild end.
Definition tcb_of_wait (l : link) : K Z :=
  match l with LWait t => ret t | _ => wild end.
Definition semcb_of (l : link) : K Z :=
  match l with LSem s => ret s | _ => wild end.
Definition flgcb_of (l : link) : K Z :=
  match l with LFlg s => ret s | _ => wild end.
Definition mbxcb_of (l : link) : K Z :=
  match l with LMbx s => ret s | _ => wild end.
Definition msg_from_link (l : link) : K Z :=
  match l with LMsg a => ret a | _ => wild end.
Definition msg_link (a : Z) : link := LMsg a.

(** Every walk of a list is bounded by the number of nodes there are. *)
Definition walk_fuel (k : kernel) : nat := S (size (links k)).

(** [tkmc_list_for_each_entry]: the body says whether the loop goes on
    ([true]) or is left ([false]); the loop says whether it ran to its end. *)
Fixpoint for_each_from (fuel : nat) (hd pos : link) (body : link -> K bool) : K bool :=
  match fuel with
  | O => hang
  | S fuel =>
    if decide (pos = hd) then ret true
    else
      go <- body pos ;;
      if (go : bool) then
        pos <- list_next pos ;;
        for_each_from fuel hd pos body
      else ret false
  end.

Definition list_for_each_entry (hd : link) (body : link -> K bool) : K bool :=
  fuel <- gets walk_fuel ;;
  pos <- list_next hd ;;
  for_each_from fuel hd pos body.

(** [tkmc_list_for_each_entry_safe]: the next node [n] is fetched before the
    body runs. *)
Fixpoint for_each_safe_from (fuel : nat) (hd pos n : link)
    (body : link -> K bool) : K bool :=
  match fuel with
  | O => hang
  | S fuel =>
    if decide (pos = hd) then ret true
    else
      go <- body pos ;;
      if (go : bool) then
        n' <- list_next n ;;
        for_each_safe_from fuel hd n n' body
      else ret false
  end.

Definition list_for_each_entry_safe (hd : link) (body : link -> K bool) : K bool :=
  fuel <- gets walk_fuel ;;
  pos <- list_next hd ;;
  n <- list_next pos ;;
  for_each_safe_from fuel hd pos n body.

(** [for (int i = first; i < first + count; ++i)] *)
Fixpoint for_range (count : nat) (i : Z) (body : Z -> K unit) : K unit :=
  match count with
  | O => ret tt
  | S count => body i ;;; for_range count (i + 1) body
  end.

(** ** interrupt.h *)

Definition MSTATUS_MIE := 8.

(** The value read from mstatus, with every bit but MIE set. *)
Definition DI : K Z :=
  b <- gets mie ;;
  modify (set_mie false) ;;;
  ret (Z.lor (if (b : bool) then MSTATUS_MIE else 0) (not32 MSTATUS_MIE)).

Definition EI (intsts : Z) : K unit :=
  if decide (intsts = 0) then modify (set_mie true)
  else modify (fun k =>
    set_mie (mie k || negb (bool_decide (Z.land intsts MSTATUS_MIE = 0))) k).

Definition isDI (intsts : Z) : bool := bool_decide (Z.land intsts MSTATUS_MIE = 0).

(** ** ioport.h, on the machine

    The CLINT and the PLIC as [host_out] and [host_in] of
    [src/test/host/fakes.c] have them; any other address is a wild access. Time
    passes between two reads of the machine timer. *)

Definition PLIC_THRESHOLD := PLIC_BASE_ADDRESS + PLIC_THRESHOLD_OFFSET.
Definition PLIC_CLAIM := PLIC_BASE_ADDRESS + PLIC_CLAIM_OFFSET.
Definition PLIC_PRIORITY (src : Z) : Z := PLIC_BASE_ADDRESS + PLIC_PRIORITY_OFFSET + 4 * src.
Definition PLIC_ENABLE (src : Z) : Z := PLIC_BASE_ADDRESS + PLIC_ENABLE_OFFSET + 4 * (src / 32).

(** The source whose priority register is at [port]; the word of enable bits
    at [port]. *)
Definition priority_source (port : Z) : option Z :=
  let i := (port - PLIC_PRIORITY 0) / 4 in
  if decide (1 <= i < PLIC_SOURCE_COUNT /\ port = PLIC_PRIORITY i) then Some i else None.
Definition enable_word (port : Z) : option Z :=
  let i := (port - PLIC_ENABLE 0) / 4 in
  if decide (0 <= i < (PLIC_SOURCE_COUNT + 31) / 32 /\ port = PLIC_ENABLE (32 * i))
  then Some i else None.

Definition plic_enabled (p : PLIC) (src : Z) : bool :=
  Z.testbit (default 0 (pl_enable p !! (src / 32))) (src mod 32).

Definition plic_out (port data : Z) (p : PLIC) : option PLIC :=
  if decide (port = PLIC_THRESHOLD) then Some (set_pl_threshold data p)
  else if decide (port = PLIC_CLAIM) then
    if bool_decide (data < PLIC_SOURCE_COUNT) && plic_enabled p data
    then Some (set_pl_completed (data :: pl_completed p) p)
    else Some (set_pl_ignored (pl_ignored p + 1) p)
  else match priority_source port, enable_word port with
       | Some i, _ => Some (set_pl_priority (<[i := data]> (pl_priority p)) p)
       | None, Some i => Some (set_pl_enable (<[i := data]> (pl_enable p)) p)
       | None, None => None
       end.

(** The value read, and the PLIC after the read: a claim takes the source. *)
Definition plic_in (port : Z) (p : PLIC) : option (Z * PLIC) :=
  if decide (port = PLIC_THRESHOLD) then Some (pl_threshold p, p)
  else if decide (port = PLIC_CLAIM) then Some (pl_claim p, set_pl_claim 0 p)
  else match priority_source port, enable_word port with
       | Some i, _ => Some (default 0 (pl_priority p !! i), p)
       | None, Some i => Some (default 0 (pl_enable p !! i), p)
       | None, None => None
       end.

Definition log_cmp (v : Z) (k : kernel) : kernel :=
  set_cmp_log (v :: cmp_log k) (set_mtimecmp v k).

Definition out_w (port data : Z) : K unit :=
  if decide (port = CLINT_MSIP_ADDRESS) then modify (set_msip data)
  else if decide (port = CLINT_MTIMECMP_ADDRESS) then
    modify (fun k => log_cmp (Z.shiftl (Z.shiftr (mtimecmp k) 32) 32 + data) k)
  else if decide (port = CLINT_MTIMECMP_ADDRESS + 4) then
    modify (fun k => log_cmp (Z.shiftl data 32 + u32 (mtimecmp k)) k)
  else modify_opt (fun k => p ← plic_out port data (plic k); Some (set_plic p k)).

Definition in_w (port : Z) : K Z :=
  now <- gets (fun k => clk k (reads k)) ;;
  modify (fun k => set_reads (S (reads k)) k) ;;;
  if decide (port = CLINT_MTIME_ADDRESS) then ret (u32 now)
  else if decide (port = CLINT_MTIME_ADDRESS + 4) then ret (u32 (Z.shiftr now 32))
  else if decide (port = CLINT_MSIP_ADDRESS) then gets msip
  else
    v <- gets_opt (fun k => plic_in port (plic k)) ;;
    modify (set_plic (snd v)) ;;;
    ret (fst v).

(** Two words each, the lower one first: not for registers that change or act in
    between, for which [timer.c] has its own order. *)
Definition out_d (port data : Z) : K unit :=
  out_w port (u32 (Z.land data 0xFFFFFFFF)) ;;;
  out_w (port + 4) (u32 (Z.shiftr data 32)).

Definition in_d (port : Z) : K Z :=
  low <- in_w port ;;
  high <- in_w (port + 4) ;;
  ret (Z.lor low (u64 (Z.shiftl high 32))).

(** ** dispatch.h and context.h *)

Definition dispatch : K unit := out_w (CLINT_BASE_ADDRESS + CLINT_MSIP_OFFSET) 1.

Definition tkmc_in_isr : K bool := gets (fun k => negb (bool_decide (isr_depth k = 0))).

Definition tkmc_can_block (intsts : Z) : K bool :=
  isr <- tkmc_in_isr ;;
  cur <- gets current ;;
  ret (negb (isDI intsts) && bool_decide (is_Some cur) && negb isr).

(** ** panic.c *)

Definition TKMC_CONTEXT_EXT_TSK := 1.
Definition TKMC_CONTEXT_EXD_TSK := 2.
Definition TKMC_STARTUP_INITIAL_CREATE := 1.
Definition TKMC_STARTUP_INITIAL_START := 2.
Definition TKMC_STARTUP_IDLE_CREATE := 3.
Definition TKMC_STARTUP_IDLE_START := 4.

(** The hooks do not return: the run stops in the state they are given. *)
Definition tkmc_fatal_trap {A} (mcause mepc mtval : Z) : K A :=
  modify (fun k => set_panics (mk_panics (mcause, mepc, mtval)
    (last_startup_failure (panics k)) (last_context_failure (panics k))) k) ;;;
  halt.

Definition tkmc_fatal_startup {A} (stage error : Z) : K A :=
  DI ;;;
  modify (fun k => set_panics (mk_panics (last_trap (panics k))
    (stage, error) (last_context_failure (panics k))) k) ;;;
  halt.

Definition tkmc_fatal_context {A} (api : Z) : K A :=
  DI ;;;
  modify (fun k => set_panics (mk_panics (last_trap (panics k))
    (last_startup_failure (panics k)) (api, E_CTX)) k) ;;;
  halt.

(** ** Object IDs

    The mark of a control block that is not allocated; an ID is an [INT], so
    the marked one is negative. *)
Definition NOEXS_MASK := 0x80000000.
Definition no_exist (id : Z) : bool := negb (bool_decide (Z.land (u32 id) NOEXS_MASK = 0)).

(** ** Calls that wait

    A call of the API returns, or has put the caller to sleep and enabled
    interrupts, where the pending switch is taken: the rest of the call is a
    continuation, which runs when the task is switched in again. *)

Inductive cont : Type :=
  | K_slp                  (** the end of tk_slp_tsk *)
  | K_dly                  (** the end of tk_dly_tsk *)
  | K_dly_yield            (** tk_dly_tsk(0), from tkmc_yield() on *)
  | K_sem                  (** the end of tk_wai_sem *)
  | K_flg (p_flgptn : Z)   (** the end of tk_wai_flg *)
  | K_mbx (ppk_msg : Z)    (** the end of tk_rcv_mbx *)
  | K_ext.                 (** the end of tk_ext_tsk and tk_exd_tsk *)

Inductive call : Type :=
  | Return (ercd : Z)
  | Suspend (c : cont).
