(* ===== verification/Inv.v ===== *)
(** * The invariant of the kernel

    The abstract state is the control blocks with the abstract queues [Q]: the
    members of every list, in order. [inv k Q] says that the heap of links of
    [k] represents [Q] ([rep]) and that the abstract state is well formed
    ([ainv]): every task is on exactly the queues its state says, every object
    that exists has its wait queue, in the order of its attribute, and its
    values in range; an object that does not exist is on its free list. *)

From S2P Require Import Prelude DList Tkernel Kernel.

Open Scope Z_scope.

Abbreviation queues := (gmap link (list link)).

#[export] Instance inq_dec (Q : queues) (h n : link) : Decision (inq Q h n).
Proof.
  unfold inq. destruct (Q !! h) as [xs|] eqn:E; [destruct (decide (n ∈ xs)) as [Hi|Hi]|].
  - left. by exists xs.
  - right. intros (ys & E' & Hi'). by simplify_eq.
  - right. by intros (ys & E' & _).
Defined.

(** ** check_ptn of event_flag.c, which the invariant of a flag speaks of *)

Definition check_ptn (flgptn0 waiptn wfmode : Z) : bool :=
  if decide (Z.land wfmode TWF_ORW <> 0) then
    negb (bool_decide (Z.land flgptn0 waiptn = 0))
  else bool_decide (Z.land flgptn0 waiptn = waiptn).

(** ** Queues and tasks *)

(** What may be linked into which list. *)
Definition task_idx (t : Z) : Prop := 0 <= t < CFN_MAX_TSKID.
Definition kind_ok (h n : link) : Prop :=
  match h, n with
  | LFreeTcb, LHead t | LTimer, LHead t | LReady _, LHead t => task_idx t
  | LSem s, LWait t => task_idx t /\ 0 <= s < CFN_MAX_SEMID
  | LFlg f, LWait t => task_idx t /\ 0 <= f < CFN_MAX_FLGID
  | LMbx m, LWait t => task_idx t /\ 0 <= m < CFN_MAX_MBXID
  | LFreeSem, LSem s => 0 <= s < CFN_MAX_SEMID
  | LFreeFlg, LFlg f => 0 <= f < CFN_MAX_FLGID
  | LFreeMbx, LMbx m => 0 <= m < CFN_MAX_MBXID
  | LMbxq _, LMsg _ => True
  | _, _ => False
  end.

(** The heads that are always there, and the nodes of the kernel's own
    variables. *)
Definition static_head (h : link) : Prop :=
  match h with
  | LFreeTcb | LFreeSem | LFreeFlg | LFreeMbx | LTimer => True
  | LReady i => 0 <= i < CFN_MAX_PRI
  | _ => False
  end.
Definition kernel_node (n : link) : Prop :=
  match n with
  | LHead t | LWait t => task_idx t
  | LSem s => 0 <= s < CFN_MAX_SEMID
  | LFlg f => 0 <= f < CFN_MAX_FLGID
  | LMbx m | LMbxq m => 0 <= m < CFN_MAX_MBXID
  | _ => static_head n
  end.

(** The nodes of the kernel's variables, as a list. *)
Definition kernel_nodes : list link :=
  [LFreeTcb; LFreeSem; LFreeFlg; LFreeMbx; LTimer] ++
  (LReady <$> seqZ 0 CFN_MAX_PRI) ++
  (LHead <$> seqZ 0 CFN_MAX_TSKID) ++ (LWait <$> seqZ 0 CFN_MAX_TSKID) ++
  (LSem <$> seqZ 0 CFN_MAX_SEMID) ++ (LFlg <$> seqZ 0 CFN_MAX_FLGID) ++
  (LMbx <$> seqZ 0 CFN_MAX_MBXID) ++ (LMbxq <$> seqZ 0 CFN_MAX_MBXID).

Definition pri_ok (c : TCB) : Prop := 1 <= itskpri c <= CFN_MAX_PRI.

(** What the task waits for, and the wait queue it is on. *)
Inductive waits_ok (Q : queues) (t : Z) (c : TCB) : Prop :=
  | waits_alone :
      tskwait c = TTW_SLP \/ tskwait c = TTW_DLY -> alone Q (LWait t) -> waits_ok Q t c
  | waits_sem cnt s :
      tskwait c = TTW_SEM -> winfo c = WSemaphore cnt s ->
      inq Q (LSem s) (LWait t) -> waits_ok Q t c
  | waits_flg f waiptn wfmode ptn :
      tskwait c = TTW_FLG -> winfo c = WEventFlag waiptn wfmode ptn ->
      inq Q (LFlg f) (LWait t) -> waits_ok Q t c
  | waits_mbx m msg :
      tskwait c = TTW_MBX -> winfo c = WMailbox msg ->
      inq Q (LMbx m) (LWait t) -> waits_ok Q t c.

Definition ready_stat (c : TCB) : Prop := tskstat c = TTS_RDY \/ tskstat c = TTS_RUN.

#[export] Instance ready_stat_dec c : Decision (ready_stat c).
Proof. unfold ready_stat. apply _. Defined.

Definition timer_ok (Q : queues) (t : Z) (c : TCB) : Prop :=
  (delay_ticks c = 0 /\ alone Q (LHead t)) \/
  (0 <= delay_ticks c < 2 ^ 32 /\ inq Q LTimer (LHead t)).

Inductive task_ok (Q : queues) (t : Z) (c : TCB) : Prop :=
  | task_ready :
      ready_stat c -> tskwait c = 0 -> delay_ticks c = 0 -> pri_ok c ->
      inq Q (LReady (itskpri c - 1)) (LHead t) -> alone Q (LWait t) -> task_ok Q t c
  | task_waiting :
      tskstat c = TTS_WAI -> pri_ok c -> timer_ok Q t c -> waits_ok Q t c -> task_ok Q t c
  | task_dormant :
      tskstat c = TTS_DMT -> pri_ok c -> loose Q (LHead t) -> alone Q (LWait t) ->
      task_ok Q t c
  | task_none :
      tskstat c = TTS_NOEXS -> inq Q LFreeTcb (LHead t) -> alone Q (LWait t) ->
      task_ok Q t c.

(** ** Wait queues *)

Definition waiter (T : gmap Z TCB) (n : link) : option TCB :=
  match n with LWait t => T !! t | _ => None end.
Definition wpri (T : gmap Z TCB) (n : link) : Z :=
  match waiter T n with Some c => itskpri c | None => 0 end.
Definition wreq (T : gmap Z TCB) (n : link) : Z :=
  match waiter T n with
  | Some c => match winfo c with WSemaphore cnt _ => cnt | _ => 0 end
  | None => 0
  end.
(** Whether the pattern [ptn] satisfies the waiter of a flag. *)
Definition wmatch (T : gmap Z TCB) (ptn : Z) (n : link) : bool :=
  match waiter T n with
  | Some c =>
    match winfo c with
    | WEventFlag waiptn wfmode _ => check_ptn ptn waiptn wfmode
    | _ => false
    end
  | None => false
  end.

(** The order of a wait queue: by priority under [TA_TPRI]. *)
Definition pri_sorted (T : gmap Z TCB) (ws : list link) : Prop :=
  StronglySorted (fun a b => wpri T a <= wpri T b) ws.
Definition order_ok (T : gmap Z TCB) (atr : Z) (ws : list link) : Prop :=
  Z.land atr TA_TPRI <> 0 -> pri_sorted T ws.

(** ** Objects *)

Definition sem_live (T : gmap Z TCB) (sc : SEMCB) (ws : list link) : Prop :=
  0 <= semcnt sc <= maxsem sc /\ 1 <= maxsem sc <= TK_SEMAPHORE_MAXCNT /\
  order_ok T (sematr sc) ws /\ Forall (fun n => 1 <= wreq T n <= maxsem sc) ws.

Definition noexs_id (i : Z) : Z := i32 (Z.lor (i + 1) NOEXS_MASK).

Definition sem_ok (T : gmap Z TCB) (Q : queues) (s : Z) (sc : SEMCB) : Prop :=
  (semid sc = s + 1 /\ exists ws, Q !! LSem s = Some ws /\ sem_live T sc ws) \/
  (semid sc = noexs_id s /\ inq Q LFreeSem (LSem s)).

Definition flg_live (T : gmap Z TCB) (fc : FLGCB) (ws : list link) : Prop :=
  is_u32 (flgptn fc) /\ order_ok T (flgatr fc) ws /\
  (Z.land (flgatr fc) TA_WMUL = 0 -> (length ws <= 1)%nat).

Definition flg_ok (T : gmap Z TCB) (Q : queues) (f : Z) (fc : FLGCB) : Prop :=
  (flgid fc = f + 1 /\ exists ws, Q !! LFlg f = Some ws /\ flg_live T fc ws) \/
  (flgid fc = noexs_id f /\ inq Q LFreeFlg (LFlg f)).

Definition mbx_ok (T : gmap Z TCB) (Q : queues) (m : Z) (mc : MBXCB) : Prop :=
  (mbxid mc = m + 1 /\ exists ws msgs, Q !! LMbx m = Some ws /\
     Q !! LMbxq m = Some msgs /\ order_ok T (mbxatr mc) ws /\ (ws = [] \/ msgs = [])) \/
  (mbxid mc = noexs_id m /\ inq Q LFreeMbx (LMbx m) /\ alone Q (LMbxq m)).

(** The bits of object IDs: marking an ID, unmarking it, and the test. *)
Definition id_bits (i : Z) : Prop :=
  noexs_id i = i + 1 - 2 ^ 31 /\ no_exist (noexs_id i) = true /\
  no_exist (i + 1) = false /\
  i32 (Z.land (u32 (noexs_id i)) (not32 NOEXS_MASK)) = i + 1 /\
  i32 (Z.lor (u32 (i + 1)) NOEXS_MASK) = noexs_id i.

Lemma id_bits_ok i : 0 <= i < 32 -> id_bits i.
Proof.
  intros Hi. assert (H : Forall id_bits (seqZ 0 32)).
  { repeat constructor. }
  rewrite Forall_forall in H. apply H, elem_of_seqZ. lia.
Qed.

Lemma noexs_id_neq i : 0 <= i < 32 -> noexs_id i <> i + 1.
Proof. intros Hi. destruct (id_bits_ok i Hi) as [-> _]. lia. Qed.

(** ** The invariant *)

Record ainv (T : gmap Z TCB) (S : gmap Z SEMCB) (F : gmap Z FLGCB) (B : gmap Z MBXCB)
    (cur : option Z) (Q : queues) : Prop := {
  ai_tcbs t : is_Some (T !! t) <-> task_idx t;
  ai_task t c : T !! t = Some c -> tskid c = t + 1 /\ task_ok Q t c;
  ai_run t c : T !! t = Some c -> tskstat c = TTS_RUN -> cur = Some t;
  ai_cur t : cur = Some t -> task_idx t;
  ai_kind h n : inq Q h n -> kind_ok h n;
  ai_head h : static_head h -> is_Some (Q !! h);
  ai_sem s : 0 <= s < CFN_MAX_SEMID -> exists sc, S !! s = Some sc /\ sem_ok T Q s sc;
  ai_flg f : 0 <= f < CFN_MAX_FLGID -> exists fc, F !! f = Some fc /\ flg_ok T Q f fc;
  ai_mbx m : 0 <= m < CFN_MAX_MBXID -> exists mc, B !! m = Some mc /\ mbx_ok T Q m mc;
}.

Definition nodes_ok (L : gmap link (link * link)) : Prop :=
  forall n, kernel_node n -> n ∈ dom L.

Definition inv (k : kernel) (Q : queues) : Prop :=
  rep (links k) Q /\ nodes_ok (links k) /\
  ainv (tcbs k) (semcbs k) (flgcbs k) (mbxcbs k) (current k) Q.

Lemma kernel_node_in n : kernel_node n -> n ∈ kernel_nodes.
Proof.
  unfold kernel_nodes. rewrite !elem_of_app, !list_elem_of_fmap.
  destruct n; simpl; unfold task_idx; intros Hn; try done;
    try (left; set_solver);
    right; repeat first [left; eexists; split; [done|apply elem_of_seqZ; lia] | right];
    eexists; split; [done|apply elem_of_seqZ; lia].
Qed.

(** ** Nobody waits for what is there

    Between the calls, no waiter could be served: under [TA_CNT] no waiter of
    a semaphore asks for as little as is left, under [TA_FIRST] the first does
    not; no waiter of a flag is satisfied by its pattern. *)

Definition sem_settled (T : gmap Z TCB) (Q : queues) (s : Z) (sc : SEMCB) : Prop :=
  forall ws, semid sc = s + 1 -> Q !! LSem s = Some ws ->
    if decide (Z.land (sematr sc) TA_CNT = 0)
    then forall n, head ws = Some n -> semcnt sc < wreq T n
    else Forall (fun n => semcnt sc < wreq T n) ws.

Definition flg_settled (T : gmap Z TCB) (Q : queues) (f : Z) (fc : FLGCB) : Prop :=
  forall ws, flgid fc = f + 1 -> Q !! LFlg f = Some ws ->
    Forall (fun n => wmatch T (flgptn fc) n = false) ws.

Definition sems_settled (k : kernel) (Q : queues) : Prop :=
  forall s sc, semcbs k !! s = Some sc -> sem_settled (tcbs k) Q s sc.
Definition flgs_settled (k : kernel) (Q : queues) : Prop :=
  forall f fc, flgcbs k !! f = Some fc -> flg_settled (tcbs k) Q f fc.

(** Nor is there an entry of the timer queue whose time is up. *)
Definition timers_live (T : gmap Z TCB) (Q : queues) : Prop :=
  forall t c, T !! t = Some c -> inq Q LTimer (LHead t) -> 0 < delay_ticks c.

Definition objs_settled (k : kernel) (Q : queues) : Prop :=
  sems_settled k Q /\ flgs_settled k Q.
Definition settled (k : kernel) (Q : queues) : Prop :=
  objs_settled k Q /\ timers_live (tcbs k) Q.

(** ** The task to run *)

Definition ready_first (Q : queues) (i : Z) : option Z :=
  match Q !! LReady i with
  | Some (LHead t :: _) => Some t
  | _ => None
  end.

Fixpoint highest_in (Q : queues) (entries : nat) (i : Z) : option Z :=
  match entries with
  | O => None
  | S entries =>
    match ready_first Q i with
    | Some t => Some t
    | None => highest_in Q entries (i + 1)
    end
  end.
Definition highest (Q : queues) : option Z := highest_in Q (Z.to_nat CFN_MAX_PRI) 0.

(** The current task is the one to run, and runs; or a switch is requested,
    and the next task is the one to run. *)
Definition sched_ok (k : kernel) (Q : queues) : Prop :=
  forall t, current k = Some t ->
    (msip k = 0 -> highest Q = Some t /\
       exists c, tcbs k !! t = Some c /\ tskstat c = TTS_RUN) /\
    (msip k <> 0 -> next k = highest Q).

(** ** Where the nodes of a task are *)

Section located.
Context {L : gmap link (link * link)} {Q : queues}.
Hypothesis Hrep : rep L Q.

Lemma inq_alone_False h n : inq Q h n -> alone Q n -> False.
Proof.
  intros Hi Ha. pose proof (rep_inq_no_head _ _ _ _ Hrep Hi).
  unfold alone in Ha. congruence.
Qed.

Lemma inq_loose_False h n : inq Q h n -> loose Q n -> False.
Proof. intros Hi [_ Hl]. by eapply Hl. Qed.

Lemma inq_same h1 h2 n : inq Q h1 n -> inq Q h2 n -> h1 = h2.
Proof. by eapply rep_inq_unique. Qed.
End located.

(** [located]: refute that a node is in two places, or learn that the places
    are one. *)
Ltac located :=
  match goal with
  | Hr : rep ?L ?Q, H1 : inq ?Q ?h1 ?n, H2 : inq ?Q ?h2 ?n |- _ =>
    tryif constr_eq h1 h2 then fail
    else (pose proof (inq_same Hr h1 h2 n H1 H2); simplify_eq)
  | Hr : rep ?L ?Q, H1 : inq ?Q ?h ?n, H2 : alone ?Q ?n |- _ =>
    destruct (inq_alone_False Hr h n H1 H2)
  | Hr : rep ?L ?Q, H1 : inq ?Q ?h ?n, H2 : loose ?Q ?n |- _ =>
    destruct (inq_loose_False h n H1 H2)
  end.

Ltac stats := unfold ready_stat, TTS_NOEXS, TTS_RUN, TTS_RDY, TTS_WAI, TTS_DMT,
  TTW_SLP, TTW_DLY, TTW_SEM, TTW_FLG, TTW_MBX in *.

Section ainv_facts.
Context {L : gmap link (link * link)} {T : gmap Z TCB} {S : gmap Z SEMCB}.
Context {F : gmap Z FLGCB} {B : gmap Z MBXCB} {cur : option Z} {Q : queues}.
Hypothesis Hrep : rep L Q.
Hypothesis Hinv : ainv T S F B cur Q.

(** A member of a wait queue waits there. *)
Lemma waiter_sem s n :
  inq Q (LSem s) n -> exists t c cnt, n = LWait t /\ task_idx t /\ T !! t = Some c /\
    tskstat c = TTS_WAI /\ tskwait c = TTW_SEM /\ winfo c = WSemaphore cnt s.
Proof.
  intros Hi. pose proof (ai_kind _ _ _ _ _ _ Hinv _ _ Hi) as Hk.
  destruct n as [| | | | | | | | |t| | | | |]; try done. destruct Hk as [Hk _].
  destruct (proj2 (ai_tcbs _ _ _ _ _ _ Hinv t) Hk) as [c Hc].
  destruct (ai_task _ _ _ _ _ _ Hinv _ _ Hc) as [_ Ht].
  exists t, c. destruct Ht as [| ? ? ? Hw | |]; try located.
  destruct Hw; try located. eauto 10.
Qed.

Lemma waiter_flg f n :
  inq Q (LFlg f) n -> exists t c p m r, n = LWait t /\ task_idx t /\ T !! t = Some c /\
    tskstat c = TTS_WAI /\ tskwait c = TTW_FLG /\ winfo c = WEventFlag p m r.
Proof.
  intros Hi. pose proof (ai_kind _ _ _ _ _ _ Hinv _ _ Hi) as Hk.
  destruct n as [| | | | | | | | |t| | | | |]; try done. destruct Hk as [Hk _].
  destruct (proj2 (ai_tcbs _ _ _ _ _ _ Hinv t) Hk) as [c Hc].
  destruct (ai_task _ _ _ _ _ _ Hinv _ _ Hc) as [_ Ht].
  exists t, c. destruct Ht as [| ? ? ? Hw | |]; try located.
  destruct Hw; try located. eauto 10.
Qed.

Lemma waiter_mbx m n :
  inq Q (LMbx m) n -> exists t c msg, n = LWait t /\ task_idx t /\ T !! t = Some c /\
    tskstat c = TTS_WAI /\ tskwait c = TTW_MBX /\ winfo c = WMailbox msg.
Proof.
  intros Hi. pose proof (ai_kind _ _ _ _ _ _ Hinv _ _ Hi) as Hk.
  destruct n as [| | | | | | | | |t| | | | |]; try done. destruct Hk as [Hk _].
  destruct (proj2 (ai_tcbs _ _ _ _ _ _ Hinv t) Hk) as [c Hc].
  destruct (ai_task _ _ _ _ _ _ Hinv _ _ Hc) as [_ Ht].
  exists t, c. destruct Ht as [| ? ? ? Hw | |]; try located.
  destruct Hw; try located. eauto 10.
Qed.

(** A member of a ready queue is ready, with that priority. *)
Lemma member_ready i n :
  inq Q (LReady i) n -> exists t c, n = LHead t /\ task_idx t /\ T !! t = Some c /\
    ready_stat c /\ itskpri c = i + 1.
Proof.
  intros Hi. pose proof (ai_kind _ _ _ _ _ _ Hinv _ _ Hi) as Hk.
  destruct n as [| | | | | | | |t| | | | | |]; try done. simpl in Hk.
  destruct (proj2 (ai_tcbs _ _ _ _ _ _ Hinv t) Hk) as [c Hc].
  destruct (ai_task _ _ _ _ _ _ Hinv _ _ Hc) as [_ Ht].
  exists t, c.
  destruct Ht as [| ? ? Hw | |]; try located.
  - do 4 (split; [done|]). lia.
  - destruct Hw as [[_ Ha]|[_ Hi2]]; located.
Qed.

Lemma member_timer n :
  inq Q LTimer n -> exists t c, n = LHead t /\ task_idx t /\ T !! t = Some c /\
    tskstat c = TTS_WAI /\ 0 <= delay_ticks c < 2 ^ 32.
Proof.
  intros Hi. pose proof (ai_kind _ _ _ _ _ _ Hinv _ _ Hi) as Hk.
  destruct n as [| | | | | | | |t| | | | | |]; try done. simpl in Hk.
  destruct (proj2 (ai_tcbs _ _ _ _ _ _ Hinv t) Hk) as [c Hc].
  destruct (ai_task _ _ _ _ _ _ Hinv _ _ Hc) as [_ Ht].
  exists t, c. destruct Ht as [|? ? Hw| |]; try located.
  destruct Hw as [[_ Ha]|[? Hi2]]; [located|done].
Qed.

Lemma member_free_tcb n :
  inq Q LFreeTcb n -> exists t c, n = LHead t /\ task_idx t /\ T !! t = Some c /\
    tskstat c = TTS_NOEXS.
Proof.
  intros Hi. pose proof (ai_kind _ _ _ _ _ _ Hinv _ _ Hi) as Hk.
  destruct n as [| | | | | | | |t| | | | | |]; try done. simpl in Hk.
  destruct (proj2 (ai_tcbs _ _ _ _ _ _ Hinv t) Hk) as [c Hc].
  destruct (ai_task _ _ _ _ _ _ Hinv _ _ Hc) as [_ Ht].
  exists t, c. destruct Ht as [|? ? Hw| |]; try located; [|done].
  destruct Hw as [[_ Ha]|[? Hi2]]; located.
Qed.

Lemma ready_in t c :
  T !! t = Some c -> ready_stat c ->
  inq Q (LReady (itskpri c - 1)) (LHead t) /\ alone Q (LWait t) /\ pri_ok c /\
  tskwait c = 0 /\ delay_ticks c = 0.
Proof.
  intros Hc Hs. destruct (ai_task _ _ _ _ _ _ Hinv _ _ Hc) as [_ Ht].
  destruct Ht; [done|..]; exfalso; destruct Hs; stats; lia.
Qed.

Lemma waiting_in t c :
  T !! t = Some c -> tskstat c = TTS_WAI ->
  pri_ok c /\ timer_ok Q t c /\ waits_ok Q t c.
Proof.
  intros Hc Hs. destruct (ai_task _ _ _ _ _ _ Hinv _ _ Hc) as [_ Ht].
  destruct Ht; try done; exfalso; stats; lia.
Qed.
End ainv_facts.
