(* ===== verification/Moves.v ===== *)
(** * Moving one task between the queues

    Every operation of the kernel changes the state of one task at a time and
    moves its two nodes. This file has the lemma that such a move keeps the
    invariant ([ainv_move]) and the moves themselves: a wait that ends
    ([q_ready]), a task that blocks. *)

From S2P Require Import Prelude DList Tkernel Kernel Inv.

Open Scope Z_scope.
Implicit Types (Q : queues) (t : Z) (h n m : link).

(** ** Relations between the queues before and after *)

Definition node_of (t : Z) (n : link) : Prop := n = LHead t \/ n = LWait t.
Definition self_head (n : link) : Prop :=
  match n with LHead _ | LWait _ => True | _ => False end.

(** Only the nodes of [P] changed their place. *)
Definition moved_nodes (P : link -> Prop) (Q Q' : queues) : Prop :=
  forall n, ~ P n ->
    (forall h, inq Q' h n <-> inq Q h n) /\ (self_head n -> alone Q n -> alone Q' n) /\
    (Q !! n = None -> Q' !! n = None) /\ (is_Some (Q !! n) -> is_Some (Q' !! n)).
Abbreviation moved t := (moved_nodes (node_of t)).

(** The waiter at [n] is the same in both task tables. *)
Definition same_wait (T T' : gmap Z TCB) (n : link) : Prop :=
  (fun c => (itskpri c, winfo c)) <$> waiter T' n =
  (fun c => (itskpri c, winfo c)) <$> waiter T n.

(** The list of [h] lost waiters, at most, and kept the order of the others. *)
Definition shrinks (T T' : gmap Z TCB) (Q Q' : queues) (h : link) : Prop :=
  forall ws, Q !! h = Some ws ->
    exists ws', Q' !! h = Some ws' /\ ws' `sublist_of` ws /\
      forall n, n ∈ ws' -> same_wait T T' n.

Definition obj_head (h : link) : Prop :=
  match h with LSem _ | LFlg _ | LMbx _ | LMbxq _ => True | _ => False end.

(** The queues when the wait of [t] (of priority [pri]) has ended. *)
Definition q_ready (t pri : Z) (Q : queues) : queues :=
  qpush (LReady (pri - 1)) (LHead t) (<[LWait t := []]> (qrm (LWait t) Q)).

(** ** Waiters under a change of the task table *)

Lemma wpri_same T T' n : same_wait T T' n -> wpri T' n = wpri T n.
Proof.
  unfold same_wait, wpri. intros E.
  destruct (waiter T' n), (waiter T n); simplify_eq/=; congruence.
Qed.

Lemma wreq_same T T' n : same_wait T T' n -> wreq T' n = wreq T n.
Proof.
  unfold same_wait, wreq. intros E.
  destruct (waiter T' n), (waiter T n); simplify_eq/=; try done.
  match goal with H : winfo _ = _ |- _ => by rewrite H end.
Qed.

Lemma wmatch_same T T' p n : same_wait T T' n -> wmatch T' p n = wmatch T p n.
Proof.
  unfold same_wait, wmatch. intros E.
  destruct (waiter T' n), (waiter T n); simplify_eq/=; try done.
  match goal with H : winfo _ = _ |- _ => by rewrite H end.
Qed.

Lemma same_wait_other T t c n : n <> LWait t -> same_wait T (<[t := c]> T) n.
Proof.
  unfold same_wait, waiter. intros Hn. destruct n; try done.
  rewrite lookup_insert_ne; congruence.
Qed.

Lemma same_wait_refl T n : same_wait T T n.
Proof. done. Qed.

Lemma same_wait_keep T t c c' n :
  T !! t = Some c -> itskpri c' = itskpri c -> winfo c' = winfo c ->
  same_wait T (<[t := c']> T) n.
Proof.
  intros Hc Hp Hw. destruct (decide (n = LWait t)) as [->|];
    [|by apply same_wait_other].
  unfold same_wait, waiter. rewrite lookup_insert_eq, Hc. simpl. congruence.
Qed.

Lemma Forall_sublist {A} (P : A -> Prop) (xs ys : list A) :
  xs `sublist_of` ys -> Forall P ys -> Forall P xs.
Proof. induction 1; inversion 1; subst; auto. Qed.

Lemma StronglySorted_sublist {A} (R : A -> A -> Prop) (xs ys : list A) :
  xs `sublist_of` ys -> StronglySorted R ys -> StronglySorted R xs.
Proof.
  induction 1; inversion 1; subst; [constructor|constructor|]; eauto using Forall_sublist.
Qed.

Lemma pri_sorted_same T T' ws :
  (forall n, n ∈ ws -> wpri T' n = wpri T n) -> pri_sorted T ws -> pri_sorted T' ws.
Proof.
  intros He Hs. induction Hs as [|x ws Hs IH Hx]; [constructor|]. constructor.
  - apply IH. intros n Hn. apply He. set_solver.
  - rewrite Forall_forall in *. intros y Hy.
    rewrite (He x), (He y); [by apply Hx|set_solver..].
Qed.

Lemma order_ok_sub T T' atr ws ws' :
  order_ok T atr ws -> ws' `sublist_of` ws -> (forall n, n ∈ ws' -> same_wait T T' n) ->
  order_ok T' atr ws'.
Proof.
  intros Ho Hs He Ha. apply (pri_sorted_same T).
  - intros n Hn. by apply wpri_same, He.
  - eapply StronglySorted_sublist; [done|by apply Ho].
Qed.

(** ** Objects whose queue shrank *)

Section objects.
Context {P : link -> Prop} {T T' : gmap Z TCB} {Q Q' : queues}.
Hypothesis Hm : moved_nodes P Q Q'.

Lemma moved_inq h n : ~ P n -> inq Q h n -> inq Q' h n.
Proof. intros Hn Hi. by apply Hm. Qed.

Lemma sem_live_sub sc ws ws' :
  sem_live T sc ws -> ws' `sublist_of` ws -> (forall n, n ∈ ws' -> same_wait T T' n) ->
  sem_live T' sc ws'.
Proof.
  intros (H1 & H2 & H3 & H4) Hs He. repeat split; try lia.
  - by eapply order_ok_sub.
  - rewrite Forall_forall in *. intros n Hn. rewrite (wreq_same T) by auto.
    apply H4. by eapply elem_of_sublist.
Qed.

Lemma sem_ok_sub s sc :
  ~ P (LSem s) -> shrinks T T' Q Q' (LSem s) -> sem_ok T Q s sc -> sem_ok T' Q' s sc.
Proof.
  intros HP Hs [(Hid & ws & Hw & Hl)|(Hid & Hi)].
  - left. split; [done|]. destruct (Hs _ Hw) as (ws' & Hw' & Hsub & Hsame).
    exists ws'. split; [done|]. by eapply sem_live_sub.
  - right. split; [done|]. by eapply moved_inq.
Qed.

Lemma flg_ok_sub f fc :
  ~ P (LFlg f) -> shrinks T T' Q Q' (LFlg f) -> flg_ok T Q f fc -> flg_ok T' Q' f fc.
Proof.
  intros HP Hs [(Hid & ws & Hw & Hl)|(Hid & Hi)].
  - left. split; [done|]. destruct (Hs _ Hw) as (ws' & Hw' & Hsub & Hsame).
    exists ws'. split; [done|]. destruct Hl as (H1 & H2 & H3).
    split; [done|]. split; [by eapply order_ok_sub|].
    intros Ha. pose proof (sublist_length _ _ Hsub). specialize (H3 Ha). lia.
  - right. split; [done|]. by eapply moved_inq.
Qed.

Lemma mbx_ok_sub (m : Z) mc :
  ~ P (LMbx m) -> shrinks T T' Q Q' (LMbx m) -> shrinks T T' Q Q' (LMbxq m) ->
  mbx_ok T Q m mc -> mbx_ok T' Q' m mc.
Proof.
  intros HP Hs Hsq [(Hid & ws & msgs & Hw & Hq & Ho & He)|(Hid & Hi & Ha)].
  - left. split; [done|]. destruct (Hs _ Hw) as (ws' & Hw' & Hsub & Hsame).
    destruct (Hsq _ Hq) as (msgs' & Hq' & Hsubq & _).
    exists ws', msgs'. split; [done|]. split; [done|].
    split; [by eapply order_ok_sub|].
    destruct He as [->| ->]; [left|right]; by apply sublist_nil_r.
  - right. split; [done|]. split.
    + by eapply moved_inq.
    + destruct (Hsq _ Ha) as (msgs' & Hq' & Hsubq & _).
      apply sublist_nil_r in Hsubq. by subst.
Qed.
End objects.

(** ** The invariant under a move *)

Lemma task_ok_moved P t' Q Q' c :
  moved_nodes P Q Q' -> ~ P (LHead t') -> ~ P (LWait t') -> task_ok Q t' c ->
  task_ok Q' t' c.
Proof.
  intros Hm Hh Hw Ht.
  destruct (Hm _ Hh) as (Ih & Ah & Nh & _), (Hm _ Hw) as (Iw & Aw & _ & _).
  specialize (Ah I). specialize (Aw I).
  destruct Ht as [H1 H2 H3 H4 H5 H6|H1 H2 H3 H4|H1 H2 H3 H4|H1 H2 H3].
  - apply task_ready; auto. by apply Ih.
  - apply task_waiting; [done|done| |].
    + destruct H3 as [[? ?]|[? ?]]; [left|right]; split; auto. by apply Ih.
    + destruct H4; [eapply waits_alone|eapply waits_sem|eapply waits_flg|eapply waits_mbx];
        eauto; by apply Iw.
  - apply task_dormant; auto. destruct H3 as [[?|?] Hl]; split.
    + left. auto.
    + intros h Hi. apply Ih in Hi. by eapply Hl.
    + right. by apply Ah.
    + intros h Hi. apply Ih in Hi. by eapply Hl.
  - apply task_none; auto. by apply Ih.
Qed.

Lemma ainv_move T S F B cur Q T' Q' t c c' :
  ainv T S F B cur Q -> T !! t = Some c -> T' = <[t := c']> T ->
  tskid c' = tskid c -> (tskstat c' = TTS_RUN -> cur = Some t) ->
  moved t Q Q' -> task_ok Q' t c' ->
  (forall h n, node_of t n -> inq Q' h n -> kind_ok h n) ->
  (forall s sc, S !! s = Some sc -> sem_ok T Q s sc -> sem_ok T' Q' s sc) ->
  (forall f fc, F !! f = Some fc -> flg_ok T Q f fc -> flg_ok T' Q' f fc) ->
  (forall mb mc, B !! mb = Some mc -> mbx_ok T Q mb mc -> mbx_ok T' Q' mb mc) ->
  ainv T' S F B cur Q'.
Proof.
  intros Hinv Hc -> Hid Hrun Hm Htask Hkind Hsem Hflg Hmbx.
  split.
  - intros t'. rewrite <- (ai_tcbs _ _ _ _ _ _ Hinv t').
    destruct (decide (t' = t)) as [->|];
      [rewrite lookup_insert_eq, Hc|rewrite lookup_insert_ne by done; done].
    split; by eexists.
  - intros t' c1 H1. destruct (decide (t' = t)) as [->|Hne].
    + rewrite lookup_insert_eq in H1. simplify_eq. split; [|done].
      rewrite Hid. by apply (ai_task _ _ _ _ _ _ Hinv).
    + rewrite lookup_insert_ne in H1 by done.
      destruct (ai_task _ _ _ _ _ _ Hinv _ _ H1). split; [done|].
      eapply task_ok_moved; [done|intros [?|?]; congruence..|done].
  - intros t' c1 H1 H2. destruct (decide (t' = t)) as [->|Hne].
    + rewrite lookup_insert_eq in H1. simplify_eq. auto.
    + rewrite lookup_insert_ne in H1 by done. by eapply (ai_run _ _ _ _ _ _ Hinv).
  - apply (ai_cur _ _ _ _ _ _ Hinv).
  - intros h n Hi. assert (Hn : node_of t n \/ ~ node_of t n).
    { unfold node_of. destruct (decide (n = LHead t)), (decide (n = LWait t)); tauto. }
    destruct Hn as [Hn|Hn]; [by apply Hkind|].
    apply (ai_kind _ _ _ _ _ _ Hinv). by apply (Hm n Hn).
  - intros h Hh. apply (Hm h); [|by apply (ai_head _ _ _ _ _ _ Hinv)].
    intros [->| ->]; done.
  - intros s Hs. destruct (ai_sem _ _ _ _ _ _ Hinv s Hs) as (sc & ? & ?). eauto.
  - intros f Hf. destruct (ai_flg _ _ _ _ _ _ Hinv f Hf) as (fc & ? & ?). eauto.
  - intros mb Hmb. destruct (ai_mbx _ _ _ _ _ _ Hinv mb Hmb) as (mc & ? & ?). eauto.
Qed.

(** The move of a task that leaves the wait queues shorter. *)
Lemma ainv_move_shrink T S F B cur Q T' Q' t c c' :
  ainv T S F B cur Q -> T !! t = Some c -> T' = <[t := c']> T ->
  tskid c' = tskid c -> (tskstat c' = TTS_RUN -> cur = Some t) ->
  moved t Q Q' -> task_ok Q' t c' ->
  (forall h n, node_of t n -> inq Q' h n -> kind_ok h n) ->
  (forall h, obj_head h -> shrinks T T' Q Q' h) ->
  ainv T' S F B cur Q'.
Proof.
  intros ? ? ? ? ? Hm ? ? Hs. eapply ainv_move; try done.
  - intros s sc _ Ho. eapply (sem_ok_sub Hm); [by intros [?|?]|by apply Hs|done].
  - intros f fc _ Ho. eapply (flg_ok_sub Hm); [by intros [?|?]|by apply Hs|done].
  - intros mb mc _ Ho. eapply (mbx_ok_sub Hm); [by intros [?|?]|by apply Hs..|done].
Qed.

(** ** The primitive moves *)

Lemma moved_refl P Q : moved_nodes P Q Q.
Proof. by intros n Hn. Qed.

Lemma moved_trans P Q1 Q2 Q3 :
  moved_nodes P Q1 Q2 -> moved_nodes P Q2 Q3 -> moved_nodes P Q1 Q3.
Proof.
  intros H1 H2 n Hn. destruct (H1 n Hn) as (a1 & b1 & c1 & d1), (H2 n Hn) as (a2 & b2 & c2 & d2).
  split; [intros h; by rewrite a2, a1|]. auto.
Qed.

Lemma moved_qset (P : link -> Prop) Q h xs xs' n :
  P n -> Q !! h = Some xs -> ~ self_head h -> h <> n -> Q !! n = None \/ Q !! n = Some [] ->
  (forall m, m <> n -> m ∈ xs' <-> m ∈ xs) -> moved_nodes P Q (qset h xs' n Q).
Proof.
  intros Hn Hh Hs Hhn Hl He m Hm.
  assert (Hmn : m <> n) by (intros ->; done).
  split; [|split; [|split]].
  - intros h'. rewrite inq_qset. unfold inq. split.
    + intros [[-> Hi]|(? & ? & ? & ?)]; [|done]. exists xs. by rewrite <- He.
    + intros (ys & Hy & Hi). destruct (decide (h' = h)) as [->|].
      * left. simplify_eq. by rewrite He.
      * right. split; [done|]. split; [|eauto]. intros ->.
        destruct Hl as [Hl|Hl]; rewrite Hl in Hy; simplify_eq. by apply elem_of_nil in Hi.
  - intros Hsm Ha. apply alone_qset; [done|by intros ->|done].
  - intros E. rewrite lookup_qset. rewrite !decide_False; [by rewrite E|done|congruence].
  - intros [ys E]. rewrite lookup_qset, E. repeat case_decide; try done; by eexists.
Qed.

Lemma moved_qrm (P : link -> Prop) Q n :
  P n -> Q !! n = None \/ Q !! n = Some [] -> moved_nodes P Q (qrm n Q).
Proof.
  intros Hn Hl m Hm. assert (Hmn : m <> n) by (intros ->; done).
  split; [|split; [|split]].
  - intros h. rewrite inq_qrm. split; [tauto|]. intros Hi.
    split; [|done]. intros ->. destruct Hi as (ys & Hy & Hi).
    destruct Hl as [Hl|Hl]; rewrite Hl in Hy; simplify_eq. by apply elem_of_nil in Hi.
  - intros _ Ha. by apply alone_qrm.
  - intros E. by rewrite lookup_qrm, decide_False, E.
  - intros [ys E]. rewrite lookup_qrm, decide_False, E by done. by eexists.
Qed.

Lemma inq_init Q n h m :
  (Q !! n = None \/ Q !! n = Some []) -> inq (<[n := []]> Q) h m <-> inq Q h m.
Proof.
  intros Hl. unfold inq. destruct (decide (h = n)) as [->|].
  - rewrite lookup_insert_eq. split.
    + intros (xs & ? & Hi). simplify_eq. by apply elem_of_nil in Hi.
    + intros (xs & E & Hi). destruct Hl as [Hl|Hl]; rewrite Hl in E; simplify_eq.
      by apply elem_of_nil in Hi.
  - by rewrite lookup_insert_ne.
Qed.

Lemma moved_init (P : link -> Prop) Q n :
  P n -> Q !! n = None \/ Q !! n = Some [] -> moved_nodes P Q (<[n := []]> Q).
Proof.
  intros Hn Hl m Hm. assert (Hmn : m <> n) by (intros ->; done).
  split; [intros h; by apply inq_init|]. unfold alone.
  rewrite !lookup_insert_ne by done. done.
Qed.

(** [n], a node of a task, is in a list or the head of an empty one: it has no
    list of its own with members. *)
Lemma self_head_empty T S F B cur Q t n :
  ainv T S F B cur Q -> node_of t n -> Q !! n = None \/ Q !! n = Some [].
Proof.
  intros Hinv Hn. destruct (Q !! n) as [[|m xs]|] eqn:E; [by right| |by left].
  exfalso. assert (inq Q n m) as Hi by (exists (m :: xs); set_solver).
  pose proof (ai_kind _ _ _ _ _ _ Hinv _ _ Hi) as Hk. by destruct Hn as [->| ->].
Qed.

(** *** [q_ready] *)

Lemma lookup_q_ready t pri Q h :
  q_ready t pri Q !! h =
  if decide (h = LReady (pri - 1)) then
    Some (default [] (without (LWait t) <$> Q !! h) ++ [LHead t])
  else if decide (h = LHead t) then None
  else if decide (h = LWait t) then Some []
  else without (LHead t) <$> (without (LWait t) <$> Q !! h).
Proof.
  unfold q_ready, qpush. rewrite lookup_qset.
  destruct (decide (h = LReady (pri - 1))) as [->|].
  { by rewrite lookup_insert_ne, lookup_qrm, decide_False by done. }
  destruct (decide (h = LHead t)) as [->|]; [done|].
  destruct (decide (h = LWait t)) as [->|].
  - by rewrite lookup_insert_eq.
  - by rewrite lookup_insert_ne, lookup_qrm, decide_False.
Qed.

Lemma moved_q_ready T S F B cur Q t pri :
  ainv T S F B cur Q -> 1 <= pri <= CFN_MAX_PRI -> moved t Q (q_ready t pri Q).
Proof.
  intros Hinv Hp. destruct (ai_head _ _ _ _ _ _ Hinv (LReady (pri - 1))) as [xs Hx].
  { simpl. lia. }
  pose proof (self_head_empty _ _ _ _ _ _ t (LHead t) Hinv (or_introl eq_refl)) as Eh.
  pose proof (self_head_empty _ _ _ _ _ _ t (LWait t) Hinv (or_intror eq_refl)) as Ew.
  unfold q_ready. eapply moved_trans; [apply (moved_qrm _ Q (LWait t)); [by right|done]|].
  eapply moved_trans; [apply (moved_init _ _ (LWait t)); [by right|]|].
  { left. by rewrite lookup_qrm, decide_True. }
  assert (Hl : <[LWait t := []]> (qrm (LWait t) Q) !! LReady (pri - 1) =
    Some (without (LWait t) xs)).
  { by rewrite lookup_insert_ne, lookup_qrm, decide_False, Hx. }
  unfold qpush. eapply moved_qset; [by left|exact Hl|by intros []|done| |].
  - rewrite lookup_insert_ne, lookup_qrm, decide_False by done.
    destruct Eh as [->| ->]; [by left|by right].
  - intros m Hm. rewrite Hl. simpl. set_solver.
Qed.

Lemma inq_q_ready_head Q t pri h :
  inq (q_ready t pri Q) h (LHead t) <-> h = LReady (pri - 1).
Proof.
  unfold q_ready, qpush. rewrite inq_qset. split.
  - intros [[-> _]|(_ & _ & ? & _)]; done.
  - intros ->. left. split; [done|]. set_solver.
Qed.

Lemma inq_q_ready_wait Q t pri h :
  ~ inq (q_ready t pri Q) h (LWait t).
Proof.
  intros (xs & E & Hi). rewrite lookup_q_ready in E. unfold without in E.
  repeat case_decide; simplify_eq/=; [|set_solver|].
  - apply elem_of_app in Hi as [Hi|Hi]; [|set_solver].
    destruct (Q !! _); simpl in Hi; [|set_solver].
    apply list_elem_of_filter in Hi as [? _]. done.
  - destruct (Q !! h); simplify_eq/=.
    apply list_elem_of_filter in Hi as [_ Hi]. apply list_elem_of_filter in Hi as [? _]. done.
Qed.

Lemma without_comm n m (xs : list link) : without n (without m xs) = without m (without n xs).
Proof.
  unfold without. induction xs as [|x xs IH]; [done|].
  rewrite !filter_cons. repeat case_decide; rewrite ?filter_cons;
    repeat case_decide; try done; by rewrite IH.
Qed.

Lemma without_idem n (xs : list link) : without n (without n xs) = without n xs.
Proof. apply without_notin. rewrite elem_of_without. by intros [? _]. Qed.

Lemma notin_list Q h n xs : ~ inq Q h n -> Q !! h = Some xs -> n ∉ xs.
Proof. intros Hn E Hi. apply Hn. by exists xs. Qed.

(** Taking off a node that is on no list. *)
Lemma qrm_init_alone Q n :
  alone Q n -> (forall h, ~ inq Q h n) -> <[n := []]> (qrm n Q) = Q.
Proof.
  intros Ha Hl. apply map_eq. intros h. destruct (decide (h = n)) as [->|].
  - by rewrite lookup_insert_eq.
  - rewrite lookup_insert_ne, lookup_qrm, decide_False by done.
    destruct (Q !! h) as [xs|] eqn:E; [|done]. simpl. f_equal.
    apply without_notin. by eapply notin_list.
Qed.

(** The way [tkmc_complete_wait] goes: off the timer queue first. *)
Lemma q_ready_via Q t pri Q1 :
  ~ inq Q (LReady (pri - 1)) (LHead t) ->
  Q1 = Q \/ Q1 = qrm (LHead t) Q ->
  qpush (LReady (pri - 1)) (LHead t) (<[LWait t := []]> (qrm (LWait t) Q1)) = q_ready t pri Q.
Proof.
  intros Hn [->| ->]; [done|]. apply map_eq. intros h.
  rewrite lookup_q_ready. unfold qpush. rewrite lookup_qset.
  destruct (decide (h = LReady (pri - 1))) as [->|].
  { rewrite lookup_insert_ne, lookup_qrm, decide_False, lookup_qrm, decide_False by done.
    destruct (Q !! LReady (pri - 1)) as [xs|] eqn:E; [|done]. simpl.
    rewrite (without_notin (LHead t) xs); [done|]. by eapply notin_list. }
  destruct (decide (h = LHead t)) as [->|]; [done|].
  destruct (decide (h = LWait t)) as [->|].
  - by rewrite lookup_insert_eq.
  - rewrite lookup_insert_ne, lookup_qrm, decide_False, lookup_qrm, decide_False by done.
    destruct (Q !! h); [|done]. simpl.
    by rewrite (without_comm (LWait t)), without_idem.
Qed.

Lemma sublist_without n (xs : list link) : without n xs `sublist_of` xs.
Proof. apply sublist_filter. Qed.

Lemma shrinks_q_ready T t c' pri Q h :
  obj_head h -> shrinks T (<[t := c']> T) Q (q_ready t pri Q) h.
Proof.
  intros Ho xs E. rewrite lookup_q_ready, !decide_False, E by (intros ->; done).
  eexists. split; [done|]. split.
  - etrans; apply sublist_without.
  - intros n Hn. apply same_wait_other. apply elem_of_without in Hn as [_ Hn].
    by apply elem_of_without in Hn as [? _].
Qed.

(** The control block of a task whose wait ended for [cause]. *)
Definition readied (cause : Z) (c : TCB) : TCB :=
  set_tskstat TTS_RDY (set_wupcause cause (set_tskwait 0 (set_delay_ticks 0 c))).

Lemma ainv_ready T S F B cur Q t c cause :
  ainv T S F B cur Q -> T !! t = Some c -> pri_ok c ->
  ainv (<[t := readied cause c]> T) S F B cur (q_ready t (itskpri c) Q).
Proof.
  intros Hinv Hc Hp. eapply ainv_move_shrink; try done.
  - by eapply moved_q_ready.
  - apply task_ready; try done.
    + by left.
    + by apply inq_q_ready_head.
    + unfold alone. rewrite lookup_q_ready, 2!decide_False by done. by rewrite decide_True.
  - intros h n [->| ->] Hi.
    + apply inq_q_ready_head in Hi. subst h. simpl.
      apply (ai_tcbs _ _ _ _ _ _ Hinv). by eexists.
    + by apply inq_q_ready_wait in Hi.
  - intros h Ho. by apply shrinks_q_ready.
Qed.

(** ** A task that blocks *)

(** Off its ready queue: onto the timer queue, or nowhere. *)
Definition q_block (t : Z) (timed : bool) (Q : queues) : queues :=
  if timed then qpush LTimer (LHead t) Q else <[LHead t := []]> (qrm (LHead t) Q).

(** Onto a wait queue, in front of [ys]. *)
Definition q_wait (h : link) (xs ys : list link) (t : Z) (Q : queues) : queues :=
  qset h (xs ++ LWait t :: ys) (LWait t) Q.

Lemma lookup_q_block t timed Q h :
  h <> LTimer -> h <> LHead t -> q_block t timed Q !! h = without (LHead t) <$> Q !! h.
Proof.
  intros H1 H2. unfold q_block, qpush. destruct timed.
  - by rewrite lookup_qset, !decide_False.
  - by rewrite lookup_insert_ne, lookup_qrm, decide_False.
Qed.

Lemma moved_q_block T S F B cur Q0 Q t timed :
  ainv T S F B cur Q0 -> Q !! LHead t = None \/ Q !! LHead t = Some [] ->
  is_Some (Q !! LTimer) -> moved t Q (q_block t timed Q).
Proof.
  intros Hinv Eh [xs Ht]. unfold q_block, qpush. destruct timed.
  - eapply moved_qset; [by left|exact Ht|by intros []|done|done|].
    intros m Hm. rewrite Ht. simpl. set_solver.
  - eapply moved_trans; [apply (moved_qrm _ Q (LHead t)); [by left|done]|].
    apply moved_init; [by left|]. left. by rewrite lookup_qrm, decide_True.
Qed.

Lemma inq_q_block_wait t timed Q h :
  inq (q_block t timed Q) h (LWait t) <->
  h <> LHead t /\ inq Q h (LWait t).
Proof.
  unfold q_block, qpush. destruct timed.
  - rewrite inq_qset. split.
    + intros [[-> Hi]|(H1 & H2 & _ & Hi)]; [|done]. split; [done|].
      apply elem_of_app in Hi as [Hi|Hi]; [|set_solver].
      destruct (Q !! LTimer) as [xs|] eqn:E; [|set_solver]. by exists xs.
    + intros [H1 Hi]. destruct (decide (h = LTimer)) as [->|]; [left|by right].
      destruct Hi as (xs & E & Hi). rewrite E. split; [done|]. set_solver.
  - rewrite inq_init by (left; by rewrite lookup_qrm, decide_True).
    rewrite inq_qrm. naive_solver.
Qed.

Lemma inq_q_block_head t timed Q h :
  inq (q_block t timed Q) h (LHead t) <-> timed = true /\ h = LTimer.
Proof.
  unfold q_block, qpush. destruct timed.
  - rewrite inq_qset. split.
    + intros [[-> Hi]|(H1 & H2 & ? & Hi)]; done.
    + intros [_ ->]. left. split; [done|]. set_solver.
  - rewrite inq_init by (left; by rewrite lookup_qrm, decide_True).
    rewrite inq_qrm. split; [by intros (_ & ? & _)|by intros []].
Qed.

Lemma ainv_block T S F B cur Q Q1 t c c' (timed : bool) :
  ainv T S F B cur Q -> T !! t = Some c ->
  moved t Q Q1 -> Q1 !! LHead t = None \/ Q1 !! LHead t = Some [] ->
  (forall h, inq Q1 h (LWait t) -> kind_ok h (LWait t)) ->
  tskid c' = tskid c -> tskstat c' = TTS_WAI -> pri_ok c' ->
  (if timed then 0 < delay_ticks c' < 2 ^ 32 else delay_ticks c' = 0) ->
  waits_ok (q_block t timed Q1) t c' ->
  (forall s sc, S !! s = Some sc -> sem_ok T Q s sc ->
     sem_ok (<[t := c']> T) (q_block t timed Q1) s sc) ->
  (forall f fc, F !! f = Some fc -> flg_ok T Q f fc ->
     flg_ok (<[t := c']> T) (q_block t timed Q1) f fc) ->
  (forall mb mc, B !! mb = Some mc -> mbx_ok T Q mb mc ->
     mbx_ok (<[t := c']> T) (q_block t timed Q1) mb mc) ->
  ainv (<[t := c']> T) S F B cur (q_block t timed Q1).
Proof.
  intros Hinv Hc Hm Hh Hk Hid Hst Hp Hd Hw Hs Hf Hb.
  assert (Hm' : moved t Q (q_block t timed Q1)).
  { eapply moved_trans; [done|]. eapply moved_q_block; [done|done|].
    destruct (Hm LTimer) as (_ & _ & _ & Hl); [by intros [?|?]|].
    apply Hl. by apply (ai_head _ _ _ _ _ _ Hinv). }
  eapply ainv_move; try done.
  - intros E. exfalso. stats. lia.
  - apply task_waiting; try done. unfold timer_ok. destruct timed.
    + right. split; [lia|]. by apply inq_q_block_head.
    + left. split; [done|]. unfold alone, q_block. by rewrite lookup_insert_eq.
  - intros h n [->| ->] Hi.
    + apply inq_q_block_head in Hi as [_ ->]. simpl.
      apply (ai_tcbs _ _ _ _ _ _ Hinv). by eexists.
    + apply inq_q_block_wait in Hi as [_ Hi]. by apply Hk.
Qed.

(** A wait queue that [t] does not join. *)
Lemma shrinks_other T S F B cur Q Q' t c' h :
  ainv T S F B cur Q -> obj_head h -> Q' !! h = Q !! h -> ~ inq Q h (LWait t) ->
  shrinks T (<[t := c']> T) Q Q' h.
Proof.
  intros Hinv Ho E Hn ws Hws. rewrite E. exists ws. split; [done|]. split; [done|].
  intros n Hi. apply same_wait_other. intros ->. apply Hn. by exists ws.
Qed.

Lemma lookup_q_block_obj T S F B cur Q t timed h :
  ainv T S F B cur Q -> obj_head h -> q_block t timed Q !! h = Q !! h.
Proof.
  intros Hinv Ho. rewrite lookup_q_block by (intros ->; done).
  destruct (Q !! h) as [xs|] eqn:E; [|done]. simpl. f_equal. apply without_notin.
  intros Hi. assert (inq Q h (LHead t)) as Hq by by exists xs.
  apply (ai_kind _ _ _ _ _ _ Hinv) in Hq. by destruct h.
Qed.

(** A wait on no object. *)
Lemma ainv_block_alone T S F B cur Q t c c' (timed : bool) :
  ainv T S F B cur Q -> T !! t = Some c -> alone Q (LWait t) ->
  (forall h, ~ inq Q h (LWait t)) ->
  tskid c' = tskid c -> tskstat c' = TTS_WAI -> pri_ok c' ->
  (if timed then 0 < delay_ticks c' < 2 ^ 32 else delay_ticks c' = 0) ->
  tskwait c' = TTW_SLP \/ tskwait c' = TTW_DLY ->
  ainv (<[t := c']> T) S F B cur (q_block t timed Q).
Proof.
  intros Hinv Hc Ha Hn Hid Hst Hp Hd Hw.
  assert (Hs : forall h, obj_head h ->
    shrinks T (<[t := c']> T) Q (q_block t timed Q) h).
  { intros h Ho. eapply shrinks_other; try done. by eapply lookup_q_block_obj. }
  pose proof (self_head_empty _ _ _ _ _ _ t (LHead t) Hinv (or_introl eq_refl)) as Hh.
  assert (Hm : moved t Q (q_block t timed Q)).
  { eapply moved_q_block; try done. by apply (ai_head _ _ _ _ _ _ Hinv). }
  eapply ainv_block; try done.
  - intros h Hi. by destruct (Hn h).
  - apply waits_alone; [done|]. unfold alone. rewrite lookup_q_block by done. by rewrite Ha.
  - intros s sc _ H. eapply (sem_ok_sub Hm); [by intros [?|?]|by apply Hs|done].
  - intros f fc _ H. eapply (flg_ok_sub Hm); [by intros [?|?]|by apply Hs|done].
  - intros mb mc _ H. eapply (mbx_ok_sub Hm); [by intros [?|?]|by apply Hs..|done].
Qed.

(** *** Joining a wait queue *)

Definition placed (T : gmap Z TCB) (atr t : Z) (xs ys : list link) : Prop :=
  if decide (Z.land atr TA_TPRI = 0) then ys = []
  else Forall (fun n => wpri T n <= wpri T (LWait t)) xs /\
       Forall (fun n => wpri T (LWait t) < wpri T n) ys.

Lemma StronglySorted_insert {A} (R : A -> A -> Prop) xs x ys :
  StronglySorted R (xs ++ ys) -> Forall (fun a => R a x) xs -> Forall (R x) ys ->
  StronglySorted R (xs ++ x :: ys).
Proof.
  induction xs as [|a xs IH]; simpl; intros Hs Hx Hy; [by constructor|].
  inversion Hs; subst. inversion Hx; subst. constructor; [by apply IH|].
  rewrite Forall_app in *. naive_solver.
Qed.

Lemma order_ok_insert T T' atr t xs ys :
  order_ok T atr (xs ++ ys) -> placed T atr t xs ys -> (forall n, wpri T' n = wpri T n) ->
  order_ok T' atr (xs ++ LWait t :: ys).
Proof.
  intros Ho Hp He Ha. unfold placed in Hp. rewrite decide_False in Hp by done.
  destruct Hp as [Hx Hy]. apply (pri_sorted_same T); [done|].
  apply StronglySorted_insert; [by apply Ho|done|].
  eapply Forall_impl; [exact Hy|]. simpl. lia.
Qed.

Lemma moved_q_wait T S F B cur Q t h xs ys :
  ainv T S F B cur Q -> Q !! h = Some (xs ++ ys) -> obj_head h ->
  moved t Q (q_wait h xs ys t Q).
Proof.
  intros Hinv E Ho. unfold q_wait. eapply moved_qset; [by right|exact E| |by intros ->| |].
  - intros Hs. destruct h; simpl in *; tauto.
  - eapply self_head_empty; [done|by right].
  - set_solver.
Qed.

Lemma lookup_q_wait_other Q t h xs ys h' :
  (forall h, ~ inq Q h (LWait t)) -> h' <> h -> h' <> LWait t ->
  q_wait h xs ys t Q !! h' = Q !! h'.
Proof.
  intros Hn H1 H2. unfold q_wait. rewrite lookup_qset, 2!decide_False by done.
  destruct (Q !! h') as [zs|] eqn:E; [|done]. simpl. f_equal.
  apply without_notin. by eapply notin_list.
Qed.

Lemma inq_q_wait_wait Q t h xs ys h' :
  inq (q_wait h xs ys t Q) h' (LWait t) <-> h' = h.
Proof.
  unfold q_wait. rewrite inq_qset. split.
  - by intros [[-> _]|(_ & _ & ? & _)].
  - intros ->. left. split; [done|]. set_solver.
Qed.

Section join.
Context {T : gmap Z TCB} {S : gmap Z SEMCB} {F : gmap Z FLGCB} {B : gmap Z MBXCB}.
Context {cur : option Z} {Q : queues} {t : Z} {c c' : TCB} {h : link}.
Context {xs ys : list link} {timed : bool} {atr : Z}.
Hypothesis Hinv : ainv T S F B cur Q.
Hypothesis Hc : T !! t = Some c.
Hypothesis Halone : alone Q (LWait t).
Hypothesis Hn : forall h, ~ inq Q h (LWait t).
Hypothesis Hh : obj_head h.
Hypothesis Hq : Q !! h = Some (xs ++ ys).
Hypothesis Hid : tskid c' = tskid c.
Hypothesis Hpri : itskpri c' = itskpri c.
Hypothesis Hpok : pri_ok c'.
Hypothesis Hst : tskstat c' = TTS_WAI.
Hypothesis Hd : if timed then 0 < delay_ticks c' < 2 ^ 32 else delay_ticks c' = 0.
Hypothesis Hplace : placed T atr t xs ys.

Let Q1 : queues := q_wait h xs ys t Q.
Let Q' : queues := q_block t timed Q1.
Let T' : gmap Z TCB := <[t := c']> T.

Lemma join_lookup h' : obj_head h' ->
  Q' !! h' = if decide (h' = h) then Some (xs ++ LWait t :: ys) else Q !! h'.
Proof using Hinv Hn Hh Hq.
  intros Ho. unfold Q'. rewrite lookup_q_block by (intros ->; done).
  assert (Hall : forall zs, Q !! h' = Some zs -> LHead t ∉ zs).
  { intros zs E Hi. assert (inq Q h' (LHead t)) as Hk by by exists zs.
    apply (ai_kind _ _ _ _ _ _ Hinv) in Hk. by destruct h'. }
  case_decide as E; [rewrite E; rewrite E in Hall, Ho|].
  - unfold Q1, q_wait. rewrite lookup_qset, decide_True by done. simpl. f_equal.
    apply without_notin. specialize (Hall _ Hq). clear -Hall. set_solver.
  - unfold Q1. rewrite lookup_q_wait_other; [|done|done|by intros ->].
    destruct (Q !! h') as [zs|]; [|done]. simpl. f_equal. by apply without_notin, Hall.
Qed.

Lemma join_shrinks h' : obj_head h' -> h' <> h -> shrinks T T' Q Q' h'.
Proof using Hinv Hn Hh Hq.
  intros Ho Hne. eapply shrinks_other; [done|done| |done].
  by rewrite join_lookup, decide_False.
Qed.

Lemma join_moved : moved t Q Q'.
Proof using Hinv Hh Hq.
  pose proof (moved_q_wait _ _ _ _ _ _ t _ _ _ Hinv Hq Hh) as Hm.
  eapply moved_trans; [exact Hm|]. eapply moved_q_block; [done| |].
  - unfold Q1, q_wait. rewrite lookup_qset, decide_False by (intros E; by rewrite <- E in Hh).
    rewrite decide_False by done.
    pose proof (self_head_empty _ _ _ _ _ _ t (LHead t) Hinv (or_introl eq_refl)) as [->| ->];
      [by left|by right].
  - destruct (Hm LTimer) as (_ & _ & _ & Hl); [by intros [?|?]|].
    apply Hl. by apply (ai_head _ _ _ _ _ _ Hinv).
Qed.

Lemma join_wpri n : wpri T' n = wpri T n.
Proof.
  unfold wpri, waiter. destruct n; try done. unfold T'.
  destruct (decide (t0 = t)) as [->|].
  - by rewrite lookup_insert_eq, Hc.
  - by rewrite lookup_insert_ne.
Qed.

Lemma join_order : order_ok T atr (xs ++ ys) -> order_ok T' atr (xs ++ LWait t :: ys).
Proof. intros Ho. eapply order_ok_insert; [done..|]. apply join_wpri. Qed.

Lemma join_others n : n ∈ xs ++ ys -> same_wait T T' n.
Proof.
  intros Hi. apply same_wait_other. intros ->. apply (Hn h). by exists (xs ++ ys).
Qed.

Lemma join_waits : inq Q' h (LWait t).
Proof using Hinv Hn Hh Hq. exists (xs ++ LWait t :: ys). rewrite join_lookup, decide_True by done. split; [done|].
  rewrite elem_of_app, elem_of_cons. auto. Qed.

(** The rest of the state does not mind. *)
Lemma ainv_join :
  (exists s, h = LSem s) \/ (exists f, h = LFlg f) \/ (exists mb, h = LMbx mb) ->
  kind_ok h (LWait t) -> waits_ok Q' t c' ->
  (forall s sc, h = LSem s -> S !! s = Some sc -> sem_ok T Q s sc -> sem_ok T' Q' s sc) ->
  (forall f fc, h = LFlg f -> F !! f = Some fc -> flg_ok T Q f fc -> flg_ok T' Q' f fc) ->
  (forall mb mc, h = LMbx mb -> B !! mb = Some mc -> mbx_ok T Q mb mc -> mbx_ok T' Q' mb mc) ->
  ainv T' S F B cur Q'.
Proof.
  intros Hkind Hrange Hw Hs Hf Hb. pose proof join_moved as Hm.
  apply (ainv_block T S F B cur Q Q1 t c); try done.
  - by eapply moved_q_wait.
  - unfold Q1, q_wait. rewrite lookup_qset, decide_False by (intros E; by rewrite <- E in Hh).
    rewrite decide_False by done.
    pose proof (self_head_empty _ _ _ _ _ _ t (LHead t) Hinv (or_introl eq_refl)) as [->| ->];
      [by left|by right].
  - intros h' Hi. by apply inq_q_wait_wait in Hi as ->.
  - intros s sc HS Ho. destruct (decide (h = LSem s)); [by apply Hs|].
    eapply (sem_ok_sub Hm); [by intros [?|?]|by apply join_shrinks|done].
  - intros f fc HS Ho. destruct (decide (h = LFlg f)); [by apply Hf|].
    eapply (flg_ok_sub Hm); [by intros [?|?]|by apply join_shrinks|done].
  - intros mb mc HS Ho. destruct (decide (h = LMbx mb)); [by apply Hb|].
    eapply (mbx_ok_sub Hm); [by intros [?|?]|by apply join_shrinks| |done].
    apply join_shrinks; [done|]. by destruct Hkind as [[? ->]|[[? ->]|[? ->]]].
Qed.
End join.

Section join_objects.
Context {T : gmap Z TCB} {S : gmap Z SEMCB} {F : gmap Z FLGCB} {B : gmap Z MBXCB}.
Context {cur : option Z} {Q : queues} {t : Z} {c c' : TCB}.
Context {xs ys : list link} {timed : bool}.
Hypothesis Hinv : ainv T S F B cur Q.
Hypothesis Hc : T !! t = Some c.
Hypothesis Halone : alone Q (LWait t).
Hypothesis Hn : forall h, ~ inq Q h (LWait t).
Hypothesis Hid : tskid c' = tskid c.
Hypothesis Hpri : itskpri c' = itskpri c.
Hypothesis Hpok : pri_ok c'.
Hypothesis Hst : tskstat c' = TTS_WAI.
Hypothesis Hd : if timed then 0 < delay_ticks c' < 2 ^ 32 else delay_ticks c' = 0.

Lemma ainv_join_sem s sc cnt :
  S !! s = Some sc -> semid sc = s + 1 -> Q !! LSem s = Some (xs ++ ys) ->
  placed T (sematr sc) t xs ys -> tskwait c' = TTW_SEM ->
  winfo c' = WSemaphore cnt s -> 1 <= cnt <= maxsem sc -> 0 <= s < CFN_MAX_SEMID ->
  ainv (<[t := c']> T) S F B cur (q_block t timed (q_wait (LSem s) xs ys t Q)).
Proof.
  intros HS Hsid Hq Hp Htw Hwi Hcnt Hrange.
  assert (Hh : obj_head (LSem s)) by done.
  eapply ainv_join; try done.
  - eauto.
  - split; [|done]. apply (ai_tcbs _ _ _ _ _ _ Hinv). by eexists.
  - eapply waits_sem; [done|done|]. by eapply join_waits.
  - intros s' sc' E HS' [(Hid' & ws & Hws & H1 & H2 & H3 & H4)|(Hid' & Hi)]; simplify_eq.
    + left. split; [done|]. exists (xs ++ LWait t :: ys).
      split; [by rewrite (join_lookup Hinv Hn Hh Hq), decide_True|].
      split; [lia|]. split; [lia|]. split; [apply (join_order Hc Hpri Hp); assumption|].
      assert (Hsame : Forall (fun n => 1 <= wreq (<[t:=c']> T) n <= maxsem sc) (xs ++ ys)).
      { rewrite Forall_forall in *. intros n Hi.
        rewrite (wreq_same T); [by apply H4|by eapply join_others]. }
      apply Forall_app in Hsame as [? ?]. apply Forall_app. split; [done|].
      constructor; [|done]. unfold wreq, waiter. by rewrite lookup_insert_eq, Hwi.
    + exfalso. apply (noexs_id_neq s'); [unfold CFN_MAX_SEMID in *; lia|congruence].
Qed.

Lemma ainv_join_flg f fc p md r :
  F !! f = Some fc -> flgid fc = f + 1 -> Q !! LFlg f = Some (xs ++ ys) ->
  placed T (flgatr fc) t xs ys -> tskwait c' = TTW_FLG ->
  winfo c' = WEventFlag p md r -> 0 <= f < CFN_MAX_FLGID ->
  (Z.land (flgatr fc) TA_WMUL = 0 -> xs ++ ys = []) ->
  ainv (<[t := c']> T) S F B cur (q_block t timed (q_wait (LFlg f) xs ys t Q)).
Proof.
  intros HF Hfid Hq Hp Htw Hwi Hrange Hone.
  assert (Hh : obj_head (LFlg f)) by done.
  eapply ainv_join; try done.
  - eauto.
  - split; [|done]. apply (ai_tcbs _ _ _ _ _ _ Hinv). by eexists.
  - eapply waits_flg; [done|done|]. by eapply join_waits.
  - intros f' fc' E HF' [(Hid' & ws & Hws & H1 & H2 & H3)|(Hid' & Hi)]; simplify_eq.
    + left. split; [done|]. exists (xs ++ LWait t :: ys).
      split; [by rewrite (join_lookup Hinv Hn Hh Hq), decide_True|].
      split; [done|]. split; [apply (join_order Hc Hpri Hp); assumption|].
      intros Ha. apply Hone, app_eq_nil in Ha as [-> ->]. simpl. lia.
    + exfalso. apply (noexs_id_neq f'); [unfold CFN_MAX_FLGID in *; lia|congruence].
Qed.

Lemma ainv_join_mbx mb mc msg :
  B !! mb = Some mc -> mbxid mc = mb + 1 -> Q !! LMbx mb = Some (xs ++ ys) ->
  placed T (mbxatr mc) t xs ys -> tskwait c' = TTW_MBX ->
  winfo c' = WMailbox msg -> 0 <= mb < CFN_MAX_MBXID -> Q !! LMbxq mb = Some [] ->
  ainv (<[t := c']> T) S F B cur (q_block t timed (q_wait (LMbx mb) xs ys t Q)).
Proof.
  intros HB Hmid Hq Hp Htw Hwi Hrange Hmsgs.
  assert (Hh : obj_head (LMbx mb)) by done.
  eapply ainv_join; try done.
  - eauto.
  - split; [|done]. apply (ai_tcbs _ _ _ _ _ _ Hinv). by eexists.
  - eapply waits_mbx; [done|done|]. by eapply join_waits.
  - intros mb' mc' E HB' [(Hid' & ws & msgs & Hws & Hms & H1 & H2)|(Hid' & Hi & _)];
      simplify_eq.
    + left. split; [done|]. exists (xs ++ LWait t :: ys), [].
      split; [by rewrite (join_lookup Hinv Hn Hh Hq), decide_True|].
      split; [by rewrite (join_lookup Hinv Hn Hh Hq), decide_False|].
      split; [apply (join_order Hc Hpri Hp); assumption|]. by right.
    + exfalso. apply (noexs_id_neq mb'); [unfold CFN_MAX_MBXID in *; lia|congruence].
Qed.
End join_objects.

(** ** Creating, starting and leaving a task *)

(** A task that is on no ready queue, on no wait queue and not waiting. *)
Lemma ainv_rest T S F B cur Q t c c' Q' :
  ainv T S F B cur Q -> T !! t = Some c -> tskid c' = tskid c ->
  (tskstat c' = TTS_RUN -> cur = Some t) ->
  alone Q (LWait t) -> (forall h, ~ inq Q h (LWait t)) ->
  moved t Q Q' -> task_ok Q' t c' ->
  (forall h, inq Q' h (LHead t) -> kind_ok h (LHead t)) ->
  (forall h, inq Q' h (LWait t) -> False) ->
  (forall h, obj_head h -> Q' !! h = Q !! h) ->
  ainv (<[t := c']> T) S F B cur Q'.
Proof.
  intros Hinv Hc Hid Hrun Ha Hn Hm Ht Hk Hw Ho. eapply ainv_move_shrink; try done.
  - intros h n [->| ->] Hi; [by apply Hk|by destruct (Hw h)].
  - intros h Hh. eapply shrinks_other; try done. by apply Ho.
Qed.

Lemma head_notin_obj T S F B cur Q t h :
  ainv T S F B cur Q -> obj_head h -> ~ inq Q h (LHead t).
Proof. intros Hinv Ho Hi. apply (ai_kind _ _ _ _ _ _ Hinv) in Hi. by destruct h. Qed.

(** Onto a static list. *)
Lemma ainv_push T S F B cur Q t c c' h :
  ainv T S F B cur Q -> T !! t = Some c -> tskid c' = tskid c ->
  (tskstat c' = TTS_RUN -> cur = Some t) ->
  alone Q (LWait t) -> (forall h, ~ inq Q h (LWait t)) ->
  static_head h -> kind_ok h (LHead t) ->
  task_ok (qpush h (LHead t) Q) t c' ->
  ainv (<[t := c']> T) S F B cur (qpush h (LHead t) Q).
Proof.
  intros Hinv Hc Hid Hrun Ha Hn Hh Hk Ht.
  destruct (ai_head _ _ _ _ _ _ Hinv h Hh) as [xs Hx].
  eapply ainv_rest; try done.
  - unfold qpush. eapply moved_qset; [by left|exact Hx| |by intros ->| |].
    + intros Hs. destruct h; simpl in *; tauto.
    + eapply self_head_empty; [done|by left].
    + intros m Hm. rewrite Hx. simpl. set_solver.
  - intros h' Hi. unfold qpush in Hi.
    apply inq_qset in Hi as [[-> _]|(_ & _ & ? & _)]; done.
  - intros h' Hi. unfold qpush in Hi.
    apply inq_qset in Hi as [[-> Hi]|(_ & _ & _ & Hi)]; [|by apply (Hn h')].
    rewrite Hx in Hi. simpl in Hi. apply elem_of_app in Hi as [Hi|Hi]; [|set_solver].
    apply (Hn h). by exists xs.
  - intros h' Ho. unfold qpush.
    rewrite lookup_qset, 2!decide_False by (intros ->; by destruct h).
    destruct (Q !! h') as [ys|] eqn:E; [|done]. simpl. f_equal. apply without_notin.
    intros Hi. eapply head_notin_obj; [done|exact Ho|by exists ys].
Qed.

(** Onto no list; [Q'] may have its node as the head of an empty list. *)
Lemma ainv_drop T S F B cur Q t c c' Q' :
  ainv T S F B cur Q -> T !! t = Some c -> tskid c' = tskid c ->
  tskstat c' = TTS_DMT -> pri_ok c' ->
  alone Q (LWait t) -> (forall h, ~ inq Q h (LWait t)) ->
  Q' = qrm (LHead t) Q \/ Q' = <[LHead t := []]> (qrm (LHead t) Q) ->
  ainv (<[t := c']> T) S F B cur Q'.
Proof.
  intros Hinv Hc Hid Hst Hp Ha Hn HQ.
  pose proof (self_head_empty _ _ _ _ _ _ t (LHead t) Hinv (or_introl eq_refl)) as Eh.
  assert (Hrm : qrm (LHead t) Q !! LHead t = None) by by rewrite lookup_qrm, decide_True.
  assert (Hinq : forall h m, inq Q' h m <-> h <> LHead t /\ m <> LHead t /\ inq Q h m).
  { intros h m. rewrite <- inq_qrm. destruct HQ as [->| ->]; [done|].
    apply inq_init. by left. }
  assert (Hlk : forall h, h <> LHead t -> Q' !! h = without (LHead t) <$> Q !! h).
  { intros h Hh. destruct HQ as [->| ->];
      [|rewrite lookup_insert_ne by done]; by rewrite lookup_qrm, decide_False. }
  assert (Hm : moved t Q (qrm (LHead t) Q)) by (apply moved_qrm; [by left|done]).
  eapply ainv_rest; try done.
  - intros E. exfalso. stats. lia.
  - destruct HQ as [->| ->]; [done|]. eapply moved_trans; [done|].
    apply moved_init; [by left|]. by left.
  - apply task_dormant; try done.
    + split.
      * destruct HQ as [->| ->]; [by left|right]. by rewrite lookup_insert_eq.
      * intros h Hi. by apply Hinq in Hi as (_ & ? & _).
    + unfold alone. rewrite Hlk by done. by rewrite Ha.
  - intros h Hi. by apply Hinq in Hi as (_ & ? & _).
  - intros h Hi. apply Hinq in Hi as (_ & _ & Hi). by apply (Hn h).
  - intros h Ho. rewrite Hlk by (intros ->; done).
    destruct (Q !! h) as [ys|] eqn:E; [|done]. simpl. f_equal. apply without_notin.
    intros Hi. eapply head_notin_obj; [done|exact Ho|by exists ys].
Qed.

(** ** Objects that appear and disappear *)

Lemma ainv_objs T S F B cur Q S' F' B' Q' P :
  ainv T S F B cur Q -> moved_nodes P Q Q' ->
  (forall t n, node_of t n -> ~ P n) -> (forall h, static_head h -> ~ P h) ->
  (forall h n, P n -> inq Q' h n -> kind_ok h n) -> (forall n, P n \/ ~ P n) ->
  (forall s, 0 <= s < CFN_MAX_SEMID -> exists sc, S' !! s = Some sc /\ sem_ok T Q' s sc) ->
  (forall f, 0 <= f < CFN_MAX_FLGID -> exists fc, F' !! f = Some fc /\ flg_ok T Q' f fc) ->
  (forall mb, 0 <= mb < CFN_MAX_MBXID -> exists mc, B' !! mb = Some mc /\ mbx_ok T Q' mb mc) ->
  ainv T S' F' B' cur Q'.
Proof.
  intros Hinv Hm Ht Hst Hk Hdec Hs Hf Hb. split; try done.
  - apply (ai_tcbs _ _ _ _ _ _ Hinv).
  - intros t c Hc. destruct (ai_task _ _ _ _ _ _ Hinv _ _ Hc) as [? Hok].
    split; [done|]. eapply task_ok_moved; [exact Hm| | |done].
    + apply (Ht t). by left.
    + apply (Ht t). by right.
  - apply (ai_run _ _ _ _ _ _ Hinv).
  - apply (ai_cur _ _ _ _ _ _ Hinv).
  - intros h n Hi. destruct (Hdec n) as [HP|HP]; [by apply Hk|].
    apply (ai_kind _ _ _ _ _ _ Hinv). by apply (Hm n HP).
  - intros h Hh. destruct (Hm h (Hst h Hh)) as (_ & _ & _ & Hl).
    by apply Hl, (ai_head _ _ _ _ _ _ Hinv).
Qed.

Lemma obj_same_shrinks T Q Q' h : Q' !! h = Q !! h -> shrinks T T Q Q' h.
Proof. intros E ws Hw. exists ws. rewrite E. done. Qed.

Section one_object.
Context {T : gmap Z TCB} {S : gmap Z SEMCB} {F : gmap Z FLGCB} {B : gmap Z MBXCB}.
Context {cur : option Z} {Q : queues} {n : link}.
Hypothesis Hinv : ainv T S F B cur Q.
Hypothesis Hn : (exists s, n = LSem s) \/ (exists f, n = LFlg f) \/ (exists mb, n = LMbx mb).

(** The node of an object is on its free list, or nowhere. *)
Lemma obj_notin h : inq Q h n -> h = LFreeSem \/ h = LFreeFlg \/ h = LFreeMbx.
Proof using Hinv Hn.
  intros Hi. apply (ai_kind _ _ _ _ _ _ Hinv) in Hi.
  destruct Hn as [[? ->]|[[? ->]|[? ->]]]; destruct h; try done; auto.
Qed.

Lemma lookup_obj_new h : obj_head h -> h <> n -> <[n := []]> (qrm n Q) !! h = Q !! h.
Proof using Hinv Hn.
  intros Ho Hne. rewrite lookup_insert_ne, lookup_qrm, decide_False by done.
  destruct (Q !! h) as [xs|] eqn:E; [|done]. simpl. f_equal. apply without_notin.
  intros Hi. destruct (obj_notin h) as [->|[->| ->]]; [by exists xs|done..].
Qed.

Lemma lookup_obj_free h fr : obj_head h -> h <> n -> h <> fr -> qpush fr n Q !! h = Q !! h.
Proof using Hinv Hn.
  intros Ho Hne Hf. unfold qpush. rewrite lookup_qset, 2!decide_False by done.
  destruct (Q !! h) as [xs|] eqn:E; [|done]. simpl. f_equal. apply without_notin.
  intros Hi. destruct (obj_notin h) as [->|[->| ->]]; [by exists xs|done..].
Qed.

Lemma moved_obj_new : Q !! n = None -> moved_nodes (eq n) Q (<[n := []]> (qrm n Q)).
Proof using.
  intros E. eapply moved_trans; [apply moved_qrm; [done|by left]|].
  apply moved_init; [done|]. left. by rewrite lookup_qrm, decide_True.
Qed.

Lemma moved_obj_free fr : static_head fr -> Q !! n = Some [] ->
  moved_nodes (eq n) Q (qpush fr n Q).
Proof using Hinv Hn.
  intros Hf E. destruct (ai_head _ _ _ _ _ _ Hinv fr Hf) as [xs Hx]. unfold qpush.
  eapply moved_qset; [done|exact Hx| | |by right|].
  - intros Hs. destruct fr; simpl in *; tauto.
  - intros ->. destruct Hn as [[? ->]|[[? ->]|[? ->]]]; done.
  - intros m Hm. rewrite Hx. simpl. set_solver.
Qed.

Lemma inq_obj_new h : ~ inq (<[n := []]> (qrm n Q)) h n.
Proof using.
  intros Hi. apply inq_init in Hi.
  - by apply inq_qrm in Hi as (_ & ? & _).
  - left. by rewrite lookup_qrm, decide_True.
Qed.

Lemma inq_obj_free h fr : inq (qpush fr n Q) h n <-> h = fr.
Proof using.
  unfold qpush. rewrite inq_qset. split.
  - by intros [[-> _]|(_ & _ & ? & _)].
  - intros ->. left. split; [done|]. apply elem_of_app. right. by left.
Qed.

(** The new state of the objects, when only [n] moved. *)
Lemma ainv_obj S' F' B' Q' :
  moved_nodes (eq n) Q Q' -> (forall h, obj_head h -> h <> n -> Q' !! h = Q !! h) ->
  (forall h, inq Q' h n -> kind_ok h n) ->
  (forall s, 0 <= s < CFN_MAX_SEMID -> S' !! s = S !! s /\ n <> LSem s \/
     exists sc, S' !! s = Some sc /\ sem_ok T Q' s sc) ->
  (forall f, 0 <= f < CFN_MAX_FLGID -> F' !! f = F !! f /\ n <> LFlg f \/
     exists fc, F' !! f = Some fc /\ flg_ok T Q' f fc) ->
  (forall mb, 0 <= mb < CFN_MAX_MBXID -> B' !! mb = B !! mb /\ n <> LMbx mb \/
     exists mc, B' !! mb = Some mc /\ mbx_ok T Q' mb mc) ->
  ainv T S' F' B' cur Q'.
Proof using Hinv Hn.
  intros Hm Ho Hk Hs Hf Hb. apply (ainv_objs T S F B cur Q S' F' B' Q' (eq n)); try done.
  - intros t m [->| ->]; by destruct Hn as [[? ->]|[[? ->]|[? ->]]].
  - intros h Hh <-. by destruct Hn as [[? ->]|[[? ->]|[? ->]]].
  - by intros h m <- Hi; apply Hk.
  - intros m. destruct (decide (n = m)); tauto.
  - intros s Hr. destruct (Hs s Hr) as [[E Hne]|?]; [|done]. rewrite E.
    destruct (ai_sem _ _ _ _ _ _ Hinv s Hr) as (sc & ? & ?). exists sc. split; [done|].
    eapply (sem_ok_sub Hm); [done|by apply obj_same_shrinks, Ho|done].
  - intros f Hr. destruct (Hf f Hr) as [[E Hne]|?]; [|done]. rewrite E.
    destruct (ai_flg _ _ _ _ _ _ Hinv f Hr) as (fc & ? & ?). exists fc. split; [done|].
    eapply (flg_ok_sub Hm); [done|by apply obj_same_shrinks, Ho|done].
  - intros mb Hr. destruct (Hb mb Hr) as [[E Hne]|?]; [|done]. rewrite E.
    destruct (ai_mbx _ _ _ _ _ _ Hinv mb Hr) as (mc & ? & ?). exists mc. split; [done|].
    eapply (mbx_ok_sub Hm); [done|by apply obj_same_shrinks, Ho| |done].
    apply obj_same_shrinks, Ho; [done|]. by destruct Hn as [[? ->]|[[? ->]|[? ->]]].
Qed.
End one_object.

(** ** Updates of one object, its queues unchanged *)

Lemma ainv_set_sem T S F B cur Q s sc' :
  ainv T S F B cur Q -> (0 <= s < CFN_MAX_SEMID -> sem_ok T Q s sc') ->
  ainv T (<[s := sc']> S) F B cur Q.
Proof.
  intros Hinv Hok. destruct Hinv. split; try done. intros s' Hs.
  destruct (decide (s' = s)) as [->|].
  - rewrite lookup_insert_eq. eauto.
  - rewrite lookup_insert_ne by done. auto.
Qed.

Lemma ainv_set_flg T S F B cur Q f fc' :
  ainv T S F B cur Q -> (0 <= f < CFN_MAX_FLGID -> flg_ok T Q f fc') ->
  ainv T S (<[f := fc']> F) B cur Q.
Proof.
  intros Hinv Hok. destruct Hinv. split; try done. intros f' Hs.
  destruct (decide (f' = f)) as [->|].
  - rewrite lookup_insert_eq. eauto.
  - rewrite lookup_insert_ne by done. auto.
Qed.

(** ** A control block changes where the invariant does not look *)

Definition same_task (c c' : TCB) : Prop :=
  tskid c' = tskid c /\ itskpri c' = itskpri c /\ tskstat c' = tskstat c /\
  tskwait c' = tskwait c /\ delay_ticks c' = delay_ticks c /\ winfo c' = winfo c.

Lemma task_ok_same Q t c c' : same_task c c' -> task_ok Q t c -> task_ok Q t c'.
Proof.
  intros (E1 & E2 & E3 & E4 & E5 & E6) H.
  destruct H as [H1 H2 H3 H4 H5 H6|H1 H2 H3 H4|H1 H2 H3 H4|H1 H2 H3].
  - apply task_ready; unfold ready_stat, pri_ok in *; rewrite ?E2, ?E3, ?E4, ?E5; done.
  - apply task_waiting; unfold timer_ok, pri_ok in *; rewrite ?E2, ?E3, ?E5; try done.
    destruct H4; rewrite <- ?E4, <- ?E6 in *;
      [by apply waits_alone|by eapply waits_sem|by eapply waits_flg|by eapply waits_mbx].
  - apply task_dormant; unfold pri_ok in *; rewrite ?E2, ?E3; done.
  - apply task_none; rewrite ?E3; done.
Qed.

Lemma ainv_touch T S F B cur Q t c c' :
  ainv T S F B cur Q -> T !! t = Some c -> same_task c c' ->
  ainv (<[t := c']> T) S F B cur Q.
Proof.
  intros Hinv Hc Hs. pose proof Hs as (E1 & E2 & E3 & _ & _ & E6).
  eapply ainv_move_shrink; try done.
  - intros E. eapply (ai_run _ _ _ _ _ _ Hinv); [done|congruence].
  - eapply task_ok_same; [done|]. by apply (ai_task _ _ _ _ _ _ Hinv).
  - intros h n _. apply (ai_kind _ _ _ _ _ _ Hinv).
  - intros h _ ws Hw. exists ws. split; [done|]. split; [done|]. intros n _.
    by eapply same_wait_keep.
Qed.

(** ** Time passes: the entries of the timer queue get other ticks *)

Definition redelayed (Q : queues) (T T' : gmap Z TCB) : Prop :=
  forall t, match T !! t with
    | None => T' !! t = None
    | Some c => exists d, T' !! t = Some (set_delay_ticks d c) /\
        (inq Q LTimer (LHead t) -> 0 <= d < 2 ^ 32) /\
        (~ inq Q LTimer (LHead t) -> d = delay_ticks c)
    end.

Lemma task_ok_delay L Q t c d :
  rep L Q -> task_ok Q t c -> (inq Q LTimer (LHead t) -> 0 <= d < 2 ^ 32) ->
  (~ inq Q LTimer (LHead t) -> d = delay_ticks c) -> task_ok Q t (set_delay_ticks d c).
Proof.
  intros Hr Ht Hd1 Hd2.
  destruct Ht as [H1 H2 H3 H4 H5 H6|H1 H2 H3 H4|H1 H2 H3 H4|H1 H2 H3].
  - apply task_ready; try done. simpl. rewrite Hd2; [done|]. intros Hi. located.
  - apply task_waiting; try done.
    + destruct H3 as [[? ?]|[? Hi]].
      * left. simpl. rewrite Hd2; [done|]. intros Hi. located.
      * right. simpl. split; [by apply Hd1|done].
    + destruct H4; [by apply waits_alone|by eapply waits_sem|by eapply waits_flg|by eapply waits_mbx].
  - by apply task_dormant.
  - by apply task_none.
Qed.

Lemma redelayed_wait Q T T' n : redelayed Q T T' -> same_wait T T' n.
Proof.
  intros H. unfold same_wait, waiter. destruct n; try done. specialize (H t).
  destruct (T !! t); [destruct H as (d & -> & _)|rewrite H]; done.
Qed.

Lemma ainv_redelay L T T' S F B cur Q :
  rep L Q -> ainv T S F B cur Q -> redelayed Q T T' -> ainv T' S F B cur Q.
Proof.
  intros Hr Hinv H.
  assert (Hl : forall t c', T' !! t = Some c' -> exists c d, T !! t = Some c /\
    c' = set_delay_ticks d c /\ (inq Q LTimer (LHead t) -> 0 <= d < 2 ^ 32) /\
    (~ inq Q LTimer (LHead t) -> d = delay_ticks c)).
  { intros t c' E. specialize (H t). destruct (T !! t) as [c|]; [|congruence].
    destruct H as (d & E' & ? & ?). exists c, d. split; [done|]. split; [congruence|done]. }
  assert (Hs : forall h, shrinks T T' Q Q h).
  { intros h ws Hw. exists ws. split; [done|]. split; [done|].
    intros n _. by eapply redelayed_wait. }
  pose proof (moved_refl (fun _ => False) Q) as Hm.
  split; try apply Hinv.
  - intros t. rewrite <- (ai_tcbs _ _ _ _ _ _ Hinv t). split.
    + intros [c' E]. destruct (Hl t c' E) as (c & _ & Hc & _). by eexists.
    + intros [c E]. specialize (H t). rewrite E in H. destruct H as (d & E' & _). by eexists.
  - intros t c' E. destruct (Hl t c' E) as (c & d & Hc & -> & Hd1 & Hd2).
    destruct (ai_task _ _ _ _ _ _ Hinv _ _ Hc) as [? ?]. split; [done|].
    by eapply task_ok_delay.
  - intros t c' E Hrun. destruct (Hl t c' E) as (c & d & Hc & -> & _).
    by eapply (ai_run _ _ _ _ _ _ Hinv).
  - intros s Hrs. destruct (ai_sem _ _ _ _ _ _ Hinv s Hrs) as (sc & ? & ?).
    exists sc. split; [done|]. eapply (sem_ok_sub Hm); [tauto|by apply Hs|done].
  - intros f Hrs. destruct (ai_flg _ _ _ _ _ _ Hinv f Hrs) as (fc & ? & ?).
    exists fc. split; [done|]. eapply (flg_ok_sub Hm); [tauto|by apply Hs|done].
  - intros mb Hrs. destruct (ai_mbx _ _ _ _ _ _ Hinv mb Hrs) as (mc & ? & ?).
    exists mc. split; [done|]. eapply (mbx_ok_sub Hm); [tauto|by apply Hs..|done].
Qed.
