(* ===== verification/Rules.v ===== *)
(** * Reasoning rules for the primitives of the kernel

    A [wp] rule for each primitive of [Kernel.v]: the operations of list.h on
    a heap that represents the queues [Q], the accesses to control blocks, the
    loops over lists with an invariant, and the interrupt flag. *)

From S2P Require Import Prelude DList Tkernel Kernel Inv Moves.

Open Scope Z_scope.
Implicit Types (k : kernel) (Q : queues) (t : Z) (h n : link).

(** [proj]: read through the updates of the records. *)
Ltac proj :=
  cbn [links tcbs semcbs flgcbs mbxcbs current next isr_depth s_mtimecmp s_handlers
    panics mie csrs msip mtimecmp cmp_log clk reads plic mem
    set_links set_tcbs set_semcbs set_flgcbs set_mbxcbs set_current set_next
    set_isr_depth set_s_mtimecmp set_s_handlers set_panics set_mie set_csrs set_msip
    set_mtimecmp set_cmp_log set_clk set_reads set_plic set_mem set_wfi_log fst snd] in *.
Ltac tproj :=
  cbn [tskid itskpri tskstat tskwait sp initial_sp task exinf delay_ticks wupcause
    wupcnt winfo set_tskid set_itskpri set_tskstat set_tskwait set_sp set_initial_sp
    set_task set_exinf set_delay_ticks set_wupcause set_wupcnt set_winfo readied] in *.

(** ** Lists *)

Section lists.
Context {k : kernel} {Q : queues}.
Hypothesis Hrep : rep (links k) Q.

Lemma wp_list_empty h xs (Phi : bool -> kernel -> Prop) :
  Q !! h = Some xs -> Phi (bool_decide (xs = [])) k -> wp (list_empty h) Phi k.
Proof. intros E H. eapply wp_gets_opt; [by eapply rep_empty|done]. Qed.

Lemma wp_list_empty_alone n (Phi : bool -> kernel -> Prop) :
  alone Q n -> Phi true k -> wp (list_empty n) Phi k.
Proof. intros E H. eapply wp_list_empty; [exact E|done]. Qed.

Lemma wp_list_empty_in h n (Phi : bool -> kernel -> Prop) :
  inq Q h n -> Phi false k -> wp (list_empty n) Phi k.
Proof.
  intros (xs & E & Hi) H. apply list_elem_of_split in Hi as (ys & zs & ->).
  eapply wp_gets_opt; [|exact H]. unfold tkmc_list_empty.
  rewrite (rep_next _ _ _ _ _ _ Hrep E). simpl. f_equal. apply bool_decide_false.
  intros En. pose proof (rep_nodup _ _ _ _ Hrep E) as Hnd.
  pose proof (default_head_in h zs) as Hin. rewrite <- En in Hin.
  apply NoDup_cons in Hnd as [Hh Hnd]. apply NoDup_app in Hnd as (_ & _ & Hnd).
  apply NoDup_cons in Hnd as [Hnd _]. set_solver.
Qed.

Lemma wp_list_first h xs (Phi : link -> kernel -> Prop) :
  Q !! h = Some xs -> Phi (default h (head xs)) k -> wp (list_next h) Phi k.
Proof. intros E H. eapply wp_gets_opt; [by eapply rep_first|done]. Qed.

Lemma wp_list_next h xs n ys (Phi : link -> kernel -> Prop) :
  Q !! h = Some (xs ++ n :: ys) -> Phi (default h (head ys)) k -> wp (list_next n) Phi k.
Proof. intros E H. eapply wp_gets_opt; [by eapply rep_next|done]. Qed.

Lemma wp_list_last h xs (Phi : link -> kernel -> Prop) :
  Q !! h = Some xs -> Phi (tail_of h xs) k -> wp (list_prev h) Phi k.
Proof. intros E H. eapply wp_gets_opt; [by eapply rep_last|done]. Qed.

Lemma wp_list_prev h xs n ys (Phi : link -> kernel -> Prop) :
  Q !! h = Some (xs ++ n :: ys) -> Phi (tail_of h xs) k -> wp (list_prev n) Phi k.
Proof. intros E H. eapply wp_gets_opt; [by eapply rep_prev|done]. Qed.

Lemma wp_list_init n (Phi : unit -> kernel -> Prop) :
  (forall h, ~ inq Q h n) -> n ∈ dom (links k) ->
  (forall L, rep L (<[n := []]> Q) -> dom L = dom (links k) -> Phi tt (set_links L k)) ->
  wp (list_init n) Phi k.
Proof.
  intros Hn Hd H. destruct (rep_init _ _ _ Hrep Hn Hd) as (L & E & Hr & D).
  eapply wp_modify_opt; [by rewrite E|]. by apply H.
Qed.

Lemma wp_list_del h n (Phi : unit -> kernel -> Prop) :
  inq Q h n ->
  (forall L, rep L (qrm n Q) -> dom L = dom (links k) -> Phi tt (set_links L k)) ->
  wp (list_del n) Phi k.
Proof.
  intros Hn H. destruct (rep_del LPoison _ _ _ _ Hrep Hn) as (L & E & Hr & D).
  eapply wp_modify_opt; [by rewrite E|]. by apply H.
Qed.

Lemma wp_list_add_tail h n (Phi : unit -> kernel -> Prop) :
  is_Some (Q !! h) -> loose Q n -> n <> h -> n ∈ dom (links k) ->
  (forall L, rep L (qpush h n Q) -> dom L = dom (links k) -> Phi tt (set_links L k)) ->
  wp (list_add_tail n h) Phi k.
Proof.
  intros [xs E] Hl Hne Hd H.
  destruct (rep_add_tail _ _ _ _ _ Hrep E Hl Hne Hd) as (L & E' & Hr & D).
  eapply wp_modify_opt; [by rewrite E'|]. by apply H.
Qed.

(** [tkmc_list_add(n, x->prev)]: in front of [x]. *)
Lemma wp_list_add_before h xs x ys n (Phi : unit -> kernel -> Prop) :
  Q !! h = Some (xs ++ x :: ys) -> loose Q n -> n <> h -> n ∈ dom (links k) ->
  (forall L, rep L (qset h (xs ++ n :: x :: ys) n Q) -> dom L = dom (links k) ->
     Phi tt (set_links L k)) ->
  wp (before <- list_prev x ;; list_add n before) Phi k.
Proof.
  intros E Hl Hne Hd H.
  destruct (rep_add_before _ _ _ _ _ _ _ Hrep E Hl Hne Hd) as (p & L & Ep & E' & Hr & D).
  apply wp_bind. eapply wp_gets_opt; [exact Ep|].
  eapply wp_modify_opt; [by rewrite E'|]. by apply H.
Qed.
End lists.

(** ** Control blocks *)

Lemma wp_tcb_get k t c (Phi : TCB -> kernel -> Prop) :
  tcbs k !! t = Some c -> Phi c k -> wp (tcb_get t) Phi k.
Proof. intros. by eapply wp_gets_opt. Qed.
Lemma wp_tcb_upd k t c f (Phi : unit -> kernel -> Prop) :
  tcbs k !! t = Some c -> Phi tt (set_tcbs (<[t := f c]> (tcbs k)) k) ->
  wp (tcb_upd t f) Phi k.
Proof. intros E H. eapply wp_modify_opt; [by rewrite E|done]. Qed.
Lemma wp_sem_get k t c (Phi : SEMCB -> kernel -> Prop) :
  semcbs k !! t = Some c -> Phi c k -> wp (sem_get t) Phi k.
Proof. intros. by eapply wp_gets_opt. Qed.
Lemma wp_sem_upd k t c f (Phi : unit -> kernel -> Prop) :
  semcbs k !! t = Some c -> Phi tt (set_semcbs (<[t := f c]> (semcbs k)) k) ->
  wp (sem_upd t f) Phi k.
Proof. intros E H. eapply wp_modify_opt; [by rewrite E|done]. Qed.
Lemma wp_flg_get k t c (Phi : FLGCB -> kernel -> Prop) :
  flgcbs k !! t = Some c -> Phi c k -> wp (flg_get t) Phi k.
Proof. intros. by eapply wp_gets_opt. Qed.
Lemma wp_flg_upd k t c f (Phi : unit -> kernel -> Prop) :
  flgcbs k !! t = Some c -> Phi tt (set_flgcbs (<[t := f c]> (flgcbs k)) k) ->
  wp (flg_upd t f) Phi k.
Proof. intros E H. eapply wp_modify_opt; [by rewrite E|done]. Qed.
Lemma wp_mbx_get k t c (Phi : MBXCB -> kernel -> Prop) :
  mbxcbs k !! t = Some c -> Phi c k -> wp (mbx_get t) Phi k.
Proof. intros. by eapply wp_gets_opt. Qed.
Lemma wp_mbx_upd k t c f (Phi : unit -> kernel -> Prop) :
  mbxcbs k !! t = Some c -> Phi tt (set_mbxcbs (<[t := f c]> (mbxcbs k)) k) ->
  wp (mbx_upd t f) Phi k.
Proof. intros E H. eapply wp_modify_opt; [by rewrite E|done]. Qed.
Lemma wp_current_tcb k t (Phi : Z -> kernel -> Prop) :
  current k = Some t -> Phi t k -> wp current_tcb Phi k.
Proof. intros. by eapply wp_gets_opt. Qed.

(** ** The interrupt flag *)

(** What [DI] gives for the flag [b]. *)
Definition saved (b : bool) : Z := Z.lor (if b then MSTATUS_MIE else 0) (not32 MSTATUS_MIE).

Lemma isDI_saved b : isDI (saved b) = negb b.
Proof. by destruct b. Qed.

Lemma wp_DI k (Phi : Z -> kernel -> Prop) :
  Phi (saved (mie k)) (set_mie false k) -> wp DI Phi k.
Proof. done. Qed.

Lemma wp_EI b k (Phi : unit -> kernel -> Prop) :
  mie k = false -> Phi tt (set_mie b k) -> wp (EI (saved b)) Phi k.
Proof.
  intros Hm H. unfold EI, wp. rewrite decide_False by (by destruct b).
  unfold modify. rewrite Hm. by destruct b.
Qed.

Lemma wp_dispatch k (Phi : unit -> kernel -> Prop) :
  Phi tt (set_msip 1 k) -> wp dispatch Phi k.
Proof. done. Qed.

Lemma can_block_run k b : tkmc_can_block (saved b) k =
  Ret (b && bool_decide (is_Some (current k)) && bool_decide (isr_depth k = 0)) k.
Proof.
  unfold tkmc_can_block, tkmc_in_isr, bind, gets, ret. rewrite isDI_saved.
  by rewrite !negb_involutive.
Qed.

Lemma wp_can_block k b (Phi : bool -> kernel -> Prop) :
  Phi (b && bool_decide (is_Some (current k)) && bool_decide (isr_depth k = 0)) k ->
  wp (tkmc_can_block (saved b)) Phi k.
Proof.
  unfold tkmc_can_block, tkmc_in_isr, wp, bind, gets, ret. rewrite isDI_saved.
  by rewrite !negb_involutive.
Qed.

(** ** Loops *)

(** The loop over the list [xs] of [hd] by a body that leaves the lists as
    they are when it goes on: [I] holds of the nodes done. *)
Lemma wp_for_each_from Q hd (I : list link -> kernel -> Prop) body
    (Phi : bool -> kernel -> Prop) rest done fuel k :
  Q !! hd = Some (done ++ rest) -> rep (links k) Q -> I done k ->
  (length rest < fuel)%nat ->
  (forall done n rest' k, Q !! hd = Some (done ++ n :: rest') -> rep (links k) Q -> I done k ->
     wp (body n) (fun go k' => if (go : bool) then rep (links k') Q /\ I (done ++ [n]) k'
                               else Phi false k') k) ->
  (forall k xs, Q !! hd = Some xs -> rep (links k) Q -> I xs k -> Phi true k) ->
  wp (for_each_from fuel hd (default hd (head rest)) body) Phi k.
Proof.
  intros Hq Hr HI Hf Hbody Hend. revert fuel done k Hq Hr HI Hf.
  induction rest as [|n rest IH]; intros fuel done k Hq Hr HI Hf;
    destruct fuel as [|fuel]; simpl in *; try lia.
  - rewrite decide_True by done. apply wp_ret. rewrite app_nil_r in Hq. eauto.
  - rewrite decide_False.
    2:{ intros ->. pose proof (rep_nodup _ _ _ _ Hr Hq) as [Hnd _]%NoDup_cons. set_solver. }
    apply wp_bind. eapply wp_mono; [by eapply Hbody|].
    intros [] k' Hgo; simpl in Hgo; [|done]. destruct Hgo as [Hr' HI'].
    apply wp_bind. eapply wp_list_next; [exact Hr'|exact Hq|].
    apply IH with (done := done ++ [n]); [by rewrite <- app_assoc|done|done|lia].
Qed.

Lemma wp_for_each Q hd xs (I : list link -> kernel -> Prop) body
    (Phi : bool -> kernel -> Prop) k :
  Q !! hd = Some xs -> rep (links k) Q -> I [] k ->
  (forall done n rest k, Q !! hd = Some (done ++ n :: rest) -> rep (links k) Q -> I done k ->
     wp (body n) (fun go k' => if (go : bool) then rep (links k') Q /\ I (done ++ [n]) k'
                               else Phi false k') k) ->
  (forall k xs, Q !! hd = Some xs -> rep (links k) Q -> I xs k -> Phi true k) ->
  wp (list_for_each_entry hd body) Phi k.
Proof.
  intros Hq Hr HI Hbody Hend. unfold list_for_each_entry.
  apply wp_bind, wp_gets. apply wp_bind. eapply wp_list_first; [done..|].
  eapply (wp_for_each_from Q hd I body Phi xs []); try done.
  unfold walk_fuel. pose proof (rep_length _ _ _ _ Hr Hq). lia.
Qed.

(** The loop by a body that may take the node it gets off its list: [I] holds
    of the nodes kept so far, the nodes to come, and the queues. *)
Section for_each_safe.
Context (hd : link) (I : list link -> list link -> queues -> kernel -> Prop).
Context (body : link -> K bool) (Phi : bool -> kernel -> Prop).
Hypothesis HI : forall pre rest Q k, I pre rest Q k ->
  rep (links k) Q /\ Q !! hd = Some (pre ++ rest).
Hypothesis Hbody : forall pre n rest Q k, I pre (n :: rest) Q k ->
  wp (body n) (fun go k' => if (go : bool) then exists pre' Q', I pre' rest Q' k'
                            else Phi false k') k.
Hypothesis Hend : forall pre Q k, I pre [] Q k -> Phi true k.

Lemma wp_for_each_safe_from rest pre Q fuel k n :
  I pre rest Q k -> (length rest < fuel)%nat ->
  (rest <> [] -> n = default hd (head (tail rest))) ->
  wp (for_each_safe_from fuel hd (default hd (head rest)) n body) Phi k.
Proof.
  revert pre Q fuel k n. induction rest as [|x rest IH]; intros pre Q fuel k n Hi Hf Hn;
    destruct fuel as [|fuel]; simpl in *; try lia.
  - rewrite decide_True by done. apply wp_ret. eauto.
  - destruct (HI _ _ _ _ Hi) as [Hr Hq]. rewrite Hn by done.
    rewrite decide_False.
    2:{ intros ->. pose proof (rep_nodup _ _ _ _ Hr Hq) as [Hnd _]%NoDup_cons. set_solver. }
    apply wp_bind. eapply wp_mono; [by eapply Hbody|].
    intros [] k' Hgo; simpl in Hgo; [|done]. destruct Hgo as (pre' & Q' & Hi').
    destruct (HI _ _ _ _ Hi') as [Hr' Hq']. apply wp_bind.
    destruct rest as [|y rest]; simpl.
    + eapply wp_list_first; [exact Hr'|exact Hq'|].
      apply (IH pre' Q' fuel k'); [done|lia|done].
    + eapply wp_list_next; [exact Hr'|exact Hq'|].
      apply (IH pre' Q' fuel k'); [done|simpl in *; lia|done].
Qed.

Lemma wp_for_each_safe xs Q k :
  I [] xs Q k -> wp (list_for_each_entry_safe hd body) Phi k.
Proof.
  intros Hi. destruct (HI _ _ _ _ Hi) as [Hr Hq]. unfold list_for_each_entry_safe.
  apply wp_bind, wp_gets. apply wp_bind. eapply wp_list_first; [done..|].
  apply wp_bind. unfold walk_fuel. pose proof (rep_length _ _ _ _ Hr Hq).
  destruct xs as [|x xs].
  - eapply wp_list_first; [done..|].
    apply (wp_for_each_safe_from [] [] Q); [done|cbn [length]; lia|done].
  - eapply (wp_list_next Hr hd [] x xs); [done|].
    apply (wp_for_each_safe_from (x :: xs) [] Q); [done|cbn [length app] in *; lia|done].
Qed.
End for_each_safe.

(** [for] loops over an index. *)
Lemma wp_for_range (I : Z -> kernel -> Prop) body (Phi : unit -> kernel -> Prop) count i k :
  I i k ->
  (forall j k, i <= j < i + Z.of_nat count -> I j k -> wp (body j) (fun _ k' => I (j + 1) k') k) ->
  (forall k, I (i + Z.of_nat count) k -> Phi tt k) ->
  wp (for_range count i body) Phi k.
Proof.
  revert i k. induction count as [|count IH]; intros i k HI Hbody Hend; simpl.
  - apply wp_ret, Hend. by rewrite Z.add_0_r.
  - apply wp_bind. eapply wp_mono; [apply Hbody; [lia|done]|].
    intros [] k' HI'. apply IH; [done| |].
    + intros j k1 Hj. apply Hbody. lia.
    + intros k1. replace (i + 1 + Z.of_nat count) with (i + Z.of_nat (S count)) by lia.
      apply Hend.
Qed.
