(* ===== verification/Wait.v ===== *)
(** * Choosing the next task, and ending a wait

    [tkmc_get_highest_priority_task] and [tkmc_complete_wait] of
    [src/kernel/task.c], and [tkmc_sem_serve_waiters] of
    [src/kernel/semaphore.c], which call each other. *)

From S2P Require Import Prelude DList Tkernel Kernel Inv Moves Rules.

Open Scope Z_scope.

(** The search over [tkmc_ready_queue], from entry [i] on. *)
Fixpoint highest_from (entries : nat) (i : Z) : K (option Z) :=
  match entries with
  | O => ret None
  | S entries =>
    empty <- list_empty (LReady i) ;;
    if negb empty then
      n <- list_next (LReady i) ;;
      t <- tcb_of_head n ;;
      ret (Some t)
    else highest_from entries (i + 1)
  end.

Definition tkmc_get_highest_priority_task : K (option Z) :=
  highest_from (Z.to_nat CFN_MAX_PRI) 0.

(** [winfo.semaphore.semcnt] and [winfo.semaphore.semcb] of a task. *)
Definition winfo_semcnt (c : TCB) : K Z :=
  match winfo c with WSemaphore cnt _ => ret cnt | _ => wild end.
Definition winfo_semcb (c : TCB) : K Z :=
  match winfo c with WSemaphore _ s => ret s | _ => wild end.

(** The body of the loop of [tkmc_sem_serve_waiters] ([complete] is
    [tkmc_complete_wait]); [true]: go on to the next waiter. *)
Definition serve_body (complete : Z -> Z -> K unit) (s : Z) (pos : link) : K bool :=
  t <- tcb_of_wait pos ;;
  c <- tcb_get t ;;
  req <- winfo_semcnt c ;;
  sc <- sem_get s ;;
  if bool_decide (semcnt sc < req) then
    if bool_decide (Z.land (sematr sc) TA_CNT = 0) then ret false
    else ret true
  else
    complete t E_OK ;;;
    sc <- sem_get s ;;
    left <- int_op (semcnt sc - req) ;;
    sem_upd s (set_semcnt left) ;;;
    ret (negb (bool_decide (left <= 0))).

Definition sem_serve_with (complete : Z -> Z -> K unit) (s : Z) : K unit :=
  list_for_each_entry_safe (LSem s) (serve_body complete s) ;;; ret tt.

(** [tkmc_complete_wait] with what it calls at its end as a parameter. *)
Definition complete_wait_with (serve : Z -> K unit) (t cause : Z) : K unit :=
  c <- tcb_get t ;;
  let tskwait0 := tskwait c in
  empty <- list_empty (LHead t) ;;
  (if negb empty then list_del (LHead t) else ret tt) ;;;
  empty <- list_empty (LWait t) ;;
  (if negb empty then list_del (LWait t) ;;; list_init (LWait t) else ret tt) ;;;
  tcb_upd t (set_delay_ticks 0) ;;;
  tcb_upd t (set_tskwait 0) ;;;
  tcb_upd t (set_wupcause cause) ;;;
  tcb_upd t (set_tskstat TTS_RDY) ;;;
  c <- tcb_get t ;;
  list_add_tail (LHead t) (LReady (itskpri c - 1)) ;;;
  if bool_decide (tskwait0 = TTW_SEM)
     && (bool_decide (cause = E_TMOUT) || bool_decide (cause = E_RLWAI)) then
    c <- tcb_get t ;;
    s <- winfo_semcb c ;;
    serve s
  else ret tt.

(** The two functions call each other. Serving waiters ends their waits with
    [E_OK], and a wait that ends with [E_OK] serves nobody, so the calls nest
    three deep at most: the innermost [serve] is never reached. *)
Definition complete_wait_inner : Z -> Z -> K unit :=
  complete_wait_with (fun _ => hang).
Definition tkmc_sem_serve_waiters : Z -> K unit :=
  sem_serve_with complete_wait_inner.
Definition tkmc_complete_wait : Z -> Z -> K unit :=
  complete_wait_with tkmc_sem_serve_waiters.

(** ** The search for the highest priority *)

Implicit Types (k : kernel) (Q : queues) (t : Z) (h n : link).

Lemma wp_highest_from k Q entries i (Phi : option Z -> kernel -> Prop) :
  inv k Q -> 0 <= i -> i + Z.of_nat entries <= CFN_MAX_PRI ->
  Phi (highest_in Q entries i) k -> wp (highest_from entries i) Phi k.
Proof.
  intros (Hr & _ & Ha). revert i. induction entries as [|entries IH]; intros i H0 Hi H; simpl.
  { by apply wp_ret. }
  destruct (ai_head _ _ _ _ _ _ Ha (LReady i)) as [xs Hx]; [simpl; lia|].
  apply wp_bind. eapply wp_list_empty; [done..|].
  simpl in H. unfold ready_first in H. rewrite Hx in H. destruct xs as [|n xs].
  - rewrite bool_decide_true by done. simpl. apply IH; [lia|lia|done].
  - rewrite bool_decide_false by done. simpl.
    destruct (member_ready Hr Ha i n) as (t & c & -> & _).
    { exists (n :: xs). split; [done|by left]. }
    apply wp_bind. eapply wp_list_first; [done..|]. simpl. done.
Qed.

Lemma wp_get_highest k Q (Phi : option Z -> kernel -> Prop) :
  inv k Q -> Phi (highest Q) k -> wp tkmc_get_highest_priority_task Phi k.
Proof.
  intros Hi H. apply (wp_highest_from k Q); [exact Hi|lia|unfold CFN_MAX_PRI; lia|exact H].
Qed.

(** The first of the first queue that is not empty. *)
Lemma highest_in_some Q entries i t :
  highest_in Q entries i = Some t ->
  exists j, i <= j < i + Z.of_nat entries /\ ready_first Q j = Some t /\
    forall j', i <= j' < j -> ready_first Q j' = None.
Proof.
  revert i. induction entries as [|entries IH]; intros i H; simpl in H; [done|].
  destruct (ready_first Q i) as [t'|] eqn:E.
  - simplify_eq. exists i. split; [lia|]. split; [done|]. intros j' Hj'. lia.
  - destruct (IH _ H) as (j & Hj & Hq & Hbelow). exists j. split; [lia|]. split; [done|].
    intros j' Hj'. destruct (decide (j' = i)) as [->|]; [done|]. apply Hbelow. lia.
Qed.

Lemma highest_in_none Q entries i :
  highest_in Q entries i = None ->
  forall j, i <= j < i + Z.of_nat entries -> ready_first Q j = None.
Proof.
  revert i. induction entries as [|entries IH]; intros i H j Hj; simpl in H; [lia|].
  destruct (ready_first Q i) eqn:E; [done|].
  destruct (decide (j = i)) as [->|]; [done|]. apply (IH (i + 1)); [done|lia].
Qed.

(** ** Waking a task, on the abstract state *)

Definition astate : Type := gmap Z TCB * queues.

Definition a_wake (cause t : Z) (A : astate) : astate :=
  match fst A !! t with
  | Some c => (<[t := readied cause c]> (fst A), q_ready t (itskpri c) (snd A))
  | None => A
  end.
Definition a_wakes (cause : Z) (ts : list Z) (A : astate) : astate :=
  foldl (fun A t => a_wake cause t A) A ts.

(** The state [k] with other links and task control blocks. *)
Definition with_lt (L : gmap link (link * link)) (T : gmap Z TCB) (k : kernel) : kernel :=
  set_links L (set_tcbs T k).
Arguments with_lt : simpl never.

Lemma readied_wait T t c cause n :
  T !! t = Some c -> same_wait T (<[t := readied cause c]> T) n.
Proof. intros Hc. by eapply same_wait_keep. Qed.

Lemma a_wake_same cause t A n : same_wait (fst A) (fst (a_wake cause t A)) n.
Proof. unfold a_wake. destruct (fst A !! t) eqn:E; [|done]. by eapply readied_wait. Qed.

Lemma nodes_ok_dom L L' : dom L' = dom L -> nodes_ok L -> nodes_ok L'.
Proof. intros E H n Hn. rewrite E. by apply H. Qed.

Lemma q_ready_settle t pri Q :
  q_ready t pri (<[LWait t := []]> (qrm (LWait t) Q)) = q_ready t pri Q.
Proof.
  apply map_eq. intros h. rewrite !lookup_q_ready.
  assert (E : forall xs, without (LWait t) (without (LWait t) xs) = without (LWait t) xs).
  { intros xs. apply without_idem. }
  destruct (decide (h = LReady (pri - 1))) as [->|].
  { rewrite lookup_insert_ne, lookup_qrm, decide_False by done.
    destruct (Q !! _); simpl; [by rewrite E|done]. }
  destruct (decide (h = LHead t)), (decide (h = LWait t)) as [->|]; try done.
  rewrite lookup_insert_ne, lookup_qrm, decide_False by done.
  destruct (Q !! h); simpl; [by rewrite E|done].
Qed.

(** Where a waiting task's nodes may be when [tkmc_complete_wait] is called. *)
Definition wait_nodes (Q : queues) (t pri : Z) : Prop :=
  (alone Q (LHead t) \/ inq Q LTimer (LHead t)) /\
  (alone Q (LWait t) \/ exists h, inq Q h (LWait t)) /\
  is_Some (Q !! LReady (pri - 1)).

Lemma wp_off_timer {A} k Q t pri (m : K A) Phi :
  rep (links k) Q -> wait_nodes Q t pri ->
  (forall L Q1, rep L Q1 -> dom L = dom (links k) -> loose Q1 (LHead t) ->
     Q1 = Q \/ Q1 = qrm (LHead t) Q -> wp m Phi (set_links L k)) ->
  wp (empty <- list_empty (LHead t) ;;
      (if negb empty then list_del (LHead t) else ret tt) ;;; m) Phi k.
Proof.
  intros Hr [[Ha|Hi] _] H; apply wp_bind.
  - eapply wp_list_empty_alone; [done..|]. simpl. apply wp_bind, wp_ret.
    specialize (H (links k) Q Hr eq_refl (rep_alone_loose _ _ _ Hr Ha) (or_introl eq_refl)).
    by destruct k.
  - eapply wp_list_empty_in; [done..|]. simpl. apply wp_bind.
    eapply wp_list_del; [done..|]. intros L HL HD. eapply H; [done|done| |by right].
    by eapply loose_qrm.
Qed.

Lemma wp_off_queue {A} k Q t (m : K A) Phi :
  rep (links k) Q -> nodes_ok (links k) -> task_idx t ->
  alone Q (LWait t) \/ (exists h, inq Q h (LWait t)) ->
  (forall L, rep L (<[LWait t := []]> (qrm (LWait t) Q)) -> dom L = dom (links k) ->
     wp m Phi (set_links L k)) ->
  wp (empty <- list_empty (LWait t) ;;
      (if negb empty then list_del (LWait t) ;;; list_init (LWait t) else ret tt) ;;; m) Phi k.
Proof.
  intros Hr Hn Ht [Ha|[h Hi]] H; apply wp_bind.
  - eapply wp_list_empty_alone; [done..|]. simpl. apply wp_bind, wp_ret.
    specialize (H (links k)). rewrite qrm_init_alone in H;
      [|done|by apply (rep_alone_loose _ _ _ Hr Ha)].
    specialize (H Hr eq_refl). by destruct k.
  - eapply wp_list_empty_in; [done..|]. simpl. apply wp_bind, wp_bind.
    eapply wp_list_del; [done..|]. intros L HL HD.
    eapply wp_list_init; [exact HL| | |].
    + intros h'. rewrite inq_qrm. naive_solver.
    + proj. rewrite HD. by apply Hn.
    + intros L' HL' HD'. proj. apply H; [done|congruence].
Qed.

(** *** [tkmc_complete_wait], up to what it calls at its end *)

(** The end of [tkmc_complete_wait]. *)
Definition serve_next (serve : Z -> K unit) (t cause tskwait0 : Z) : K unit :=
  if bool_decide (tskwait0 = TTW_SEM)
     && (bool_decide (cause = E_TMOUT) || bool_decide (cause = E_RLWAI)) then
    c <- tcb_get t ;;
    s <- winfo_semcb c ;;
    serve s
  else ret tt.

Lemma wp_complete_wait_with serve t cause k Q c (Phi : unit -> kernel -> Prop) :
  rep (links k) Q -> nodes_ok (links k) -> task_idx t -> tcbs k !! t = Some c ->
  wait_nodes Q t (itskpri c) ->
  (forall L, rep L (q_ready t (itskpri c) Q) -> dom L = dom (links k) ->
     wp (serve_next serve t cause (tskwait c)) Phi
        (with_lt L (<[t := readied cause c]> (tcbs k)) k)) ->
  wp (complete_wait_with serve t cause) Phi k.
Proof.
  intros Hr Hn Ht Hc Hwn H. destruct Hwn as (Hh & Hw & Hs) eqn:Ewn. clear Ewn.
  unfold complete_wait_with. apply wp_bind. eapply wp_tcb_get; [done|]. cbv zeta.
  eapply wp_off_timer; [done|exact (conj Hh (conj Hw Hs))|].
  intros L1 Q1 HL1 HD1 Hl1 HQ1.
  assert (Hw1 : alone Q1 (LWait t) \/ exists h, inq Q1 h (LWait t)).
  { destruct HQ1 as [->| ->]; [done|]. destruct Hw as [Ha|[h Hi]].
    - left. by apply alone_qrm.
    - right. exists h. rewrite inq_qrm. split; [|done]. intros ->.
      destruct Hh as [Ha|Hi'].
      + destruct Hi as (xs & E & Hi). unfold alone in Ha. simplify_eq.
        by apply elem_of_nil in Hi.
      + pose proof (rep_inq_no_head _ _ _ _ Hr Hi') as E. destruct Hi as (xs & E' & _).
        congruence. }
  eapply wp_off_queue; [done|by eapply nodes_ok_dom|done|done|].
  intros L2 HL2 HD2. proj.
  apply wp_bind. eapply wp_tcb_upd; [done|]. proj.
  apply wp_bind. eapply wp_tcb_upd; [apply lookup_insert_eq|]. proj.
  apply wp_bind. eapply wp_tcb_upd; [apply lookup_insert_eq|]. proj.
  apply wp_bind. eapply wp_tcb_upd; [apply lookup_insert_eq|]. proj.
  rewrite !insert_insert_eq.
  apply wp_bind. eapply wp_tcb_get; [apply lookup_insert_eq|].
  apply wp_bind.
  assert (Hnr : ~ inq Q (LReady (itskpri c - 1)) (LHead t)).
  { intros Hi. destruct Hh as [Ha|Hi']; located. }
  eapply wp_list_add_tail; [exact HL2| | |done| |].
  - rewrite lookup_insert_ne, lookup_qrm, decide_False by done. destruct Hs as [xs E].
    destruct HQ1 as [->| ->]; [|rewrite lookup_qrm, decide_False by done];
      proj; tproj; rewrite E; by eexists.
  - destruct Hl1 as [Hl1 Hl2]. split.
    + rewrite lookup_insert_ne, lookup_qrm, decide_False by done.
      destruct Hl1 as [->| ->]; [by left|by right].
    + intros h Hi. rewrite inq_init in Hi by (left; by rewrite lookup_qrm, decide_True).
      apply inq_qrm in Hi as (_ & _ & Hi). by eapply Hl2.
  - proj. rewrite HD2, HD1. by apply Hn.
  - intros L3 HL3 HD3. proj. tproj.
    rewrite (q_ready_via Q t (itskpri c) Q1 Hnr HQ1) in HL3.
    specialize (H L3 HL3). unfold with_lt, readied in H. apply H. congruence.
Qed.

(** In a state that satisfies the invariant, for a task that waits. *)
Lemma waiting_nodes k Q t c :
  inv k Q -> tcbs k !! t = Some c -> tskstat c = TTS_WAI ->
  task_idx t /\ pri_ok c /\ wait_nodes Q t (itskpri c).
Proof.
  intros (Hr & _ & Ha) Hc Hs. destruct (waiting_in Ha t c Hc Hs) as (Hp & Ht & Hw).
  split; [apply (ai_tcbs _ _ _ _ _ _ Ha); by eexists|]. split; [done|].
  split; [|split].
  - destruct Ht as [[_ ?]|[_ ?]]; [by left|by right].
  - destruct Hw; eauto.
  - apply (ai_head _ _ _ _ _ _ Ha). unfold pri_ok in Hp. simpl. lia.
Qed.

Lemma inv_woken k Q t c cause L :
  inv k Q -> tcbs k !! t = Some c -> pri_ok c ->
  rep L (q_ready t (itskpri c) Q) -> dom L = dom (links k) ->
  inv (with_lt L (<[t := readied cause c]> (tcbs k)) k) (q_ready t (itskpri c) Q).
Proof.
  intros (Hr & Hn & Ha) Hc Hp HL HD. split; [done|]. split; [by eapply nodes_ok_dom|].
  by apply ainv_ready.
Qed.

(** A wait that ends with nobody to serve. *)
Lemma wp_complete_wait_plain serve t cause k Q c (Phi : unit -> kernel -> Prop) :
  inv k Q -> tcbs k !! t = Some c -> tskstat c = TTS_WAI ->
  tskwait c <> TTW_SEM \/ (cause <> E_TMOUT /\ cause <> E_RLWAI) ->
  (forall L, let k' := with_lt L (<[t := readied cause c]> (tcbs k)) k in
     inv k' (q_ready t (itskpri c) Q) -> Phi tt k') ->
  wp (complete_wait_with serve t cause) Phi k.
Proof.
  intros Hi Hc Hs Hno H. destruct (waiting_nodes _ _ _ _ Hi Hc Hs) as (Ht & Hp & Hw).
  pose proof Hi as (Hr & Hn & Ha).
  eapply wp_complete_wait_with; try done. intros L HL HD.
  assert (E : bool_decide (tskwait c = TTW_SEM) &&
    (bool_decide (cause = E_TMOUT) || bool_decide (cause = E_RLWAI)) = false).
  { destruct Hno as [?|[? ?]].
    - by rewrite (bool_decide_false (tskwait c = _)).
    - by rewrite (bool_decide_false (cause = E_TMOUT)), (bool_decide_false (cause = E_RLWAI)),
        andb_false_r. }
  unfold serve_next. rewrite E. apply wp_ret, H. by apply inv_woken.
Qed.

(** ** Serving the waiters of a semaphore

    The reference: walk the waiters with the units there are. Under [TA_FIRST]
    ([first]) the walk ends at the first that cannot be served. The result is
    who is served, who keeps waiting, and the units left. *)

Definition task_of (n : link) : Z :=
  match n with LHead t | LWait t => t | _ => 0 end.

Fixpoint grant (T : gmap Z TCB) (first : bool) (cnt : Z) (ws : list link)
    : list link * list link * Z :=
  match ws with
  | [] => ([], [], cnt)
  | n :: ws =>
    if decide (cnt < wreq T n) then
      if first then ([], n :: ws, cnt)
      else let '(g, kept, rem) := grant T first cnt ws in (g, n :: kept, rem)
    else if decide (cnt - wreq T n <= 0) then ([n], ws, cnt - wreq T n)
    else let '(g, kept, rem) := grant T first (cnt - wreq T n) ws in (n :: g, kept, rem)
  end.

Definition sum_req (T : gmap Z TCB) (ns : list link) : Z :=
  foldr (fun n z => wreq T n + z) 0 ns.

Lemma grant_sum T first cnt ws g kept rem :
  grant T first cnt ws = (g, kept, rem) -> rem + sum_req T g = cnt.
Proof.
  revert cnt g kept rem. induction ws as [|n ws IH]; intros cnt g kept rem; simpl.
  { intros. simplify_eq/=. lia. }
  repeat case_decide; [destruct first|..]; try (intros; simplify_eq/=; lia).
  - destruct (grant T false cnt ws) as [[g' k'] l'] eqn:E. intros. simplify_eq. eauto.
  - destruct (grant T first (cnt - wreq T n) ws) as [[g' k'] l'] eqn:E.
    intros. simplify_eq/=. specialize (IH _ _ _ _ E). lia.
Qed.

Lemma grant_bounds T first cnt ws g kept rem :
  0 <= cnt -> Forall (fun n => 1 <= wreq T n) ws ->
  grant T first cnt ws = (g, kept, rem) -> 0 <= rem <= cnt.
Proof.
  revert cnt g kept rem. induction ws as [|n ws IH]; intros cnt g kept rem H0 Hw; simpl.
  { intros. simplify_eq/=. lia. }
  apply Forall_cons in Hw as [Hn Hw].
  repeat case_decide; [destruct first|..]; try (intros; simplify_eq/=; lia).
  - destruct (grant T false cnt ws) as [[g' k'] l'] eqn:E. intros. simplify_eq. eauto.
  - destruct (grant T first (cnt - wreq T n) ws) as [[g' k'] l'] eqn:E.
    intros. simplify_eq/=. specialize (IH (cnt - wreq T n) _ _ _ ltac:(lia) Hw E). lia.
Qed.

(** Nobody who keeps waiting could be served with what is left. *)
Lemma grant_settled T first cnt ws g kept rem :
  0 <= cnt -> Forall (fun n => 1 <= wreq T n) ws -> grant T first cnt ws = (g, kept, rem) ->
  if first then forall n, head kept = Some n -> rem < wreq T n
  else Forall (fun n => rem < wreq T n) kept.
Proof.
  revert cnt g kept rem. induction ws as [|n ws IH]; intros cnt g kept rem H0 Hw; simpl.
  { intros. simplify_eq/=. by destruct first. }
  apply Forall_cons in Hw as [Hn Hw]. repeat case_decide.
  - destruct first; [intros; by simplify_eq/=|].
    destruct (grant T false cnt ws) as [[g' k'] l'] eqn:E. intros. simplify_eq.
    constructor; [|by eapply IH].
    destruct (grant_bounds _ _ _ _ _ _ _ H0 Hw E). lia.
  - intros. simplify_eq. destruct first.
    + intros m Hm. destruct kept; simplify_eq/=. apply Forall_cons in Hw as [? _]. lia.
    + eapply Forall_impl; [exact Hw|]. simpl. lia.
  - destruct (grant T first (cnt - wreq T n) ws) as [[g' k'] l'] eqn:E.
    intros. simplify_eq/=. eapply (IH (cnt - wreq T n)); [lia|done|exact E].
Qed.

(** Who is served and who is not are the waiters, in their order. *)
Lemma grant_perm T first cnt ws g kept rem :
  grant T first cnt ws = (g, kept, rem) ->
  g `sublist_of` ws /\ kept `sublist_of` ws /\ ws ≡ₚ g ++ kept.
Proof.
  revert cnt g kept rem. induction ws as [|n ws IH]; intros cnt g kept rem; simpl.
  { intros. by simplify_eq/=. }
  repeat case_decide; [destruct first|..].
  - intros. simplify_eq/=. split; [apply sublist_nil_l|done].
  - destruct (grant T false cnt ws) as [[g' k'] l'] eqn:E. intros. simplify_eq.
    destruct (IH _ _ _ _ E) as (? & ? & Hp). split; [by constructor|]. split; [by constructor|].
    by rewrite <- Permutation_middle, Hp.
  - intros. simplify_eq/=. split; [constructor; apply sublist_nil_l|].
    by split; [constructor|].
  - destruct (grant T first (cnt - wreq T n) ws) as [[g' k'] l'] eqn:E.
    intros. simplify_eq/=. destruct (IH _ _ _ _ E) as (? & ? & Hp).
    split; [by constructor|]. split; [by constructor|]. by rewrite Hp.
Qed.

(** *** The loop of [tkmc_sem_serve_waiters] refines the reference *)

Lemma a_wakes_snoc cause ts t A : a_wakes cause (ts ++ [t]) A = a_wake cause t (a_wakes cause ts A).
Proof. unfold a_wakes. by rewrite foldl_app. Qed.

Lemma a_wakes_same cause ts A n : same_wait (fst A) (fst (a_wakes cause ts A)) n.
Proof.
  revert A. induction ts as [|t ts IH]; intros A; [done|]. simpl.
  specialize (IH (a_wake cause t A)). unfold same_wait in *. unfold a_wakes in *.
  rewrite IH. apply a_wake_same.
Qed.

Lemma a_wake_eq cause t T Q c :
  T !! t = Some c -> a_wake cause t (T, Q) = (<[t := readied cause c]> T, q_ready t (itskpri c) Q).
Proof. intros E. unfold a_wake. simpl. by rewrite E. Qed.

(** [k'] is [k] when the waiters [gs] of [s] were served, [rem] units left. *)
Definition served (k : kernel) (Q : queues) (s : Z) (sc : SEMCB) (gs : list link) (rem : Z)
    (k' : kernel) (Q' : queues) : Prop :=
  exists L T,
    k' = set_semcbs (<[s := set_semcnt rem sc]> (semcbs k)) (with_lt L T k) /\
    a_wakes E_OK (task_of <$> gs) (tcbs k, Q) = (T, Q') /\ inv k' Q'.

Lemma served_refl k Q s sc :
  inv k Q -> semcbs k !! s = Some sc -> served k Q s sc [] (semcnt sc) k Q.
Proof.
  intros Hi Hs. exists (links k), (tcbs k). split; [|done].
  unfold with_lt. rewrite insert_id by (rewrite Hs; by destruct sc). by destruct k.
Qed.

Lemma served_wreq k Q s sc gs rem k' Q' n :
  served k Q s sc gs rem k' Q' -> wreq (tcbs k') n = wreq (tcbs k) n.
Proof.
  intros (L & T & -> & Hw & _). apply wreq_same. unfold with_lt. proj.
  change (tcbs k) with (fst (tcbs k, Q)) at 1. change T with (fst (T, Q')).
  rewrite <- Hw. apply a_wakes_same.
Qed.

Lemma sem_live_cnt T sc ws rem :
  sem_live T sc ws -> 0 <= rem <= semcnt sc -> sem_live T (set_semcnt rem sc) ws.
Proof. intros (H1 & H2 & H3 & H4) H. repeat split; simpl; try lia; done. Qed.

(** The units of a semaphore go down. *)
Lemma inv_sem_cnt k Q s sc ws rem :
  inv k Q -> semcbs k !! s = Some sc -> semid sc = s + 1 -> Q !! LSem s = Some ws ->
  0 <= rem <= semcnt sc -> 0 <= s < CFN_MAX_SEMID ->
  inv (set_semcbs (<[s := set_semcnt rem sc]> (semcbs k)) k) Q.
Proof.
  intros (Hr & Hn & Ha) Hs Hid Hq Hrem Hrange. split; [done|]. split; [done|]. proj.
  apply ainv_set_sem; [done|]. intros _. left. split; [done|]. exists ws. split; [done|].
  destruct (ai_sem _ _ _ _ _ _ Ha s Hrange) as (sc' & Hs' & [(_ & ws' & Hq' & Hl)|(Hid' & _)]);
    simplify_eq; [by apply sem_live_cnt|].
  exfalso. apply (noexs_id_neq s); [unfold CFN_MAX_SEMID in *; lia|congruence].
Qed.

(** The range of the numbers of a live semaphore. *)
Lemma sem_facts k Q s sc ws :
  inv k Q -> 0 <= s < CFN_MAX_SEMID -> semcbs k !! s = Some sc -> semid sc = s + 1 ->
  Q !! LSem s = Some ws -> sem_live (tcbs k) sc ws.
Proof.
  intros (_ & _ & Ha) Hrange Hs Hid Hq.
  destruct (ai_sem _ _ _ _ _ _ Ha s Hrange) as (sc' & Hs' & [(_ & ws' & Hq' & Hl)|(Hid' & _)]);
    simplify_eq; [done|].
  exfalso. apply (noexs_id_neq s); [unfold CFN_MAX_SEMID in *; lia|congruence].
Qed.

(** Serving the next waiter [n]. *)
Lemma served_wake k Q s sc gs rem k' Q' t c L pre rest :
  served k Q s sc gs rem k' Q' -> 0 <= s < CFN_MAX_SEMID -> semid sc = s + 1 ->
  tcbs k' !! t = Some c -> pri_ok c -> Q' !! LSem s = Some (pre ++ LWait t :: rest) ->
  let k1 := with_lt L (<[t := readied E_OK c]> (tcbs k')) k' in
  inv k1 (q_ready t (itskpri c) Q') -> 0 <= rem - wreq (tcbs k) (LWait t) <= rem ->
  let rem' := rem - wreq (tcbs k) (LWait t) in
  served k Q s sc (gs ++ [LWait t]) rem'
    (set_semcbs (<[s := set_semcnt rem' (set_semcnt rem sc)]> (semcbs k1)) k1)
    (q_ready t (itskpri c) Q') /\
  q_ready t (itskpri c) Q' !! LSem s = Some (pre ++ rest).
Proof.
  intros (L0 & T & -> & Hw & Hi) Hrange Hid Hc Hp Hq k1 Hi1 Hrem rem'.
  assert (Hq1 : q_ready t (itskpri c) Q' !! LSem s = Some (pre ++ rest)).
  { rewrite lookup_q_ready, 3!decide_False, Hq by done. simpl.
    pose proof (rep_nodup _ _ _ _ (proj1 Hi) Hq) as [_ Hnd]%NoDup_cons.
    rewrite without_split by done. f_equal. apply without_notin. intros Hin.
    assert (Hin' : LHead t ∈ pre ++ LWait t :: rest) by (clear -Hin; set_solver).
    apply (head_notin_obj _ _ _ _ _ _ t (LSem s) (proj2 (proj2 Hi))); [done|].
    by exists (pre ++ LWait t :: rest). }
  split; [|done]. exists L, (<[t := readied E_OK c]> T).
  split; [|split].
  - unfold k1, with_lt. proj. by rewrite insert_insert_eq.
  - rewrite fmap_app. simpl. rewrite a_wakes_snoc, Hw. unfold with_lt in Hc. proj.
    by apply a_wake_eq.
  - eapply inv_sem_cnt; try done.
    unfold k1, with_lt. proj. apply lookup_insert_eq.
Qed.

(** The invariant of the loop: the waiters in [pre] were passed over, those in
    [rest] are to come, and the reference gives from here what it gives from
    the start. *)
Section serve.
Context {k : kernel} {Q : queues} {s : Z} {sc : SEMCB} {ws : list link}.
Hypothesis Hrange : 0 <= s < CFN_MAX_SEMID.
Hypothesis Hs : semcbs k !! s = Some sc.
Hypothesis Hid : semid sc = s + 1.
Hypothesis Hq : Q !! LSem s = Some ws.
Hypothesis Hi : inv k Q.
Let first : bool := bool_decide (Z.land (sematr sc) TA_CNT = 0).

Definition serving (pre rest : list link) (Q' : queues) (k' : kernel) : Prop :=
  exists gs rem, served k Q s sc gs rem k' Q' /\ Q' !! LSem s = Some (pre ++ rest) /\
    0 <= rem <= semcnt sc /\
    grant (tcbs k) first (semcnt sc) ws =
      (let '(g, kept, r) := grant (tcbs k) first rem rest in (gs ++ g, pre ++ kept, r)).

(** What the loop leaves, whether it ran to its end or broke off. *)
Definition serve_done (k' : kernel) : Prop :=
  exists Q' gs kept rem, grant (tcbs k) first (semcnt sc) ws = (gs, kept, rem) /\
    served k Q s sc gs rem k' Q' /\ Q' !! LSem s = Some kept.

Lemma serving_end pre Q' k' : serving pre [] Q' k' -> serve_done k'.
Proof.
  intros (gs & rem & Hv & Hk & _ & Hg). simpl in Hg. rewrite !app_nil_r in *. by eexists _, _, _, _.
Qed.

(** The waiter whose turn it is, and what is left. *)
Lemma serving_head pre n rest Q' k' gs rem :
  served k Q s sc gs rem k' Q' -> Q' !! LSem s = Some (pre ++ n :: rest) ->
  exists t c cnt, n = LWait t /\ task_idx t /\ tcbs k' !! t = Some c /\ tskstat c = TTS_WAI /\
    tskwait c = TTW_SEM /\ winfo c = WSemaphore cnt s /\ wreq (tcbs k) n = cnt /\
    semcbs k' !! s = Some (set_semcnt rem sc) /\ 1 <= cnt <= maxsem sc /\
    0 <= rem <= maxsem sc /\ maxsem sc <= TK_SEMAPHORE_MAXCNT.
Proof using Hrange Hid Hs Hq Hi.
  intros Hv Hk. pose proof Hv as (L & T & Ek & _ & Hi').
  destruct (waiter_sem (proj1 Hi') (proj2 (proj2 Hi')) s n)
    as (t & c & cnt & -> & Ht & Hc & Hst & Htw & Hwi).
  { exists (pre ++ n :: rest). split; [done|]. set_solver. }
  assert (Hreq : wreq (tcbs k) (LWait t) = cnt).
  { rewrite <- (served_wreq _ _ _ _ _ _ _ _ (LWait t) Hv). unfold wreq, waiter.
    by rewrite Hc, Hwi. }
  assert (Hsc : semcbs k' !! s = Some (set_semcnt rem sc)).
  { rewrite Ek. apply lookup_insert_eq. }
  destruct (sem_facts _ _ _ _ _ Hi' Hrange Hsc Hid Hk) as (Hc1 & Hc2 & _ & Hreqs).
  simpl in Hc1, Hc2, Hreqs. apply Forall_app in Hreqs as [_ [Hn _]%Forall_cons].
  rewrite (served_wreq _ _ _ _ _ _ _ _ (LWait t) Hv) in Hn.
  exists t, c, cnt. do 8 (split; [done|]). lia.
Qed.

Lemma wp_serve_body pre n rest Q' k' :
  serving pre (n :: rest) Q' k' ->
  wp (serve_body complete_wait_inner s n)
     (fun go k'' => if (go : bool) then exists pre' Q'', serving pre' rest Q'' k''
                    else serve_done k'') k'.
Proof using Hrange Hs Hid Hq Hi.
  intros (gs & rem & Hv & Hk & Hrem & Hg). pose proof Hv as (L & T & Ek & Hw & Hi').
  destruct (serving_head _ _ _ _ _ _ _ Hv Hk)
    as (t & c & cnt & -> & Ht & Hc & Hst & Htw & Hwi & Hreq & Hsc & Hcnt & Hc1 & Hc2).
  unfold TK_SEMAPHORE_MAXCNT in Hc2.
  unfold serve_body. apply wp_bind, wp_ret. apply wp_bind. eapply wp_tcb_get; [done|].
  unfold winfo_semcnt. rewrite Hwi. apply wp_bind, wp_ret.
  apply wp_bind. eapply wp_sem_get; [done|]. simpl. simpl in Hg. rewrite Hreq in Hg.
  destruct (decide (rem < cnt)) as [Hlt|Hge].
  - rewrite bool_decide_true by done. fold first.
    destruct first eqn:Ef.
    + apply wp_ret. rewrite app_nil_r in Hg. rewrite <- Ef in Hg. by eexists _, _, _, _.
    + apply wp_ret. exists (pre ++ [LWait t]), Q', gs, rem. split; [done|].
      split; [by rewrite <- app_assoc|]. split; [done|]. rewrite Ef, Hg.
      destruct (grant (tcbs k) false rem rest) as [[g kept] r]. by rewrite <- app_assoc.
  - rewrite bool_decide_false by done. apply wp_bind.
    eapply (wp_complete_wait_plain _ _ _ _ Q' c); [done..|by right|].
    intros L' k1 Hi1.
    destruct (waiting_nodes _ _ _ _ Hi' Hc Hst) as (_ & Hp & _).
    destruct (served_wake _ _ _ _ _ _ _ _ t c L' pre rest Hv Hrange Hid Hc Hp Hk Hi1)
      as [Hv1 Hk1]; [lia|]. rewrite Hreq in Hv1. fold k1 in Hv1.
    apply wp_bind. eapply wp_sem_get; [unfold k1, with_lt; proj; exact Hsc|]. simpl.
    apply wp_bind, wp_int_op; [unfold is_i32; lia|].
    apply wp_bind. eapply wp_sem_upd; [unfold k1, with_lt; proj; exact Hsc|].
    apply wp_ret. destruct (decide (rem - cnt <= 0)).
    + rewrite bool_decide_true by done. simpl. by eexists _, _, _, _.
    + rewrite bool_decide_false by done. simpl.
      exists pre, (q_ready t (itskpri c) Q'), (gs ++ [LWait t]), (rem - cnt).
      split; [done|]. split; [done|]. split; [lia|]. rewrite Hg.
      destruct (grant (tcbs k) first (rem - cnt) rest) as [[g kept] r].
      by rewrite <- app_assoc.
Qed.

Lemma wp_sem_serve (Phi : unit -> kernel -> Prop) :
  (forall k', serve_done k' -> Phi tt k') -> wp (tkmc_sem_serve_waiters s) Phi k.
Proof using Hrange Hs Hid Hq Hi.
  intros H. unfold tkmc_sem_serve_waiters, sem_serve_with. apply wp_bind.
  eapply (wp_for_each_safe (LSem s) serving _ (fun _ k' => wp (ret tt) Phi k')).
  - intros pre rest Q' k' (gs & rem & (L & T & _ & _ & Hi') & Hk & _).
    split; [apply Hi'|done].
  - intros pre n rest Q' k' Hv. eapply wp_mono; [by eapply wp_serve_body|].
    intros [] k'' Hgo; simpl in *; [done|]. by apply wp_ret, H.
  - intros pre Q' k' Hv. apply wp_ret, H. by eapply serving_end.
  - exists [], (semcnt sc). split; [by apply served_refl|]. split; [done|].
    destruct (sem_facts _ _ _ _ _ Hi Hrange Hs Hid Hq) as (? & _). split; [lia|].
    by destruct (grant (tcbs k) first (semcnt sc) ws) as [[? ?] ?].
Qed.
End serve.

(** ** What a wake-up leaves alone *)

(** [k'] differs from [k] in the links, the objects' values, and in tasks that
    waited in [k] and are ready in [k']. *)
Definition woken_only (k k' : kernel) : Prop :=
  (exists S F L T, k' = set_flgcbs F (set_semcbs S (with_lt L T k))) /\
  forall t c, tcbs k !! t = Some c ->
    tcbs k' !! t = Some c \/
    (tskstat c = TTS_WAI /\ exists c', tcbs k' !! t = Some c' /\ tskstat c' = TTS_RDY).

Lemma woken_only_refl k : woken_only k k.
Proof. split; [|by left]. exists (semcbs k), (flgcbs k), (links k), (tcbs k). by destruct k. Qed.

Lemma woken_only_trans k1 k2 k3 : woken_only k1 k2 -> woken_only k2 k3 -> woken_only k1 k3.
Proof.
  intros [(S1 & F1 & L1 & T1 & ->) H1] [(S2 & F2 & L2 & T2 & ->) H2].
  split; [by eexists _, _, _, _|]. intros t c Hc.
  destruct (H1 t c Hc) as [Hc1|(Hs & c1 & Hc1 & Hs1)].
  - by apply H2.
  - right. split; [done|]. destruct (H2 t c1 Hc1) as [?|[Hs2 _]]; [by eauto|].
    exfalso. stats. lia.
Qed.

Lemma woken_only_ready k t c L cause :
  tcbs k !! t = Some c -> tskstat c = TTS_WAI ->
  woken_only k (with_lt L (<[t := readied cause c]> (tcbs k)) k).
Proof.
  intros Hc Hs. split.
  - exists (semcbs k), (flgcbs k), L, (<[t := readied cause c]> (tcbs k)). by destruct k.
  - intros t' c' Hc'. unfold with_lt. proj. destruct (decide (t' = t)) as [->|].
    + right. rewrite lookup_insert_eq. simplify_eq. split; [done|]. by eexists.
    + left. by rewrite lookup_insert_ne.
Qed.

Lemma a_wakes_lookup cause ts T Q t :
  fst (a_wakes cause ts (T, Q)) !! t =
  if decide (t ∈ ts) then readied cause <$> T !! t else T !! t.
Proof.
  revert T Q. induction ts as [|x ts IH]; intros T Q; [done|].
  change (a_wakes cause (x :: ts) (T, Q)) with (a_wakes cause ts (a_wake cause x (T, Q))).
  unfold a_wake. simpl. destruct (T !! x) as [c|] eqn:E.
  - rewrite IH. destruct (decide (t = x)) as [->|Hne].
    + rewrite lookup_insert_eq, E, (decide_True (P := x ∈ x :: ts)) by (by left).
      by case_decide.
    + rewrite lookup_insert_ne by done.
      destruct (decide (t ∈ ts)), (decide (t ∈ x :: ts)); try done; set_solver.
  - rewrite IH. destruct (decide (t = x)) as [->|Hne].
    + rewrite E. by destruct (decide _), (decide _).
    + destruct (decide (t ∈ ts)), (decide (t ∈ x :: ts)); try done; set_solver.
Qed.

Lemma served_woken k Q s sc gs rem k' Q' ws :
  served k Q s sc gs rem k' Q' -> inv k Q -> Q !! LSem s = Some ws -> gs `sublist_of` ws ->
  woken_only k k'.
Proof.
  intros (L & T & -> & Hw & _) (Hr & _ & Ha) Hq Hsub. split.
  - exists (<[s := set_semcnt rem sc]> (semcbs k)), (flgcbs k), L, T. by destruct k.
  - intros t c Hc. unfold with_lt. proj.
    pose proof (a_wakes_lookup E_OK (task_of <$> gs) (tcbs k) Q t) as El.
    rewrite Hw in El. simpl in El. rewrite El, Hc.
    case_decide as Hin; [right|by left].
    apply list_elem_of_fmap in Hin as (n & -> & Hn).
    destruct (waiter_sem Hr Ha s n) as (t' & c' & cnt & -> & _ & Hc' & Hs & _).
    { exists ws. split; [done|]. by eapply elem_of_sublist. }
    simpl in *. simplify_eq. split; [done|]. by eexists.
Qed.

(** ** Settled objects *)

Lemma sem_settled_same T T' Q Q' s sc :
  Q' !! LSem s = Q !! LSem s -> (forall n, inq Q (LSem s) n -> same_wait T T' n) ->
  sem_settled T Q s sc -> sem_settled T' Q' s sc.
Proof.
  intros E Hs H ws Hid Hq. rewrite E in Hq. specialize (H ws Hid Hq).
  assert (Hw : forall n, n ∈ ws -> wreq T' n = wreq T n).
  { intros n Hn. apply wreq_same, Hs. by exists ws. }
  case_decide.
  - intros n Hn. rewrite Hw; [by apply H|]. destruct ws; simplify_eq/=. by left.
  - rewrite Forall_forall in *. intros n Hn. rewrite Hw by done. by apply H.
Qed.

Lemma sem_settled_shrinks T T' Q Q' s sc :
  Z.land (sematr sc) TA_CNT <> 0 -> is_Some (Q !! LSem s) -> shrinks T T' Q Q' (LSem s) ->
  sem_settled T Q s sc -> sem_settled T' Q' s sc.
Proof.
  intros Hc [ws Hws] Hs H ws' Hid Hq. specialize (H ws Hid Hws).
  destruct (Hs _ Hws) as (ws1 & E & Hsub & Hsame). simplify_eq.
  rewrite decide_False in * by done. rewrite Forall_forall in *. intros n Hn.
  rewrite (wreq_same T) by auto. apply H. by eapply elem_of_sublist.
Qed.

Lemma flg_settled_shrinks T T' Q Q' f fc :
  is_Some (Q !! LFlg f) -> shrinks T T' Q Q' (LFlg f) ->
  flg_settled T Q f fc -> flg_settled T' Q' f fc.
Proof.
  intros [ws Hws] Hs H ws' Hid Hq. specialize (H ws Hid Hws).
  destruct (Hs _ Hws) as (ws1 & E & Hsub & Hsame). simplify_eq.
  rewrite Forall_forall in *. intros n Hn.
  rewrite (wmatch_same T) by auto. apply H. by eapply elem_of_sublist.
Qed.

Lemma shrinks_trans T1 T2 T3 Q1 Q2 Q3 h :
  shrinks T1 T2 Q1 Q2 h -> shrinks T2 T3 Q2 Q3 h -> shrinks T1 T3 Q1 Q3 h.
Proof.
  intros H1 H2 ws Hw. destruct (H1 _ Hw) as (ws1 & E1 & S1 & W1).
  destruct (H2 _ E1) as (ws2 & E2 & S2 & W2). exists ws2. split; [done|].
  split; [by etrans|]. intros n Hn. unfold same_wait in *. rewrite W2 by done.
  apply W1. by eapply elem_of_sublist.
Qed.

Lemma a_wakes_shrinks cause ts T Q T' Q' h :
  a_wakes cause ts (T, Q) = (T', Q') -> obj_head h ->
  shrinks T T' Q Q' h /\ (is_Some (Q' !! h) -> is_Some (Q !! h)).
Proof.
  revert T Q. induction ts as [|t ts IH]; intros T Q E Ho.
  { simplify_eq/=. split; [by apply obj_same_shrinks|done]. }
  change (a_wakes cause ts (a_wake cause t (T, Q)) = (T', Q')) in E.
  unfold a_wake in E. simpl in E. destruct (T !! t) as [c|] eqn:Ec; [|by apply IH].
  destruct (IH _ _ E Ho) as [Hs Hd]. split.
  - eapply shrinks_trans; [by apply shrinks_q_ready|done].
  - intros H%Hd. rewrite lookup_q_ready, 3!decide_False in H by (intros ->; done).
    destruct (Q !! h); [by eexists|]. by destruct H.
Qed.

Lemma a_wakes_keep cause ts T Q h xs :
  obj_head h -> Q !! h = Some xs ->
  (forall n t, n ∈ xs -> t ∈ ts -> ~ node_of t n) ->
  snd (a_wakes cause ts (T, Q)) !! h = Some xs.
Proof.
  intros Ho. revert T Q. induction ts as [|t ts IH]; intros T Q E Hn; [done|].
  change (a_wakes cause (t :: ts) (T, Q)) with (a_wakes cause ts (a_wake cause t (T, Q))).
  unfold a_wake. simpl. destruct (T !! t) as [c|] eqn:Ec.
  - apply IH.
    + rewrite lookup_q_ready, 3!decide_False, E by (intros ->; done). simpl.
      assert (Ht : forall n, node_of t n -> n ∉ xs).
      { intros n Hnt Hi. apply (Hn n t); [done|by left|done]. }
      rewrite (without_notin (LWait t) xs) by (apply Ht; by right).
      rewrite (without_notin (LHead t) xs) by (apply Ht; by left). done.
    + intros n t' Hi Hi'. apply Hn; [done|by right].
  - apply IH; [done|]. intros n t' Hi Hi'. apply Hn; [done|by right].
Qed.

Lemma flgs_settled_wakes cause ts T Q T' Q' (F : gmap Z FLGCB) :
  a_wakes cause ts (T, Q) = (T', Q') ->
  (forall f fc, F !! f = Some fc -> flg_settled T Q f fc) ->
  forall f fc, F !! f = Some fc -> flg_settled T' Q' f fc.
Proof.
  intros E H f fc HF ws' Hid Hq.
  destruct (a_wakes_shrinks _ _ _ _ _ _ (LFlg f) E) as [Hs Hd]; [done|].
  eapply flg_settled_shrinks; [apply Hd; by eexists|exact Hs|by apply H|done|done].
Qed.

(** Who is left on the timer queue was not woken. *)
Lemma inq_q_ready_timer Q t pri u :
  inq (q_ready t pri Q) LTimer (LHead u) -> u <> t /\ inq Q LTimer (LHead u).
Proof.
  intros (xs & E & Hi). rewrite lookup_q_ready, 3!decide_False in E by done.
  destruct (Q !! LTimer) as [ys|] eqn:Eq; simplify_eq/=.
  apply elem_of_without in Hi as [? Hi]. apply elem_of_without in Hi as [_ Hi].
  split; [congruence|]. by exists ys.
Qed.

Lemma a_wakes_timer cause ts T Q T' Q' u :
  a_wakes cause ts (T, Q) = (T', Q') -> inq Q' LTimer (LHead u) ->
  inq Q LTimer (LHead u) /\ T' !! u = T !! u.
Proof.
  revert T Q. induction ts as [|t ts IH]; intros T Q E Hu; [by simplify_eq/=|].
  change (a_wakes cause ts (a_wake cause t (T, Q)) = (T', Q')) in E.
  unfold a_wake in E. simpl in E. destruct (T !! t) as [c|] eqn:Ec; [|by apply IH].
  destruct (IH _ _ E Hu) as [Hi HT]. apply inq_q_ready_timer in Hi as [Hne Hi].
  split; [done|]. by rewrite HT, lookup_insert_ne.
Qed.

Lemma a_wakes_timer_keep cause ts T Q T' Q' u :
  a_wakes cause ts (T, Q) = (T', Q') -> inq Q LTimer (LHead u) -> u ∉ ts ->
  inq Q' LTimer (LHead u).
Proof.
  revert T Q. induction ts as [|t ts IH]; intros T Q E Hu Hn; [by simplify_eq/=|].
  change (a_wakes cause ts (a_wake cause t (T, Q)) = (T', Q')) in E.
  unfold a_wake in E. simpl in E. apply not_elem_of_cons in Hn as [Hne Hn].
  destruct (T !! t) as [c|] eqn:Ec; [|by eapply IH]. eapply IH; [exact E| |done].
  destruct Hu as (xs & Ex & Hi). exists (without (LHead t) (without (LWait t) xs)).
  rewrite lookup_q_ready, 3!decide_False, Ex by done. split; [done|].
  apply elem_of_without. split; [congruence|]. by apply elem_of_without.
Qed.

Lemma timers_live_wakes cause ts T Q T' Q' :
  a_wakes cause ts (T, Q) = (T', Q') -> timers_live T Q -> timers_live T' Q'.
Proof.
  intros E H t c Hc Hi. destruct (a_wakes_timer _ _ _ _ _ _ _ E Hi) as [Hi' HT].
  eapply H; [|done]. congruence.
Qed.

Definition wait_head (h : link) : Prop :=
  match h with LSem _ | LFlg _ | LMbx _ => True | _ => False end.

Lemma kind_obj h n : wait_head h -> kind_ok h n -> exists t, n = LWait t.
Proof. intros Hh Hk. destruct h, n; try done; by eexists. Qed.

(** The waiters of one object are on no other object's queue. *)
Section other_objects.
Context {k : kernel} {Q : queues} {h : link} {ws gs : list link} {cause : Z}.
Context {T : gmap Z TCB} {Q' : queues}.
Hypothesis Hi : inv k Q.
Hypothesis Hh : wait_head h.
Hypothesis Hq : Q !! h = Some ws.
Hypothesis Hgs : gs `sublist_of` ws.
Hypothesis Hw : a_wakes cause (task_of <$> gs) (tcbs k, Q) = (T, Q').

Lemma obj_member n : n ∈ ws -> exists t, n = LWait t.
Proof using Hi Hh Hq.
  intros Hn. apply (kind_obj h); [done|]. destruct Hi as (_ & _ & Ha).
  apply (ai_kind _ _ _ _ _ _ Ha). by exists ws.
Qed.

Lemma other_obj h' n t : obj_head h' -> h' <> h -> inq Q h' n -> LWait t ∈ ws -> ~ node_of t n.
Proof using Hi Hq.
  destruct Hi as (Hr & _ & Ha). intros Ho Hne Hin Ht [->| ->].
  - by apply (head_notin_obj _ _ _ _ _ _ t h' Ha Ho).
  - apply Hne. eapply rep_inq_unique; [exact Hr|exact Hin|by exists ws].
Qed.

(** Waking them leaves the other queues alone. *)
Lemma a_wakes_other h' xs : obj_head h' -> h' <> h -> Q !! h' = Some xs -> Q' !! h' = Some xs.
Proof using Hi Hh Hq Hgs Hw.
  intros Ho Hne Hx. change Q' with (snd (T, Q')). rewrite <- Hw.
  apply a_wakes_keep; [done|done|]. intros n t Hn Ht.
  apply list_elem_of_fmap in Ht as (m & -> & Hm).
  assert (Hmw : m ∈ ws) by (by eapply elem_of_sublist).
  destruct (obj_member m Hmw) as [t ->]. apply (other_obj h'); try done. by exists xs.
Qed.

Lemma wakes_sem_settled s sc : LSem s <> h ->
  sem_settled (tcbs k) Q s sc -> sem_settled T Q' s sc.
Proof using Hi Hh Hq Hgs Hw.
  intros Hne Hs ws' Hid' Hq'.
  destruct (a_wakes_shrinks _ _ _ _ _ _ (LSem s) Hw) as [_ Hd]; [done|].
  destruct Hd as [ws0 Hq0]; [by exists ws'|].
  eapply (sem_settled_same (tcbs k) _ Q Q'); [|..|exact Hs|done|done].
  - by rewrite Hq0, (a_wakes_other (LSem s) ws0).
  - intros n _. pose proof (a_wakes_same cause (task_of <$> gs) (tcbs k, Q) n) as Hsame.
    by rewrite Hw in Hsame.
Qed.
End other_objects.

Lemma served_objs k Q s sc ws gs kept rem k' Q' :
  inv k Q -> 0 <= s < CFN_MAX_SEMID -> semcbs k !! s = Some sc -> semid sc = s + 1 ->
  Q !! LSem s = Some ws ->
  grant (tcbs k) (bool_decide (Z.land (sematr sc) TA_CNT = 0)) (semcnt sc) ws
    = (gs, kept, rem) ->
  served k Q s sc gs rem k' Q' -> Q' !! LSem s = Some kept ->
  (forall s' sc', s' <> s -> semcbs k !! s' = Some sc' -> sem_settled (tcbs k) Q s' sc') ->
  flgs_settled k Q -> objs_settled k' Q'.
Proof.
  intros Hi Hrange Hs Hid Hq Hg Hv Hk Hother Hf.
  destruct (sem_facts _ _ _ _ _ Hi Hrange Hs Hid Hq) as (Hc1 & Hc2 & _ & Hreq).
  assert (Hreq' : Forall (fun n => 1 <= wreq (tcbs k) n) ws).
  { eapply Forall_impl; [exact Hreq|]. simpl. lia. }
  pose proof (grant_settled _ _ _ _ _ _ _ (proj1 Hc1) Hreq' Hg) as Hset.
  pose proof (grant_perm _ _ _ _ _ _ _ Hg) as (Hsub & _ & _).
  pose proof Hv as (L & T & -> & Hw & Hi'). split.
  - intros s' sc' Hs'. proj. destruct (decide (s' = s)) as [->|Hne].
    + rewrite lookup_insert_eq in Hs'. simplify_eq. intros ws' _ Hq'. simplify_eq. simpl.
      assert (Hwr : forall n, wreq (tcbs (with_lt L T k)) n = wreq (tcbs k) n).
      { intros n. by rewrite <- (served_wreq _ _ _ _ _ _ _ _ n Hv). }
      case_decide; [rewrite bool_decide_true in Hset by done
                   |rewrite bool_decide_false in Hset by done].
      * intros n Hn. rewrite Hwr. by apply Hset.
      * eapply Forall_impl; [exact Hset|]. simpl. intros n. by rewrite Hwr.
    + rewrite lookup_insert_ne in Hs' by done.
      eapply (wakes_sem_settled (h := LSem s) Hi I Hq Hsub Hw); [congruence|by apply Hother].
  - unfold flgs_settled. proj. by eapply flgs_settled_wakes.
Qed.

(** ** [tkmc_complete_wait] *)

(** Whether the end of the wait makes room for other waiters of a semaphore. *)
Definition serves (c : TCB) (cause : Z) : bool :=
  bool_decide (tskwait c = TTW_SEM) &&
  (bool_decide (cause = E_TMOUT) || bool_decide (cause = E_RLWAI)).

(** [u] waits for units of the semaphore [s], and how many of those that [us] ask
    for are of [s]. *)
Definition on_sem (T : gmap Z TCB) (u s : Z) : Prop := exists c cnt, T !! u = Some c /\
  tskstat c = TTS_WAI /\ tskwait c = TTW_SEM /\ winfo c = WSemaphore cnt s.

Definition asked (T : gmap Z TCB) (s u : Z) : Z :=
  match winfo <$> T !! u with
  | Some (WSemaphore cnt s') => if decide (s' = s) then cnt else 0
  | _ => 0
  end.
Definition units (T : gmap Z TCB) (s : Z) (us : list Z) : Z :=
  foldr (fun u z => asked T s u + z) 0 us.

Lemma units_app T s us vs : units T s (us ++ vs) = units T s us + units T s vs.
Proof. induction us as [|u us IH]; simpl; [lia|]. rewrite IH. lia. Qed.

Lemma units_same T T' s us : (forall u, u ∈ us -> (winfo <$> T' !! u) = (winfo <$> T !! u)) ->
  units T' s us = units T s us.
Proof.
  induction us as [|u us IH]; simpl; intros H; [done|].
  rewrite IH by (intros v Hv; apply H; by right). unfold asked. by rewrite H by (by left).
Qed.

Lemma units_other T s s' us : s' <> s -> Forall (fun u => on_sem T u s) us ->
  units T s' us = 0.
Proof.
  intros Hne. induction 1 as [|u us (c & cnt & Hc & _ & _ & Hw) _ IH]; simpl; [done|].
  unfold asked. rewrite Hc. simpl. rewrite Hw, decide_False by done. lia.
Qed.

Lemma units_req T s us : Forall (fun u => on_sem T u s) us ->
  sum_req T (LWait <$> us) = units T s us.
Proof.
  unfold sum_req, units.
  induction 1 as [|u us (c & cnt & Hc & _ & _ & Hw) _ IH]; [done|].
  rewrite fmap_cons. cbn [foldr]. rewrite IH. f_equal. unfold asked, wreq. simpl.
  rewrite Hc. simpl. by rewrite Hw, decide_True.
Qed.

Definition completed (k : kernel) (Q : queues) (t : Z) (c : TCB) (cause : Z)
    (k' : kernel) (Q' : queues) : Prop :=
  exists L, let k1 := with_lt L (<[t := readied cause c]> (tcbs k)) k in
    let Q1 := q_ready t (itskpri c) Q in
    inv k1 Q1 /\
    if serves c cause then
      exists s cnt sc ws gs kept rem,
        winfo c = WSemaphore cnt s /\ 0 <= s < CFN_MAX_SEMID /\
        semcbs k !! s = Some sc /\ semid sc = s + 1 /\ Q1 !! LSem s = Some ws /\
        grant (tcbs k1) (bool_decide (Z.land (sematr sc) TA_CNT = 0)) (semcnt sc) ws
          = (gs, kept, rem) /\
        served k1 Q1 s sc gs rem k' Q' /\ Q' !! LSem s = Some kept
    else k' = k1 /\ Q' = Q1.

(** The semaphore a task waits for. *)
Lemma waits_sem_inv k Q t c :
  inv k Q -> tcbs k !! t = Some c -> tskstat c = TTS_WAI -> tskwait c = TTW_SEM ->
  exists cnt s sc ws, winfo c = WSemaphore cnt s /\ 0 <= s < CFN_MAX_SEMID /\
    semcbs k !! s = Some sc /\ semid sc = s + 1 /\ Q !! LSem s = Some ws /\ LWait t ∈ ws.
Proof.
  intros (Hr & _ & Ha) Hc Hs Hw. destruct (waiting_in Ha t c Hc Hs) as (_ & _ & Hwo).
  destruct Hwo as [[?|?] _|cnt s _ Hwi Hi|? ? ? ? ?|? ? ?]; try (exfalso; stats; lia).
  pose proof (ai_kind _ _ _ _ _ _ Ha _ _ Hi) as [_ Hrange].
  destruct (ai_sem _ _ _ _ _ _ Ha s Hrange) as (sc & Hsc & [(Hid & ws & Hq & _)|(_ & Hf)]).
  - exists cnt, s, sc, ws. repeat (split; [done|]). destruct Hi as (ws' & E & ?). by simplify_eq.
  - pose proof (rep_inq_no_head _ _ _ _ Hr Hf). destruct Hi as (? & ? & _). congruence.
Qed.

Lemma wp_complete_wait t cause k Q c (Phi : unit -> kernel -> Prop) :
  inv k Q -> tcbs k !! t = Some c -> tskstat c = TTS_WAI ->
  (forall k' Q', completed k Q t c cause k' Q' -> Phi tt k') ->
  wp (tkmc_complete_wait t cause) Phi k.
Proof.
  intros Hi Hc Hs H. destruct (waiting_nodes _ _ _ _ Hi Hc Hs) as (Ht & Hp & Hw).
  pose proof Hi as (Hr & Hn & Ha).
  eapply wp_complete_wait_with; try done. intros L HL HD.
  pose proof (inv_woken k Q t c cause L Hi Hc Hp HL HD) as Hi1.
  unfold serve_next. fold (serves c cause). destruct (serves c cause) eqn:Es.
  - assert (Ew : tskwait c = TTW_SEM).
    { unfold serves in Es. by apply andb_prop in Es as [?%bool_decide_eq_true _]. }
    destruct (waits_sem_inv k Q t c Hi Hc Hs Ew)
      as (cnt & s & sc & ws & Hwi & Hrange & Hsc & Hid & Hq & _).
    assert (Hq1 : q_ready t (itskpri c) Q !! LSem s =
      Some (without (LHead t) (without (LWait t) ws))).
    { by rewrite lookup_q_ready, 3!decide_False, Hq. }
    apply wp_bind. eapply wp_tcb_get; [unfold with_lt; proj; apply lookup_insert_eq|].
    unfold winfo_semcb. simpl. rewrite Hwi. apply wp_bind, wp_ret.
    eapply (wp_sem_serve Hrange (k := with_lt L (<[t:=readied cause c]> (tcbs k)) k));
      [exact Hsc|done|exact Hq1|done|].
    intros k' (Q' & gs & kept & rem & Hg & Hv & Hk). apply (H k' Q'). exists L.
    split; [done|]. rewrite Es. by eexists s, cnt, sc, _, gs, kept, rem.
  - apply wp_ret. apply (H _ (q_ready t (itskpri c) Q)). exists L. by rewrite Es.
Qed.

(** Those that the reference serves. *)
Lemma granted_waiters k Q s first cnt ws gs kept rem : inv k Q -> Q !! LSem s = Some ws ->
  grant (tcbs k) first cnt ws = (gs, kept, rem) ->
  gs = LWait <$> (task_of <$> gs) /\ NoDup (task_of <$> gs) /\
  Forall (fun u => on_sem (tcbs k) u s) (task_of <$> gs).
Proof.
  intros (Hr & _ & Ha) Hq Hg. destruct (grant_perm _ _ _ _ _ _ _ Hg) as (Hsub & _).
  pose proof (rep_nodup _ _ _ _ Hr Hq) as [_ Hnd]%NoDup_cons.
  assert (Hgs : Forall (fun n => exists u, n = LWait u /\ on_sem (tcbs k) u s) gs).
  { apply Forall_forall. intros x Hx.
    destruct (waiter_sem Hr Ha s x) as (u & c & m & -> & _ & H1 & H2 & H3 & H4).
    { exists ws. split; [done|]. by eapply elem_of_sublist. }
    exists u. split; [done|]. by exists c, m. }
  assert (E : gs = LWait <$> (task_of <$> gs)).
  { clear -Hgs. induction Hgs as [|x gs (u & -> & _) _ IH]; [done|]. rewrite !fmap_cons, <- IH. done. }
  split; [exact E|]. split.
  - apply (NoDup_fmap_1 LWait). rewrite <- E. by eapply sublist_NoDup.
  - apply Forall_fmap. eapply Forall_impl; [exact Hgs|]. by intros x (u & -> & ?).
Qed.

Section completed.
Context {k : kernel} {Q : queues} {t : Z} {c : TCB} {cause : Z} {k' : kernel} {Q' : queues}.
Hypothesis Hi : inv k Q.
Hypothesis Hc : tcbs k !! t = Some c.
Hypothesis Hs : tskstat c = TTS_WAI.
Hypothesis H : completed k Q t c cause k' Q'.

Lemma completed_inv : inv k' Q'.
Proof using H.
  destruct H as (L & Hi1 & Hd). destruct (serves c cause).
  - destruct Hd as (s & cnt & sc & ws & gs & kept & rem & _ & _ & _ & _ & _ & _ & Hv & _).
    by destruct Hv as (? & ? & _ & _ & ?).
  - by destruct Hd as [-> ->].
Qed.

Lemma completed_woken : woken_only k k'.
Proof using Hc Hs H.
  destruct H as (L & Hi1 & Hd). destruct (serves c cause).
  - destruct Hd as (s & cnt & sc & ws & gs & kept & rem & _ & _ & _ & _ & Hq & Hg & Hv & _).
    eapply woken_only_trans; [by eapply woken_only_ready|].
    eapply served_woken; [exact Hv|exact Hi1|exact Hq|].
    by apply (grant_perm _ _ _ _ _ _ _ Hg).
  - destruct Hd as [-> ->]. by apply woken_only_ready.
Qed.

(** The task itself. *)
Lemma completed_target : tcbs k' !! t = Some (readied cause c).
Proof using H.
  destruct H as (L & Hi1 & Hd). destruct (serves c cause).
  - destruct Hd as (s & cnt & sc & ws & gs & kept & rem & _ & _ & _ & _ & Hq & Hg & Hv & _).
    destruct Hv as (L' & T & -> & Hw & _). unfold with_lt in *. proj.
    pose proof (a_wakes_lookup E_OK (task_of <$> gs) (<[t:=readied cause c]> (tcbs k))
      (q_ready t (itskpri c) Q) t) as El. rewrite Hw in El. simpl in El. rewrite El.
    rewrite decide_False, lookup_insert_eq; [done|]. intros Hin.
    apply list_elem_of_fmap in Hin as (n & Et & Hn).
    pose proof (grant_perm _ _ _ _ _ _ _ Hg) as (Hsub & _).
    assert (Hnw : inq (q_ready t (itskpri c) Q) (LSem s) n).
    { exists ws. split; [done|]. by eapply elem_of_sublist. }
    destruct (waiter_sem (proj1 Hi1) (proj2 (proj2 Hi1)) s n Hnw) as (t' & ? & ? & -> & _).
    simpl in Et. subst t'. by apply inq_q_ready_wait in Hnw.
  - destruct Hd as [-> ->]. unfold with_lt. proj. apply lookup_insert_eq.
Qed.

Lemma settled_ready L :
  let k1 := with_lt L (<[t := readied cause c]> (tcbs k)) k in
  let Q1 := q_ready t (itskpri c) Q in
  objs_settled k Q -> flgs_settled k1 Q1 /\
  forall s sc, semcbs k !! s = Some sc -> ~ inq Q (LSem s) (LWait t) ->
    sem_settled (tcbs k1) Q1 s sc.
Proof using Hc Hi.
  intros k1 Q1 [HS HF]. assert (Ew : a_wakes cause [t] (tcbs k, Q) = (tcbs k1, Q1)).
  { unfold a_wakes. simpl. by rewrite (a_wake_eq _ _ _ _ c). }
  split; [exact (flgs_settled_wakes _ _ _ _ _ _ (flgcbs k) Ew HF)|].
  intros s sc Hsc Hn.
  apply (sem_settled_same (tcbs k) _ Q Q1); [| |by apply HS].
  - unfold Q1. rewrite lookup_q_ready, 3!decide_False by done.
    destruct (Q !! LSem s) as [xs|] eqn:E; [|done]. simpl.
    rewrite (without_notin (LWait t)) by (by eapply notin_list).
    rewrite without_notin; [done|]. eapply notin_list; [|exact E].
    by apply (head_notin_obj _ _ _ _ _ _ t (LSem s) (proj2 (proj2 Hi))).
  - intros n _. by apply readied_wait.
Qed.

Lemma completed_objs :
  objs_settled k Q -> tskwait c <> TTW_SEM \/ cause = E_TMOUT \/ cause = E_RLWAI ->
  objs_settled k' Q'.
Proof using Hi Hc Hs H.
  intros Hset Hcase. destruct H as (L & Hi1 & Hd).
  destruct (settled_ready L Hset) as [HF1 HS1].
  assert (Hqs : forall s, inq Q (LSem s) (LWait t) -> exists cnt,
    tskwait c = TTW_SEM /\ winfo c = WSemaphore cnt s).
  { intros s Hin. destruct (waiter_sem (proj1 Hi) (proj2 (proj2 Hi)) s (LWait t) Hin)
      as (t' & c' & cnt & Et & _ & Hc' & _ & Hw & Hwi). simplify_eq. by exists cnt. }
  destruct (serves c cause) eqn:Es.
  - destruct Hd as (s & cnt & sc & ws & gs & kept & rem & Hwi & Hrange & Hsc & Hid & Hq
      & Hg & Hv & Hk).
    eapply served_objs; [exact Hi1|done|exact Hsc|done|exact Hq|exact Hg|exact Hv|done| |done].
    intros s' sc' Hne Hs'. apply HS1; [done|]. intros Hin.
    destruct (Hqs s' Hin) as (cnt' & _ & Hwi'). congruence.
  - destruct Hd as [-> ->]. split; [|done]. intros s sc Hs'. apply HS1; [done|].
    intros Hin. destruct (Hqs s Hin) as (cnt' & Hw & _).
    unfold serves in Es. rewrite (bool_decide_true (tskwait c = TTW_SEM)) in Es by done.
    destruct Hcase as [?|[Hcs|Hcs]]; [done|..]; rewrite Hcs in Es; done.
Qed.

(** What is on the timer queue afterwards was there, with the same ticks. *)
Lemma completed_timer u :
  inq Q' LTimer (LHead u) -> u <> t /\ inq Q LTimer (LHead u) /\ tcbs k' !! u = tcbs k !! u.
Proof using H.
  destruct H as (L & Hi1 & Hd). intros Hu.
  assert (Hready : inq (q_ready t (itskpri c) Q) LTimer (LHead u) ->
    u <> t /\ inq Q LTimer (LHead u) /\
    (<[t := readied cause c]> (tcbs k)) !! u = tcbs k !! u).
  { intros [Hne Hi']%inq_q_ready_timer. split; [done|]. split; [done|].
    by rewrite lookup_insert_ne. }
  destruct (serves c cause).
  - destruct Hd as (s & cnt & sc & ws & gs & kept & rem & _ & _ & _ & _ & Hq & Hg & Hv & _).
    destruct Hv as (L' & T & -> & Hw & _). unfold with_lt in *. proj.
    destruct (a_wakes_timer _ _ _ _ _ _ _ Hw Hu) as [Hu' HT].
    destruct (Hready Hu') as (? & ? & HT'). split; [done|]. split; [done|]. congruence.
  - destruct Hd as [-> ->]. unfold with_lt. proj. by apply Hready.
Qed.

(** What became of each task. *)
Lemma completed_each u cu : tcbs k !! u = Some cu -> exists cu',
  tcbs k' !! u = Some cu' /\
  ((u = t /\ cu' = readied cause c) \/
   (u <> t /\ tskstat cu = TTS_WAI /\ tskwait cu = TTW_SEM /\ cu' = readied E_OK cu) \/
   (u <> t /\ cu' = cu /\ (inq Q LTimer (LHead u) -> inq Q' LTimer (LHead u)))).
Proof using Hi Hc Hs H.
  intros Hu. destruct (decide (u = t)) as [->|Hne].
  { exists (readied cause c). split; [by apply completed_target|]. by left. }
  assert (Hkeep : inq Q LTimer (LHead u) -> inq (q_ready t (itskpri c) Q) LTimer (LHead u)).
  { intros Hiu. apply (a_wakes_timer_keep cause [t] (tcbs k) Q (<[t := readied cause c]> (tcbs k)));
      [|done|by intros ->%list_elem_of_singleton].
    unfold a_wakes. simpl. by apply a_wake_eq. }
  destruct H as (L & Hi1 & Hd). destruct (serves c cause).
  2:{ destruct Hd as [-> ->]. exists cu. unfold with_lt. proj.
      rewrite lookup_insert_ne by done. split; [done|]. right; right. done. }
  destruct Hd as (s & cnt & sc & ws & gs & kept & rem & _ & _ & _ & _ & Hq & Hg & Hv & _).
  destruct Hv as (L' & T & -> & Hw & _). unfold with_lt in *. proj.
  pose proof (a_wakes_lookup E_OK (task_of <$> gs) (<[t:=readied cause c]> (tcbs k))
    (q_ready t (itskpri c) Q) u) as El. rewrite Hw in El. simpl in El.
  rewrite lookup_insert_ne, Hu in El by done. rewrite El. case_decide as Hin.
  - eexists. split; [done|]. right; left. split; [done|].
    apply list_elem_of_fmap in Hin as (n & -> & Hn).
    pose proof (grant_perm _ _ _ _ _ _ _ Hg) as (Hsub & _).
    destruct (waiter_sem (proj1 Hi1) (proj2 (proj2 Hi1)) s n)
      as (t' & c' & ? & -> & _ & Hc' & Hs' & Hw' & _).
    { exists ws. split; [done|]. by eapply elem_of_sublist. }
    proj. simpl in Hne, Hu. rewrite lookup_insert_ne in Hc' by done. by simplify_eq.
  - exists cu. split; [done|]. right; right. split; [done|]. split; [done|].
    intros Hiu. eapply a_wakes_timer_keep; [exact Hw|by apply Hkeep|done].
Qed.

(** The semaphores after [us] got units. *)
Definition units_left (S S' : gmap Z SEMCB) (T : gmap Z TCB) (us : list Z) : Prop :=
  forall s sc, S !! s = Some sc -> exists rem, S' !! s = Some (set_semcnt rem sc) /\
    semcnt sc = rem + units T s us /\ (0 <= semcnt sc -> 0 <= rem).

Lemma units_left_refl S T : units_left S S T [].
Proof. intros s sc Hx. exists (semcnt sc). split; [by destruct sc|]. simpl. lia. Qed.

(** Those that are given units: they wait for the semaphore for which the task
    waited, and are ready afterwards; the semaphore has so many units less. *)
Lemma completed_gives : exists us, NoDup us /\
  (forall u, u ∈ us -> u <> t /\ (exists s, on_sem (tcbs k) t s /\ on_sem (tcbs k) u s) /\
     exists cu, tcbs k !! u = Some cu /\ tcbs k' !! u = Some (readied E_OK cu)) /\
  (forall u, u <> t -> u ∉ us -> tcbs k' !! u = tcbs k !! u) /\
  units_left (semcbs k) (semcbs k') (tcbs k) us.
Proof using Hi Hc Hs H.
  pose proof completed_inv as Hi'. destruct H as (L & Hi1 & Hd). destruct (serves c cause) eqn:Es.
  2:{ destruct Hd as [-> ->]. exists []. split; [constructor|]. split; [by intros u ?%elem_of_nil|].
      split; [|apply units_left_refl]. intros u Hne _. unfold with_lt. proj. by rewrite lookup_insert_ne. }
  destruct Hd as (s & cnt & sc & ws & gs & kept & rem & Hwi & Hrange & Hsc & Hid & Hq & Hg & Hv & _).
  destruct (granted_waiters _ _ _ _ _ _ _ _ _ Hi1 Hq Hg) as (Egs & Hnd & Hon).
  pose proof (grant_sum _ _ _ _ _ _ _ Hg) as Hsum. rewrite Egs, (units_req _ s) in Hsum by done.
  set (us := task_of <$> gs) in *. set (k1 := with_lt L _ k) in *.
  assert (Hk1 : forall u, u <> t -> tcbs k1 !! u = tcbs k !! u).
  { intros u Hne. unfold k1, with_lt. proj. by rewrite lookup_insert_ne. }
  assert (Hus : forall u, u ∈ us -> u <> t /\ on_sem (tcbs k) u s).
  { rewrite Forall_forall in Hon. intros u Hu. pose proof (Hon u Hu) as (cu & m & Hcu & Hst & Hw).
    assert (Hne : u <> t).
    { intros ->. unfold k1, with_lt in Hcu. proj. rewrite lookup_insert_eq in Hcu. simplify_eq. }
    split; [exact Hne|]. exists cu, m. by rewrite <- Hk1. }
  destruct Hv as (L' & T & Ek' & HA & _).
  assert (HT : forall u, T !! u = if decide (u ∈ us) then readied E_OK <$> tcbs k1 !! u else tcbs k1 !! u).
  { intros u. pose proof (a_wakes_lookup E_OK us (tcbs k1) (q_ready t (itskpri c) Q) u) as El.
    fold us in HA; by rewrite HA in El. }
  exists us. rewrite Ek'. unfold with_lt. proj. change (semcbs k1) with (semcbs k).
  split; [exact Hnd|]. split; [|split].
  - intros u Hu. destruct (Hus u Hu) as [Hne Hou]. split; [exact Hne|]. split.
    + exists s. split; [|exact Hou]. exists c, cnt. unfold serves in Es.
      apply andb_prop in Es as [?%bool_decide_eq_true _]. done.
    + destruct Hou as (cu & m & Hcu & _). exists cu. split; [exact Hcu|].
      by rewrite HT, decide_True, Hk1, Hcu by done.
  - intros u Hne Hu. by rewrite HT, decide_False, Hk1.
  - intros s' sc' Hs'. destruct (decide (s' = s)) as [->|Hne].
    + rewrite lookup_insert_eq. exists rem. assert (sc' = sc) as -> by congruence.
      rewrite (units_same (tcbs k1)) by (intros u Hu; by rewrite Hk1 by apply Hus, Hu).
      split; [done|]. split; [lia|]. intros _. destruct Hi' as (_ & _ & Ha').
      destruct (ai_sem _ _ _ _ _ _ Ha' s Hrange) as (sc1 & Hsc1 & [(_ & ws1 & _ & Hlive)|(Hx & _)]).
      * rewrite Ek' in Hsc1. proj. rewrite lookup_insert_eq in Hsc1. simplify_eq.
        apply Hlive.
      * rewrite Ek' in Hsc1. proj. rewrite lookup_insert_eq in Hsc1. simplify_eq. simpl in Hx.
        destruct (id_bits_ok s) as (E & _); [unfold CFN_MAX_SEMID in *; lia|]. lia.
    + rewrite lookup_insert_ne by done. exists (semcnt sc'). split; [rewrite Hs'; by destruct sc'|].
      rewrite (units_other _ s s' us Hne); [lia|]. apply Forall_forall. intros u Hu. by apply Hus.
Qed.

Lemma completed_settled :
  settled k Q -> tskwait c <> TTW_SEM \/ cause = E_TMOUT \/ cause = E_RLWAI ->
  settled k' Q'.
Proof using Hi Hc Hs H.
  intros [Ho Ht] Hcase. split; [by apply completed_objs|].
  intros u cu Hu Hiu. destruct (completed_timer u Hiu) as (_ & Hi' & E).
  eapply Ht; [by rewrite <- E|done].
Qed.
End completed.
