(* ===== verification/Sched.v ===== *)
(** * Requests to switch the task

    The ends of the calls that change which task should run: [reschedule], the
    four lines with which the calls of task.c, semaphore.c, event_flag.c and
    timer.c end, [tkmc_yield] of [src/kernel/task.c], and the lines with which
    the waiting calls put the caller to sleep for ever. *)

From S2P Require Import Prelude DList Tkernel Kernel Inv Moves Rules Wait.

Open Scope Z_scope.

(** Request a switch when another task than [current] should run. *)
Definition reschedule : K unit :=
  n <- tkmc_get_highest_priority_task ;;
  modify (set_next n) ;;;
  cur <- gets current ;;
  if decide (n <> cur) then dispatch else ret tt.

Definition tkmc_yield : K unit :=
  tmp <- current_tcb ;;
  c <- tcb_get tmp ;;
  intsts <- DI ;;
  list_del (LHead tmp) ;;;
  list_add_tail (LHead tmp) (LReady (itskpri c - 1)) ;;;
  n <- tkmc_get_highest_priority_task ;;
  modify (set_next n) ;;;
  (if decide (Some tmp <> n) then dispatch else ret tt) ;;;
  EI intsts.

(** The wait for ever of the waiting calls: off the ready queue, on no other. *)
Definition wait_forever (t tskwait0 : Z) : K unit :=
  tcb_upd t (set_tskstat TTS_WAI) ;;;
  tcb_upd t (set_tskwait tskwait0) ;;;
  tcb_upd t (set_delay_ticks 0) ;;;
  list_del (LHead t) ;;;
  list_init (LHead t) ;;;
  n <- tkmc_get_highest_priority_task ;;
  modify (set_next n) ;;;
  dispatch.

(** ** What a request establishes *)

Implicit Types (k : kernel) (Q : queues) (t : Z) (h n : link).

(** The current task runs, as long as no switch is requested. *)
Definition cur_ok (k : kernel) : Prop :=
  msip k = 0 -> forall t, current k = Some t ->
    exists c, tcbs k !! t = Some c /\ tskstat c = TTS_RUN.

Definition resched (Q : queues) (k : kernel) : kernel :=
  let k1 := set_next (highest Q) k in
  if decide (highest Q = current k) then k1 else set_msip 1 k1.

(** The state between the calls: well formed, nobody waits in vain, and the
    task to run is chosen. *)
Definition wf (k : kernel) (Q : queues) : Prop := inv k Q /\ settled k Q /\ sched_ok k Q.

Lemma sched_cur_ok k Q : sched_ok k Q -> cur_ok k.
Proof. intros H Hm t Hc. by apply (H t Hc). Qed.

Lemma woken_cur_ok k k' : woken_only k k' -> cur_ok k -> cur_ok k'.
Proof.
  intros [(S & F & L & T & ->) Hw] Hok Hm t Hc. destruct (Hok Hm t Hc) as (c & Ht & Hs).
  exists c. split; [|done]. destruct (Hw t c Ht) as [?|[Hs' _]]; [done|]. exfalso. stats. lia.
Qed.

Lemma resched_sched_ok k Q : cur_ok k -> sched_ok (resched Q k) Q.
Proof.
  intros Hok t Hc. unfold resched in *. case_decide as E; proj.
  - split; [|done]. intros Hm. split; [congruence|]. by apply Hok.
  - split; [|done]. intros; lia.
Qed.

Lemma resched_inv k Q : inv k Q -> inv (resched Q k) Q.
Proof. unfold resched. by case_decide. Qed.

Lemma resched_settled k Q : settled k Q -> settled (resched Q k) Q.
Proof. unfold resched. by case_decide. Qed.

Lemma resched_wf k Q : inv k Q -> settled k Q -> cur_ok k -> wf (resched Q k) Q.
Proof.
  intros. split; [by apply resched_inv|]. split; [by apply resched_settled|].
  by apply resched_sched_ok.
Qed.

Lemma wp_reschedule k Q (Phi : unit -> kernel -> Prop) :
  inv k Q -> Phi tt (resched Q k) -> wp reschedule Phi k.
Proof.
  intros Hi H. unfold reschedule. apply wp_bind. eapply wp_get_highest; [done|].
  apply wp_bind, wp_modify. apply wp_bind, wp_gets. unfold resched in H. proj.
  case_decide; case_decide; try done.
Qed.

Lemma resched_mie Q k : mie (resched Q k) = mie k.
Proof. unfold resched. by case_decide. Qed.

(** The fields the choice of the task leaves alone. *)
Lemma resched_fields Q k b : let k' := set_mie b (resched Q k) in
  tcbs k' = tcbs k /\ semcbs k' = semcbs k /\ flgcbs k' = flgcbs k /\ mbxcbs k' = mbxcbs k /\
  mem k' = mem k.
Proof. unfold resched. by case_decide. Qed.

(** The last lines of a call that may have made a task ready. *)
Lemma wp_reschedule_ret {A} b (r : A) k Q (Phi : A -> kernel -> Prop) :
  inv k Q -> mie k = false -> Phi r (set_mie b (resched Q k)) ->
  wp (reschedule ;;; EI (saved b) ;;; ret r) Phi k.
Proof.
  intros Hi Hm H. apply wp_bind. eapply wp_reschedule; [exact Hi|].
  apply wp_bind, wp_EI; [by rewrite resched_mie|]. by apply wp_ret.
Qed.

(** Leaving a critical section that changed nothing. *)
Lemma wp_leave {A} (r : A) k (Phi : A -> kernel -> Prop) :
  Phi r k -> wp (EI (saved (mie k)) ;;; ret r) Phi (set_mie false k).
Proof. intros H. apply wp_bind, wp_EI; [done|]. apply wp_ret. by destruct k. Qed.

(** ** Taking a node off its list first *)

Lemma qset_qrm h xs n Q : qset h xs n (qrm n Q) = qset h xs n Q.
Proof.
  apply map_eq. intros h'. rewrite !lookup_qset. repeat case_decide; try done.
  rewrite lookup_qrm, decide_False by done. destruct (Q !! h'); [|done]. simpl.
  by rewrite without_idem.
Qed.

Lemma qpush_qrm h n Q : h <> n -> ~ inq Q h n -> qpush h n (qrm n Q) = qpush h n Q.
Proof.
  intros Hne Hn. unfold qpush. rewrite lookup_qrm, decide_False, qset_qrm by done.
  destruct (Q !! h) as [xs|] eqn:E; [|done]. simpl.
  rewrite without_notin; [done|by eapply notin_list].
Qed.

(** *** The yield: to the end of its own ready queue *)

Definition q_rotate (t pri : Z) (Q : queues) : queues :=
  qpush (LReady (pri - 1)) (LHead t) (qrm (LHead t) Q).

Lemma lookup_q_rotate t pri Q h : Q !! LHead t = None ->
  q_rotate t pri Q !! h =
  if decide (h = LReady (pri - 1)) then Some (default [] (without (LHead t) <$> Q !! h) ++ [LHead t])
  else without (LHead t) <$> Q !! h.
Proof.
  intros Hn. unfold q_rotate, qpush. rewrite qset_qrm, lookup_qset.
  case_decide as E; [by rewrite E, lookup_qrm, decide_False|].
  case_decide as E'; [by rewrite E', Hn|done].
Qed.

Lemma ainv_rotate k Q t c :
  inv k Q -> tcbs k !! t = Some c -> ready_stat c ->
  ainv (tcbs k) (semcbs k) (flgcbs k) (mbxcbs k) (current k) (q_rotate t (itskpri c) Q).
Proof.
  intros (Hr & _ & Ha) Hc Hs. destruct (ready_in Ha t c Hc Hs) as (Hi & Hw & Hp & Htw & Hd).
  pose proof (rep_inq_no_head _ _ _ _ Hr Hi) as Hnh.
  pose proof (rep_alone_loose _ _ _ Hr Hw) as [_ Hnw].
  rewrite <- (insert_id (tcbs k) t c) by done.
  assert (Hinq : forall h, inq (q_rotate t (itskpri c) Q) h (LHead t) <->
    h = LReady (itskpri c - 1)).
  { intros h. unfold q_rotate, qpush. rewrite inq_qset. split.
    - by intros [[-> _]|(_ & _ & ? & _)].
    - intros ->. left. split; [done|]. apply elem_of_snoc. by right. }
  assert (Hoth : forall h n, n <> LHead t -> inq (q_rotate t (itskpri c) Q) h n <-> inq Q h n).
  { intros h n Hn. unfold inq. rewrite lookup_q_rotate by done. case_decide as E.
    - split.
      + intros (xs & ? & Hx). simplify_eq. apply elem_of_snoc in Hx as [Hx|Hx]; [|done].
        destruct (Q !! LReady (itskpri c - 1)) as [ys|]; simpl in Hx; [|by apply elem_of_nil in Hx].
        apply elem_of_without in Hx as [_ Hx]. eauto.
      + intros (xs & E' & Hx). eexists. split; [done|]. rewrite E'. simpl.
        apply elem_of_app. left. by apply elem_of_without.
    - split.
      + intros (xs & ? & Hx). destruct (Q !! h) as [ys|]; simplify_eq/=.
        apply elem_of_without in Hx as [_ Hx]. eauto.
      + intros (xs & E' & Hx). rewrite E'. eexists. split; [done|]. by apply elem_of_without. }
  eapply ainv_rest; try done.
  - intros E. by eapply (ai_run _ _ _ _ _ _ Ha).
  - intros n Hn. assert (n <> LHead t) by (intros ->; apply Hn; by left).
    split; [intros h; by apply Hoth|]. unfold alone.
    rewrite lookup_q_rotate by done. split; [|split].
    + intros Hsh E. rewrite decide_False by (intros ->; done). by rewrite E.
    + intros E. rewrite E. case_decide as E'; [|done]. subst n. exfalso.
      destruct (ai_head _ _ _ _ _ _ Ha (LReady (itskpri c - 1))) as [? ?]; [|congruence].
      unfold pri_ok in Hp. simpl. lia.
    + intros [xs E]. rewrite E. case_decide; by eexists.
  - apply task_ready; try done.
    + by apply Hinq.
    + unfold alone. rewrite lookup_q_rotate, decide_False by done. by rewrite Hw.
  - intros h ->%Hinq. simpl. apply (ai_tcbs _ _ _ _ _ _ Ha). by eexists.
  - intros h Hx. apply Hoth in Hx; [|done]. by apply (Hnw h).
  - intros h Ho. rewrite lookup_q_rotate, decide_False by (done || by intros ->).
    destruct (Q !! h) as [ys|] eqn:E; [|done]. simpl. f_equal. apply without_notin.
    eapply notin_list; [|done]. by eapply head_notin_obj.
Qed.

(** The queues of the objects, and who waits there for what, are as before. *)
Lemma objs_frame k Q k' Q' :
  semcbs k' = semcbs k -> flgcbs k' = flgcbs k ->
  (forall h, obj_head h -> Q' !! h = Q !! h) ->
  (forall h n, obj_head h -> inq Q h n -> same_wait (tcbs k) (tcbs k') n) ->
  objs_settled k Q -> objs_settled k' Q'.
Proof.
  intros ES EF HQ HT [HS HF]. split.
  - intros s sc Hs. rewrite ES in Hs.
    eapply sem_settled_same; [by apply HQ| |by apply HS]. intros n. by apply HT.
  - intros f fc Hf. rewrite EF in Hf. intros ws Hid Hq.
    eapply (flg_settled_shrinks (tcbs k) _ Q Q'); [..|exact (HF f fc Hf)|done|done].
    + rewrite <- HQ by done. by eexists.
    + intros ws' E. exists ws'. rewrite HQ by done. split; [done|]. split; [done|].
      intros n Hn. apply (HT (LFlg f)); [done|]. by exists ws'.
Qed.

Lemma settled_frame k Q k' Q' :
  semcbs k' = semcbs k -> flgcbs k' = flgcbs k ->
  (forall h, obj_head h -> Q' !! h = Q !! h) ->
  (forall h n, obj_head h -> inq Q h n -> same_wait (tcbs k) (tcbs k') n) ->
  (timers_live (tcbs k) Q -> timers_live (tcbs k') Q') ->
  settled k Q -> settled k' Q'.
Proof. intros ES EF HQ HT Htl [HO HL]. split; [by eapply objs_frame|by apply Htl]. Qed.

(** ** The task to run *)

Lemma highest_ready k Q t : inv k Q -> highest Q = Some t ->
  exists c xs, tcbs k !! t = Some c /\ ready_stat c /\
    Q !! LReady (itskpri c - 1) = Some (LHead t :: xs).
Proof.
  intros (Hr & _ & Ha) H. destruct (highest_in_some _ _ _ _ H) as (j & Hj & Hq & _).
  unfold ready_first in Hq. destruct (Q !! LReady j) as [[|[] xs]|] eqn:E; simplify_eq.
  destruct (member_ready Hr Ha j (LHead t)) as (t' & c & Et & _ & Hc & Hs & Hp).
  { exists (LHead t :: xs). split; [done|by left]. }
  simplify_eq. exists c, xs. split; [done|]. split; [done|].
  by replace (itskpri c - 1) with j by lia.
Qed.

Lemma ready_first_some k Q i n xs :
  inv k Q -> Q !! LReady i = Some (n :: xs) -> is_Some (ready_first Q i).
Proof.
  intros (Hr & _ & Ha) E. destruct (member_ready Hr Ha i n) as (t & c & -> & _).
  { exists (n :: xs). split; [done|by left]. }
  unfold ready_first. rewrite E. by eexists.
Qed.

(** A ready task is on a queue the search looks at. *)
Lemma ready_looked k Q t c :
  inv k Q -> tcbs k !! t = Some c -> ready_stat c ->
  0 <= itskpri c - 1 < CFN_MAX_PRI /\ is_Some (ready_first Q (itskpri c - 1)).
Proof.
  intros Hi Hc Hs. pose proof Hi as (Hr & _ & Ha).
  destruct (ready_in Ha t c Hc Hs) as ((xs & E & Hin) & _ & Hp & _).
  unfold pri_ok in Hp. split; [lia|]. destruct xs as [|n xs]; [by apply elem_of_nil in Hin|].
  by eapply ready_first_some.
Qed.

(** No ready task has a higher priority than the one that is found. *)
Lemma highest_least k Q t c : inv k Q -> highest Q = Some t -> tcbs k !! t = Some c ->
  forall t' c', tcbs k !! t' = Some c' -> ready_stat c' -> itskpri c <= itskpri c'.
Proof.
  intros Hi E Hc t' c' Hc' Hs'.
  destruct (highest_ready k Q t Hi E) as (c0 & xs & Hc0 & Hs & Hq).
  assert (c0 = c) as -> by congruence.
  destruct (highest_in_some _ _ _ _ E) as (j & Hj & Hf & Hbelow).
  destruct (ready_looked k Q t' c' Hi Hc' Hs') as [Hr' Hf'].
  assert (Ej : j = itskpri c - 1).
  { unfold ready_first in Hf. destruct (Q !! LReady j) as [[|[] ys]|] eqn:Ej; simplify_eq.
    assert (H1 : inq Q (LReady j) (LHead t)) by (exists (LHead t :: ys); split; [done|by left]).
    assert (H2 : inq Q (LReady (itskpri c - 1)) (LHead t))
      by (exists (LHead t :: xs); split; [done|by left]).
    pose proof (inq_same (proj1 Hi) _ _ _ H1 H2). congruence. }
  destruct (decide (itskpri c <= itskpri c')); [done|].
  rewrite Hbelow in Hf' by lia. by destruct Hf'.
Qed.

(** C23: [tkmc_get_highest_priority_task] always returns and changes nothing: it
    gives the first task of the ready queue of the highest priority any ready task
    has, and NULL only when no task is ready. *)
Theorem get_highest_correct k Q : inv k Q ->
  exists r, tkmc_get_highest_priority_task k = Ret r k /\
  match r with
  | Some t => exists c xs, tcbs k !! t = Some c /\ ready_stat c /\
      Q !! LReady (itskpri c - 1) = Some (LHead t :: xs) /\
      forall t' c', tcbs k !! t' = Some c' -> ready_stat c' -> itskpri c <= itskpri c'
  | None => forall t' c', tcbs k !! t' = Some c' -> ~ ready_stat c'
  end.
Proof.
  intros Hi. exists (highest Q). split.
  { pose proof (wp_get_highest k Q (fun r s => r = highest Q /\ s = k) Hi (conj eq_refl eq_refl)) as W.
    unfold wp in W. destruct (tkmc_get_highest_priority_task k); by destruct W as [-> ->] || done. }
  destruct (highest Q) as [t|] eqn:E.
  - destruct (highest_ready k Q t Hi E) as (c & xs & Hc & Hs & Hq).
    exists c, xs. repeat (split; [done|]). intros t' c'. by eapply highest_least.
  - intros t' c' Hc' Hs'. destruct (ready_looked k Q t' c' Hi Hc' Hs') as [Hr' Hf'].
    rewrite (highest_in_none _ _ _ E) in Hf'; [by destruct Hf'|].
    unfold CFN_MAX_PRI in *. lia.
Qed.

Lemma highest_in_ext Q Q' (n : nat) (i : Z) :
  (forall j, Q' !! LReady j = Q !! LReady j) -> highest_in Q' n i = highest_in Q n i.
Proof.
  intros H. revert i. induction n as [|n IH]; intros i; [done|]. simpl.
  unfold ready_first. rewrite H. by rewrite IH.
Qed.

Lemma highest_ext Q Q' : (forall j, Q' !! LReady j = Q !! LReady j) -> highest Q' = highest Q.
Proof. apply highest_in_ext. Qed.

(** ** [tkmc_yield] *)

Lemma highest_some_ready k Q : inv k Q ->
  (exists t c, tcbs k !! t = Some c /\ ready_stat c) -> is_Some (highest Q).
Proof.
  intros Hi (t & c & Hc & Hs). destruct (highest Q) as [u|] eqn:E; [by eexists|].
  destruct (ready_looked k Q t c Hi Hc Hs) as [Hr Hf].
  rewrite (highest_in_none _ _ _ E) in Hf; [by destruct Hf|]. unfold CFN_MAX_PRI in *. lia.
Qed.

Lemma lookup_q_rotate_obj k Q t pri h : inv k Q -> Q !! LHead t = None -> obj_head h ->
  q_rotate t pri Q !! h = Q !! h.
Proof.
  intros (_ & _ & Ha) Hn Ho. rewrite lookup_q_rotate, decide_False by (done || by intros ->).
  destruct (Q !! h) as [ys|] eqn:E; [|done]. simpl. f_equal. apply without_notin.
  eapply notin_list; [|done]. by eapply head_notin_obj.
Qed.

Lemma wp_yield k Q t c (Phi : unit -> kernel -> Prop) :
  inv k Q -> settled k Q -> cur_ok k -> current k = Some t -> tcbs k !! t = Some c ->
  ready_stat c ->
  (forall L, let Q' := q_rotate t (itskpri c) Q in let k1 := resched Q' (set_links L k) in
     wf k1 Q' -> Phi tt k1) ->
  wp tkmc_yield Phi k.
Proof.
  intros Hi Hset Hok Hcur Hc Hs H. pose proof Hi as (Hr & Hn & Ha).
  destruct (ready_in Ha t c Hc Hs) as (Hin & Hw & Hp & _).
  pose proof (rep_inq_no_head _ _ _ _ Hr Hin) as Hnh.
  assert (Ht : task_idx t) by (apply (ai_tcbs _ _ _ _ _ _ Ha); by eexists).
  unfold tkmc_yield. apply wp_bind. eapply wp_current_tcb; [done|].
  apply wp_bind. eapply wp_tcb_get; [done|]. apply wp_bind, wp_DI.
  apply wp_bind. eapply wp_list_del; [exact Hr|exact Hin|]. intros L1 HL1 HD1. proj.
  apply wp_bind. eapply wp_list_add_tail; [exact HL1|..].
  - rewrite lookup_qrm, decide_False by done. destruct Hin as (xs & -> & _). by eexists.
  - by eapply loose_qrm.
  - done.
  - proj. rewrite HD1. by apply Hn.
  - intros L2 HL2 HD2. proj. fold (q_rotate t (itskpri c) Q) in HL2.
    assert (Hi' : inv (set_links L2 k) (q_rotate t (itskpri c) Q)).
    { split; [done|]. split; [eapply nodes_ok_dom; [|done]; proj; congruence|].
      exact (ainv_rotate k Q t c Hi Hc Hs). }
    specialize (H L2). simpl in H.
    apply wp_bind. eapply (wp_get_highest _ (q_rotate t (itskpri c) Q)); [exact Hi'|].
    apply wp_bind, wp_modify. proj.
    assert (Hset' : settled (set_links L2 k) (q_rotate t (itskpri c) Q)).
    { eapply (settled_frame k Q); [done|done| |done| |done].
      - intros h Ho. by eapply lookup_q_rotate_obj.
      - intros Htl u cu Hu Hiu. apply (Htl u cu Hu). destruct Hiu as (xs & E & Hx).
        rewrite lookup_q_rotate, decide_False in E by done.
        destruct (Q !! LTimer) as [ys|] eqn:Ey; simplify_eq/=.
        apply elem_of_without in Hx as [_ Hx]. by exists ys. }
    specialize (H (resched_wf _ _ Hi' Hset' Hok)). unfold resched in H. proj.
    apply wp_bind. rewrite Hcur in H. case_decide as E; case_decide as E'; try congruence.
    + apply wp_ret. apply wp_EI; [done|]. by destruct k.
    + apply wp_dispatch. apply wp_EI; [done|]. by destruct k.
Qed.

(** The queue of the highest ready task is its own; those before it are empty. *)
Lemma highest_level k Q t c : inv k Q -> highest Q = Some t -> tcbs k !! t = Some c ->
  ready_stat c -> 0 <= itskpri c - 1 < CFN_MAX_PRI /\
    forall j, 0 <= j < itskpri c - 1 -> ready_first Q j = None.
Proof.
  intros Hi Hh Hc Hs. pose proof Hi as (Hr & _ & Ha). destruct (ready_in Ha t c Hc Hs) as (Hin & _).
  destruct (highest_in_some _ _ _ _ Hh) as (j & Hj & Hf & Hbelow).
  assert (Ej : j = itskpri c - 1).
  { unfold ready_first in Hf. destruct (Q !! LReady j) as [[|[] ys]|] eqn:Ej; simplify_eq.
    assert (H1 : inq Q (LReady j) (LHead t)) by (exists (LHead t :: ys); split; [done|by left]).
    pose proof (inq_same Hr _ _ _ H1 Hin). congruence. }
  subst j. split; [lia|]. intros j' Hj'. by apply Hbelow.
Qed.

(** After a rotation the head of that queue is the highest ready task. *)
Lemma highest_rotated k Q t c v zs : inv k Q -> highest Q = Some t -> tcbs k !! t = Some c ->
  ready_stat c -> q_rotate t (itskpri c) Q !! LReady (itskpri c - 1) = Some (LHead v :: zs) ->
  highest (q_rotate t (itskpri c) Q) = Some v.
Proof.
  intros Hi Hh Hc Hs Hv. destruct (highest_level k Q t c Hi Hh Hc Hs) as [Hj Hbelow].
  pose proof Hi as (Hr & _ & Ha). destruct (ready_in Ha t c Hc Hs) as (Hin & _).
  pose proof (rep_inq_no_head _ _ _ _ Hr Hin) as Hnh. set (j := itskpri c - 1) in *.
  destruct (highest (q_rotate t (itskpri c) Q)) as [w|] eqn:Ew.
  2:{ exfalso. pose proof (highest_in_none _ _ _ Ew j Hj) as Hx. unfold ready_first in Hx.
      by rewrite Hv in Hx. }
  destruct (highest_in_some _ _ _ _ Ew) as (j' & Hj' & Hf' & Hbelow').
  assert (j' = j) as ->.
  { destruct (decide (j' < j)).
    - specialize (Hbelow j' ltac:(lia)). unfold ready_first in Hf', Hbelow.
      rewrite lookup_q_rotate, decide_False in Hf' by (done || (intros [= ?]; lia)).
      destruct (Q !! LReady j') as [[|n ns]|] eqn:En; simpl in Hf'; try done.
      destruct (ready_first_some k Q j' n ns Hi En) as [? Hx].
      unfold ready_first in Hx. rewrite En in Hx. congruence.
    - destruct (decide (j' = j)); [done|]. specialize (Hbelow' j ltac:(lia)).
      unfold ready_first in Hbelow'. by rewrite Hv in Hbelow'. }
  unfold ready_first in Hf'. rewrite Hv in Hf'. congruence.
Qed.

(** C24: [tkmc_yield] moves the running task behind the others of its priority and
    keeps the state well formed: alone, it keeps running; otherwise the next of its
    queue is chosen and a switch is requested. *)
Theorem yield_rotates k Q t : wf k Q -> current k = Some t -> msip k = 0 ->
  exists c k', tcbs k !! t = Some c /\ tkmc_yield k = Ret tt k' /\
    wf k' (q_rotate t (itskpri c) Q) /\ mie k' = mie k /\ tcbs k' = tcbs k /\
    forall xs, Q !! LReady (itskpri c - 1) = Some (LHead t :: xs) ->
      (xs = [] -> msip k' = 0 /\ next k' = Some t) /\
      (forall u ys, xs = LHead u :: ys -> msip k' = 1 /\ next k' = Some u).
Proof.
  intros (Hi & Hset & Hsch) Hcur Hm.
  destruct (proj1 (Hsch t Hcur) Hm) as (Hhi & c & Hc & Hs). exists c.
  assert (W : wp tkmc_yield (fun _ k' => exists L, let Q' := q_rotate t (itskpri c) Q in
    k' = resched Q' (set_links L k) /\ wf k' Q') k).
  { eapply wp_yield; [done|done|by eapply sched_cur_ok|done|done|by right|].
    intros L Q' k1 Hwf. by exists L. }
  apply wp_returns in W as ([] & k' & E & L & Ek & Hwf). exists k'.
  split; [done|]. split; [done|]. split; [done|].
  split; [rewrite Ek; unfold resched; by case_decide|].
  split; [rewrite Ek; unfold resched; by case_decide|].
  intros xs Hq. pose proof Hi as (Hr & _ & _).
  assert (Hin : inq Q (LReady (itskpri c - 1)) (LHead t)).
  { exists (LHead t :: xs). split; [done|by left]. }
  pose proof (rep_inq_no_head _ _ _ _ Hr Hin) as Hnh.
  pose proof (rep_nodup _ _ _ _ Hr Hq) as [_ [Hnx _]%NoDup_cons]%NoDup_cons.
  assert (Hrot : q_rotate t (itskpri c) Q !! LReady (itskpri c - 1) = Some (xs ++ [LHead t])).
  { rewrite lookup_q_rotate, decide_True, Hq by done. simpl. f_equal.
    unfold without. rewrite filter_cons_False by auto.
    fold (without (LHead t) xs). by rewrite without_notin. }
  pose proof (fun v zs => highest_rotated k Q t c v zs Hi Hhi Hc (or_intror Hs)) as Hnew.
  split.
  - intros ->. specialize (Hnew _ _ Hrot). rewrite Ek. unfold resched. proj.
    rewrite decide_True by congruence. proj. by rewrite Hnew.
  - intros u ys ->. specialize (Hnew _ _ Hrot). rewrite Ek. unfold resched. proj.
    rewrite decide_False; [by rewrite Hnew|]. rewrite Hnew, Hcur. intros [= ->].
    apply Hnx. by left.
Qed.

(** ** Blocking the caller *)

(** The control block of a task that starts to wait. *)
Definition blocked (w d : Z) (c : TCB) : TCB :=
  set_delay_ticks d (set_tskwait w (set_tskstat TTS_WAI c)).

(** The state after the switch to the next task was requested. *)
Definition dispatched (Q : queues) (k : kernel) : kernel := set_msip 1 (set_next (highest Q) k).

Lemma dispatched_wf k Q : inv k Q -> settled k Q -> wf (dispatched Q k) Q.
Proof.
  intros Hi Hs. split; [done|]. split; [done|]. intros t _. split; [|done].
  intros Hm. by cbn in Hm.
Qed.

Lemma dispatched_wf_mie b k Q : inv k Q -> settled k Q -> wf (set_mie b (dispatched Q k)) Q.
Proof. intros Hi Hs. exact (dispatched_wf k Q Hi Hs). Qed.

Lemma wp_wait_forever k Q t w c i (Phi : unit -> kernel -> Prop) :
  rep (links k) Q -> nodes_ok (links k) -> task_idx t -> tcbs k !! t = Some c ->
  inq Q (LReady i) (LHead t) ->
  (forall L, rep L (q_block t false Q) -> dom L = dom (links k) ->
     let k1 := with_lt L (<[t := blocked w 0 c]> (tcbs k)) k in
     inv k1 (q_block t false Q) /\ Phi tt (dispatched (q_block t false Q) k1)) ->
  wp (wait_forever t w) Phi k.
Proof.
  intros Hr Hn Ht Hc Hi H. unfold wait_forever.
  apply wp_bind. eapply wp_tcb_upd; [done|]. proj.
  apply wp_bind. eapply wp_tcb_upd; [apply lookup_insert_eq|]. proj.
  apply wp_bind. eapply wp_tcb_upd; [apply lookup_insert_eq|]. proj.
  rewrite !insert_insert_eq.
  apply wp_bind. eapply wp_list_del; [exact Hr|exact Hi|]. intros L1 HL1 HD1. proj.
  apply wp_bind. eapply wp_list_init; [exact HL1| | |].
  - intros h' Hx. by apply inq_qrm in Hx as (_ & ? & _).
  - proj. rewrite HD1. by apply Hn.
  - intros L2 HL2 HD2. proj.
    destruct (H L2 HL2 ltac:(congruence)) as [Hi2 HP].
    apply wp_bind. eapply wp_get_highest; [exact Hi2|].
    apply wp_bind, wp_modify. apply wp_dispatch. exact HP.
Qed.

(** ** The running task *)

(** Where a task calls from, a switch that is requested is taken at once. *)
Definition quiet (k : kernel) : Prop :=
  mie k = true -> isr_depth k = 0 -> msip k = 0.

(** [t] runs: it may make calls that wait. *)
Definition in_task (k : kernel) (t : Z) : Prop :=
  mie k = true /\ current k = Some t /\ isr_depth k = 0.

Definition may_block (k : kernel) : bool :=
  mie k && bool_decide (is_Some (current k)) && bool_decide (isr_depth k = 0).

Lemma may_block_task k : may_block k = true -> exists t, in_task k t.
Proof.
  unfold may_block, in_task. intros [[Hm Hc]%andb_prop Hi]%andb_prop.
  apply bool_decide_eq_true in Hi. destruct (current k) as [t|]; [by exists t|].
  by apply bool_decide_eq_true in Hc as [? ?].
Qed.

(** What is known of the running task. *)
Record running (k : kernel) (Q : queues) (t : Z) (c : TCB) : Prop := {
  run_tcb : tcbs k !! t = Some c;
  run_stat : tskstat c = TTS_RUN;
  run_idx : task_idx t;
  run_ready : inq Q (LReady (itskpri c - 1)) (LHead t);
  run_alone : alone Q (LWait t);
  run_nowhere h : ~ inq Q h (LWait t);
  run_pri : pri_ok c;
  run_highest : highest Q = Some t;
}.

Lemma task_running k Q t : wf k Q -> quiet k -> in_task k t ->
  msip k = 0 /\ exists c, running k Q t c.
Proof.
  intros (Hi & _ & Hsch) Hq (Hm & Hc & Hisr). pose proof (Hq Hm Hisr) as Hmsip.
  split; [done|]. destruct (proj1 (Hsch t Hc) Hmsip) as (Hh & c & Ht & Hs). exists c.
  destruct Hi as (Hr & Hn & Ha). destruct (ready_in Ha t c Ht (or_intror Hs)) as (? & Hw & ? & _).
  split; try done.
  - apply (ai_tcbs _ _ _ _ _ _ Ha). by eexists.
  - by apply (rep_alone_loose _ _ _ Hr Hw).
Qed.

(** The state of a task that blocks on no object is well formed. *)
Lemma inv_blocked k Q t c w d timed L :
  inv k Q -> running k Q t c -> w = TTW_SLP \/ w = TTW_DLY ->
  (if (timed : bool) then 0 < d < 2 ^ 32 else d = 0) ->
  rep L (q_block t timed Q) -> dom L = dom (links k) ->
  inv (with_lt L (<[t := blocked w d c]> (tcbs k)) k) (q_block t timed Q).
Proof.
  intros (Hr & Hn & Ha) [Hc Hs Ht Hrd Hal Hno Hp Hh] Hw Hd HL HD.
  split; [done|]. split; [by eapply nodes_ok_dom|].
  unfold with_lt. proj. by eapply ainv_block_alone.
Qed.

Lemma inq_q_block_timer t timed Q u :
  u <> t -> inq (q_block t timed Q) LTimer (LHead u) -> inq Q LTimer (LHead u).
Proof.
  intros Hne. unfold q_block, qpush. destruct timed.
  - intros [[_ Hi]|(? & _)]%inq_qset; [|done]. apply elem_of_snoc in Hi as [Hi|Hi]; [|congruence].
    destruct (Q !! LTimer) as [ys|] eqn:E; simpl in Hi; [by exists ys|by apply elem_of_nil in Hi].
  - intros Hi. apply inq_init in Hi; [by apply inq_qrm in Hi as (_ & _ & ?)|].
    left. by rewrite lookup_qrm, decide_True.
Qed.

Lemma timers_live_block T t c' timed Q :
  (if (timed : bool) then 0 < delay_ticks c' else True) ->
  timers_live T Q -> timers_live (<[t := c']> T) (q_block t timed Q).
Proof.
  intros Hd H u cu Hu Hi. destruct (decide (u = t)) as [->|Hne].
  - rewrite lookup_insert_eq in Hu. simplify_eq.
    apply inq_q_block_head in Hi as [-> _]. done.
  - rewrite lookup_insert_ne in Hu by done. eapply H; [done|].
    by eapply inq_q_block_timer.
Qed.

Lemma settled_blocked k Q t c w d timed k' :
  inv k Q -> running k Q t c -> settled k Q -> (if (timed : bool) then 0 < d else True) ->
  semcbs k' = semcbs k -> flgcbs k' = flgcbs k ->
  tcbs k' = <[t := blocked w d c]> (tcbs k) -> settled k' (q_block t timed Q).
Proof.
  intros (Hr & Hn & Ha) [Hc Hs Ht Hrd Hal Hno Hp Hh] Hset Hd ES EF ET.
  eapply (settled_frame k Q); try done.
  - intros h Ho. by eapply lookup_q_block_obj.
  - intros h n _ _. rewrite ET. by eapply same_wait_keep.
  - intros Htl. rewrite ET. by apply timers_live_block.
Qed.

(** A change of the control block of a task that nobody looks at. *)
Lemma inv_touch k Q t c c' :
  inv k Q -> tcbs k !! t = Some c -> same_task c c' ->
  inv (set_tcbs (<[t := c']> (tcbs k)) k) Q.
Proof.
  intros (Hr & Hn & Ha) Hc Hs. split; [done|]. split; [done|]. proj.
  by eapply ainv_touch.
Qed.

Lemma wf_touch k Q t c c' :
  wf k Q -> tcbs k !! t = Some c -> same_task c c' ->
  wf (set_tcbs (<[t := c']> (tcbs k)) k) Q.
Proof.
  intros (Hi & Hset & Hsch) Hc Hs. pose proof Hs as (_ & E2 & E3 & _ & _ & E6).
  split; [by eapply inv_touch|]. split.
  - eapply (settled_frame k Q); try done.
    + intros h n _ _. proj. by eapply same_wait_keep.
    + intros Htl u cu Hu Hiu. proj. destruct (decide (u = t)) as [->|].
      * rewrite lookup_insert_eq in Hu. simplify_eq.
        destruct Hs as (_ & _ & _ & _ & -> & _). by eapply Htl.
      * rewrite lookup_insert_ne in Hu by done. by eapply Htl.
  - intros u Hu. proj. destruct (Hsch u Hu) as [H1 H2]. split; [|done].
    intros Hm. destruct (H1 Hm) as (Hh & c1 & Hc1 & Hs1). split; [done|].
    destruct (decide (u = t)) as [->|].
    + rewrite lookup_insert_eq. exists c'. split; [done|]. simplify_eq. congruence.
    + rewrite lookup_insert_ne by done. by exists c1.
Qed.

(** The control block of a task that waits for nothing: what it waited for
    last is of no account. *)
Lemma wf_touch_ready k Q t c c' :
  wf k Q -> tcbs k !! t = Some c -> ready_stat c -> tskid c' = tskid c ->
  itskpri c' = itskpri c -> tskstat c' = tskstat c -> tskwait c' = 0 -> delay_ticks c' = 0 ->
  wf (set_tcbs (<[t := c']> (tcbs k)) k) Q.
Proof.
  intros (Hi & Hset & Hsch) Hc Hrs E1 E2 E3 E4 E5. pose proof Hi as (Hr & Hn & Ha).
  destruct (ready_in Ha t c Hc Hrs) as (Hin & Hal & Hp & _).
  assert (Hsame : forall h n, inq Q h n -> same_wait (tcbs k) (<[t := c']> (tcbs k)) n).
  { intros h n Hx. apply same_wait_other. intros ->. located. }
  split; [|split].
  - split; [done|]. split; [done|]. proj.
    apply (ainv_move_shrink (tcbs k) _ _ _ _ Q _ Q t c c'); try done.
    + intros E. eapply (ai_run _ _ _ _ _ _ Ha); [done|congruence].
    + apply task_ready; unfold ready_stat, pri_ok in *; rewrite ?E2, ?E3; done.
    + intros h n _. apply (ai_kind _ _ _ _ _ _ Ha).
    + intros h _ ws Hw. exists ws. split; [done|]. split; [done|]. intros n Hx.
      apply (Hsame h). by exists ws.
  - eapply (settled_frame k Q); try done.
    + intros h n _. apply Hsame.
    + intros Htl u cu Hu Hiu. proj. destruct (decide (u = t)) as [->|]; [exfalso; located|].
      rewrite lookup_insert_ne in Hu by done. by eapply Htl.
  - intros u Hu. proj. destruct (Hsch u Hu) as [H1 H2]. split; [|done].
    intros Hm. destruct (H1 Hm) as (Hh & c1 & Hc1 & Hs1). split; [done|].
    destruct (decide (u = t)) as [->|].
    + rewrite lookup_insert_eq. exists c'. split; [done|]. simplify_eq. congruence.
    + rewrite lookup_insert_ne by done. by exists c1.
Qed.

(** The updates of one control block, one after the other. *)
Ltac upd_tcb :=
  repeat (apply wp_bind; eapply wp_tcb_upd; [first [eassumption | apply lookup_insert_eq]|]; proj);
  rewrite ?insert_insert_eq.

(** ** The choice of the task, after a call *)

(** The task to run was chosen after others became ready. *)
Definition switched (k : kernel) (Q' : queues) (k' : kernel) : Prop :=
  mie k' = mie k /\ current k' = current k /\ next k' = highest Q' /\
  msip k' = if decide (highest Q' = current k) then msip k else 1.

Lemma resched_switched b k Q' k1 :
  current k1 = current k -> msip k1 = msip k -> mie k = b ->
  switched k Q' (set_mie b (resched Q' k1)).
Proof.
  intros Ec Em <-. unfold switched, resched. rewrite Ec.
  destruct (decide (highest Q' = current k)); proj; by rewrite ?Ec, ?Em.
Qed.

(** Changes of the objects only leave the choice of the task alone. *)
Lemma sched_objs k Q k' Q' :
  sched_ok k Q -> current k' = current k -> msip k' = msip k -> next k' = next k ->
  tcbs k' = tcbs k -> (forall j, Q' !! LReady j = Q !! LReady j) -> sched_ok k' Q'.
Proof.
  intros H Ec Em En Et Eh t Ht. rewrite Ec in Ht. rewrite Em, En, Et.
  assert (highest Q' = highest Q) as ->.
  { apply highest_in_ext. done. }
  by apply H.
Qed.

(** An object's block goes back to its free list. *)
Lemma highest_free_obj k Q n fr :
  inv k Q -> (exists s, n = LSem s) \/ (exists f, n = LFlg f) \/ (exists mb, n = LMbx mb) ->
  fr = LFreeSem \/ fr = LFreeFlg \/ fr = LFreeMbx -> highest (qpush fr n Q) = highest Q.
Proof.
  intros (Hr & Hn & Ha) Hobj Hfr. apply highest_ext. intros j. unfold qpush.
  rewrite lookup_qset, 2!decide_False by (intros <-; naive_solver).
  destruct (Q !! LReady j) as [ys|] eqn:Ey; [|done]. simpl. f_equal. apply without_notin.
  intros Hx. destruct (obj_notin Ha Hobj (LReady j)) as [?|[?|?]]; [by exists ys|done..].
Qed.

(** An object's block leaves its free list: the lists of the tasks are as
    they were. *)
Section new_obj.
Context {k : kernel} {Q : queues} {n : link}.
Hypothesis Hi : inv k Q.
Hypothesis Hn : (exists s, n = LSem s) \/ (exists f, n = LFlg f) \/ (exists mb, n = LMbx mb).
Let Q' : queues := <[n := []]> (qrm n Q).

Lemma new_obj_lookup h : h = LTimer \/ (exists j, h = LReady j) -> Q' !! h = Q !! h.
Proof using Hi Hn.
  intros Hh. destruct Hi as (_ & _ & Ha). unfold Q'.
  assert (n <> h) by (intros ->; naive_solver).
  rewrite lookup_insert_ne, lookup_qrm, decide_False by done.
  destruct (Q !! h) as [ys|] eqn:Ey; [|done]. simpl. f_equal. apply without_notin.
  intros Hx. destruct (obj_notin Ha Hn h) as [->|[->| ->]]; [by exists ys|naive_solver..].
Qed.

Lemma new_obj_timers T : timers_live T Q -> timers_live T Q'.
Proof using Hi Hn.
  intros HT t c Hc (xs & E & Hx). apply (HT t c Hc). exists xs.
  rewrite <- new_obj_lookup by (by left). done.
Qed.

Lemma new_obj_sched k' : sched_ok k Q -> current k' = current k -> msip k' = msip k ->
  next k' = next k -> tcbs k' = tcbs k -> sched_ok k' Q'.
Proof using Hi Hn.
  intros Hs Ec Em En Et. eapply (sched_objs k Q); try done.
  intros j. apply new_obj_lookup. eauto.
Qed.
End new_obj.
