(* ===== verification/Check.v ===== *)
(** * The invariant as a check that runs

    As [host_check_kernel_queues] of [src/test/host/fakes.c] walks the lists
    of a kernel and checks every control block against them, [wf_check] decides
    the invariant of a concrete state: the queues are read off the links
    ([queues_of]), and every part of [wf] is a decidable statement over finite
    maps. [wf_check_sound]: a state that passes is well formed. *)

From S2P Require Import Prelude DList Tkernel Kernel Inv Moves Rules Wait Sched.

Open Scope Z_scope.
Implicit Types (k : kernel) (Q : queues) (t : Z) (h n : link).

(** ** The queues of a heap of links *)

(** The members of the list of [h], from [n] on. *)
Fixpoint members (fuel : nat) (L : gmap link (link * link)) (h n : link) : list link :=
  match fuel with
  | O => []
  | S fuel =>
    if decide (n = h) then []
    else n :: match lnext L n with Some m => members fuel L h m | None => [] end
  end.

Definition list_of (L : gmap link (link * link)) (h : link) : list link :=
  match lnext L h with Some n => members (size L) L h n | None => [] end.

(** The heads: the kernel's own, and the nodes that are linked to themselves. *)
Definition is_head (L : gmap link (link * link)) (h : link) : bool :=
  match h with
  | LHead _ | LWait _ => bool_decide (lnext L h = Some h)
  | LSem _ => bool_decide (h ∉ list_of L LFreeSem)
  | LFlg _ => bool_decide (h ∉ list_of L LFreeFlg)
  | LMbx _ => bool_decide (h ∉ list_of L LFreeMbx)
  | LMsg _ | LNull | LPoison => false
  | _ => true
  end.

Definition heads_of (L : gmap link (link * link)) : list link :=
  filter (fun h => is_head L h = true) (fst <$> map_to_list L).

Definition queues_of (L : gmap link (link * link)) : queues :=
  list_to_map ((fun h => (h, list_of L h)) <$> heads_of L).

(** ** Decisions *)

#[export] Instance task_idx_dec t : Decision (task_idx t).
Proof. unfold task_idx. apply _. Defined.
#[export] Instance kind_ok_dec h n : Decision (kind_ok h n).
Proof. destruct h, n; simpl; apply _. Defined.
#[export] Instance alone_dec Q n : Decision (alone Q n).
Proof. unfold alone. apply _. Defined.

Definition nowhere (Q : queues) (n : link) : Prop := map_Forall (fun _ xs => n ∉ xs) Q.
#[export] Instance nowhere_dec Q n : Decision (nowhere Q n).
Proof. unfold nowhere. apply _. Defined.

Definition waits_check (Q : queues) (t : Z) (c : TCB) : Prop :=
  match winfo c with
  | WSemaphore _ s => (tskwait c = TTW_SEM /\ inq Q (LSem s) (LWait t)) \/
                      ((tskwait c = TTW_SLP \/ tskwait c = TTW_DLY) /\ alone Q (LWait t))
  | WEventFlag _ _ _ => (tskwait c = TTW_FLG /\
                           Exists (fun f => inq Q (LFlg f) (LWait t)) (seqZ 0 CFN_MAX_FLGID)) \/
                      ((tskwait c = TTW_SLP \/ tskwait c = TTW_DLY) /\ alone Q (LWait t))
  | WMailbox _ => (tskwait c = TTW_MBX /\
                     Exists (fun m => inq Q (LMbx m) (LWait t)) (seqZ 0 CFN_MAX_MBXID)) \/
                      ((tskwait c = TTW_SLP \/ tskwait c = TTW_DLY) /\ alone Q (LWait t))
  | WInfoZero => (tskwait c = TTW_SLP \/ tskwait c = TTW_DLY) /\ alone Q (LWait t)
  end.
#[export] Instance waits_check_dec Q t c : Decision (waits_check Q t c).
Proof. unfold waits_check. destruct (winfo c); apply _. Defined.

Lemma waits_check_sound Q t c : waits_check Q t c -> waits_ok Q t c.
Proof.
  unfold waits_check. destruct (winfo c) eqn:E; [|intros [[Hw Hi]|[Hw Ha]]..].
  - intros [Hw Ha]. by apply waits_alone.
  - apply Exists_exists in Hi as (f & _ & Hi). by eapply waits_flg.
  - by apply waits_alone.
  - by eapply waits_sem.
  - by apply waits_alone.
  - apply Exists_exists in Hi as (f & _ & Hi). by eapply waits_mbx.
  - by apply waits_alone.
Qed.

Definition task_check (Q : queues) (t : Z) (c : TCB) : Prop :=
  (ready_stat c /\ tskwait c = 0 /\ delay_ticks c = 0 /\ pri_ok c /\
     inq Q (LReady (itskpri c - 1)) (LHead t) /\ alone Q (LWait t)) \/
  (tskstat c = TTS_WAI /\ pri_ok c /\ timer_ok Q t c /\ waits_check Q t c) \/
  (tskstat c = TTS_DMT /\ pri_ok c /\ (Q !! LHead t = None \/ Q !! LHead t = Some []) /\
     nowhere Q (LHead t) /\ alone Q (LWait t)) \/
  (tskstat c = TTS_NOEXS /\ inq Q LFreeTcb (LHead t) /\ alone Q (LWait t)).
#[export] Instance task_check_dec Q t c : Decision (task_check Q t c).
Proof. unfold task_check, ready_stat, pri_ok, timer_ok. apply _. Defined.

Lemma task_check_sound Q t c : task_check Q t c -> task_ok Q t c.
Proof.
  intros [(?&?&?&?&?&?)|[(?&?&?&Hw)|[(?&?&Hq&Hn&?)|(?&?&?)]]].
  - by apply task_ready.
  - apply task_waiting; try done. by apply waits_check_sound.
  - apply task_dormant; try done. split; [done|]. intros h (xs & E & Hi).
    by apply (Hn _ _ E).
  - by apply task_none.
Qed.

(** ** Rings *)

#[export] Instance lnk_dec (L : gmap link (link * link)) a b : Decision (lnk L a b).
Proof. unfold lnk. apply _. Defined.
#[export] Instance path_dec (L : gmap link (link * link)) a xs : Decision (path L a xs).
Proof. revert a. induction xs as [|x xs IH]; intros a; simpl; apply _. Defined.
#[export] Instance ring_dec (L : gmap link (link * link)) h xs : Decision (ring L h xs).
Proof. unfold ring. apply _. Defined.

Definition all_nodes (Q : queues) : list link :=
  map_to_list Q ≫= fun p => fst p :: snd p.
Definition rep_check (L : gmap link (link * link)) (Q : queues) : Prop :=
  map_Forall (fun h xs => ring L h xs) Q /\ NoDup (all_nodes Q).
#[export] Instance rep_check_dec L Q : Decision (rep_check L Q).
Proof. unfold rep_check. apply _. Defined.

Lemma nodup_bind_disjoint {A B} (f : A -> list B) l a1 a2 b :
  NoDup (l ≫= f) -> a1 ∈ l -> a2 ∈ l -> b ∈ f a1 -> b ∈ f a2 -> NoDup l -> a1 = a2.
Proof.
  induction l as [|a l IH]; intros Hnd H1 H2 Hb1 Hb2 Hl; [by apply elem_of_nil in H1|].
  simpl in Hnd. apply NoDup_app in Hnd as (_ & Hdis & Hnd).
  apply NoDup_cons in Hl as [Ha Hl].
  apply elem_of_cons in H1 as [->|H1], H2 as [->|H2]; [done|..|by apply IH]; exfalso.
  - apply (Hdis b Hb1). apply list_elem_of_bind. eauto.
  - apply (Hdis b Hb2). apply list_elem_of_bind. eauto.
Qed.

Lemma rep_check_sound L Q : rep_check L Q -> rep L Q.
Proof.
  intros [Hr Hnd]. split; [intros h xs; apply Hr|].
  intros h1 xs1 h2 xs2 n H1 H2 Hn1 Hn2.
  apply elem_of_map_to_list in H1, H2.
  pose proof (nodup_bind_disjoint _ _ (h1, xs1) (h2, xs2) n Hnd H1 H2 Hn1 Hn2
    (NoDup_map_to_list Q)). congruence.
Qed.

(** ** Objects *)

Definition list_or (Q : queues) (h : link) : list link := default [] (Q !! h).

#[export] Instance StronglySorted_dec {A} (R : A -> A -> Prop) :
  (forall a b, Decision (R a b)) -> forall xs, Decision (StronglySorted R xs).
Proof.
  intros HR xs. induction xs as [|x xs IH]; [left; constructor|].
  destruct IH as [Hs|Hs]; [destruct (decide (Forall (R x) xs)) as [Hx|Hx]|].
  - left. by constructor.
  - right. intros H. by inversion H.
  - right. intros H. by inversion H.
Defined.
#[export] Instance pri_sorted_dec T ws : Decision (pri_sorted T ws).
Proof. unfold pri_sorted. apply _. Defined.
#[export] Instance order_ok_dec T atr ws : Decision (order_ok T atr ws).
Proof. unfold order_ok. apply _. Defined.
#[export] Instance sem_live_dec T sc ws : Decision (sem_live T sc ws).
Proof. unfold sem_live. apply _. Defined.
#[export] Instance flg_live_dec T fc ws : Decision (flg_live T fc ws).
Proof. unfold flg_live. apply _. Defined.

Definition sem_check (T : gmap Z TCB) (Q : queues) (s : Z) (sc : SEMCB) : Prop :=
  (semid sc = s + 1 /\ is_Some (Q !! LSem s) /\ sem_live T sc (list_or Q (LSem s))) \/
  (semid sc = noexs_id s /\ inq Q LFreeSem (LSem s)).
Definition flg_check (T : gmap Z TCB) (Q : queues) (f : Z) (fc : FLGCB) : Prop :=
  (flgid fc = f + 1 /\ is_Some (Q !! LFlg f) /\ flg_live T fc (list_or Q (LFlg f))) \/
  (flgid fc = noexs_id f /\ inq Q LFreeFlg (LFlg f)).
Definition mbx_check (T : gmap Z TCB) (Q : queues) (m : Z) (mc : MBXCB) : Prop :=
  (mbxid mc = m + 1 /\ is_Some (Q !! LMbx m) /\ is_Some (Q !! LMbxq m) /\
     order_ok T (mbxatr mc) (list_or Q (LMbx m)) /\
     (list_or Q (LMbx m) = [] \/ list_or Q (LMbxq m) = [])) \/
  (mbxid mc = noexs_id m /\ inq Q LFreeMbx (LMbx m) /\ alone Q (LMbxq m)).

#[export] Instance is_Some_Q_dec Q h : Decision (is_Some (Q !! h)).
Proof. apply _. Defined.
#[export] Instance sem_check_dec T Q s sc : Decision (sem_check T Q s sc).
Proof. unfold sem_check. apply _. Defined.
#[export] Instance flg_check_dec T Q f fc : Decision (flg_check T Q f fc).
Proof. unfold flg_check. apply _. Defined.
#[export] Instance mbx_check_dec T Q m mc : Decision (mbx_check T Q m mc).
Proof. unfold mbx_check. apply _. Defined.

(** ** The whole state *)

Definition cells_check {A} (P : Z -> A -> Prop) (n : Z) (M : gmap Z A) : Prop :=
  Forall (fun i => match M !! i with Some a => P i a | None => False end) (seqZ 0 n).
#[export] Instance cells_check_dec {A} (P : Z -> A -> Prop) (n : Z) (M : gmap Z A) :
  (forall i a, Decision (P i a)) -> Decision (cells_check P n M).
Proof.
  intros HP. unfold cells_check. apply Forall_dec. intros i. destruct (M !! i); apply _.
Defined.

Lemma cells_check_sound {A} (P : Z -> A -> Prop) (n : Z) (M : gmap Z A) :
  cells_check P n M -> forall i, 0 <= i < n -> exists a, M !! i = Some a /\ P i a.
Proof.
  unfold cells_check. rewrite Forall_forall. intros H i Hi.
  specialize (H i). rewrite elem_of_seqZ in H. specialize (H ltac:(lia)).
  destruct (M !! i); [eauto|done].
Qed.

Definition ainv_check (k : kernel) (Q : queues) : Prop :=
  map_Forall (fun t c => task_idx t /\ tskid c = t + 1 /\ task_check Q t c /\
    (tskstat c = TTS_RUN -> current k = Some t)) (tcbs k) /\
  cells_check (fun _ _ => True) CFN_MAX_TSKID (tcbs k) /\
  match current k with Some t => task_idx t | None => True end /\
  map_Forall (fun h xs => Forall (kind_ok h) xs) Q /\
  Forall (fun h => is_Some (Q !! h))
    ([LFreeTcb; LFreeSem; LFreeFlg; LFreeMbx; LTimer] ++ (LReady <$> seqZ 0 CFN_MAX_PRI)) /\
  cells_check (sem_check (tcbs k) Q) CFN_MAX_SEMID (semcbs k) /\
  cells_check (flg_check (tcbs k) Q) CFN_MAX_FLGID (flgcbs k) /\
  cells_check (mbx_check (tcbs k) Q) CFN_MAX_MBXID (mbxcbs k).
#[export] Instance ainv_check_dec k Q : Decision (ainv_check k Q).
Proof.
  unfold ainv_check. destruct (current k); apply _.
Defined.

Lemma ainv_check_sound k Q : ainv_check k Q ->
  ainv (tcbs k) (semcbs k) (flgcbs k) (mbxcbs k) (current k) Q.
Proof.
  intros (Ht & Hts & Hc & Hk & Hh & Hs & Hf & Hm). split.
  - intros t. split; [intros [c E]; by apply (Ht _ _ E)|].
    intros Hi. destruct (cells_check_sound _ _ _ Hts t Hi) as (c & E & _). by exists c.
  - intros t c E. destruct (Ht _ _ E) as (_ & ? & ? & _). split; [done|].
    by apply task_check_sound.
  - intros t c E. by apply (Ht _ _ E).
  - intros t E. by rewrite E in Hc.
  - intros h n (xs & E & Hi). specialize (Hk _ _ E). simpl in Hk.
    rewrite Forall_forall in Hk. by apply Hk.
  - intros h Hst. rewrite Forall_forall in Hh. apply Hh.
    apply elem_of_app. destruct h; simpl in Hst; try done; try (left; set_solver).
    right. apply list_elem_of_fmap. eexists. split; [done|]. apply elem_of_seqZ. lia.
  - intros s Hi. destruct (cells_check_sound _ _ _ Hs s Hi) as (sc & E & [(H1 & [ws Hw] & H2)|H]);
      exists sc; (split; [done|]); [left|by right].
    split; [done|]. exists ws. split; [done|]. unfold list_or in H2. by rewrite Hw in H2.
  - intros f Hi. destruct (cells_check_sound _ _ _ Hf f Hi) as (fc & E & [(H1 & [ws Hw] & H2)|H]);
      exists fc; (split; [done|]); [left|by right].
    split; [done|]. exists ws. split; [done|]. unfold list_or in H2. by rewrite Hw in H2.
  - intros m Hi.
    destruct (cells_check_sound _ _ _ Hm m Hi)
      as (mc & E & [(H1 & [ws Hw] & [ms Hms] & H2 & H3)|H]);
      exists mc; (split; [done|]); [left|by right].
    split; [done|]. exists ws, ms. unfold list_or in *. rewrite Hw in *. rewrite Hms in *. done.
Qed.

(** ** Settled, and scheduled *)

Definition sem_settled_check (T : gmap Z TCB) (Q : queues) (s : Z) (sc : SEMCB) : Prop :=
  let ws := list_or Q (LSem s) in
  if decide (Z.land (sematr sc) TA_CNT = 0)
  then match ws with n :: _ => semcnt sc < wreq T n | [] => True end
  else Forall (fun n => semcnt sc < wreq T n) ws.
#[export] Instance sem_settled_check_dec T Q s sc : Decision (sem_settled_check T Q s sc).
Proof.
  unfold sem_settled_check. simpl. case_decide; [destruct (list_or Q (LSem s))|]; apply _.
Defined.
Definition flg_settled_check (T : gmap Z TCB) (Q : queues) (f : Z) (fc : FLGCB) : Prop :=
  Forall (fun n => wmatch T (flgptn fc) n = false) (list_or Q (LFlg f)).
#[export] Instance flg_settled_check_dec T Q f fc : Decision (flg_settled_check T Q f fc).
Proof. unfold flg_settled_check. apply _. Defined.

Definition settled_check (k : kernel) (Q : queues) : Prop :=
  map_Forall (sem_settled_check (tcbs k) Q) (semcbs k) /\
  map_Forall (flg_settled_check (tcbs k) Q) (flgcbs k) /\
  map_Forall (fun t c => inq Q LTimer (LHead t) -> 0 < delay_ticks c) (tcbs k).
#[export] Instance settled_check_dec k Q : Decision (settled_check k Q).
Proof. unfold settled_check. apply _. Defined.

Lemma settled_check_sound k Q : settled_check k Q -> settled k Q.
Proof.
  intros (HS & HF & HT). split; [split|intros t c E; exact (HT t c E)].
  - intros s sc E ws _ Hq. specialize (HS _ _ E).
    unfold sem_settled_check, list_or in HS. rewrite Hq in HS. simpl in HS.
    case_decide; [|done]. intros n Hn. by destruct ws; simplify_eq/=.
  - intros f fc E ws _ Hq. specialize (HF _ _ E).
    unfold flg_settled_check, list_or in HF. by rewrite Hq in HF.
Qed.

Definition sched_check (k : kernel) (Q : queues) : Prop :=
  match current k with
  | None => True
  | Some t =>
    if decide (msip k = 0) then highest Q = Some t /\
      match tcbs k !! t with Some c => tskstat c = TTS_RUN | None => False end
    else next k = highest Q
  end.
#[export] Instance sched_check_dec k Q : Decision (sched_check k Q).
Proof.
  unfold sched_check. destruct (current k) as [t|]; [|apply _].
  case_decide; [|apply _]. destruct (tcbs k !! t); apply _.
Defined.

Lemma sched_check_sound k Q : sched_check k Q -> sched_ok k Q.
Proof.
  unfold sched_check. intros H t E. rewrite E in H. case_decide; [|done].
  split; [|done]. intros _. destruct H as [? H]. split; [done|].
  destruct (tcbs k !! t); [eauto|done].
Qed.

Definition inv_check (k : kernel) (Q : queues) : Prop :=
  rep_check (links k) Q /\ Forall (fun n => is_Some (links k !! n)) kernel_nodes /\
  ainv_check k Q.
#[export] Instance inv_check_dec k Q : Decision (inv_check k Q).
Proof. unfold inv_check. apply _. Defined.

Lemma inv_check_sound k Q : inv_check k Q -> inv k Q.
Proof.
  intros (Hr & Hn & Ha). split; [by apply rep_check_sound|].
  split; [|by apply ainv_check_sound].
  intros n H. rewrite Forall_forall in Hn. apply elem_of_dom, Hn, kernel_node_in, H.
Qed.

Definition wf_check (k : kernel) (Q : queues) : Prop :=
  inv_check k Q /\ settled_check k Q /\ sched_check k Q.
#[export] Instance wf_check_dec k Q : Decision (wf_check k Q).
Proof. unfold wf_check. apply _. Defined.

Lemma wf_check_sound k Q : wf_check k Q -> wf k Q.
Proof.
  intros (Hi & Hs & Hc). split; [by apply inv_check_sound|].
  split; [by apply settled_check_sound|by apply sched_check_sound].
Qed.

(** ** The states of a run, for concrete examples *)

(** The state in which [m] leaves [k]. *)
Definition after {A} (m : K A) (k : kernel) : kernel :=
  match m k with Ret _ k' => k' | Halt k' => k' | _ => k end.

(** The state passes, with the queues its links show. *)
Definition wf_now (k : kernel) : bool := bool_decide (wf_check k (queues_of (links k))).
Definition inv_now (k : kernel) : bool := bool_decide (inv_check k (queues_of (links k))).

Lemma wf_now_sound k : wf_now k = true -> wf k (queues_of (links k)).
Proof. intros H. apply wf_check_sound. by apply bool_decide_eq_true in H. Qed.
Lemma inv_now_sound k : inv_now k = true -> inv k (queues_of (links k)).
Proof. intros H. apply inv_check_sound. by apply bool_decide_eq_true in H. Qed.
