(* ===== verification/Timer.v ===== *)
(** * The timer: [src/kernel/timer.c] and [timer.h] *)

From S2P Require Import Prelude DList Tkernel Kernel Inv Moves Rules Wait Sched.

Open Scope Z_scope.

Definition tkmc_ms_to_ticks (ms : Z) : Z :=
  u32 (ms / 10 + (if bool_decide (ms mod 10 <> 0) then 1 else 0) + 1).

Definition TICK_COUNTS := 100000.

(** The retry loop of [read_mtime]. Two rounds are enough when the low word
    does not wrap twice in six reads. *)
Fixpoint read_mtime_loop (fuel : nat) : K Z :=
  match fuel with
  | O => hang
  | S fuel =>
    high <- in_w (CLINT_MTIME_ADDRESS + 4) ;;
    low <- in_w CLINT_MTIME_ADDRESS ;;
    next_high <- in_w (CLINT_MTIME_ADDRESS + 4) ;;
    if decide (high <> next_high) then read_mtime_loop fuel
    else ret (Z.lor (Z.shiftl high 32) low)
  end.

Definition read_mtime : K Z := read_mtime_loop 2.

Definition write_mtimecmp (value : Z) : K unit :=
  out_w CLINT_MTIMECMP_ADDRESS 0xffffffff ;;;
  out_w (CLINT_MTIMECMP_ADDRESS + 4) (Z.shiftr value 32) ;;;
  out_w CLINT_MTIMECMP_ADDRESS (u32 value).

(** How many tick edges one call may count: 40 s of ticks. *)
Definition EDGE_FUEL : nat := 4096.

Fixpoint pass_elapsed_loop (fuel : nat) (mtimecmp0 periods : Z) : K (Z * Z) :=
  match fuel with
  | O => hang
  | S fuel =>
    now <- read_mtime ;;
    if decide (mtimecmp0 <= now) then
      pass_elapsed_loop fuel (u64 (mtimecmp0 + TICK_COUNTS)) (u32 (periods + 1))
    else ret (mtimecmp0, periods)
  end.

(** The new comparand and the number of edges passed. *)
Definition pass_elapsed_periods (mtimecmp0 : Z) : K (Z * Z) :=
  pass_elapsed_loop EDGE_FUEL mtimecmp0 0.

Definition tkmc_init_timer : K unit := list_init LTimer.

Definition tkmc_start_timer : K unit :=
  now <- read_mtime ;;
  let mtimecmp0 := u64 (now + TICK_COUNTS) in
  modify (set_s_mtimecmp mtimecmp0) ;;;
  write_mtimecmp mtimecmp0.

Fixpoint first_deadline_from (fuel : nat) (pos : link) (first : option Z) : K (option Z) :=
  match fuel with
  | O => hang
  | S fuel =>
    if decide (pos = LTimer) then ret first
    else
      t <- tcb_of_head pos ;;
      c <- tcb_get t ;;
      earlier <- match first with
                 | None => ret true
                 | Some f =>
                   cf <- tcb_get f ;;
                   ret (bool_decide (delay_ticks c < delay_ticks cf))
                 end ;;
      pos <- list_next pos ;;
      first_deadline_from fuel pos (if (earlier : bool) then Some t else first)
  end.

Definition first_deadline : K (option Z) :=
  fuel <- gets walk_fuel ;;
  pos <- list_next LTimer ;;
  first_deadline_from fuel pos None.

(** The inner loop of the handler: take [step] ticks off every entry. *)
Definition sub_ticks (step : Z) (pos : link) : K bool :=
  t <- tcb_of_head pos ;;
  tcb_upd t (fun c => set_delay_ticks (u32 (delay_ticks c - step)) c) ;;;
  ret true.

Fixpoint expire_loop (fuel : nat) (periods : Z) (ended : bool) : K bool :=
  match fuel with
  | O => hang
  | S fuel =>
    first <- first_deadline ;;
    match first with
    | None => ret ended
    | Some t =>
      c <- tcb_get t ;;
      let ticks := delay_ticks c in
      let step := if bool_decide (ticks < periods) then ticks else periods in
      list_for_each_entry LTimer (sub_ticks step) ;;;
      if bool_decide (step < ticks) then ret ended
      else
        tkmc_complete_wait t E_TMOUT ;;;
        expire_loop fuel (u32 (periods - step)) true
    end
  end.

Definition tkmc_timer_handler : K unit :=
  mtimecmp0 <- gets s_mtimecmp ;;
  r <- pass_elapsed_periods mtimecmp0 ;;
  let (mtimecmp0, periods) := (r : Z * Z) in
  if decide (periods = 0) then ret tt
  else
    modify (set_s_mtimecmp mtimecmp0) ;;;
    write_mtimecmp mtimecmp0 ;;;
    fuel <- gets walk_fuel ;;
    ended <- expire_loop fuel periods false ;;
    if (ended : bool) then reschedule else ret tt.

Definition tkmc_schedule_timer (t delay_ticks0 tskwait0 : Z) : K unit :=
  mtimecmp0 <- gets s_mtimecmp ;;
  tcb_upd t (set_tskstat TTS_WAI) ;;;
  tcb_upd t (set_tskwait tskwait0) ;;;
  r <- pass_elapsed_periods mtimecmp0 ;;
  tcb_upd t (set_delay_ticks (u32 (delay_ticks0 + snd (r : Z * Z)))) ;;;
  list_del (LHead t) ;;;
  list_add_tail (LHead t) LTimer ;;;
  n <- tkmc_get_highest_priority_task ;;
  modify (set_next n) ;;;
  dispatch.

(** The end of a wait, in the task again: its wake-up cause, then reset. *)
Definition take_wupcause : K Z :=
  t <- current_tcb ;;
  c <- tcb_get t ;;
  tcb_upd t (set_wupcause E_OK) ;;;
  ret (wupcause c).

Definition tk_dly_tsk (dlytm : Z) : K call :=
  intsts <- DI ;;
  can <- tkmc_can_block intsts ;;
  if negb can then EI intsts ;;; ret (Return E_CTX)
  else if decide (dlytm = 0) then EI intsts ;;; ret (Suspend K_dly_yield)
  else
    t <- current_tcb ;;
    tkmc_schedule_timer t (tkmc_ms_to_ticks dlytm) TTW_DLY ;;;
    EI intsts ;;;
    ret (Suspend K_dly).

Definition tk_dly_tsk_yield : K Z := tkmc_yield ;;; ret E_OK.

Definition tk_dly_tsk_resume : K Z :=
  intsts <- DI ;;
  ercd <- take_wupcause ;;
  EI intsts ;;;
  ret (if decide (ercd = E_TMOUT) then E_OK else ercd).

Definition tk_slp_tsk (tmout : Z) : K call :=
  if decide (tmout < TMO_FEVR) then ret (Return E_PAR)
  else
    intsts <- DI ;;
    can <- tkmc_can_block intsts ;;
    if negb can then EI intsts ;;; ret (Return E_CTX)
    else
      t <- current_tcb ;;
      c <- tcb_get t ;;
      if decide (0 < wupcnt c) then
        tcb_upd t (set_wupcnt (wupcnt c - 1)) ;;;
        EI intsts ;;;
        ret (Return E_OK)
      else if decide (0 < tmout) then
        tkmc_schedule_timer t (tkmc_ms_to_ticks tmout) TTW_SLP ;;;
        EI intsts ;;;
        ret (Suspend K_slp)
      else if decide (tmout = TMO_POL) then
        EI intsts ;;; ret (Return E_TMOUT)
      else
        wait_forever t TTW_SLP ;;;
        EI intsts ;;;
        ret (Suspend K_slp).

Definition tk_slp_tsk_resume : K Z :=
  intsts <- DI ;;
  ercd <- take_wupcause ;;
  EI intsts ;;;
  ret ercd.

(** ** The clock

    What the machine timer does: it counts up, from a value far from the end
    of its 64 bits, and by at most [READ_STEP] counts (1 ms) between two reads
    in one call. *)

Definition READ_STEP := 10000.

Record clock_ok (c : nat -> Z) : Prop := {
  ck_range n : 0 <= c n < 2 ^ 63;
  ck_mono n : c n <= c (S n);
  ck_step n : c (S n) - c n <= READ_STEP;
}.

Implicit Types (k : kernel) (Q : queues).

Lemma clock_le c n m : clock_ok c -> (n <= m)%nat -> c n <= c m.
Proof.
  intros Hc H. induction H as [|m H IH]; [lia|]. pose proof (ck_mono c Hc m). lia.
Qed.

Lemma clock_steps c n d : clock_ok c -> c (n + d)%nat <= c n + Z.of_nat d * READ_STEP.
Proof.
  intros Hc. induction d as [|d IH]; [rewrite Nat.add_0_r; lia|].
  pose proof (ck_step c Hc (n + d)%nat). rewrite Nat.add_succ_r, Nat2Z.inj_succ. lia.
Qed.

Lemma wp_in_w_high k (Phi : Z -> kernel -> Prop) :
  Phi (u32 (Z.shiftr (clk k (reads k)) 32)) (set_reads (S (reads k)) k) ->
  wp (in_w (CLINT_MTIME_ADDRESS + 4)) Phi k.
Proof. done. Qed.

Lemma wp_in_w_low k (Phi : Z -> kernel -> Prop) :
  Phi (u32 (clk k (reads k))) (set_reads (S (reads k)) k) ->
  wp (in_w CLINT_MTIME_ADDRESS) Phi k.
Proof. done. Qed.

(** The two halves of a time. *)
Lemma high_div v : 0 <= v < 2 ^ 63 -> u32 (Z.shiftr v 32) = v / 2 ^ 32.
Proof.
  intros Hv. rewrite Z.shiftr_div_pow2 by lia. unfold u32. apply Z.mod_small.
  split; [apply Z.div_pos; lia|]. apply Z.div_lt_upper_bound; lia.
Qed.

Lemma halves v : 0 <= v -> Z.lor (Z.shiftl (v / 2 ^ 32) 32) (u32 v) = v.
Proof.
  intros Hv. unfold u32. apply Z.bits_inj'. intros i Hi.
  rewrite Z.lor_spec, Z.shiftl_spec by lia.
  destruct (decide (i < 32)).
  - rewrite Z.testbit_neg_r by lia. simpl. by rewrite Z.mod_pow2_bits_low.
  - rewrite Z.mod_pow2_bits_high by lia. rewrite orb_false_r.
    rewrite <- Z.shiftr_div_pow2 by lia. rewrite Z.shiftr_spec by lia. f_equal. lia.
Qed.

(** One round: the time of its middle read, when the high word did not change. *)
Lemma round_value (c : nat -> Z) n :
  clock_ok c -> c n / 2 ^ 32 = c (S (S n)) / 2 ^ 32 ->
  Z.lor (Z.shiftl (c n / 2 ^ 32) 32) (u32 (c (S n))) = c (S n).
Proof.
  intros Hc E. pose proof (ck_mono c Hc n). pose proof (ck_mono c Hc (S n)).
  pose proof (Z.div_le_mono (c n) (c (S n)) (2 ^ 32) ltac:(lia) ltac:(lia)).
  pose proof (Z.div_le_mono (c (S n)) (c (S (S n))) (2 ^ 32) ltac:(lia) ltac:(lia)).
  replace (c n / 2 ^ 32) with (c (S n) / 2 ^ 32) by lia.
  apply halves. apply (ck_range c Hc).
Qed.

Lemma wp_read_mtime k (Phi : Z -> kernel -> Prop) :
  clock_ok (clk k) ->
  (forall m r, (reads k <= m < r)%nat -> (r <= reads k + 6)%nat ->
     Phi (clk k m) (set_reads r k)) ->
  wp read_mtime Phi k.
Proof.
  intros Hc H. unfold read_mtime. set (c := clk k) in *. set (n := reads k) in *.
  assert (Hh : forall m, u32 (Z.shiftr (c m) 32) = c m / 2 ^ 32).
  { intros m. apply high_div, (ck_range c Hc). }
  cbn [read_mtime_loop].
  apply wp_bind, wp_in_w_high, wp_bind, wp_in_w_low, wp_bind, wp_in_w_high. proj.
  fold c n. rewrite !Hh. case_decide as E.
  2:{ apply wp_ret. rewrite round_value by (try done; lia). apply (H (S n)); lia. }
  apply wp_bind, wp_in_w_high, wp_bind, wp_in_w_low, wp_bind, wp_in_w_high. proj.
  fold c n. rewrite !Hh. case_decide as E2.
  2:{ apply wp_ret. rewrite round_value by (try done; lia). apply (H (S (S (S (S n))))); lia. }
  exfalso. clear H Hh.
  pose proof (clock_steps c n 5 Hc) as Hd. replace (n + 5)%nat with (S (S (S (S (S n))))) in Hd by lia.
  pose proof (clock_le c n (S (S n)) Hc ltac:(lia)).
  pose proof (clock_le c (S (S n)) (S (S (S n))) Hc ltac:(lia)).
  pose proof (clock_le c (S (S (S n))) (S (S (S (S (S n))))) Hc ltac:(lia)).
  unfold READ_STEP in Hd. simpl Z.of_nat in Hd.
  assert (c n / 2 ^ 32 < c (S (S n)) / 2 ^ 32).
  { pose proof (Z.div_le_mono (c n) (c (S (S n))) (2 ^ 32)). lia. }
  assert (c (S (S (S n))) / 2 ^ 32 < c (S (S (S (S (S n))))) / 2 ^ 32).
  { pose proof (Z.div_le_mono (c (S (S (S n)))) (c (S (S (S (S (S n)))))) (2 ^ 32)). lia. }
  pose proof (Z.div_le_mono (c (S (S n))) (c (S (S (S n)))) (2 ^ 32) ltac:(lia) ltac:(lia)).
  Z.to_euclidean_division_equations. lia.
Qed.

(** ** Counting tick edges *)

(** How far behind the comparand may be: 10 s. *)
Definition MAX_LAG := 100000000.

Lemma wp_pass_elapsed_loop k (Phi : Z * Z -> kernel -> Prop) fuel cmp n :
  clock_ok (clk k) -> 0 <= cmp < 2 ^ 63 + 2 ^ 62 -> 0 <= n <= 4096 ->
  clk k (reads k) + 60000 < cmp + (Z.of_nat fuel - 1) * 40000 -> n + Z.of_nat fuel <= 4096 ->
  (forall r j, 0 <= j -> n + j <= 4096 -> (reads k < r)%nat ->
     (exists m, (reads k <= m < r)%nat /\ clk k m < cmp + j * TICK_COUNTS) ->
     (j = 0 \/ exists m, (reads k <= m < r)%nat /\ cmp + (j - 1) * TICK_COUNTS <= clk k m) ->
     Phi (cmp + j * TICK_COUNTS, n + j) (set_reads r k)) ->
  (0 < fuel)%nat ->
  wp (pass_elapsed_loop fuel cmp n) Phi k.
Proof.
  revert k cmp n Phi. induction fuel as [|fuel IH]; intros k cmp n Phi Hc Hcmp Hn Hlag Hf H H0;
    [lia|].
  cbn [pass_elapsed_loop]. apply wp_bind, wp_read_mtime; [done|]. intros m r Hm Hr.
  pose proof (ck_range _ Hc m).
  pose proof (clock_steps (clk k) (reads k) 6 Hc) as Hd.
  pose proof (clock_le (clk k) r (reads k + 6) Hc ltac:(lia)).
  unfold READ_STEP in Hd. unfold TICK_COUNTS in *.
  case_decide as E.
  - assert (Eu : u64 (cmp + 100000) = cmp + 100000) by (unfold u64; apply Z.mod_small; lia).
    assert (En : u32 (n + 1) = n + 1) by (unfold u32; apply Z.mod_small; lia).
    rewrite Eu, En. apply IH; proj; try done; try lia.
    + intros r' j Hj Hnj Hr' Hlt Hge.
      replace (cmp + 100000 + j * 100000) with (cmp + (1 + j) * 100000) in * by lia.
      replace (n + 1 + j) with (n + (1 + j)) by lia.
      change (set_reads r' (set_reads r k)) with (set_reads r' k).
      apply H; [lia|lia|lia|..].
      * destruct Hlt as (m' & ? & ?). exists m'. split; [lia|done].
      * right. destruct Hge as [->|(m' & ? & ?)].
        -- exists m. split; [lia|]. lia.
        -- exists m'. split; [lia|]. lia.
    + destruct fuel; [|lia]. pose proof (clock_le (clk k) m r Hc ltac:(lia)). lia.
  - apply wp_ret. replace cmp with (cmp + 0 * 100000) at 1 by lia.
    replace n with (n + 0) at 1 by lia.
    apply H; [lia|lia|lia| |by left]. exists m. split; [lia|lia].
Qed.

(** What [pass_elapsed_periods] gives: the comparand is ahead of the time
    again, by at most one tick, and the count is that of the edges between. *)
Definition edges (k : kernel) (cmp : Z) (r : nat) (cmp' n : Z) : Prop :=
  cmp' = cmp + n * TICK_COUNTS /\ 0 <= n <= 4096 /\ (reads k < r)%nat /\
  (exists m, (reads k <= m < r)%nat /\ clk k m < cmp') /\
  (n = 0 \/ exists m, (reads k <= m < r)%nat /\ cmp' - TICK_COUNTS <= clk k m).

(** The comparand of the timer is not too far behind the clock, or ahead. *)
Definition timer_in_reach (k : kernel) : Prop :=
  clock_ok (clk k) /\ 0 <= s_mtimecmp k < 2 ^ 63 + 2 ^ 62 /\
  clk k (reads k) < s_mtimecmp k + MAX_LAG.

Lemma wp_pass_elapsed k (Phi : Z * Z -> kernel -> Prop) :
  timer_in_reach k ->
  (forall r cmp' n, edges k (s_mtimecmp k) r cmp' n -> Phi (cmp', n) (set_reads r k)) ->
  wp (pass_elapsed_periods (s_mtimecmp k)) Phi k.
Proof.
  intros (Hc & Hcmp & Hlag) H. unfold pass_elapsed_periods.
  apply wp_pass_elapsed_loop; try done; unfold EDGE_FUEL, MAX_LAG in *; try lia.
  intros r j Hj Hnj Hr Hlt Hge. rewrite Z.add_0_l. apply H.
  split; [done|]. split; [lia|]. split; [done|]. split; [done|].
  destruct Hge as [?|(m & ? & ?)]; [by left|right]. exists m. split; [done|].
  unfold TICK_COUNTS in *. lia.
Qed.

(** ** Ticks *)

(** C36: [tkmc_ms_to_ticks] gives enough whole ticks for a 32-bit number of
    milliseconds, plus the one that is running, never more, and without overflow. *)
Theorem ms_to_ticks_bounds ms : is_u32 ms ->
  let n := tkmc_ms_to_ticks ms in
  is_u32 n /\ ms <= (n - 1) * 10 < ms + 10 /\ 1 <= n <= 429496731.
Proof.
  intros H n. unfold is_u32 in *. unfold n, tkmc_ms_to_ticks, u32.
  rewrite Z.mod_small; case_bool_decide; Z.to_euclidean_division_equations; lia.
Qed.

Lemma ms_to_ticks_range ms : is_u32 ms -> 1 <= tkmc_ms_to_ticks ms <= 429496731.
Proof.
  unfold is_u32. intros H. unfold tkmc_ms_to_ticks, u32.
  rewrite Z.mod_small; case_bool_decide; Z.to_euclidean_division_equations; lia.
Qed.

(** ** The comparand *)

Lemma wp_write_mtimecmp v k (Phi : unit -> kernel -> Prop) :
  0 <= v < 2 ^ 64 -> 0 <= mtimecmp k < 2 ^ 64 ->
  (forall a b, mtimecmp k <= a -> v <= b ->
     Phi tt (set_cmp_log (v :: b :: a :: cmp_log k) (set_mtimecmp v k))) ->
  wp (write_mtimecmp v) Phi k.
Proof.
  intros Hv Hk H. unfold write_mtimecmp.
  assert (Ea : forall x, 0 <= x ->
    x <= Z.shiftl (Z.shiftr x 32) 32 + 0xffffffff /\
    u32 (Z.shiftl (Z.shiftr x 32) 32 + 0xffffffff) = 0xffffffff /\
    Z.shiftr (Z.shiftl (Z.shiftr x 32) 32 + 0xffffffff) 32 = Z.shiftr x 32 /\
    Z.shiftl (Z.shiftr x 32) 32 + u32 x = x).
  { intros x Hx. unfold u32. rewrite !Z.shiftr_div_pow2, !Z.shiftl_mul_pow2 by lia.
    split; [|split; [|split]]; Z.to_euclidean_division_equations; lia. }
  destruct (Ea (mtimecmp k) (proj1 Hk)) as (E1 & E2 & E3 & _).
  destruct (Ea v (proj1 Hv)) as (F1 & F2 & F3 & F4).
  set (a := Z.shiftl (Z.shiftr (mtimecmp k) 32) 32 + 0xffffffff) in *.
  set (b := Z.shiftl (Z.shiftr v 32) 32 + 0xffffffff) in *.
  assert (W1 : wp (out_w CLINT_MTIMECMP_ADDRESS 0xffffffff)
    (fun _ k1 => k1 = log_cmp a k) k) by done.
  apply wp_bind. eapply wp_mono; [exact W1|]. intros _ k1 ->.
  assert (W2 : wp (out_w (CLINT_MTIMECMP_ADDRESS + 4) (Z.shiftr v 32))
    (fun _ k2 => k2 = log_cmp b (log_cmp a k)) (log_cmp a k)).
  { unfold b. rewrite <- E2. done. }
  apply wp_bind. eapply wp_mono; [exact W2|]. intros _ k2 ->.
  assert (W3 : wp (out_w CLINT_MTIMECMP_ADDRESS (u32 v))
    (fun _ k3 => k3 = log_cmp v (log_cmp b (log_cmp a k))) (log_cmp b (log_cmp a k))).
  { unfold wp, out_w. simpl. unfold modify. f_equal. cbn [log_cmp set_cmp_log set_mtimecmp mtimecmp].
    rewrite F3, F4. done. }
  eapply wp_mono; [exact W3|]. intros [] k3 ->. specialize (H a b E1 F1). by destruct k.
Qed.

(** ** The start of a timed wait *)

Lemma wp_schedule_timer k Q t w d c i (Phi : unit -> kernel -> Prop) :
  rep (links k) Q -> nodes_ok (links k) -> task_idx t -> tcbs k !! t = Some c ->
  inq Q (LReady i) (LHead t) -> is_Some (Q !! LTimer) ->
  timer_in_reach k -> 1 <= d <= 429496731 ->
  (forall L r cmp' n, rep L (q_block t true Q) -> dom L = dom (links k) ->
     edges k (s_mtimecmp k) r cmp' n ->
     let k1 := with_lt L (<[t := blocked w (d + n) c]> (tcbs k)) (set_reads r k) in
     1 <= d + n < 2 ^ 32 ->
     inv k1 (q_block t true Q) /\ Phi tt (dispatched (q_block t true Q) k1)) ->
  wp (tkmc_schedule_timer t d w) Phi k.
Proof.
  intros Hr Hn Ht Hc Hi Htm Hreach Hd H. unfold tkmc_schedule_timer.
  apply wp_bind, wp_gets.
  apply wp_bind. eapply wp_tcb_upd; [done|]. proj.
  apply wp_bind. eapply wp_tcb_upd; [apply lookup_insert_eq|]. proj.
  rewrite !insert_insert_eq.
  match goal with |- wp _ _ ?k1 =>
    change (s_mtimecmp k) with (s_mtimecmp k1);
    assert (Hreach1 : timer_in_reach k1) by exact Hreach end.
  apply wp_bind, wp_pass_elapsed; [exact Hreach1|]. intros r cmp' n Hedges.
  assert (Hn' : 0 <= n <= 4096) by apply Hedges.
  proj. apply wp_bind. eapply wp_tcb_upd; [apply lookup_insert_eq|]. proj.
  rewrite !insert_insert_eq.
  assert (Hu : u32 (d + n) = d + n) by (unfold u32; apply Z.mod_small; lia).
  rewrite Hu.
  apply wp_bind. eapply wp_list_del; [exact Hr|exact Hi|]. intros L1 HL1 HD1. proj.
  apply wp_bind. eapply wp_list_add_tail; [exact HL1| | |done|..].
  - destruct Htm as [xs E]. rewrite lookup_qrm, decide_False, E by done. by eexists.
  - by eapply loose_qrm.
  - proj. rewrite HD1. by apply Hn.
  - intros L2 HL2 HD2. proj.
    assert (Hnt : ~ inq Q LTimer (LHead t)) by (intros Hi'; located).
    rewrite qpush_qrm in HL2 by done.
    destruct (H L2 r cmp' n HL2 ltac:(congruence) Hedges ltac:(lia)) as [Hi2 HP].
    apply wp_bind. eapply wp_get_highest; [exact Hi2|].
    apply wp_bind, wp_modify. apply wp_dispatch. exact HP.
Qed.

(** ** [tk_slp_tsk] and [tk_dly_tsk] *)

(** A task that blocked, untimed or for [d] ticks from the edges passed. *)
Definition waits_now (k : kernel) (Q : queues) (t : Z) (c : TCB) (w : Z) (timed : bool)
    (ticks : Z) (Q1 : queues) (k' : kernel) (Q' : queues) : Prop :=
  Q' = q_block t timed Q1 /\ msip k' = 1 /\ next k' = highest Q' /\
  exists d, tcbs k' = <[t := blocked w d c]> (tcbs k) /\
    if timed then exists r cmp' n, edges k (s_mtimecmp k) r cmp' n /\ d = ticks + n else d = 0.

Lemma wp_block_alone {A} k Q t c w (timed : bool) ticks (m : K A) (Phi : A -> kernel -> Prop) :
  wf k Q -> quiet k -> in_task k t -> running k Q t c -> timer_in_reach k ->
  w = TTW_SLP \/ w = TTW_DLY -> 1 <= ticks <= 429496731 ->
  (forall k' Q', wf k' Q' -> mie k' = true -> waits_now k Q t c w timed ticks Q k' Q' ->
     wp m Phi k') ->
  wp ((if timed then tkmc_schedule_timer t ticks w else wait_forever t w) ;;;
      EI (saved (mie k)) ;;; m) Phi (set_mie false k).
Proof.
  intros (Hi & Hset & _) Hqt (Hm & Hcur & Hisr) Hrun Hreach Hw Hticks H.
  pose proof Hrun as [Hc Hs Ht Hrd Hal Hno Hp Hh]. pose proof Hi as (Hr & Hn & Ha).
  apply wp_bind. destruct timed.
  - eapply wp_schedule_timer; [exact Hr|exact Hn|exact Ht|exact Hc|exact Hrd| |exact Hreach|done|].
    { by apply (ai_head _ _ _ _ _ _ Ha). }
    intros L r cmp' n HL HD Hed k1 Hd.
    assert (Hi1 : inv k1 (q_block t true Q)).
    { apply (inv_blocked k Q t c w (ticks + n) true L); try done. lia. }
    split; [done|]. rewrite Hm. apply wp_bind, wp_EI; [done|].
    eapply (H _ (q_block t true Q)); [|done|].
    + apply (dispatched_wf (set_mie true k1)); [done|]. eapply settled_blocked; try done. simpl. lia.
    + split; [done|]. split; [done|]. split; [done|]. exists (ticks + n). split; [done|].
      by exists r, cmp', n.
  - eapply wp_wait_forever; [exact Hr|exact Hn|exact Ht|exact Hc|exact Hrd|].
    intros L HL HD k1.
    assert (Hi1 : inv k1 (q_block t false Q)).
    { by apply (inv_blocked k Q t c w 0 false L). }
    split; [done|]. rewrite Hm. apply wp_bind, wp_EI; [done|].
    eapply (H _ (q_block t false Q)); [|done|].
    + apply (dispatched_wf (set_mie true k1)); [done|]. by eapply settled_blocked.
    + split; [done|]. split; [done|]. split; [done|]. by exists 0.
Qed.

Lemma may_block_saved k : may_block k =
  mie k && bool_decide (is_Some (current k)) && bool_decide (isr_depth k = 0).
Proof. done. Qed.

(** The start of a call that may wait. *)
Lemma wp_may_block {A} k (m1 m2 : K A) (Phi : A -> kernel -> Prop) :
  (may_block k = false -> wp m1 Phi (set_mie false k)) ->
  (forall t, may_block k = true -> in_task k t -> wp m2 Phi (set_mie false k)) ->
  wp (can <- tkmc_can_block (saved (mie k)) ;; if negb can then m1 else m2) Phi (set_mie false k).
Proof.
  intros H1 H2. apply wp_bind, wp_can_block. proj. rewrite <- may_block_saved.
  destruct (may_block k) eqn:E; [|by apply H1].
  destruct (may_block_task k E) as [t Ht]. by eapply H2.
Qed.

(** What [tk_slp_tsk] gives and leaves. *)
Definition slp_tsk_post k Q tmout (r : call) (k' : kernel) : Prop :=
  exists Q', wf k' Q' /\ mie k' = mie k /\
    if decide (tmout < TMO_FEVR) then r = Return E_PAR /\ k' = k
    else if may_block k then
      exists t c, current k = Some t /\ tcbs k !! t = Some c /\
        if decide (0 < wupcnt c) then r = Return E_OK /\ Q' = Q /\
          k' = set_tcbs (<[t := set_wupcnt (wupcnt c - 1) c]> (tcbs k)) k
        else if decide (tmout = TMO_POL) then r = Return E_TMOUT /\ k' = k
        else r = Suspend K_slp /\
          waits_now k Q t c TTW_SLP (bool_decide (0 < tmout)) (tkmc_ms_to_ticks tmout) Q k' Q'
    else r = Return E_CTX /\ k' = k.

Lemma wp_slp_tsk k Q tmout :
  wf k Q -> quiet k -> timer_in_reach k -> is_i32 tmout ->
  wp (tk_slp_tsk tmout) (slp_tsk_post k Q tmout) k.
Proof.
  unfold slp_tsk_post.
  intros Hwf Hqt Hreach Htm.
  unfold tk_slp_tsk. case_decide as Ef; [by apply wp_ret; exists Q|].
  apply wp_bind, wp_DI, wp_may_block; [intros ->; apply wp_leave; by exists Q|].
  intros t -> Htask. destruct (task_running k Q t Hwf Hqt Htask) as (Hm0 & c & Hrun).
  pose proof Htask as (Hm & Hcur & Hisr). pose proof (run_tcb _ _ _ _ Hrun) as Hc.
  apply wp_bind. eapply wp_current_tcb; [done|]. apply wp_bind. eapply wp_tcb_get; [done|].
  case_decide as Ew.
  { apply wp_bind. eapply wp_tcb_upd; [done|]. apply wp_bind, wp_EI; [done|]. apply wp_ret.
    exists Q. split; [exact (wf_touch k Q t c (set_wupcnt (wupcnt c - 1) c) Hwf Hc ltac:(done))|].
    split; [done|].
    exists t, c. rewrite decide_True by done. split; [done|]. split; [done|].
    split; [done|]. split; [done|]. by destruct k. }
  case_decide as Et.
  - eapply (wp_block_alone k Q t c TTW_SLP true); try done; [by left| |].
    { apply ms_to_ticks_range. unfold is_u32, is_i32 in *. lia. }
    intros k' Q' Hwf' Hm' Hwait. apply wp_ret. exists Q'. split; [done|]. split; [congruence|].
    exists t, c. rewrite 2!decide_False by (done || unfold TMO_POL; lia).
    rewrite bool_decide_true by done. done.
  - case_decide as Ep.
    + apply wp_leave. exists Q. split; [done|]. split; [done|].
      exists t, c. by rewrite decide_False.
    + eapply (wp_block_alone k Q t c TTW_SLP false 1); try done; [by left|].
      intros k' Q' Hwf' Hm' Hwait. apply wp_ret. exists Q'. split; [done|]. split; [congruence|].
      exists t, c. rewrite decide_False by done. by rewrite bool_decide_false.
Qed.

(** C28: [tk_slp_tsk] on every branch: E_PAR and E_CTX change nothing, a queued
    wake-up is used up, a poll times out, and otherwise the caller is off its ready
    queue, on the timer queue exactly if the sleep has a limit, and the next task is
    chosen; the state stays well formed. *)
Theorem slp_tsk_spec k Q tmout :
  wf k Q -> quiet k -> timer_in_reach k -> is_i32 tmout ->
  wp (tk_slp_tsk tmout) (slp_tsk_post k Q tmout) k.
Proof. apply wp_slp_tsk. Qed.

(** What [tk_dly_tsk] gives and leaves. *)
Definition dly_tsk_post k Q dlytm (r : call) (k' : kernel) : Prop :=
  exists Q', wf k' Q' /\ mie k' = mie k /\
    if may_block k then
      if decide (dlytm = 0) then r = Suspend K_dly_yield /\ k' = k
      else exists t c, current k = Some t /\ tcbs k !! t = Some c /\ r = Suspend K_dly /\
        waits_now k Q t c TTW_DLY true (tkmc_ms_to_ticks dlytm) Q k' Q'
    else r = Return E_CTX /\ k' = k.

Lemma wp_dly_tsk k Q dlytm :
  wf k Q -> quiet k -> timer_in_reach k -> is_u32 dlytm ->
  wp (tk_dly_tsk dlytm) (dly_tsk_post k Q dlytm) k.
Proof.
  unfold dly_tsk_post.
  intros Hwf Hqt Hreach Htm.
  unfold tk_dly_tsk.
  apply wp_bind, wp_DI, wp_may_block; [intros ->; apply wp_leave; by exists Q|].
  intros t -> Htask. destruct (task_running k Q t Hwf Hqt Htask) as (Hm0 & c & Hrun).
  pose proof Htask as (Hm & Hcur & Hisr). pose proof (run_tcb _ _ _ _ Hrun) as Hc.
  case_decide as E0; [apply wp_leave; by exists Q|].
  apply wp_bind. eapply wp_current_tcb; [done|].
  eapply (wp_block_alone k Q t c TTW_DLY true); try done; [by right| |].
  { by apply ms_to_ticks_range. }
  intros k' Q' Hwf' Hm' Hwait. apply wp_ret. exists Q'. split; [done|].
  split; [congruence|]. by exists t, c.
Qed.

(** C29: [tk_dly_tsk] on every branch: E_CTX changes nothing, a zero delay goes on
    to the yield, and any other unsigned delay puts the caller on the timer queue
    for that many ticks plus the edges already passed; the state stays well formed. *)
Theorem dly_tsk_spec k Q dlytm :
  wf k Q -> quiet k -> timer_in_reach k -> is_u32 dlytm ->
  wp (tk_dly_tsk dlytm) (dly_tsk_post k Q dlytm) k.
Proof. apply wp_dly_tsk. Qed.

(** *** The ends of the waits *)

Lemma wp_take_wupcause k t c (Phi : Z -> kernel -> Prop) :
  current k = Some t -> tcbs k !! t = Some c ->
  Phi (wupcause c) (set_tcbs (<[t := set_wupcause E_OK c]> (tcbs k)) k) ->
  wp take_wupcause Phi k.
Proof.
  intros Hcur Hc H. unfold take_wupcause. apply wp_bind. eapply wp_current_tcb; [done|].
  apply wp_bind. eapply wp_tcb_get; [done|]. apply wp_bind. eapply wp_tcb_upd; [done|].
  by apply wp_ret.
Qed.

(** The state of a call that takes the cause of its wake-up. *)
Definition cause_taken (k : kernel) (t : Z) (c : TCB) : kernel :=
  set_tcbs (<[t := set_wupcause E_OK c]> (tcbs k)) k.

Lemma cause_taken_wf k Q t c : wf k Q -> tcbs k !! t = Some c -> wf (cause_taken k t c) Q.
Proof. intros Hwf Hc. by apply (wf_touch k Q t c). Qed.

(** What the ends of the waits do, but for those that have a result to store. *)
Definition cause_back k t c (r : Z) (k' : kernel) : Prop :=
  r = wupcause c /\ k' = cause_taken k t c.

Section resume.
Context {k : kernel} {t : Z} {c : TCB}.
Hypothesis Hcur : current k = Some t.
Hypothesis Hc : tcbs k !! t = Some c.

Lemma wp_cause_back (f : Z -> Z) :
  wp (intsts <- DI ;; ercd <- take_wupcause ;; EI intsts ;;; ret (f ercd))
    (fun r k' => r = f (wupcause c) /\ k' = cause_taken k t c) k.
Proof using Hcur Hc.
  apply wp_bind, wp_DI. apply wp_bind.
  eapply wp_take_wupcause; [exact Hcur|exact Hc|]. apply wp_bind, wp_EI; [done|]. apply wp_ret.
  split; [done|]. unfold cause_taken. by destruct k.
Qed.

Lemma wp_slp_resume : wp tk_slp_tsk_resume (cause_back k t c) k.
Proof using Hcur Hc. apply (wp_cause_back id). Qed.
Lemma wp_dly_resume : wp tk_dly_tsk_resume (fun r k' =>
  r = (if decide (wupcause c = E_TMOUT) then E_OK else wupcause c) /\ k' = cause_taken k t c) k.
Proof using Hcur Hc. apply (wp_cause_back (fun e => if decide (e = E_TMOUT) then E_OK else e)). Qed.
End resume.
