(* ===== verification/Block.v ===== *)
(** * Joining a wait queue

    What the waiting calls of semaphores, event flags and mailboxes share: the
    place of a task in a wait queue, by arrival or by priority, and the state
    in which it has blocked there. *)

From S2P Require Import Prelude DList Tkernel Kernel Inv Moves Rules Wait Sched Timer.

Open Scope Z_scope.
Implicit Types (k : kernel) (Q : queues) (t : Z) (h n : link).

(** The body of the loops of [tk_wai_sem] and [tk_wai_flg] that put [t] before
    the first task of a lower priority ([break] after the insertion). *)
Definition insert_pri_body (t : Z) (pos : link) : K bool :=
  p <- tcb_of_wait pos ;;
  c <- tcb_get t ;;
  cp <- tcb_get p ;;
  if bool_decide (itskpri c < itskpri cp) then
    before <- list_prev (LWait p) ;;
    list_add (LWait t) before ;;;
    ret false
  else ret true.

(** ** The place in the queue *)

Section place.
Context {k : kernel} {Q : queues} {t : Z} {c : TCB} {h : link} {ws : list link}.
Hypothesis Hr : rep (links k) Q.
Hypothesis Hn : nodes_ok (links k).
Hypothesis Ht : task_idx t.
Hypothesis Hc : tcbs k !! t = Some c.
Hypothesis Halone : alone Q (LWait t).
Hypothesis Hh : obj_head h.
Hypothesis Hq : Q !! h = Some ws.
Hypothesis Hmem : forall n, n ∈ ws -> exists u cu, n = LWait u /\ tcbs k !! u = Some cu.

(** [t] is in the queue, behind [xs]. *)
Definition joined (xs ys : list link) (k' : kernel) : Prop :=
  ws = xs ++ ys /\ exists L, rep L (q_wait h xs ys t Q) /\ dom L = dom (links k) /\
    k' = set_links L k.

Let p : Z := itskpri c.

Lemma place_loose : loose Q (LWait t).
Proof using Hr Halone. by eapply rep_alone_loose. Qed.

Lemma place_wpri : wpri (tcbs k) (LWait t) = p.
Proof using Hc. unfold wpri, waiter. by rewrite Hc. Qed.

Lemma wp_join_tail (Phi : unit -> kernel -> Prop) :
  (forall k', joined ws [] k' -> Phi tt k') -> wp (list_add_tail (LWait t) h) Phi k.
Proof using Hr Hn Ht Halone Hq Hh.
  intros H. eapply wp_list_add_tail; [exact Hr|by rewrite Hq; eexists|apply place_loose| | |].
  - intros E. by rewrite <- E in Hh.
  - by apply Hn.
  - intros L HL HD. apply H. split; [by rewrite app_nil_r|]. exists L.
    split; [|done]. unfold qpush in HL. by rewrite Hq in HL.
Qed.

Lemma wp_insert_pri_body xs n ys (Phi : bool -> kernel -> Prop) :
  ws = xs ++ n :: ys ->
  (wpri (tcbs k) n <= p -> Phi true k) ->
  (forall k', p < wpri (tcbs k) n -> joined xs (n :: ys) k' -> Phi false k') ->
  wp (insert_pri_body t n) Phi k.
Proof using Hr Hn Ht Hc Halone Hq Hh Hmem.
  intros E Hgo Hin. destruct (Hmem n) as (u & cu & -> & Hu).
  { rewrite E. apply elem_of_app. right. by left. }
  assert (Hw : wpri (tcbs k) (LWait u) = itskpri cu) by (unfold wpri, waiter; by rewrite Hu).
  unfold insert_pri_body. apply wp_bind, wp_ret. apply wp_bind. eapply wp_tcb_get; [done|].
  apply wp_bind. eapply wp_tcb_get; [done|]. case_bool_decide as Hlt.
  - apply wp_seq_assoc_bind, wp_bind.
    eapply (wp_list_add_before Hr h xs (LWait u) ys); [by rewrite <- E|apply place_loose| | |].
    + intros E'. by rewrite <- E' in Hh.
    + by apply Hn.
    + intros L HL HD. apply wp_ret, Hin; [unfold p; lia|]. split; [done|]. by exists L.
  - apply wp_ret, Hgo. unfold p. lia.
Qed.

(** The place by priority: behind those that are not of a lower priority. *)
Lemma placed_pri atr xs ys :
  Z.land atr TA_TPRI <> 0 -> pri_sorted (tcbs k) (xs ++ ys) ->
  Forall (fun n => wpri (tcbs k) n <= p) xs ->
  (forall n, head ys = Some n -> p < wpri (tcbs k) n) -> placed (tcbs k) atr t xs ys.
Proof using Hc.
  intros Ha Hs Hx Hy. unfold placed. rewrite decide_False, place_wpri by done.
  split; [done|]. destruct ys as [|y ys]; [done|]. specialize (Hy y eq_refl).
  constructor; [done|]. unfold pri_sorted in Hs.
  assert (Hs' : StronglySorted (fun a b => wpri (tcbs k) a <= wpri (tcbs k) b) (y :: ys)).
  { clear -Hs. induction xs as [|x xs IH]; [done|]. inversion Hs; subst. by apply IH. }
  inversion Hs' as [|? ? _ Hall]; subst. eapply Forall_impl; [exact Hall|]. simpl. lia.
Qed.
End place.

(** The insertion of [tk_wai_sem] and [tk_wai_flg], which differ in the macro
    of their loop. *)
Definition enqueue (for_each : link -> (link -> K bool) -> K bool) (t atr : Z) (h : link) : K unit :=
  list_init (LWait t) ;;;
  if decide (Z.land atr TA_TPRI <> 0) then
    empty <- list_empty h ;;
    if (empty : bool) then list_add_tail (LWait t) h
    else
      to_end <- for_each h (insert_pri_body t) ;;
      if (to_end : bool) then list_add_tail (LWait t) h else ret tt
  else list_add_tail (LWait t) h.

(** A loop that changes nothing until it is left. *)
Definition scans (for_each : link -> (link -> K bool) -> K bool) : Prop :=
  forall k Q h ws body (Phi : bool -> kernel -> Prop) (I : list link -> Prop),
    rep (links k) Q -> Q !! h = Some ws -> I [] ->
    (forall xs n ys, ws = xs ++ n :: ys -> I xs ->
       wp (body n) (fun go k' => if (go : bool) then k' = k /\ I (xs ++ [n]) else Phi false k') k) ->
    (I ws -> Phi true k) -> wp (for_each h body) Phi k.

Lemma for_each_scans : scans list_for_each_entry.
Proof.
  intros k Q h ws body Phi I Hr Hq HI Hbody Hend.
  eapply (wp_for_each Q h ws (fun xs k' => k' = k /\ I xs)); try done.
  - intros xs n ys k' E Hr' [-> HI']. eapply wp_mono; [apply (Hbody xs n ys); [congruence|done]|].
    intros [] k'' H; [|done]. destruct H as [-> H]. done.
  - intros k' xs E _ [-> HI']. apply Hend. congruence.
Qed.

Lemma for_each_safe_scans : scans list_for_each_entry_safe.
Proof.
  intros k Q h ws body Phi I Hr Hq HI Hbody Hend.
  eapply (wp_for_each_safe h (fun pre rest Q' k' => Q' = Q /\ k' = k /\ ws = pre ++ rest /\ I pre)).
  - intros pre rest Q' k' (-> & -> & E & _). split; [done|]. by rewrite <- E.
  - intros pre n rest Q' k' (-> & -> & E & HI'). eapply wp_mono; [by eapply Hbody|].
    intros [] k'' H; [|done]. destruct H as [-> H]. exists (pre ++ [n]), Q.
    split; [done|]. split; [done|]. split; [|done]. by rewrite <- app_assoc.
  - intros pre Q' k' (-> & -> & E & HI'). apply Hend. by rewrite E, app_nil_r.
  - done.
Qed.

Section enqueue.
Context {for_each : link -> (link -> K bool) -> K bool}.
Hypothesis Hscan : scans for_each.
Context {k : kernel} {Q : queues} {t : Z} {c : TCB} {h : link} {ws : list link}.
Hypothesis Hr : rep (links k) Q.
Hypothesis Hn : nodes_ok (links k).
Hypothesis Ht : task_idx t.
Hypothesis Hc : tcbs k !! t = Some c.
Hypothesis Halone : alone Q (LWait t).
Hypothesis Hh : obj_head h.
Hypothesis Hq : Q !! h = Some ws.
Hypothesis Hmem : forall n, n ∈ ws -> exists u cu, n = LWait u /\ tcbs k !! u = Some cu.

(** The task is put at its place. *)
Lemma wp_enqueue atr (Phi : unit -> kernel -> Prop) :
  order_ok (tcbs k) atr ws ->
  (forall xs ys L, ws = xs ++ ys -> placed (tcbs k) atr t xs ys ->
     rep L (q_wait h xs ys t Q) -> dom L = dom (links k) -> Phi tt (set_links L k)) ->
  wp (enqueue for_each t atr h) Phi k.
Proof using Hscan Hr Hn Ht Hc Halone Hh Hq Hmem.
  intros Ho H. unfold enqueue. apply wp_bind.
  eapply wp_list_init; [exact Hr|by apply (rep_alone_loose _ _ _ Hr Halone)|by apply Hn|].
  intros L0 HL0 HD0. rewrite insert_id in HL0 by done.
  set (k0 := set_links L0 k).
  assert (Hn0 : nodes_ok (links k0)) by (by eapply nodes_ok_dom).
  assert (Hj : forall xs ys k', joined (k := k0) (Q := Q) (t := t) (h := h) (ws := ws) xs ys k' ->
    placed (tcbs k) atr t xs ys -> Phi tt k').
  { intros xs ys k' (E & L & HL & HD & ->) Hp. apply (H xs ys L E Hp HL). unfold k0 in HD. proj.
    congruence. }
  case_decide as Ha.
  2:{ eapply (wp_join_tail (k := k0) (ws := ws)); try done. intros k' Hk'. eapply Hj; [exact Hk'|].
      unfold placed. rewrite decide_True; [done|].
      by destruct (decide (Z.land atr TA_TPRI = 0)). }
  specialize (Ho Ha). apply wp_bind. eapply wp_list_empty; [exact HL0|exact Hq|].
  assert (Htail : Forall (fun n => wpri (tcbs k) n <= itskpri c) ws ->
    wp (list_add_tail (LWait t) h) Phi k0).
  { intros Hall. eapply (wp_join_tail (k := k0) (ws := ws)); try done. intros k' Hk'.
    eapply Hj; [exact Hk'|].
    eapply (placed_pri (k := k0)); [exact Hc|done|by rewrite app_nil_r|done|done]. }
  case_bool_decide as Ews; [by subst ws; apply Htail|]. apply wp_bind.
  apply (Hscan k0 Q h ws _ _ (fun xs => Forall (fun n => wpri (tcbs k) n <= itskpri c) xs));
    [exact HL0|exact Hq|constructor| |exact Htail].
  intros xs n ys E Hxs.
  eapply (wp_insert_pri_body (k := k0) (h := h)); [exact HL0|exact Hn0|done|exact Hc|done|done|
    exact Hq|exact Hmem|exact E| |].
  - intros Hle. split; [done|]. apply Forall_app. split; [done|]. by constructor.
  - intros k' Hlt Hk'. apply wp_ret. eapply Hj; [exact Hk'|].
    eapply (placed_pri (k := k0)); [exact Hc|done|by rewrite <- E|done|].
    intros m Hm. simpl in Hm. by simplify_eq.
Qed.
End enqueue.

(** ** The blocked state *)

(** The control block of a task that waits for an object. *)
Definition queued (wi : WaitInfo) (w d : Z) (c : TCB) : TCB := blocked w d (set_winfo wi c).

Section block_on.
Context {k : kernel} {Q : queues} {t : Z} {c : TCB} {h : link} {xs ys : list link}.
Context {w : Z} {wi : WaitInfo} {ticks : Z}.
Hypothesis Hwf : wf k Q.
Hypothesis Hqt : quiet k.
Hypothesis Htask : in_task k t.
Hypothesis Hrun : running k Q t c.
Hypothesis Hreach : timer_in_reach k.
Hypothesis Hh : obj_head h.
Hypothesis Hq : Q !! h = Some (xs ++ ys).
Hypothesis Hticks : 1 <= ticks <= 429496731.
Let Q1 : queues := q_wait h xs ys t Q.

(** What is left to show for the object: with [t] in its queue, the state is
    well formed and nobody else could be served. *)
Definition join_ok (timed : bool) : Prop := forall d L,
  (if timed then 0 < d < 2 ^ 32 else d = 0) ->
  rep L (q_block t timed Q1) -> dom L = dom (links k) ->
  let k1 := with_lt L (<[t := queued wi w d c]> (tcbs k)) k in
  inv k1 (q_block t timed Q1) /\ objs_settled k1 (q_block t timed Q1).

Lemma q_wait_ready : inq Q1 (LReady (itskpri c - 1)) (LHead t).
Proof using Hrun Hh.
  destruct (run_ready _ _ _ _ Hrun) as (zs & E & Hi). exists zs. split; [|done].
  unfold Q1. rewrite lookup_q_wait_other; [done|apply (run_nowhere _ _ _ _ Hrun)| |done].
  intros E'. by rewrite <- E' in Hh.
Qed.

Lemma q_wait_timer : Q1 !! LTimer = Q !! LTimer.
Proof using Hrun Hh.
  unfold Q1. apply lookup_q_wait_other; [apply (run_nowhere _ _ _ _ Hrun)| |done].
  intros E'. by rewrite <- E' in Hh.
Qed.

(** [k'] is [k] with [t] waiting in the queue of [h], timed or not. *)
Definition waits_in (timed : bool) (k' : kernel) (Q' : queues) : Prop :=
  Q' = q_block t timed Q1 /\ msip k' = 1 /\ next k' = highest Q' /\ mie k' = true /\
  exists d, tcbs k' = <[t := queued wi w d c]> (tcbs k) /\
    semcbs k' = semcbs k /\ flgcbs k' = flgcbs k /\ mbxcbs k' = mbxcbs k /\
    if timed then exists r cmp' (n : Z), edges k (s_mtimecmp k) r cmp' n /\ d = ticks + n
    else d = 0.

Lemma queued_live timed d :
  (if (timed : bool) then 0 < d else True) ->
  timers_live (<[t := queued wi w d c]> (tcbs k)) (q_block t timed Q1).
Proof using Hwf Hrun Hh.
  intros Hd. apply timers_live_block; [done|]. intros u cu Hu (zs & E & Hi).
  rewrite q_wait_timer in E. destruct Hwf as (_ & [_ Hl] & _). eapply Hl; [done|by exists zs].
Qed.

Lemma wp_block_on {A} (timed : bool) L1 (m : K A) (Phi : A -> kernel -> Prop) :
  join_ok timed -> rep L1 Q1 -> dom L1 = dom (links k) ->
  (forall k' Q', wf k' Q' -> waits_in timed k' Q' -> wp m Phi k') ->
  wp ((if timed then tkmc_schedule_timer t ticks w else wait_forever t w) ;;;
      EI (saved (mie k)) ;;; m) Phi
    (set_links L1 (set_tcbs (<[t := set_winfo wi c]> (tcbs k)) (set_mie false k))).
Proof using Hwf Htask Hrun Hreach Hh Hticks.
  intros Hok HL1 HD1 H. pose proof Htask as (Hm & Hcur & Hisr).
  pose proof Hwf as ((Hr & Hn & Ha) & _). pose proof (run_idx _ _ _ _ Hrun) as Ht.
  set (k0 := set_links L1 (set_tcbs (<[t := set_winfo wi c]> (tcbs k)) (set_mie false k))).
  assert (Hn1 : nodes_ok (links k0)) by (by eapply nodes_ok_dom).
  assert (Hc0 : tcbs k0 !! t = Some (set_winfo wi c)) by apply lookup_insert_eq.
  apply wp_bind. destruct timed.
  - eapply (wp_schedule_timer k0 Q1); [exact HL1|exact Hn1|exact Ht|exact Hc0|exact q_wait_ready|
      |exact Hreach|exact Hticks|].
    { rewrite q_wait_timer. by apply (ai_head _ _ _ _ _ _ Ha). }
    intros L r cmp' n HL HD Hed k1 Hd.
    assert (Ek1 : k1 = with_lt L (<[t := queued wi w (ticks + n) c]> (tcbs k))
      (set_reads r (set_mie false k))).
    { unfold k1, k0, with_lt. proj. by rewrite insert_insert_eq. }
    assert (Hd' : 0 < ticks + n < 2 ^ 32) by lia.
    assert (HD' : dom L = dom (links k)) by (rewrite HD; exact HD1).
    destruct (Hok (ticks + n) L Hd' HL HD') as [Hi Ho].
    rewrite Ek1. split; [exact Hi|]. rewrite Hm. apply wp_bind, wp_EI; [done|].
    eapply (H _ (q_block t true Q1)).
    + apply dispatched_wf_mie; [exact Hi|]. split; [exact Ho|].
      apply (queued_live true). lia.
    + repeat (split; [done|]). exists (ticks + n). repeat (split; [done|]). by exists r, cmp', n.
  - eapply (wp_wait_forever k0 Q1); [exact HL1|exact Hn1|exact Ht|exact Hc0|exact q_wait_ready|].
    intros L HL HD k1.
    assert (Ek1 : k1 = with_lt L (<[t := queued wi w 0 c]> (tcbs k)) (set_mie false k)).
    { unfold k1, k0, with_lt. proj. by rewrite insert_insert_eq. }
    assert (HD' : dom L = dom (links k)) by (rewrite HD; exact HD1).
    destruct (Hok 0 L eq_refl HL HD') as [Hi Ho].
    rewrite Ek1. split; [exact Hi|]. rewrite Hm. apply wp_bind, wp_EI; [done|].
    eapply (H _ (q_block t false Q1)).
    + apply dispatched_wf_mie; [exact Hi|]. split; [exact Ho|]. by apply (queued_live false).
    + repeat (split; [done|]). by exists 0.
Qed.
End block_on.

(** What a task waits for is not its priority. *)
Section winfo.
Context {T : gmap Z TCB} {t : Z} {c : TCB} {wi : WaitInfo}.
Hypothesis Hc : T !! t = Some c.

Lemma wpri_winfo n : wpri (<[t := set_winfo wi c]> T) n = wpri T n.
Proof using Hc.
  unfold wpri, waiter. destruct n as [| | | | | | | | |u| | | | |]; try done.
  destruct (decide (u = t)) as [->|]; [by rewrite lookup_insert_eq, Hc|by rewrite lookup_insert_ne].
Qed.
End winfo.

Lemma waiter_insert (T : gmap Z TCB) t c n :
  (exists u cu, n = LWait u /\ T !! u = Some cu) ->
  exists u cu, n = LWait u /\ <[t := c]> T !! u = Some cu.
Proof.
  intros (u & cu & -> & Hu). exists u. destruct (decide (u = t)) as [->|].
  - exists c. by rewrite lookup_insert_eq.
  - exists cu. by rewrite lookup_insert_ne.
Qed.

Lemma order_ok_wpri T T' atr ws :
  (forall n, wpri T' n = wpri T n) -> order_ok T atr ws -> order_ok T' atr ws.
Proof. intros E H Ha. eapply pri_sorted_same; [|by apply H]. done. Qed.

Lemma placed_wpri T T' atr t xs ys :
  (forall n, wpri T' n = wpri T n) -> placed T' atr t xs ys <-> placed T atr t xs ys.
Proof.
  intros E. unfold placed. case_decide; [done|]. by setoid_rewrite E.
Qed.

(** ** The end of a waiting call *)

Section wait_on.
Context {k : kernel} {Q : queues} {t : Z} {c : TCB} {h : link} {ws : list link}.
Context {w atr tmout : Z} {wi : WaitInfo} {co : cont}.
Hypothesis Hwf : wf k Q.
Hypothesis Htask : in_task k t.
Hypothesis Hrun : running k Q t c.
Hypothesis Hreach : timer_in_reach k.
Hypothesis Hh : obj_head h.
Hypothesis Hq : Q !! h = Some ws.
Hypothesis Ht32 : is_i32 tmout.
Hypothesis Hjoin : forall xs ys, ws = xs ++ ys -> placed (tcbs k) atr t xs ys -> forall timed,
  join_ok (k := k) (Q := Q) (t := t) (c := c) (h := h) (xs := xs) (ys := ys) (w := w)
    (wi := wi) timed.

(** [t] waits at its place among [ws], with the limit [tmout]. *)
Definition waits_placed (k' : kernel) (Q' : queues) : Prop :=
  exists xs ys, ws = xs ++ ys /\ placed (tcbs k) atr t xs ys /\
    waits_in (k := k) (Q := Q) (t := t) (c := c) (h := h) (xs := xs) (ys := ys) (w := w)
      (wi := wi) (ticks := tkmc_ms_to_ticks tmout) (bool_decide (0 < tmout)) k' Q'.

Definition waits_end (Phi : call -> kernel -> Prop) : Prop :=
  forall k' Q', wf k' Q' -> mie k' = mie k -> waits_placed k' Q' -> Phi (Suspend co) k'.

(** The task is in the queue. *)
Lemma wp_wait_joined xs ys L (Phi : call -> kernel -> Prop) :
  ws = xs ++ ys -> placed (tcbs k) atr t xs ys ->
  rep L (q_wait h xs ys t Q) -> dom L = dom (links k) -> waits_end Phi ->
  wp ((if decide (0 < tmout) then tkmc_schedule_timer t (tkmc_ms_to_ticks tmout) w
       else wait_forever t w) ;;;
      EI (saved (mie k)) ;;; ret (Suspend co)) Phi
    (set_links L (set_tcbs (<[t := set_winfo wi c]> (tcbs k)) (set_mie false k))).
Proof using Hwf Htask Hrun Hreach Hh Ht32 Hjoin.
  intros E Hpl HL HD Hend.
  assert (Hret : forall k' Q', wf k' Q' ->
    waits_in (k := k) (Q := Q) (t := t) (c := c) (h := h) (xs := xs) (ys := ys) (w := w)
      (wi := wi) (ticks := tkmc_ms_to_ticks tmout) (bool_decide (0 < tmout)) k' Q' ->
    wp (ret (Suspend co)) Phi k').
  { intros k' Q' Hwf' Hw. apply wp_ret, (Hend k' Q' Hwf'); [|by exists xs, ys].
    destruct Hw as (_ & _ & _ & -> & _). by destruct Htask as (-> & _). }
  destruct (decide (0 < tmout)) as [Hpos|Hpos].
  - eapply (wp_block_on (ticks := tkmc_ms_to_ticks tmout) Hwf Htask Hrun Hreach Hh)
      with (timed := true); [|by apply Hjoin|exact HL|exact HD|].
    { apply ms_to_ticks_range. unfold is_u32, is_i32 in *. lia. }
    intros k' Q' Hwf' Hw. eapply Hret; [exact Hwf'|]. by rewrite bool_decide_true.
  - eapply (wp_block_on (ticks := 1) Hwf Htask Hrun Hreach Hh) with (timed := false);
      [lia|by apply Hjoin|exact HL|exact HD|].
    intros k' Q' Hwf' Hw. eapply Hret; [exact Hwf'|]. by rewrite bool_decide_false.
Qed.

(** The task still has to be put at its place. *)
Lemma wp_enqueue_wait for_each (Phi : call -> kernel -> Prop) : scans for_each ->
  (forall n, n ∈ ws -> exists u cu, n = LWait u /\ tcbs k !! u = Some cu) ->
  order_ok (tcbs k) atr ws -> waits_end Phi ->
  wp (tcb_upd t (set_winfo wi) ;;; enqueue for_each t atr h ;;;
      (if decide (0 < tmout) then tkmc_schedule_timer t (tkmc_ms_to_ticks tmout) w
       else wait_forever t w) ;;;
      EI (saved (mie k)) ;;; ret (Suspend co)) Phi (set_mie false k).
Proof using Hwf Htask Hrun Hreach Hh Hq Ht32 Hjoin.
  intros Hscan Hmem Hord Hend. pose proof (run_tcb _ _ _ _ Hrun) as Hc.
  pose proof Hwf as ((Hr & Hn & _) & _).
  apply wp_bind. eapply wp_tcb_upd; [exact Hc|]. apply wp_bind.
  assert (Hwp : forall n, wpri (<[t := set_winfo wi c]> (tcbs k)) n = wpri (tcbs k) n)
    by (by apply wpri_winfo).
  eapply (wp_enqueue Hscan (k := set_tcbs (<[t := set_winfo wi c]> (tcbs k)) (set_mie false k))
    (t := t) (h := h) (ws := ws) Hr Hn (run_idx _ _ _ _ Hrun));
    [proj; apply lookup_insert_eq|apply (run_alone _ _ _ _ Hrun)|done|exact Hq| | |].
  { intros n Hin. proj. eapply waiter_insert. by apply Hmem. }
  { proj. by eapply order_ok_wpri. }
  intros xs ys L E Hpl HL HD. proj. rewrite (placed_wpri _ _ _ _ _ _ Hwp) in Hpl.
  by apply (wp_wait_joined xs ys).
Qed.
End wait_on.

(** ** The other objects *)

Section others.
Context {k : kernel} {Q : queues} {t : Z} {c : TCB} {h : link} {xs ys : list link}.
Context {w d : Z} {wi : WaitInfo} {timed : bool} {k1 : kernel}.
Hypothesis Hwf : wf k Q.
Hypothesis Hrun : running k Q t c.
Hypothesis Hh : obj_head h.
Hypothesis Hq : Q !! h = Some (xs ++ ys).
Hypothesis HT : tcbs k1 = <[t := queued wi w d c]> (tcbs k).
Let Q' : queues := q_block t timed (q_wait h xs ys t Q).

Lemma others_lookup h' : obj_head h' ->
  Q' !! h' = if decide (h' = h) then Some (xs ++ LWait t :: ys) else Q !! h'.
Proof using Hwf Hrun Hh Hq.
  destruct Hwf as ((_ & _ & Ha) & _).
  exact (join_lookup Ha (run_nowhere _ _ _ _ Hrun) Hh Hq h').
Qed.

Lemma others_wait h' n : inq Q h' n -> same_wait (tcbs k) (tcbs k1) n.
Proof using Hrun HT.
  intros Hi. rewrite HT. apply same_wait_other. intros ->.
  by apply (run_nowhere _ _ _ _ Hrun h').
Qed.

Lemma others_sem s sc : LSem s <> h -> semcbs k !! s = Some sc -> sem_settled (tcbs k1) Q' s sc.
Proof using Hwf Hrun Hh Hq HT.
  intros Hne Hs. destruct Hwf as (_ & [[HS _] _] & _).
  eapply (sem_settled_same (tcbs k) _ Q).
  - by rewrite others_lookup, decide_False.
  - intros n. apply others_wait.
  - by apply HS.
Qed.

Lemma others_flg f fc : LFlg f <> h -> flgcbs k !! f = Some fc -> flg_settled (tcbs k1) Q' f fc.
Proof using Hwf Hrun Hh Hq HT.
  intros Hne Hs ws Hid Hws. destruct Hwf as (_ & [[_ HF] _] & _).
  rewrite others_lookup, decide_False in Hws by done.
  eapply (flg_settled_shrinks (tcbs k) _ Q Q); [by eexists| |by apply HF|done|done].
  intros ws' E. exists ws'. split; [done|]. split; [done|]. intros n Hn.
  apply (others_wait (LFlg f)). by exists ws'.
Qed.
End others.

(** ** Handing something to a waiter

    Event flags and mailboxes write the result of the wait into the block of
    the waiter before they end its wait. *)

(** The same kind of information for a wait that serves nobody at its end. *)
Definition same_kind (w w' : WaitInfo) : Prop :=
  match w, w' with
  | WEventFlag p m _, WEventFlag p' m' _ => p = p' /\ m = m'
  | WMailbox _, WMailbox _ => True
  | _, _ => False
  end.

Section give.
Context {k : kernel} {Q : queues} {t : Z} {c : TCB} {wi : WaitInfo}.
Hypothesis Hi : inv k Q.
Hypothesis Hc : tcbs k !! t = Some c.
Hypothesis Hs : tskstat c = TTS_WAI.
Hypothesis Hk : same_kind (winfo c) wi.
Let T' : gmap Z TCB := <[t := set_winfo wi c]> (tcbs k).

Lemma given_wmatch p n : wmatch T' p n = wmatch (tcbs k) p n.
Proof using Hc Hk.
  unfold wmatch, waiter, T'. destruct n as [| | | | | | | | |u| | | | |]; try done.
  destruct (decide (u = t)) as [->|]; [|by rewrite lookup_insert_ne].
  rewrite lookup_insert_eq, Hc. simpl. destruct (winfo c), wi; try done.
  by destruct Hk as [-> ->].
Qed.

Lemma given_wreq n : wreq T' n = wreq (tcbs k) n.
Proof using Hc Hk.
  unfold wreq, waiter, T'. destruct n as [| | | | | | | | |u| | | | |]; try done.
  destruct (decide (u = t)) as [->|]; [|by rewrite lookup_insert_ne].
  rewrite lookup_insert_eq, Hc. simpl. by destruct (winfo c), wi.
Qed.

Lemma given_task_ok : task_ok Q t c -> task_ok Q t (set_winfo wi c).
Proof using Hc Hs Hk.
  intros H. destruct H as [H1|H1 H2 H3 H4|H1|H1]; try (exfalso; stats; lia).
  apply task_waiting; try done. destruct H4 as [H5 H6|cnt s H5 H6|f p m r H5 H6 H7|mb msg H5 H6 H7].
  - by apply waits_alone.
  - exfalso. by rewrite H6 in Hk.
  - rewrite H6 in Hk. destruct wi as [|p' m' r'| |]; try done.
    by apply (waits_flg _ _ _ f p' m' r').
  - rewrite H6 in Hk. destruct wi as [| | |msg']; try done. by apply (waits_mbx _ _ _ mb msg').
Qed.

Lemma inv_given : inv (set_tcbs T' k) Q.
Proof using Hi Hc Hs Hk.
  destruct Hi as (Hr & Hn & Ha). split; [done|]. split; [done|]. proj.
  assert (Hord : forall atr ws, order_ok (tcbs k) atr ws -> order_ok T' atr ws).
  { intros atr ws. apply order_ok_wpri. intros n. by apply wpri_winfo. }
  destruct Ha as [A1 A2 A3 A4 A5 A6 A7 A8 A9]. split; try done.
  - intros u. rewrite <- A1. unfold T'. destruct (decide (u = t)) as [->|].
    + rewrite lookup_insert_eq, Hc. done.
    + by rewrite lookup_insert_ne.
  - intros u cu. unfold T'. destruct (decide (u = t)) as [->|].
    + rewrite lookup_insert_eq. intros [= <-]. destruct (A2 t c Hc) as [? ?].
      split; [done|]. by apply given_task_ok.
    + rewrite lookup_insert_ne by done. apply A2.
  - intros u cu. unfold T'. destruct (decide (u = t)) as [->|].
    + rewrite lookup_insert_eq. intros [= <-] E. simpl in E. exfalso. stats. lia.
    + rewrite lookup_insert_ne by done. apply A3.
  - intros s Hrs. destruct (A7 s Hrs) as (sc & E & [(Hid & ws & Hq & H1 & H2 & H3 & H4)|H]);
      exists sc; (split; [done|]); [left|by right].
    split; [done|]. exists ws. split; [done|]. split; [done|]. split; [done|].
    split; [by apply Hord|]. eapply Forall_impl; [exact H4|]. intros n. simpl.
    by rewrite given_wreq.
  - intros f Hrf. destruct (A8 f Hrf) as (fc & E & [(Hid & ws & Hq & H1 & H2 & H3)|H]);
      exists fc; (split; [done|]); [left|by right].
    split; [done|]. exists ws. split; [done|]. split; [done|]. split; [by apply Hord|done].
  - intros mb Hrm. destruct (A9 mb Hrm) as (mc & E & [(Hid & ws & msgs & Hq & Hq' & H1 & H2)|H]);
      exists mc; (split; [done|]); [left|by right].
    split; [done|]. exists ws, msgs. split; [done|]. split; [done|]. split; [by apply Hord|done].
Qed.
End give.

(** The waiter [t] gets [wi], and its wait ends. *)
Definition a_give (cause : Z) (g : Z * WaitInfo) (A : astate) : astate :=
  match fst A !! fst g with
  | Some c => a_wake cause (fst g) (<[fst g := set_winfo (snd g) c]> (fst A), snd A)
  | None => A
  end.
Definition a_gives (cause : Z) (gs : list (Z * WaitInfo)) (A : astate) : astate :=
  foldl (fun A g => a_give cause g A) A gs.

Lemma a_gives_snoc cause gs g A :
  a_gives cause (gs ++ [g]) A = a_give cause g (a_gives cause gs A).
Proof. unfold a_gives. by rewrite foldl_app. Qed.

Lemma a_give_eq cause t wi T Q c :
  T !! t = Some c ->
  a_give cause (t, wi) (T, Q) =
    (<[t := readied cause (set_winfo wi c)]> T, q_ready t (itskpri c) Q).
Proof.
  intros E. unfold a_give. simpl. rewrite E. unfold a_wake. simpl.
  by rewrite lookup_insert_eq, insert_insert_eq.
Qed.

(** What a hand-over of a waiter in the queue of [h] leaves alone. *)
Section given_frame.
Context {k : kernel} {Q : queues} {h : link} {pre rest : list link} {t : Z} {c : TCB}.
Hypothesis Hi : inv k Q.
Hypothesis Hh : wait_head h.
Hypothesis Hq : Q !! h = Some (pre ++ LWait t :: rest).
Let Q' : queues := q_ready t (itskpri c) Q.

Lemma given_own : Q' !! h = Some (pre ++ rest).
Proof using Hi Hh Hq.
  unfold Q'. rewrite lookup_q_ready, 3!decide_False, Hq by (intros ->; done). simpl.
  pose proof (rep_nodup _ _ _ _ (proj1 Hi) Hq) as [_ Hnd]%NoDup_cons.
  rewrite without_split by done. f_equal. apply without_notin. intros Hin.
  assert (Hin' : LHead t ∈ pre ++ LWait t :: rest).
  { apply elem_of_app in Hin as [?|?]; apply elem_of_app; [by left|right; by right]. }
  destruct Hi as (_ & _ & Ha). apply (head_notin_obj _ _ _ _ _ _ t h Ha); [by destruct h|].
  by exists (pre ++ LWait t :: rest).
Qed.

Lemma given_other h' : obj_head h' -> h' <> h -> Q' !! h' = Q !! h'.
Proof using Hi Hh Hq.
  intros Ho Hne. unfold Q'. rewrite lookup_q_ready, 3!decide_False by (intros ->; done).
  destruct (Q !! h') as [xs|] eqn:E; [|done]. simpl. f_equal.
  assert (Ht : LWait t ∈ pre ++ LWait t :: rest) by (apply elem_of_app; right; by left).
  assert (Hno : forall n, node_of t n -> n ∉ xs).
  { intros n Hn Hx. apply (other_obj Hi Hq h' n t Ho Hne); [by exists xs|done|done]. }
  rewrite (without_notin (LWait t)) by (apply Hno; by right).
  apply without_notin, Hno. by left.
Qed.
End given_frame.
