(* ===== verification/TimerHandler.v ===== *)
(** * The timer interrupt: what [tkmc_timer_handler] does to the waits

    The loops of [src/kernel/timer.c]: the earliest deadline, the ticks taken
    off every entry, and the waits that end because their time is up: the history
    of the loop, one wait at a time in order of deadline ([expired]), and the
    account of who timed out, who was given units and what is left of them
    ([ledger]). The definitions of the code are in [Timer.v]. *)

From stdpp Require Import sorting.
From S2P Require Import Prelude DList Tkernel Kernel Inv Moves Rules Wait Sched Timer.

Open Scope Z_scope.
Implicit Types (k : kernel) (Q : queues) (t : Z) (h n : link).

(** ** The earliest deadline *)

(** The ticks of an entry. *)
Definition ticks (T : gmap Z TCB) (n : link) : Z :=
  match n with LHead t => match T !! t with Some c => delay_ticks c | None => 0 end | _ => 0 end.

Arguments ticks : simpl never.

(** The loop keeps the first of the earliest: those before it are later, those
    after it are not earlier. *)
Definition earliest (T : gmap Z TCB) (done : list link) (first : option Z) : Prop :=
  match first with
  | None => done = []
  | Some f => exists xs ys, done = xs ++ LHead f :: ys /\
      Forall (fun n => ticks T (LHead f) < ticks T n) xs /\
      Forall (fun n => ticks T (LHead f) <= ticks T n) ys
  end.

Lemma earliest_min T done f n :
  earliest T done (Some f) -> n ∈ done -> ticks T (LHead f) <= ticks T n.
Proof.
  intros (xs & ys & -> & Hx & Hy) Hn. rewrite Forall_forall in Hx, Hy.
  apply elem_of_app in Hn as [Hn|Hn]; [specialize (Hx n Hn); simpl in Hx; lia|].
  apply elem_of_cons in Hn as [->|Hn]; [lia|]. by apply Hy.
Qed.

Lemma wp_first_deadline_from k Q (Phi : option Z -> kernel -> Prop) rest done fuel first :
  inv k Q -> Q !! LTimer = Some (done ++ rest) -> earliest (tcbs k) done first ->
  (length rest < fuel)%nat ->
  (forall r, earliest (tcbs k) (done ++ rest) r -> Phi r k) ->
  wp (first_deadline_from fuel (default LTimer (head rest)) first) Phi k.
Proof.
  intros Hi Hq He Hf H. pose proof Hi as (Hr & _ & Ha).
  revert done fuel first Hq He Hf H. induction rest as [|n rest IH];
    intros done fuel first Hq He Hf H; (destruct fuel as [|fuel]; [simpl in Hf; lia|]);
    cbn [first_deadline_from length] in *.
  - change (default LTimer (head (@nil link))) with LTimer. rewrite decide_True by done. apply wp_ret, H. by rewrite app_nil_r.
  - destruct (member_timer Hr Ha n) as (t & c & -> & _ & Hc & _ & _).
    { exists (done ++ n :: rest). split; [done|]. apply elem_of_app. right. by left. }
    change (default LTimer (head (LHead t :: rest))) with (LHead t).
    rewrite decide_False by done.
    apply wp_bind, wp_ret. apply wp_bind. eapply wp_tcb_get; [done|]. apply wp_bind.
    assert (Htk : ticks (tcbs k) (LHead t) = delay_ticks c) by (unfold ticks; by rewrite Hc).
    assert (Hnext : forall r, earliest (tcbs k) (done ++ [LHead t]) r ->
      wp (pos <- list_next (LHead t) ;; first_deadline_from fuel pos r) Phi k).
    { intros r Hr'. apply wp_bind. eapply wp_list_next; [exact Hr|exact Hq|].
      apply (IH (done ++ [LHead t])); [by rewrite <- app_assoc|done|lia|].
      intros r' Hr1. apply H. by rewrite <- app_assoc in Hr1. }
    destruct first as [f|].
    + destruct He as (xs & ys & -> & Hx & Hy).
      assert (Hfin : inq Q LTimer (LHead f)).
      { eexists. split; [exact Hq|]. rewrite !elem_of_app. left. right. by left. }
      destruct (member_timer Hr Ha _ Hfin) as (f' & cf & Ef & _ & Hcf & _ & _). simplify_eq.
      assert (Hfk : ticks (tcbs k) (LHead f') = delay_ticks cf) by (unfold ticks; by rewrite Hcf).
      apply wp_bind. eapply wp_tcb_get; [done|]. apply wp_ret. case_bool_decide as Hlt.
      * apply Hnext. exists (xs ++ LHead f' :: ys), []. split; [done|]. split; [|done].
        rewrite Htk, Hfk in *. apply Forall_app. split; [|constructor; [lia|]];
          (eapply Forall_impl; [eassumption|]; simpl; lia).
      * apply Hnext. exists xs, (ys ++ [LHead t]). split; [by rewrite <- app_assoc|].
        split; [done|]. apply Forall_app. split; [done|]. constructor; [|done]. lia.
    + simpl in He. subst done. apply wp_ret. apply Hnext. exists [], []. done.
Qed.

Lemma wp_first_deadline k Q ws (Phi : option Z -> kernel -> Prop) :
  inv k Q -> Q !! LTimer = Some ws ->
  (forall r, earliest (tcbs k) ws r -> Phi r k) -> wp first_deadline Phi k.
Proof.
  intros Hi Hq H. unfold first_deadline. apply wp_bind, wp_gets. apply wp_bind.
  eapply wp_list_first; [apply Hi|exact Hq|].
  apply (wp_first_deadline_from k Q Phi ws []); try done.
  unfold walk_fuel. pose proof (rep_length _ _ _ _ (proj1 Hi) Hq). lia.
Qed.

(** ** Time passes for every entry *)

Definition sub_to (step : Z) (done : list link) (T T' : gmap Z TCB) : Prop :=
  forall t, T' !! t =
    if decide (LHead t ∈ done)
    then (fun c => set_delay_ticks (delay_ticks c - step) c) <$> T !! t else T !! t.

Lemma wp_sub_all k Q ws step (Phi : bool -> kernel -> Prop) :
  inv k Q -> Q !! LTimer = Some ws -> 0 <= step ->
  (forall n, n ∈ ws -> step <= ticks (tcbs k) n) ->
  (forall T', sub_to step ws (tcbs k) T' -> Phi true (set_tcbs T' k)) ->
  wp (list_for_each_entry LTimer (sub_ticks step)) Phi k.
Proof.
  intros Hi Hq H0 Hmin H. pose proof Hi as (Hr & _ & Ha).
  eapply (wp_for_each Q LTimer ws (fun done s => exists T', sub_to step done (tcbs k) T' /\
    s = set_tcbs T' k)); [done|done| | |].
  - exists (tcbs k). split; [|by destruct k]. intros t. by rewrite decide_False by set_solver.
  - intros done n rest s Hq' _ (T' & HT & ->). rewrite Hq in Hq'. injection Hq' as ->.
    destruct (member_timer Hr Ha n) as (t & c & -> & _ & Hc & _ & Hd).
    { eexists. split; [exact Hq|]. apply elem_of_app. right. by left. }
    pose proof (rep_nodup _ _ _ _ Hr Hq) as [_ Hnd]%NoDup_cons.
    assert (Hnot : LHead t ∉ done).
    { apply NoDup_app in Hnd as (_ & Hdis & _). intros Hin. apply (Hdis _ Hin). by left. }
    assert (Ht : T' !! t = Some c) by (rewrite HT, decide_False by done; done).
    specialize (Hmin (LHead t) ltac:(apply elem_of_app; right; by left)).
    unfold ticks in Hmin. rewrite Hc in Hmin.
    unfold sub_ticks. apply wp_bind, wp_ret. apply wp_bind. eapply wp_tcb_upd; [exact Ht|].
    apply wp_ret. proj. split; [done|]. eexists. split; [|done]. intros u.
    assert (Eu : u32 (delay_ticks c - step) = delay_ticks c - step).
    { unfold u32. apply Z.mod_small. lia. }
    destruct (decide (u = t)) as [->|Hne].
    + rewrite lookup_insert_eq, decide_True, Hc by (apply elem_of_snoc; by right).
      simpl. by rewrite Eu.
    + rewrite lookup_insert_ne, HT by done.
      destruct (decide (LHead u ∈ done)), (decide (LHead u ∈ done ++ [LHead t])) as [Hin|Hin];
        try done; exfalso.
      * apply Hin, elem_of_snoc. by left.
      * apply elem_of_snoc in Hin as [?|?]; congruence.
  - intros s xs Hq' _ (T' & HT & ->). rewrite Hq in Hq'. injection Hq' as <-. by apply H.
Qed.

Lemma sub_redelayed Q L step ws T T' (S : gmap Z SEMCB) F B cur :
  ainv T S F B cur Q -> rep L Q -> Q !! LTimer = Some ws ->
  0 <= step -> (forall n, n ∈ ws -> step <= ticks T n) -> sub_to step ws T T' -> redelayed Q T T'.
Proof.
  intros Ha Hr Hq H0 Hmin HT t. rewrite HT. destruct (T !! t) as [c|] eqn:Ec; [|by case_decide].
  case_decide as Hin.
  - exists (delay_ticks c - step). split; [done|]. split.
    + intros Hi. destruct (member_timer Hr Ha _ Hi) as (t' & c' & ? & _ & Hc' & _ & Hd).
      simplify_eq. specialize (Hmin _ Hin). unfold ticks in Hmin. rewrite Ec in Hmin. lia.
    + intros Hi. exfalso. apply Hi. by exists ws.
  - exists (delay_ticks c). split; [by destruct c|]. split; [|done].
    intros (xs & E & Hi). by simplify_eq.
Qed.

(** ** The loop that ends the waits *)

(** What [e] ticks did to the tasks of [k0]: one that waits on has [e] ticks
    less; one whose time was up, and no other, was woken by [E_TMOUT]; a waiter
    of a semaphore may have got its units instead. *)
Definition aged_task (e : Z) (c c' : TCB) : Prop :=
  tskstat c = TTS_WAI /\
  ((0 < delay_ticks c <= e /\ c' = readied E_TMOUT c) \/
   (tskwait c = TTW_SEM /\ c' = readied E_OK c)).

Definition aged (k0 : kernel) (Q0 : queues) (e : Z) (k : kernel) (Q : queues) : Prop :=
  forall t c, tcbs k0 !! t = Some c -> exists c', tcbs k !! t = Some c' /\
    ((inq Q0 LTimer (LHead t) /\ inq Q LTimer (LHead t) /\ e <= delay_ticks c /\
        c' = set_delay_ticks (delay_ticks c - e) c) \/
     (~ inq Q0 LTimer (LHead t) /\ ~ inq Q LTimer (LHead t) /\ c' = c) \/
     (~ inq Q LTimer (LHead t) /\ aged_task e c c')).

Lemma aged_refl k Q : inv k Q -> aged k Q 0 k Q.
Proof.
  intros (Hr & _ & Ha) t c Hc. exists c. split; [done|].
  destruct (decide (inq Q LTimer (LHead t))) as [Hi|Hi]; [left|by right; left].
  destruct (member_timer Hr Ha _ Hi) as (t' & c' & Et & _ & Hc' & _ & Hd). simplify_eq.
  split; [done|]. split; [done|]. split; [lia|]. rewrite Z.sub_0_r. by destruct c.
Qed.

Lemma aged_task_le e e' c c' : e <= e' -> aged_task e c c' -> aged_task e' c c'.
Proof.
  intros He [Hs [[Hd Hc]|H]]; (split; [done|]); [left|by right]. split; [lia|done].
Qed.

Lemma aged_sub k0 Q0 e k Q ws step T' :
  aged k0 Q0 e k Q -> Q !! LTimer = Some ws -> 0 <= step ->
  (forall n, n ∈ ws -> step <= ticks (tcbs k) n) -> sub_to step ws (tcbs k) T' ->
  aged k0 Q0 (e + step) (set_tcbs T' k) Q.
Proof.
  intros H Hq H0 Hmin HT t c Hc. destruct (H t c Hc) as (c' & Hc' & Hcase). proj.
  rewrite HT, Hc'. assert (Hin : LHead t ∈ ws <-> inq Q LTimer (LHead t)).
  { split; [by exists ws|]. intros (xs & E & Hi). by simplify_eq. }
  case_decide as Hd; eexists; (split; [done|]).
  - destruct Hcase as [(H1 & H2 & H3 & ->)|[(H1 & H2 & ->)|(H2 & H3)]]; try tauto.
    left. split; [done|]. split; [done|]. specialize (Hmin _ Hd). unfold ticks in Hmin.
    rewrite Hc' in Hmin. simpl in Hmin. split; [lia|]. simpl.
    unfold set_delay_ticks. simpl. f_equal. lia.
  - destruct Hcase as [(H1 & H2 & H3 & ->)|[(H1 & H2 & ->)|(H2 & H3)]]; try tauto.
    right; right. split; [done|]. eapply aged_task_le; [|done]. lia.
Qed.

Lemma aged_complete k0 Q0 e k Q t c1 k' Q' :
  inv k0 Q0 -> timers_live (tcbs k0) Q0 -> aged k0 Q0 e k Q -> inv k Q ->
  tcbs k !! t = Some c1 -> tskstat c1 = TTS_WAI -> inq Q LTimer (LHead t) ->
  delay_ticks c1 = 0 -> completed k Q t c1 E_TMOUT k' Q' ->
  aged k0 Q0 e k' Q'.
Proof.
  intros Hi0 Hl0 H Hi Hc1 Hs1 Hin Hd1 Hd u c Hc. destruct (H u c Hc) as (cu & Hcu & Hcase).
  destruct (completed_each Hi Hc1 Hs1 Hd u cu Hcu) as (c' & Hc' & Hdone).
  exists c'. split; [done|].
  assert (Hwai : inq Q0 LTimer (LHead u) -> tskstat c = TTS_WAI).
  { intros Hq. destruct (member_timer (proj1 Hi0) (proj2 (proj2 Hi0)) _ Hq)
      as (u' & c2 & Eu & _ & Hc2 & ? & _). by simplify_eq. }
  assert (Hgone : tcbs k' !! u <> tcbs k !! u \/ u = t -> ~ inq Q' LTimer (LHead u)).
  { intros Hx Hiu. destruct (completed_timer Hd u Hiu) as (? & _ & ?).
    destruct Hx; [congruence|done]. }
  destruct Hdone as [(-> & ->)|[(Hne & Hsu & Hwu & ->)|(Hne & -> & Hkeep)]].
  - (* the task whose time is up *)
    simplify_eq. right; right. split; [by apply Hgone; right|].
    destruct Hcase as [(H1 & H2 & H3 & ->)|[(H1 & H2 & ->)|(H2 & H3)]]; try tauto.
    simpl in Hd1. split; [by apply Hwai|]. left. split; [|done].
    specialize (Hl0 t c Hc H1). lia.
  - (* a waiter that was served *)
    right; right. split.
    { apply Hgone. left. rewrite Hc', Hcu. intros [= E]. rewrite <- E in Hsu.
      unfold readied in Hsu. simpl in Hsu. stats. lia. }
    destruct Hcase as [(H1 & H2 & H3 & ->)|[(H1 & H2 & ->)|(H2 & Hs & [[Hx ->]|[Hx ->]])]].
    + split; [by apply Hwai|]. by right.
    + split; [done|]. by right.
    + simpl in Hsu. stats. lia.
    + simpl in Hsu. stats. lia.
  - assert (Hiff : inq Q' LTimer (LHead u) <-> inq Q LTimer (LHead u)).
    { split; [|done]. intros Hiu. by destruct (completed_timer Hd u Hiu) as (_ & ? & _). }
    rewrite Hiff. done.
Qed.

(** *** The order of the ends, and the units

    The history that the loop must have: one wait ends at a time, that of the first
    of the earliest, when exactly its ticks are over, with all that the end of a wait
    does; [log] has the tasks in that order, each with the ticks since the start. *)
Inductive expired (k0 : kernel) (Q0 : queues) : Z -> list (Z * Z) -> kernel -> queues -> Prop :=
  | exp_start : expired k0 Q0 0 [] k0 Q0
  | exp_next e log k Q ws t c T k' Q' :
      expired k0 Q0 e log k Q -> Q !! LTimer = Some ws -> earliest (tcbs k) ws (Some t) ->
      tcbs k !! t = Some c -> sub_to (delay_ticks c) ws (tcbs k) T ->
      completed (set_tcbs T k) Q t (set_delay_ticks 0 c) E_TMOUT k' Q' ->
      expired k0 Q0 (e + delay_ticks c) (log ++ [(t, e + delay_ticks c)]) k' Q'.

(** [n] ticks have passed: the waits of [log] ended, and those that go on have
    time left. *)
Definition passed (n : Z) (k0 : kernel) (Q0 : queues) (log : list (Z * Z)) (k : kernel)
    (Q : queues) : Prop :=
  exists e k1 ws T, expired k0 Q0 e log k1 Q /\ e <= n /\ Q !! LTimer = Some ws /\
    (forall x, x ∈ ws -> n - e < ticks (tcbs k1) x) /\
    sub_to (n - e) ws (tcbs k1) T /\ k = set_tcbs T k1.

(** The account of the waits that ended up to tick [e]: those of [log], in order of
    deadline, each at its deadline and with E_TMOUT; those of [given] with E_OK and
    the units they asked for, which a task of [log] made room for that waited for
    the same semaphore and had no later deadline; the semaphores have as many units
    less as were given; and every other task waits on. *)
Record ledger (e : Z) (T0 : gmap Z TCB) (S0 : gmap Z SEMCB) (log : list (Z * Z))
    (given : list Z) (T : gmap Z TCB) (S : gmap Z SEMCB) : Prop := {
  lg_sorted : StronglySorted Z.le log.*2;
  lg_once : NoDup (log.*1 ++ given);
  lg_timeout t x : (t, x) ∈ log -> 0 < x <= e /\ exists c c', T0 !! t = Some c /\
    tskstat c = TTS_WAI /\ delay_ticks c = x /\
    T !! t = Some c' /\ ready_stat c' /\ wupcause c' = E_TMOUT;
  lg_given u : u ∈ given -> exists s t x c c', (t, x) ∈ log /\ on_sem T0 t s /\ on_sem T0 u s /\
    T0 !! u = Some c /\ (0 < delay_ticks c -> x <= delay_ticks c) /\
    T !! u = Some c' /\ ready_stat c' /\ wupcause c' = E_OK;
  lg_units : units_left S0 S T0 given;
  lg_waits t c : T0 !! t = Some c -> tskstat c = TTS_WAI -> t ∉ log.*1 ++ given ->
    exists c', T !! t = Some c' /\ tskstat c' = TTS_WAI;
}.

Lemma ledger_start T S : ledger 0 T S [] [] T S.
Proof.
  split; [constructor|constructor|by intros ? ? ?%elem_of_nil|by intros ? ?%elem_of_nil
    |apply units_left_refl|]. intros t c Hc Hs _. by exists c.
Qed.

(** The account stays right while nobody's wait ends. *)
Lemma ledger_keep e e' T0 S0 log given T S T' : ledger e T0 S0 log given T S -> e <= e' ->
  (forall t c, T !! t = Some c -> exists c', T' !! t = Some c' /\
     (ready_stat c -> ready_stat c') /\ (tskstat c = TTS_WAI -> tskstat c' = TTS_WAI) /\
     wupcause c' = wupcause c) -> ledger e' T0 S0 log given T' S.
Proof.
  intros [H1 H2 H3 H4 H5 H6] He HT. split; try done.
  - intros t x Hin. destruct (H3 t x Hin) as (Hx & c & c' & ? & ? & ? & Hc' & Hr & Hu).
    split; [lia|]. destruct (HT t c' Hc') as (c2 & Hc2 & Er & _ & Ew). exists c, c2.
    do 4 (split; [done|]). split; [by apply Er|by rewrite Ew].
  - intros u Hin. destruct (H4 u Hin) as (s & t & x & c & c' & ? & ? & ? & ? & ? & Hc' & Hr & Hu).
    destruct (HT u c' Hc') as (c2 & Hc2 & Er & _ & Ew). exists s, t, x, c, c2.
    do 6 (split; [done|]). split; [by apply Er|by rewrite Ew].
  - intros t c Hc Hs Hn. destruct (H6 t c Hc Hs Hn) as (c' & Hc' & Hs').
    destruct (HT t c' Hc') as (c2 & Hc2 & _ & Es & _). exists c2. split; [done|by apply Es].
Qed.

(** A task that waits is not in the account. *)
Lemma ledger_fresh e T0 S0 log given T S t c : ledger e T0 S0 log given T S ->
  T !! t = Some c -> tskstat c = TTS_WAI -> t ∉ log.*1 ++ given.
Proof.
  intros [_ _ H3 H4 _ _] Hc Hs [Hin|Hin]%elem_of_app.
  - apply list_elem_of_fmap in Hin as ([t' x] & -> & Hin). simpl in Hc.
    destruct (H3 t' x Hin) as (_ & c0 & c' & _ & _ & _ & Hc' & Hr & _). simplify_eq. stats. lia.
  - destruct (H4 t Hin) as (s & v & x & c0 & c' & _ & _ & _ & _ & _ & Hc' & Hr & _).
    simplify_eq. stats. lia.
Qed.

Lemma units_left_trans S1 S2 S3 T us vs : units_left S1 S2 T us -> units_left S2 S3 T vs ->
  units_left S1 S3 T (us ++ vs).
Proof.
  intros H1 H2 s sc Hs. destruct (H1 s sc Hs) as (r1 & Hs2 & E1 & P1).
  destruct (H2 s _ Hs2) as (r2 & Hs3 & E2 & P2). exists r2. split; [by rewrite Hs3|].
  rewrite units_app. simpl in *. split; [lia|]. auto.
Qed.

(** A task that waits now has waited since the start, for the same thing. *)
Lemma aged_waits k0 Q0 e k Q u c : inv k0 Q0 -> inv k Q -> aged k0 Q0 e k Q ->
  tcbs k !! u = Some c -> tskstat c = TTS_WAI -> exists c0, tcbs k0 !! u = Some c0 /\
    tskstat c0 = TTS_WAI /\ tskwait c0 = tskwait c /\ winfo c0 = winfo c /\
    (0 < delay_ticks c0 -> e <= delay_ticks c0) /\
    (inq Q LTimer (LHead u) -> inq Q0 LTimer (LHead u) /\ delay_ticks c0 = e + delay_ticks c).
Proof.
  intros (Hr0 & _ & Ha0) (_ & _ & Ha) Hag Hc Hs.
  destruct (proj2 (ai_tcbs _ _ _ _ _ _ Ha0 u)) as [c0 Hc0];
    [apply (ai_tcbs _ _ _ _ _ _ Ha); by exists c|].
  destruct (Hag u c0 Hc0) as (c' & Hc' & Hcase). assert (c' = c) as -> by congruence.
  exists c0. split; [done|].
  destruct Hcase as [(H1 & H2 & H3 & E)|[(H1 & H2 & E)|(_ & _ & [[_ E]|[_ E]])]]; rewrite E in *;
    [| |simpl in Hs; stats; lia..].
  - do 3 (split; [done|]). split; [done|]. intros _. split; [done|]. simpl. lia.
  - do 3 (split; [done|]). split; [|done]. intros Hd.
    destruct (ai_task _ _ _ _ _ _ Ha0 u c0 Hc0) as [_ Ht]. exfalso.
    destruct Ht as [|_ _ [[? _]|[_ ?]] _| |]; stats; try lia; done.
Qed.

(** One more wait ends, and those behind it get units. *)
Lemma ledger_add e T0 S0 log given T S t c us T' S' :
  ledger e T0 S0 log given T S -> NoDup us ->
  T0 !! t = Some c -> tskstat c = TTS_WAI -> delay_ticks c = e -> 0 < e ->
  t ∉ log.*1 ++ given ->
  (exists c', T' !! t = Some c' /\ ready_stat c' /\ wupcause c' = E_TMOUT) ->
  (forall u, u ∈ us -> u <> t /\ u ∉ log.*1 ++ given /\ exists s c0 c', on_sem T0 t s /\
     on_sem T0 u s /\ T0 !! u = Some c0 /\ (0 < delay_ticks c0 -> e <= delay_ticks c0) /\
     T' !! u = Some c' /\ ready_stat c' /\ wupcause c' = E_OK) ->
  (forall u, u <> t -> u ∉ us -> T' !! u = T !! u) ->
  units_left S S' T0 us ->
  ledger e T0 S0 (log ++ [(t, e)]) (given ++ us) T' S'.
Proof.
  intros [H1 H2 H3 H4 H5 H6] Hnd Ht Hst Hdt H0 Hfr (ct & Hct & Hrt & Hut) Hus Hsame Hunits.
  assert (Hold : forall u, u ∈ log.*1 ++ given -> T' !! u = T !! u).
  { intros u Hu. apply Hsame; [by intros ->|]. intros Hin. by destruct (Hus u Hin) as (_ & ? & _). }
  assert (Hlog : forall v x, (v, x) ∈ log -> v ∈ log.*1).
  { intros v x Hin. apply list_elem_of_fmap. by exists (v, x). }
  split.
  - rewrite fmap_app. apply StronglySorted_app_2; [|done|by repeat constructor].
    intros x1 x2 Hx ->%list_elem_of_singleton. apply list_elem_of_fmap in Hx as ([v x] & -> & Hin).
    apply (H3 v x Hin).
  - rewrite fmap_app. cbn [fmap list_fmap fst].
    assert (Hp : (log.*1 ++ [t]) ++ given ++ us ≡ₚ (log.*1 ++ given) ++ t :: us) by solve_Permutation.
    rewrite Hp. apply NoDup_app. split; [done|]. split.
    + intros v Hv [->|Hin]%elem_of_cons; [done|]. by destruct (Hus v Hin) as (_ & ? & _).
    + apply NoDup_cons. split; [|done]. intros Hin. by destruct (Hus t Hin).
  - intros v x [Hin|Hin]%elem_of_app.
    + destruct (H3 v x Hin) as (Hx & c0 & c' & ? & ? & ? & ? & ? & ?). split; [done|].
      exists c0, c'. rewrite Hold by (apply elem_of_app; left; by eapply Hlog). done.
    + apply list_elem_of_singleton in Hin as [= -> ->]. split; [lia|]. by exists c, ct.
  - intros u [Hin|Hin]%elem_of_app.
    + destruct (H4 u Hin) as (s & v & x & c0 & c' & Hv & ? & ? & ? & ? & ? & ? & ?).
      exists s, v, x, c0, c'. rewrite Hold by (apply elem_of_app; by right).
      split; [apply elem_of_app; by left|done].
    + destruct (Hus u Hin) as (_ & _ & s & c0 & c' & ? & ? & ? & ? & ? & ? & ?).
      exists s, t, e, c0, c'. split; [apply elem_of_app; right; by left|done].
  - by eapply units_left_trans.
  - intros v cv Hv Hsv Hn. rewrite fmap_app, !elem_of_app in Hn. simpl in Hn.
    destruct (H6 v cv Hv Hsv) as (c' & Hc' & Hs'); [rewrite elem_of_app; tauto|]. exists c'.
    split; [|done]. rewrite Hsame; [done| |tauto]. intros ->. apply Hn. left. right. by left.
Qed.

Lemma ledger_done k0 Q0 e log given k Q t c k' Q' :
  inv k0 Q0 -> timers_live (tcbs k0) Q0 -> inv k Q -> aged k0 Q0 e k Q ->
  ledger e (tcbs k0) (semcbs k0) log given (tcbs k) (semcbs k) ->
  tcbs k !! t = Some c -> tskstat c = TTS_WAI -> delay_ticks c = 0 ->
  inq Q LTimer (LHead t) -> completed k Q t c E_TMOUT k' Q' ->
  exists given', ledger e (tcbs k0) (semcbs k0) (log ++ [(t, e)]) given' (tcbs k') (semcbs k').
Proof.
  intros Hi0 Hl0 Hi Hag Hled Hc Hs Hd Hin Hdone.
  destruct (aged_waits _ _ _ _ _ t c Hi0 Hi Hag Hc Hs) as (c0 & Hc0 & Hs0 & _ & _ & _ & Ht).
  destruct (Ht Hin) as [Hin0 Hd0].
  destruct (completed_gives Hi Hc Hs Hdone) as (us & Hnd & Hus & Hsame & Hunits).
  assert (Hon : forall u s, on_sem (tcbs k) u s -> on_sem (tcbs k0) u s).
  { intros u s (cu & cnt & Hcu & Hsu & Hwu & Ewu).
    destruct (aged_waits _ _ _ _ _ u cu Hi0 Hi Hag Hcu Hsu) as (c1 & Hc1 & Hs1 & Hw1 & Ew1 & _).
    exists c1, cnt. split; [done|]. split; [done|]. split; congruence. }
  exists (given ++ us). eapply ledger_add; [exact Hled|exact Hnd|exact Hc0|exact Hs0|lia| | | | |
    exact Hsame|].
  - assert (Hlive := Hl0 t c0 Hc0 Hin0). lia.
  - by eapply ledger_fresh.
  - exists (readied E_TMOUT c). split; [by eapply completed_target|]. split; [by left|done].
  - intros u Hu. destruct (Hus u Hu) as (Hne & (s & Hts & Hous) & cu & Hcu & Hcu').
    pose proof Hous as (cu2 & cnt & Hcu2 & Hsu & _). assert (cu2 = cu) as -> by congruence.
    split; [exact Hne|]. split; [by eapply ledger_fresh|].
    destruct (aged_waits _ _ _ _ _ u cu Hi0 Hi Hag Hcu Hsu) as (c1 & Hc1 & _ & _ & _ & Hd1 & _).
    exists s, c1, (readied E_OK cu). split; [by apply Hon|]. split; [by apply Hon|].
    split; [done|]. split; [done|]. split; [done|]. split; [by left|done].
  - intros s sc Hsc. destruct (Hunits s sc Hsc) as (rem & ? & E & ?). exists rem.
    rewrite (units_same (tcbs k)); [done|]. intros u Hu.
    destruct (Hus u Hu) as (_ & (s' & _ & (cu & cnt & Hcu & Hsu & _)) & _).
    destruct (aged_waits _ _ _ _ _ u cu Hi0 Hi Hag Hcu Hsu) as (c1 & Hc1 & _ & _ & Ew & _).
    rewrite Hc1, Hcu. simpl. by rewrite Ew.
Qed.

Definition lt_frame (k k' : kernel) : Prop :=
  exists S F L T, k' = set_flgcbs F (set_semcbs S (with_lt L T k)).

Lemma lt_frame_trans k1 k2 k3 : lt_frame k1 k2 -> lt_frame k2 k3 -> lt_frame k1 k3.
Proof. intros (S1 & F1 & L1 & T1 & ->) (S2 & F2 & L2 & T2 & ->). by eexists _, _, _, _. Qed.

Lemma lt_frame_tcbs k T : lt_frame k (set_tcbs T k).
Proof. exists (semcbs k), (flgcbs k), (links k), T. by destruct k. Qed.

(** A wait that ended took an entry off the timer queue. *)
Lemma timer_shorter k Q t c cause k' Q' ws ws' :
  inv k Q -> completed k Q t c cause k' Q' -> LHead t ∈ ws -> Q !! LTimer = Some ws ->
  Q' !! LTimer = Some ws' -> (length ws' < length ws)%nat.
Proof.
  intros Hi Hd Hin Hq Hq'. pose proof (completed_inv Hd) as (Hr' & _ & Ha').
  pose proof (rep_nodup _ _ _ _ Hr' Hq') as [_ Hnd]%NoDup_cons.
  assert (Hsub : LHead t :: ws' ⊆+ ws).
  { apply NoDup_submseteq.
    - apply NoDup_cons. split; [|done]. intros Hx.
      by destruct (completed_timer Hd t) as (? & _); [exists ws'|].
    - intros x [->|Hx]%elem_of_cons; [done|].
      destruct (member_timer Hr' Ha' x) as (u & _ & -> & _); [by exists ws'|].
      destruct (completed_timer Hd u) as (_ & (ys & E & Hy) & _); [by exists ws'|].
      by simplify_eq. }
  apply submseteq_length in Hsub. simpl in Hsub. lia.
Qed.

(** Whether a wait ended. *)
Definition any_ended (log : list (Z * Z)) : bool := match log with [] => false | _ => true end.

Lemma any_ended_snoc log x : any_ended (log ++ [x]) = true.
Proof. by destruct log. Qed.

(** A wait with a time limit is on the timer queue. *)
Lemma limited_wait k Q t c : inv k Q -> tcbs k !! t = Some c -> tskstat c = TTS_WAI ->
  0 < delay_ticks c -> inq Q LTimer (LHead t).
Proof.
  intros (_ & _ & Ha) Hc Hs Hd. destruct (ai_task _ _ _ _ _ _ Ha t c Hc) as [_ Ht].
  destruct Ht as [|_ _ [[? _]|[_ ?]] _| |]; stats; lia || done.
Qed.

(** Every wait whose limit was reached is in the account. *)
Lemma ledger_due k0 Q0 e k Q log given t c : inv k0 Q0 -> aged k0 Q0 e k Q ->
  timers_live (tcbs k) Q -> ledger e (tcbs k0) (semcbs k0) log given (tcbs k) (semcbs k) ->
  tcbs k0 !! t = Some c -> tskstat c = TTS_WAI -> 0 < delay_ticks c <= e ->
  t ∈ log.*1 ++ given.
Proof.
  intros Hi0 Hag Hlive Hled Hc Hs Hd. destruct (decide (t ∈ log.*1 ++ given)) as [|Hn]; [done|].
  pose proof (limited_wait k0 Q0 t c Hi0 Hc Hs ltac:(lia)) as Hin0.
  destruct (lg_waits _ _ _ _ _ _ _ Hled t c Hc Hs Hn) as (c' & Hc' & Hs').
  destruct (Hag t c Hc) as (c2 & Hc2 & Hcase). assert (c2 = c') as -> by congruence.
  destruct Hcase as [(_ & Hin & _ & ->)|[(Hno & _)|(_ & _ & [[_ ->]|[_ ->]])]];
    [|done|simpl in Hs'; stats; lia..].
  pose proof (Hlive t _ Hc' Hin) as Hp. simpl in Hp. lia.
Qed.

Lemma sub_blocks step ws T T' t c : sub_to step ws T T' -> T !! t = Some c ->
  exists c', T' !! t = Some c' /\ (ready_stat c -> ready_stat c') /\
    (tskstat c = TTS_WAI -> tskstat c' = TTS_WAI) /\ wupcause c' = wupcause c.
Proof. intros HT Hc. rewrite HT, Hc. case_decide; by eexists. Qed.

Lemma sub_none ws T : sub_to 0 ws T T.
Proof.
  intros t. case_decide; [|done]. destruct (T !! t) as [c|]; [|done]. simpl.
  rewrite Z.sub_0_r. by destruct c.
Qed.

Section expire.
Context {k0 : kernel} {Q0 : queues} {total : Z} {Phi : bool -> kernel -> Prop}.
Hypothesis Hi0 : inv k0 Q0.
Hypothesis Hlive0 : timers_live (tcbs k0) Q0.

(** What holds at the start of a round, [e] ticks done, [periods] to come. *)
Record round (k : kernel) (Q : queues) (e periods : Z) (log : list (Z * Z)) : Prop := {
  rd_inv : inv k Q;
  rd_objs : objs_settled k Q;
  rd_aged : aged k0 Q0 e k Q;
  rd_frame : lt_frame k0 k;
  rd_total : 0 <= e /\ 0 <= periods < 2 ^ 32 /\ e + periods = total;
  rd_ended : any_ended log = false -> Q = Q0;
  rd_book : exists given, ledger e (tcbs k0) (semcbs k0) log given (tcbs k) (semcbs k);
}.

Hypothesis Hend : forall log k Q e, round k Q e (total - e) log -> timers_live (tcbs k) Q ->
  aged k0 Q0 total k Q -> passed total k0 Q0 log k Q -> Phi (any_ended log) k.

(** Nobody waits with a limit. *)
Lemma round_over k Q e periods log : round k Q e periods log -> expired k0 Q0 e log k Q ->
  Q !! LTimer = Some [] -> Phi (any_ended log) k.
Proof using Hend.
  intros H Hex Hq. destruct (rd_total _ _ _ _ _ H) as (He & Hp & Ht).
  assert (Hnone : forall t, ~ inq Q LTimer (LHead t)).
  { intros t (xs & E & Hx). simplify_eq. by apply elem_of_nil in Hx. }
  eapply (Hend log k Q e).
  - by replace (total - e) with periods by lia.
  - intros t c Hc Hi. by destruct (Hnone t).
  - intros t c Hc. destruct (rd_aged _ _ _ _ _ H t c Hc) as (c' & Hc' & Hcase).
    exists c'. split; [done|]. destruct Hcase as [(_ & H2 & _)|[H1|(H2 & H3)]].
    + by destruct (Hnone t).
    + by right; left.
    + right; right. split; [done|]. eapply aged_task_le; [|exact H3]. lia.
  - exists e, k, [], (tcbs k). split; [done|]. split; [lia|]. split; [done|].
    split; [by intros x ?%elem_of_nil|]. split; [|by destruct k].
    intros t. by rewrite decide_False by apply not_elem_of_nil.
Qed.

(** The state after [step] more ticks. *)
Lemma round_sub k Q e periods log ws step T' :
  round k Q e periods log -> Q !! LTimer = Some ws -> 0 <= step <= periods ->
  (forall n, n ∈ ws -> step <= ticks (tcbs k) n) -> sub_to step ws (tcbs k) T' ->
  round (set_tcbs T' k) Q (e + step) (periods - step) log.
Proof using.
  intros H Hq Hstep Hmin HT. destruct H as [Hi Ho Hag Hf Htot Hen [given Hled]].
  pose proof Hi as (Hr & Hn & Ha).
  assert (Hrd : redelayed Q (tcbs k) T') by exact (sub_redelayed Q (links k) step ws _ _ _ _ _ _ Ha Hr Hq (proj1 Hstep) Hmin HT).
  split; try done.
  - split; [done|]. split; [done|]. proj. by eapply ainv_redelay.
  - eapply (objs_frame k Q); try done. intros h n _ _. proj. by eapply redelayed_wait.
  - eapply aged_sub; try done. lia.
  - eapply lt_frame_trans; [done|]. apply lt_frame_tcbs.
  - lia.
  - exists given. eapply ledger_keep; [exact Hled|lia|]. intros t c Hc. by eapply sub_blocks.
Qed.

(** The first deadline is later: nothing is left of the time that passed. *)
Lemma round_ends k Q e log ws t c periods T' :
  round (set_tcbs T' k) Q (e + periods) 0 log -> expired k0 Q0 e log k Q -> 0 <= periods ->
  Q !! LTimer = Some ws ->
  earliest (tcbs k) ws (Some t) -> tcbs k !! t = Some c -> periods < delay_ticks c ->
  sub_to periods ws (tcbs k) T' -> Phi (any_ended log) (set_tcbs T' k).
Proof using Hend.
  intros H Hex Hp Hq Hfirst Hc Hlt HT. destruct (rd_total _ _ _ _ _ H) as (_ & _ & Ht).
  assert (Hlate : forall x, x ∈ ws -> periods < ticks (tcbs k) x).
  { intros x Hx. pose proof (earliest_min _ _ _ _ Hfirst Hx) as Hle. unfold ticks in Hle at 1.
    rewrite Hc in Hle. lia. }
  eapply (Hend log _ Q (e + periods)).
  - by replace (total - (e + periods)) with 0 by lia.
  - intros u cu Hu (xs & E & Hx). proj. rewrite HT in Hu. simplify_eq.
    rewrite decide_True in Hu by done. destruct (tcbs k !! u) as [cu0|] eqn:Ecu; simplify_eq/=.
    pose proof (Hlate _ Hx) as Hle. unfold ticks in Hle. rewrite Ecu in Hle. lia.
  - replace total with (e + periods) by lia. exact (rd_aged _ _ _ _ _ H).
  - exists e, k, ws, T'. split; [exact Hex|]. split; [lia|]. split; [exact Hq|].
    replace (total - e) with periods by lia. done.
Qed.

(** The wait of a task whose ticks are over ends. *)
Lemma round_completes k Q e periods log t c k2 Q2 :
  round k Q e periods log -> tcbs k !! t = Some c -> tskstat c = TTS_WAI -> delay_ticks c = 0 ->
  inq Q LTimer (LHead t) -> completed k Q t c E_TMOUT k2 Q2 ->
  round k2 Q2 e periods (log ++ [(t, e)]).
Proof using Hi0 Hlive0.
  intros [Hi Ho Hag Hf Ht _ [given Hled]] Hc Hs Hd Hin Hd2. split; try done.
  - exact (completed_inv Hd2).
  - apply (completed_objs Hi Hc Hs Hd2 Ho). by right; left.
  - by eapply aged_complete.
  - eapply lt_frame_trans; [exact Hf|]. by destruct (completed_woken Hc Hs Hd2) as [? _].
  - by rewrite any_ended_snoc.
  - by eapply ledger_done.
Qed.

(** What the first deadline says of the queue. *)
Lemma first_waits k Q ws t : inv k Q -> Q !! LTimer = Some ws -> earliest (tcbs k) ws (Some t) ->
  LHead t ∈ ws /\ exists c, tcbs k !! t = Some c /\ tskstat c = TTS_WAI /\ 0 <= delay_ticks c /\
    forall n, n ∈ ws -> delay_ticks c <= ticks (tcbs k) n.
Proof using.
  intros (Hr & _ & Ha) Hq Hfirst.
  assert (Hin : LHead t ∈ ws).
  { destruct Hfirst as (xs & ys & -> & _). apply elem_of_app. right. by left. }
  destruct (member_timer Hr Ha (LHead t)) as (t' & c & Et & _ & Hc & Hs & Hd);
    [by exists ws|]. injection Et as <-. split; [done|]. exists c. do 2 (split; [done|]).
  split; [lia|]. intros n Hn. pose proof (earliest_min _ _ _ _ Hfirst Hn) as Hle.
  unfold ticks in Hle at 1. by rewrite Hc in Hle.
Qed.

Lemma wp_expire_loop fuel k Q e periods log ws :
  round k Q e periods log -> expired k0 Q0 e log k Q -> Q !! LTimer = Some ws ->
  (length ws < fuel)%nat -> wp (expire_loop fuel periods (any_ended log)) Phi k.
Proof using Hi0 Hlive0 Hend.
  revert k Q e periods log ws. induction fuel as [|fuel IH];
    intros k Q e periods log ws H Hex Hq Hf; [lia|].
  pose proof (rd_inv _ _ _ _ _ H) as Hi. destruct (rd_total _ _ _ _ _ H) as (He & Hp & Ht).
  cbn [expire_loop]. apply wp_bind. eapply wp_first_deadline; [exact Hi|exact Hq|].
  intros [t|] Hfirst.
  2:{ simpl in Hfirst. subst ws. apply wp_ret. by eapply round_over. }
  destruct (first_waits k Q ws t Hi Hq Hfirst) as (Hin & c & Hc & Hs & Hd & Hle).
  apply wp_bind. eapply wp_tcb_get; [done|].
  set (step := if bool_decide (delay_ticks c < periods) then delay_ticks c else periods).
  assert (Hstep : 0 <= step <= periods /\ step <= delay_ticks c).
  { unfold step. case_bool_decide; lia. }
  assert (Hmin : forall n, n ∈ ws -> step <= ticks (tcbs k) n).
  { intros n Hn. pose proof (Hle n Hn). lia. }
  apply wp_bind. eapply (wp_sub_all k Q ws step); [exact Hi|exact Hq|lia|exact Hmin|].
  intros T' HT.
  pose proof (round_sub k Q e periods log ws step T' H Hq (proj1 Hstep) Hmin HT) as H'.
  destruct (bool_decide (step < delay_ticks c)) eqn:Eb.
  - apply bool_decide_eq_true in Eb.
    assert (Est : step = periods) by (unfold step in *; case_bool_decide; lia).
    rewrite Est, Z.sub_diag in H'. rewrite Est in HT, Eb. apply wp_ret.
    exact (round_ends _ _ _ _ _ _ _ _ _ H' Hex (proj1 Hp) Hq Hfirst Hc Eb HT).
  - apply bool_decide_eq_false in Eb. assert (Est : step = delay_ticks c) by lia.
    assert (Eu : u32 (periods - step) = periods - step) by (unfold u32; apply Z.mod_small; lia).
    rewrite Eu. apply wp_bind. pose proof (rd_inv _ _ _ _ _ H') as Hi'.
    assert (Hc' : T' !! t = Some (set_delay_ticks 0 c)).
    { rewrite HT, decide_True, Hc by done. simpl. by rewrite Est, Z.sub_diag. }
    eapply (wp_complete_wait _ _ _ Q); [exact Hi'|exact Hc'|done|]. intros k2 Q2 Hd2.
    rewrite <- (any_ended_snoc log (t, e + step)). destruct (ai_head _ _ _ _ _ _ (proj2 (proj2 (completed_inv Hd2))) LTimer I) as [ws2 Hws2].
    eapply (IH k2 Q2 (e + step) (periods - step) _ ws2); [| |exact Hws2|].
    + eapply round_completes; [exact H'|exact Hc'|exact Hs|done|by exists ws|exact Hd2].
    + rewrite Est in *. by eapply exp_next.
    + pose proof (timer_shorter _ _ _ _ _ _ _ _ _ Hi' Hd2 Hin Hq Hws2). lia.
Qed.
End expire.

(** ** The handler *)

(** The running task does not age. *)
Lemma aged_running k0 Q0 e k Q t c :
  inv k0 Q0 -> aged k0 Q0 e k Q -> tcbs k0 !! t = Some c -> tskstat c = TTS_RUN ->
  tcbs k !! t = Some c.
Proof.
  intros (Hr & _ & Ha) H Hc Hs. destruct (H t c Hc) as (c' & Hc' & Hcase).
  destruct Hcase as [(Hi & _)|[(_ & _ & ->)|(_ & Hw & _)]]; [|done|].
  - destruct (member_timer Hr Ha _ Hi) as (t' & c1 & Et & _ & Hc1 & Hs1 & _). simplify_eq.
    stats. lia.
  - stats. lia.
Qed.

Lemma aged_cur_ok k0 Q0 e k Q :
  inv k0 Q0 -> aged k0 Q0 e k Q -> lt_frame k0 k -> cur_ok k0 -> cur_ok k.
Proof.
  intros Hi H (S & F & L & T & ->) Hok Hm t Hc. destruct (Hok Hm t Hc) as (c & Ht & Hs).
  exists c. split; [|done]. by eapply aged_running.
Qed.

Lemma aged_sched_ok k0 Q0 e k :
  inv k0 Q0 -> aged k0 Q0 e k Q0 -> lt_frame k0 k -> sched_ok k0 Q0 -> sched_ok k Q0.
Proof.
  intros Hi H Hf Hs t Hc. pose proof Hf as (S & F & L & T & ->).
  destruct (Hs t Hc) as [H1 H2]. split; [|done]. intros Hm.
  destruct (H1 Hm) as (Hh & c & Ht & Hst). split; [done|]. exists c. split; [|done].
  by eapply aged_running.
Qed.

(** What [n] ticks make of [k0]: the waits that end, one by one as the history says,
    with the account of them; who had a limit and reached it is in the account; and
    the task to run is chosen again if a wait ended. *)
Record timed_out (n : Z) (k0 : kernel) (Q0 : queues) (log : list (Z * Z)) (given : list Z)
    (k : kernel) (Q : queues) : Prop := {
  to_history : exists k1, passed n k0 Q0 log k1 Q /\
    k = if any_ended log then resched Q k1 else k1;
  to_ledger : ledger n (tcbs k0) (semcbs k0) log given (tcbs k) (semcbs k);
  to_due t c : tcbs k0 !! t = Some c -> tskstat c = TTS_WAI -> 0 < delay_ticks c <= n ->
    t ∈ log.*1 ++ given;
}.

Lemma resched_blocks Q k : tcbs (resched Q k) = tcbs k /\ semcbs (resched Q k) = semcbs k.
Proof. unfold resched. by case_decide. Qed.

(** The end of a loop. *)
Lemma round_result k0 Q0 (n : Z) log k Q e : inv k0 Q0 -> @round k0 Q0 n k Q e (n - e) log ->
  timers_live (tcbs k) Q -> aged k0 Q0 n k Q -> passed n k0 Q0 log k Q ->
  exists given, timed_out n k0 Q0 log given (if any_ended log then resched Q k else k) Q.
Proof.
  intros Hi0 Hrd Hlive Hag Hp. destruct (rd_book _ _ _ _ _ Hrd) as [given Hled].
  destruct (rd_total _ _ _ _ _ Hrd) as (He & Hn & _). destruct (resched_blocks Q k) as [ET ES].
  assert (Hled' : ledger n (tcbs k0) (semcbs k0) log given (tcbs k) (semcbs k)).
  { eapply ledger_keep; [exact Hled|lia|]. intros t c Hc. by exists c. }
  exists given. split.
  - by exists k.
  - destruct (any_ended log); by rewrite ?ET, ?ES.
  - intros t c Hc Hs Hd. by eapply (ledger_due k0 Q0 n k Q).
Qed.

(** The end of the handler, after the loop from [k0]. *)
Lemma wp_after_expire k0 Q0 (n : Z) fuel ws (Phi : unit -> kernel -> Prop) :
  wf k0 Q0 -> 0 <= n < 2 ^ 32 -> Q0 !! LTimer = Some ws -> (length ws < fuel)%nat ->
  (forall k Q log given, wf k Q -> aged k0 Q0 n k Q -> timed_out n k0 Q0 log given k Q ->
     (exists k1, lt_frame k0 k1 /\ (k = k1 \/ k = resched Q k1)) -> Phi tt k) ->
  wp (ended <- expire_loop fuel n false ;; if (ended : bool) then reschedule else ret tt) Phi k0.
Proof.
  intros (Hi & [Ho Hl] & Hs) Hn Hq Hf H. apply wp_bind. change false with (any_ended []).
  eapply (wp_expire_loop (k0 := k0) (Q0 := Q0) (total := n)) with (Q := Q0) (e := 0) (ws := ws);
    [exact Hi|exact Hl| | |apply exp_start|exact Hq|exact Hf].
  - intros log k Q e Hrd Hlive Hag Hp.
    pose proof (rd_inv _ _ _ _ _ Hrd) as Hi'. pose proof (rd_frame _ _ _ _ _ Hrd) as Hfr.
    assert (Hset : settled k Q) by (split; [exact (rd_objs _ _ _ _ _ Hrd)|done]).
    destruct (round_result k0 Q0 n log k Q e Hi Hrd Hlive Hag Hp) as [given Hto].
    destruct (any_ended log) eqn:Elog.
    + eapply (wp_reschedule _ Q); [done|].
      assert (Hwf : wf (resched Q k) Q).
      { apply resched_wf; [done|done|]. eapply aged_cur_ok; [exact Hi|done|done|].
        by eapply sched_cur_ok. }
      apply (H _ Q log given); [done| |exact Hto|exists k; auto].
      intros t c Hc. destruct (Hag t c Hc) as (c' & Hc' & ?). exists c'. split; [|done].
      by rewrite (proj1 (resched_blocks Q k)).
    + apply wp_ret. pose proof (rd_ended _ _ _ _ _ Hrd Elog) as ->.
      apply (H _ Q0 log given); [|done|exact Hto|exists k; auto]. split; [done|]. split; [done|].
      exact (aged_sched_ok k0 Q0 n k Hi Hag Hfr Hs).
  - split; [done|done|by apply aged_refl| |lia|done|exists []; apply ledger_start].
    exists (semcbs k0), (flgcbs k0), (links k0), (tcbs k0). by destruct k0.
Qed.

(** [k'] differs from [k] only in the timer: the comparand and its variable, and the
    reads of the clock. *)
Definition timer_only (k k' : kernel) : Prop :=
  k' = set_cmp_log (cmp_log k') (set_mtimecmp (mtimecmp k')
         (set_s_mtimecmp (s_mtimecmp k') (set_reads (reads k') k))).

(** What [tkmc_timer_handler] gives and leaves. *)
Definition timer_handler_post k Q (_ : unit) (k' : kernel) : Prop :=
  exists Q' r cmp' (n : Z),
    edges k (s_mtimecmp k) r cmp' n /\ wf k' Q' /\ aged k Q n k' Q' /\
    s_mtimecmp k' = cmp' /\ mie k' = mie k /\
    (0 < n -> exists a b, mtimecmp k' = cmp' /\ cmp_log k' = cmp' :: b :: a :: cmp_log k /\
       mtimecmp k <= a /\ cmp' <= b) /\
    exists k0 log given, timer_only k k0 /\ timed_out n k0 Q log given k' Q'.

(** No tick has passed. *)
Lemma timed_out_none k Q : wf k Q -> timed_out 0 k Q [] [] k Q.
Proof.
  intros (Hi & [_ Hl] & _). destruct (ai_head _ _ _ _ _ _ (proj2 (proj2 Hi)) LTimer I) as [ws Hws].
  split; [|apply ledger_start|lia]. exists k. split; [|done].
  exists 0, k, ws, (tcbs k). split; [apply exp_start|]. split; [lia|]. split; [exact Hws|].
  split; [|split; [apply sub_none|by destruct k]].
  intros x Hx. assert (Hin : inq Q LTimer x) by by exists ws.
  destruct (member_timer (proj1 Hi) (proj2 (proj2 Hi)) x Hin) as (t & c & -> & _ & Hc & _).
  pose proof (Hl t c Hc Hin) as Hd. unfold ticks. rewrite Hc. lia.
Qed.

Lemma wp_timer_handler k Q :
  wf k Q -> timer_in_reach k -> 0 <= mtimecmp k < 2 ^ 64 ->
  wp tkmc_timer_handler (timer_handler_post k Q) k.
Proof.
  unfold timer_handler_post.
  intros Hwf Hreach Hcmp. pose proof Hwf as (Hi & Hset & Hsch).
  unfold tkmc_timer_handler. apply wp_bind, wp_gets, wp_bind, wp_pass_elapsed; [done|].
  intros r cmp' n Hed. pose proof Hed as (Ecmp & Hn & Hr & Hlt & _).
  assert (Hcmp' : 0 <= cmp' < 2 ^ 64).
  { destruct Hreach as (Hck & Hs & _). unfold TICK_COUNTS in Ecmp. lia. }
  destruct (decide (n = 0)) as [E0|E0].
  { apply wp_ret. exists Q, r, cmp', n. split; [done|]. split; [exact Hwf|]. subst n.
    split; [exact (aged_refl k Q Hi)|]. split; [proj; lia|]. split; [done|]. split; [lia|].
    exists (set_reads r k), [], []. split; [by destruct k|].
    exact (timed_out_none (set_reads r k) Q Hwf). }
  apply wp_bind, wp_modify, wp_bind. apply wp_write_mtimecmp; [done|exact Hcmp|].
  intros a b Ha Hb. apply wp_bind, wp_gets.
  match goal with |- wp _ _ ?s => set (k0 := s) end.
  assert (Hwf0 : wf k0 Q) by exact Hwf.
  destruct (ai_head _ _ _ _ _ _ (proj2 (proj2 Hi)) LTimer I) as [ws Hws].
  eapply (wp_after_expire k0 Q n _ ws); [done|lia|done| |].
  { pose proof (rep_length _ _ _ _ (proj1 Hi) Hws) as Hlen. apply Nat.lt_lt_succ_r, Hlen. }
  intros k' Q' log given Hwf' Hag Hto (k1 & (S & F & L & T & Ek1) & Ek). exists Q', r, cmp', n.
  split; [done|]. split; [done|]. split; [exact Hag|].
  assert (Hsame : s_mtimecmp k' = cmp' /\ mie k' = mie k /\ mtimecmp k' = cmp' /\
    cmp_log k' = cmp' :: b :: a :: cmp_log k).
  { destruct Ek as [->| ->]; rewrite Ek1; [done|]. unfold resched. by case_decide. }
  destruct Hsame as (E1 & E2 & E3 & E4). split; [done|]. split; [done|].
  split; [intros _; by exists a, b|]. exists k0, log, given. split; [by destruct k|exact Hto].
Qed.

(** C11: From a well-formed state with the clock in reach, [tkmc_timer_handler]
    returns in a well-formed state: it passes exactly the tick edges the machine
    time has reached, takes that count off every entry of the timer queue, and ends
    waits one at a time in order of deadline, each when exactly its ticks are over.
    Each ends with E_TMOUT, and makes room for waiters behind it: a task that is
    given the units it asked for by a wait that timed out on its semaphore, no later
    than its own deadline, ends with E_OK, the semaphore has so many units less, and
    every wait whose limit was reached is one of the two. It leaves the compare
    value at the first edge ahead, by writes that never fall below either endpoint. *)
Theorem timer_handler_spec k Q :
  wf k Q -> timer_in_reach k -> 0 <= mtimecmp k < 2 ^ 64 ->
  wp tkmc_timer_handler (timer_handler_post k Q) k.
Proof. apply wp_timer_handler. Qed.
