(* ===== verification/Task.v ===== *)
(** * Tasks: [src/kernel/task.c] *)

From S2P Require Import Prelude DList Tkernel Kernel Inv Moves Rules Wait Sched Timer.

Open Scope Z_scope.

(** [memset(&tcb->winfo, 0, sizeof(tcb->winfo))]: the link in it and the
    union. *)
Definition clear_winfo (t : Z) : K unit :=
  on_links (set_lnext (LWait t) LNull) ;;;
  on_links (set_lprev (LWait t) LNull) ;;;
  tcb_upd t (set_winfo WInfoZero).

Definition reset_tcb (t : Z) : K unit :=
  tcb_upd t (set_itskpri 0) ;;;
  tcb_upd t (set_tskstat 0) ;;;
  tcb_upd t (set_tskwait 0) ;;;
  tcb_upd t (set_sp 0) ;;;
  tcb_upd t (set_initial_sp 0) ;;;
  tcb_upd t (set_task None) ;;;
  tcb_upd t (set_exinf 0) ;;;
  tcb_upd t (set_delay_ticks 0) ;;;
  tcb_upd t (set_wupcause E_OK) ;;;
  tcb_upd t (set_wupcnt 0) ;;;
  clear_winfo t ;;;
  list_init (LHead t) ;;;
  list_init (LWait t).

Definition default_tcb (t : Z) : K unit :=
  reset_tcb t ;;;
  tcb_upd t (set_tskid 0).

Definition tkmc_init_tcb : K unit :=
  list_init LFreeTcb ;;;
  for_range (Z.to_nat CFN_MAX_TSKID) 0 (fun i =>
    default_tcb i ;;;
    tcb_upd i (set_tskid (i + 1)) ;;;
    list_add_tail (LHead i) LFreeTcb) ;;;
  for_range (Z.to_nat CFN_MAX_PRI) 0 (fun i => list_init (LReady i)).

(** ** The frame of a task that was switched out

    [StashedRegisters]: 32 words; the fields the kernel writes by name are the
    words below. *)

Definition FRAME_WORDS := 32.
Definition FRAME_BYTES := 4 * FRAME_WORDS.
Definition REG_ra := 0.
Definition REG_a0 := 6.
Definition REG_a1 := 7.
Definition REG_mepc := 28.

Definition STACK_ALIGN := 16.
Definition TKMC_UINTPTR_MAX := 2 ^ 32 - 1.

Definition VALID_TSKATR :=
  Z.lor TA_ASM (Z.lor TA_HLNG (Z.lor TA_USERBUF
    (Z.lor TA_RNG0 (Z.lor TA_RNG1 (Z.lor TA_RNG2 TA_RNG3))))).

(** The checks of [tk_cre_tsk] before it looks for a free control block: the
    error they give, if any. *)
Definition cre_tsk_error (p : T_CTSK) : option Z :=
  if decide (Z.land (tskatr p) (not32 VALID_TSKATR) <> 0) then Some E_RSATR
  else if decide (Z.land (tskatr p) TA_USERBUF = 0) then Some E_RSATR
  else if decide (ct_task p = None \/ bufptr p = 0) then Some E_PAR
  else if decide (ct_itskpri p < 1 \/ CFN_MAX_PRI < ct_itskpri p) then Some E_PAR
  else if decide (stksz p <= FRAME_BYTES) then Some E_PAR
  else if decide (TKMC_UINTPTR_MAX - bufptr p < stksz p) then Some E_PAR
  else if decide ((bufptr p + stksz p) mod STACK_ALIGN <> 0) then Some E_PAR
  else None.

Definition tk_cre_tsk (pk_ctsk : option T_CTSK) : K Z :=
  match pk_ctsk with
  | None => ret E_PAR
  | Some p =>
    match cre_tsk_error p with
    | Some e => ret e
    | None =>
      let stack_end := bufptr p + stksz p in
      intsts <- DI ;;
      empty <- list_empty LFreeTcb ;;
      r <- (if negb empty then
        n <- list_next LFreeTcb ;;
        t <- tcb_of_head n ;;
        list_del (LHead t) ;;;
        list_init (LHead t) ;;;
        c <- tcb_get t ;;
        ret (tskid c, Some t)
      else ret (E_LIMIT, None)) ;;
      new_id <- (if decide (0 <= fst (r : Z * option Z)) then
        t <- gets_opt (fun _ => snd r) ;;
        reset_tcb t ;;;
        tcb_upd t (set_tskstat TTS_DMT) ;;;
        tcb_upd t (set_sp (stack_end - FRAME_BYTES)) ;;;
        tcb_upd t (set_initial_sp (stack_end - FRAME_BYTES)) ;;;
        tcb_upd t (set_task (ct_task p)) ;;;
        tcb_upd t (set_itskpri (ct_itskpri p)) ;;;
        tcb_upd t (set_exinf (ct_exinf p)) ;;;
        ret (fst r)
      else ret E_LIMIT) ;;
      EI intsts ;;;
      ret new_id
    end
  end.

(** The initial context of a task, at [sp0]. *)
Definition build_frame (sp0 : Z) (task0 : FP) (stacd exinf0 : Z) : K unit :=
  for_range (Z.to_nat FRAME_WORDS) 0 (fun i => store_w (sp0 + 4 * i) (CWord 0xdeadbeef)) ;;;
  store_w (sp0 + 4 * REG_ra) (CText F_tk_ext_tsk) ;;;
  store_w (sp0 + 4 * REG_mepc)
    (match task0 with Some f => CText f | None => CWord 0 end) ;;;
  store_w (sp0 + 4 * REG_a0) (CWord (u32 stacd)) ;;;
  store_w (sp0 + 4 * REG_a1) (CWord exinf0).

(** The part of [tk_sta_tsk] up to the choice of the task. *)
Definition start_body (t stacd : Z) : K unit :=
  tcb_upd t (fun c => set_sp (initial_sp c) c) ;;;
  tcb_upd t (set_tskwait 0) ;;;
  tcb_upd t (set_delay_ticks 0) ;;;
  tcb_upd t (set_wupcnt 0) ;;;
  tcb_upd t (set_wupcause E_OK) ;;;
  clear_winfo t ;;;
  list_init (LWait t) ;;;
  c <- tcb_get t ;;
  build_frame (sp c) (task c) stacd (exinf c) ;;;
  tcb_upd t (set_tskstat TTS_RDY) ;;;
  list_init (LHead t) ;;;
  list_add_tail (LHead t) (LReady (itskpri c - 1)).

Definition tk_sta_tsk (tskid0 stacd : Z) : K Z :=
  if negb (tkmc_id_in_range tskid0 CFN_MAX_TSKID) then ret E_ID
  else
    let t := tskid0 - 1 in
    intsts <- DI ;;
    c <- tcb_get t ;;
    if decide (tskstat c = TTS_NOEXS) then EI intsts ;;; ret E_NOEXS
    else if decide (tskstat c <> TTS_DMT) then EI intsts ;;; ret E_OBJ
    else
      start_body t stacd ;;;
      cur <- gets current ;;
      (if decide (cur <> None) then reschedule else ret tt) ;;;
      EI intsts ;;;
      ret E_OK.

Definition tkmc_idle_can_halt : K bool :=
  n <- tkmc_get_highest_priority_task ;;
  cur <- gets current ;;
  if decide (n = cur) then
    a <- list_next (LReady (CFN_MAX_PRI - 1)) ;;
    b <- list_prev (LReady (CFN_MAX_PRI - 1)) ;;
    ret (bool_decide (a = b))
  else ret false.

Definition tk_ext_tsk : K call :=
  intsts <- DI ;;
  can <- tkmc_can_block intsts ;;
  if negb can then tkmc_fatal_context TKMC_CONTEXT_EXT_TSK
  else
    tmp <- current_tcb ;;
    list_del (LHead tmp) ;;;
    tcb_upd tmp (set_tskstat TTS_DMT) ;;;
    tcb_upd tmp (set_tskwait 0) ;;;
    n <- tkmc_get_highest_priority_task ;;
    modify (set_next n) ;;;
    dispatch ;;;
    EI intsts ;;;
    ret (Suspend K_ext).

Definition tk_exd_tsk : K call :=
  intsts <- DI ;;
  can <- tkmc_can_block intsts ;;
  if negb can then tkmc_fatal_context TKMC_CONTEXT_EXD_TSK
  else
    tmp <- current_tcb ;;
    list_del (LHead tmp) ;;;
    tcb_upd tmp (set_tskstat TTS_NOEXS) ;;;
    list_add_tail (LHead tmp) LFreeTcb ;;;
    n <- tkmc_get_highest_priority_task ;;
    modify (set_next n) ;;;
    dispatch ;;;
    EI intsts ;;;
    ret (Suspend K_ext).

Definition tk_rel_wai (tskid0 : Z) : K Z :=
  if negb (tkmc_id_in_range tskid0 CFN_MAX_TSKID) then ret E_ID
  else
    let t := tskid0 - 1 in
    intsts <- DI ;;
    c <- tcb_get t ;;
    cur <- gets current ;;
    let ercd :=
      if decide (tskstat c = TTS_NOEXS) then E_NOEXS
      else if decide (Some t = cur) then E_OBJ
      else if decide (tskstat c <> TTS_WAI) then E_OBJ
      else E_OK in
    (if decide (ercd = E_OK) then
       tkmc_complete_wait t E_RLWAI ;;;
       reschedule
     else ret tt) ;;;
    EI intsts ;;;
    ret ercd.

(** Queue one wake-up request, up to the limit. *)
Definition queue_wakeup (t : Z) : K Z :=
  c <- tcb_get t ;;
  if decide (wupcnt c < TK_WAKEUP_MAXCNT) then
    tcb_upd t (set_wupcnt (wupcnt c + 1)) ;;; ret E_OK
  else ret E_QOVR.

Definition tk_wup_tsk (tskid0 : Z) : K Z :=
  if negb (tkmc_id_in_range tskid0 CFN_MAX_TSKID) then ret E_ID
  else
    let t := tskid0 - 1 in
    intsts <- DI ;;
    c <- tcb_get t ;;
    cur <- gets current ;;
    isr <- tkmc_in_isr ;;
    ercd <- (if decide (Some t = cur /\ isr = false) then ret E_OBJ
      else if decide (tskstat c = TTS_WAI) then
        if decide (tskwait c = TTW_SLP) then
          tkmc_complete_wait t E_OK ;;;
          reschedule ;;;
          ret E_OK
        else queue_wakeup t
      else if decide (tskstat c = TTS_RDY \/ tskstat c = TTS_RUN) then queue_wakeup t
      else if decide (tskstat c = TTS_NOEXS) then ret E_NOEXS
      else ret E_OBJ) ;;
    EI intsts ;;;
    ret ercd.

Implicit Types (k : kernel) (Q : queues) (t : Z) (h n : link).

(** ** Wake-ups *)

(** [k'] is [k] when the wait of [t] ended for [cause] and a switch was asked
    for, if another task should run. *)
Definition woke (k : kernel) (Q : queues) (t : Z) (c : TCB) (cause : Z)
    (k' : kernel) (Q' : queues) : Prop :=
  exists k1, completed (set_mie false k) Q t c cause k1 Q' /\
    k' = set_mie (mie k) (resched Q' k1).

Lemma wp_wake k Q t c cause (Phi : unit -> kernel -> Prop) :
  wf k Q -> tcbs k !! t = Some c -> tskstat c = TTS_WAI ->
  tskwait c <> TTW_SEM \/ cause = E_TMOUT \/ cause = E_RLWAI ->
  (forall k1 Q', completed k Q t c cause k1 Q' -> wf (resched Q' k1) Q' ->
     mie (resched Q' k1) = mie k -> Phi tt (resched Q' k1)) ->
  wp (tkmc_complete_wait t cause ;;; reschedule) Phi k.
Proof.
  intros (Hi & Hset & Hsch) Hc Hs Hcase H. apply wp_bind.
  eapply (wp_complete_wait _ _ _ Q c); [exact Hi|done|done|]. intros k1 Q' Hd.
  pose proof (completed_woken Hc Hs Hd) as Hw. pose proof (completed_inv Hd) as Hi1.
  eapply (wp_reschedule _ Q'); [done|]. apply H; [done| |].
  - apply resched_wf; [done| |].
    + by eapply (completed_settled Hi Hc Hs Hd).
    + eapply woken_cur_ok; [exact Hw|]. by eapply sched_cur_ok.
  - destruct Hw as [(? & ? & ? & ? & ->) _]. unfold resched. by case_decide.
Qed.

Lemma id_range id (n : Z) : tkmc_id_in_range id n = true -> 0 <= id - 1 < n.
Proof. unfold tkmc_id_in_range. rewrite andb_true_iff, !bool_decide_eq_true. lia. Qed.

Lemma tcb_here k Q t : inv k Q -> 0 <= t < CFN_MAX_TSKID -> exists c, tcbs k !! t = Some c.
Proof. intros (_ & _ & Ha) Ht. by apply (ai_tcbs _ _ _ _ _ _ Ha). Qed.

(** What [tk_rel_wai] gives and leaves. *)
Definition rel_wai_post k Q id (r : Z) (k' : kernel) : Prop :=
  exists Q', wf k' Q' /\
    if tkmc_id_in_range id CFN_MAX_TSKID then
      exists c, tcbs k !! (id - 1) = Some c /\
        if decide (tskstat c = TTS_NOEXS) then r = E_NOEXS /\ k' = k
        else if decide (Some (id - 1) = current k \/ tskstat c <> TTS_WAI) then r = E_OBJ /\ k' = k
        else r = E_OK /\ woke k Q (id - 1) c E_RLWAI k' Q' /\
          tcbs k' !! (id - 1) = Some (readied E_RLWAI c)
    else r = E_ID /\ k' = k.

Lemma wp_rel_wai k Q id : wf k Q ->
  wp (tk_rel_wai id) (rel_wai_post k Q id) k.
Proof.
  unfold rel_wai_post.
  intros Hwf. unfold tk_rel_wai. destruct (tkmc_id_in_range id CFN_MAX_TSKID) eqn:Eid; simpl.
  2:{ apply wp_ret. by exists Q. }
  destruct (tcb_here k Q (id - 1) (proj1 Hwf) (id_range _ _ Eid)) as [c Hc].
  apply wp_bind, wp_DI. apply wp_bind. eapply wp_tcb_get; [done|]. apply wp_bind, wp_gets. proj.
  destruct (decide (tskstat c = TTS_NOEXS)) as [E1|E1].
  { rewrite decide_False by by vm_compute. apply wp_bind, wp_ret, wp_leave. exists Q. split; [done|].
    exists c. split; [done|]. by rewrite decide_True. }
  destruct (decide (Some (id - 1) = current k)) as [E2|E2].
  { rewrite decide_False by by vm_compute. apply wp_bind, wp_ret, wp_leave. exists Q. split; [done|].
    exists c. split; [done|]. rewrite decide_False by done. rewrite decide_True by auto. done. }
  destruct (decide (tskstat c <> TTS_WAI)) as [E3|E3].
  { rewrite decide_False by by vm_compute. apply wp_bind, wp_ret, wp_leave. exists Q. split; [done|].
    exists c. split; [done|]. rewrite decide_False by done. rewrite decide_True by auto. done. }
  assert (Hs : tskstat c = TTS_WAI) by (destruct (decide (tskstat c = TTS_WAI)); done).
  rewrite decide_True by done.
  apply wp_bind. eapply (wp_wake (set_mie false k) Q); [exact Hwf|exact Hc|done|by right; right|].
  intros k1 Q' Hd Hwf' Hm. apply wp_bind, wp_EI; [done|]. apply wp_ret.
  exists Q'. split; [exact Hwf'|]. exists c. split; [done|].
  rewrite decide_False by done. rewrite decide_False by tauto. split; [done|].
  split; [by exists k1|]. pose proof (completed_target Hd) as Ht.
  unfold resched. by case_decide.
Qed.

(** C30: [tk_rel_wai] on every branch: the errors change nothing; otherwise the task
    becomes ready with E_RLWAI, and if it waited for a semaphore the units it leaves
    go to the waiters behind it. *)
Theorem rel_wai_spec k Q id : wf k Q ->
  wp (tk_rel_wai id) (rel_wai_post k Q id) k.
Proof. apply wp_rel_wai. Qed.

(** One more wake-up of [t] is queued, if there is room for it. *)
Definition wakeup_queued (k : kernel) (t : Z) (c : TCB) (r : Z) (k' : kernel) : Prop :=
  if decide (wupcnt c < TK_WAKEUP_MAXCNT)
  then r = E_OK /\ k' = set_tcbs (<[t := set_wupcnt (wupcnt c + 1) c]> (tcbs k)) k
  else r = E_QOVR /\ k' = k.

Lemma wp_queue_wakeup k Q t c (Phi : Z -> kernel -> Prop) :
  wf k Q -> tcbs k !! t = Some c ->
  (forall r k', wakeup_queued k t c r k' -> wf k' Q -> Phi r k') ->
  wp (ercd <- queue_wakeup t ;; EI (saved (mie k)) ;;; ret ercd) Phi (set_mie false k).
Proof.
  intros Hwf Hc H. apply wp_bind. unfold queue_wakeup.
  apply wp_bind. eapply wp_tcb_get; [done|]. unfold wakeup_queued in H. case_decide.
  - apply wp_bind. eapply wp_tcb_upd; [done|]. apply wp_ret.
    apply wp_bind, wp_EI; [done|]. apply wp_ret.
    assert (E : set_mie (mie k) (set_tcbs (<[t := set_wupcnt (wupcnt c + 1) c]>
      (tcbs (set_mie false k))) (set_mie false k)) =
      set_tcbs (<[t := set_wupcnt (wupcnt c + 1) c]> (tcbs k)) k) by by destruct k.
    rewrite E. apply H; [done|]. by apply (wf_touch k Q t c).
  - apply wp_ret, wp_leave. by apply H.
Qed.

(** What [tk_wup_tsk] gives and leaves. *)
Definition wup_tsk_post k Q id (r : Z) (k' : kernel) : Prop :=
  exists Q', wf k' Q' /\
    if tkmc_id_in_range id CFN_MAX_TSKID then
      exists c, tcbs k !! (id - 1) = Some c /\
        if decide (Some (id - 1) = current k /\ isr_depth k = 0) then r = E_OBJ /\ k' = k
        else if decide (tskstat c = TTS_WAI /\ tskwait c = TTW_SLP) then
          r = E_OK /\ woke k Q (id - 1) c E_OK k' Q' /\
          tcbs k' !! (id - 1) = Some (readied E_OK c)
        else if decide (tskstat c = TTS_WAI \/ ready_stat c) then
          wakeup_queued k (id - 1) c r k'
        else r = (if decide (tskstat c = TTS_NOEXS) then E_NOEXS else E_OBJ) /\ k' = k
    else r = E_ID /\ k' = k.

Lemma wp_wup_tsk k Q id : wf k Q ->
  wp (tk_wup_tsk id) (wup_tsk_post k Q id) k.
Proof.
  unfold wup_tsk_post.
  intros Hwf. unfold tk_wup_tsk. destruct (tkmc_id_in_range id CFN_MAX_TSKID) eqn:Eid; simpl.
  2:{ apply wp_ret. by exists Q. }
  destruct (tcb_here k Q (id - 1) (proj1 Hwf) (id_range _ _ Eid)) as [c Hc].
  apply wp_bind, wp_DI. apply wp_bind. eapply wp_tcb_get; [done|]. apply wp_bind, wp_gets.
  unfold tkmc_in_isr. apply wp_bind, wp_gets. proj.
  destruct (decide (Some (id - 1) = current k /\ isr_depth k = 0)) as [E1|E1].
  { rewrite decide_True by (destruct E1 as [-> ->]; done).
    apply wp_bind, wp_ret, wp_leave. exists Q. split; [done|]. by exists c. }
  rewrite decide_False.
  2:{ intros [? Hi]. apply E1. split; [done|]. by apply negb_false_iff, bool_decide_eq_true in Hi. }
  destruct (decide (tskstat c = TTS_WAI)) as [E2|E2].
  { destruct (decide (tskwait c = TTW_SLP)) as [E3|E3].
    - apply wp_bind, wp_seq_assoc, wp_bind.
      eapply (wp_wake (set_mie false k) Q); [exact Hwf|exact Hc|done| |].
      { left. rewrite E3. by vm_compute. }
      intros k1 Q' Hd Hwf' Hm. apply wp_ret. apply wp_bind, wp_EI; [done|].
      apply wp_ret. exists Q'. split; [exact Hwf'|]. exists c. split; [done|].
      rewrite decide_True by done. split; [done|].
      split; [by exists k1|]. pose proof (completed_target Hd) as Ht.
      unfold resched. by case_decide.
    - eapply wp_queue_wakeup; [exact Hwf|done|]. intros r k' Hq Hwf'. exists Q.
      split; [done|]. exists c. split; [done|]. rewrite decide_False by tauto.
      rewrite decide_True by tauto. done. }
  fold (ready_stat c). destruct (decide (ready_stat c)) as [E3|E3].
  { eapply wp_queue_wakeup; [exact Hwf|done|]. intros r k' Hq Hwf'. exists Q.
    split; [done|]. exists c. split; [done|]. rewrite decide_False by tauto.
    rewrite decide_True by tauto. done. }
  destruct (decide (tskstat c = TTS_NOEXS)) as [E4|E4];
    apply wp_bind, wp_ret, wp_leave; exists Q; (split; [done|]); exists c; (split; [done|]);
    rewrite decide_False by tauto; rewrite decide_False by tauto; [by rewrite decide_True|by rewrite decide_False].
Qed.

(** C31: [tk_wup_tsk] on every branch: a sleeping task becomes ready, another one
    that exists and is not dormant has one more wake-up queued up to the limit, and
    every error changes nothing. *)
Theorem wup_tsk_spec k Q id : wf k Q ->
  wp (tk_wup_tsk id) (wup_tsk_post k Q id) k.
Proof. apply wp_wup_tsk. Qed.

(** ** Creating and starting a task *)

Lemma wp_clear_winfo k Q t c (Phi : unit -> kernel -> Prop) :
  rep (links k) Q -> (forall h, ~ inq Q h (LWait t)) -> LWait t ∈ dom (links k) ->
  tcbs k !! t = Some c ->
  (forall L, rep L (delete (LWait t) Q) -> dom L = dom (links k) ->
     Phi tt (with_lt L (<[t := set_winfo WInfoZero c]> (tcbs k)) k)) ->
  wp (clear_winfo t) Phi k.
Proof.
  intros Hr Hn Hd Hc H. unfold clear_winfo.
  destruct (rep_forget _ _ _ LNull LNull Hr Hn Hd) as (L1 & L2 & E1 & E2 & HL & HD).
  apply wp_bind. eapply wp_modify_opt; [by rewrite E1|].
  apply wp_bind. eapply wp_modify_opt; [proj; by rewrite E2|].
  eapply wp_tcb_upd; [exact Hc|]. by apply (H L2).
Qed.

(** What [reset_tcb] leaves of a control block. *)
Definition blank_tcb (id : Z) : TCB := mk_TCB id 0 0 0 0 0 None 0 0 E_OK 0 WInfoZero.

Lemma insert_delete_same (Q : queues) n xs : <[n := xs]> (delete n Q) = <[n := xs]> Q.
Proof. apply insert_delete_eq. Qed.

(** At the boot the node of the wait queue is on no list at all. *)
Lemma wp_reset_any k Q t c (Phi : unit -> kernel -> Prop) :
  rep (links k) Q -> nodes_ok (links k) -> task_idx t -> tcbs k !! t = Some c ->
  (forall h, ~ inq Q h (LHead t)) -> (forall h, ~ inq Q h (LWait t)) ->
  (forall L, rep L (<[LWait t := []]> (<[LHead t := []]> (delete (LWait t) Q))) -> dom L = dom (links k) ->
     Phi tt (with_lt L (<[t := blank_tcb (tskid c)]> (tcbs k)) k)) ->
  wp (reset_tcb t) Phi k.
Proof.
  intros Hr Hn Ht Hc Hh Hw H. unfold reset_tcb. upd_tcb.
  apply wp_bind. eapply (wp_clear_winfo _ Q); [exact Hr|exact Hw|by apply Hn|apply lookup_insert_eq|].
  intros L1 HL1 HD1. unfold with_lt. proj. rewrite insert_insert_eq.
  assert (Hdel : forall h n, inq (delete (LWait t) Q) h n -> inq Q h n).
  { intros h n (xs & [? ?]%lookup_delete_Some & Hi). by exists xs. }
  apply wp_bind. eapply wp_list_init; [exact HL1| | |].
  { intros h Hi. by apply (Hh h), Hdel. }
  { proj. rewrite HD1. by apply Hn. }
  intros L2 HL2 HD2. proj.
  eapply wp_list_init; [exact HL2| | |].
  { intros h (xs & Hx & Hi). destruct (decide (h = LHead t)) as [->|].
    - rewrite lookup_insert_eq in Hx. simplify_eq. by apply elem_of_nil in Hi.
    - rewrite lookup_insert_ne in Hx by done. apply (Hw h), Hdel. by exists xs. }
  { proj. rewrite HD2. proj. rewrite HD1. by apply Hn. }
  intros L3 HL3 HD3. proj.
  specialize (H L3 HL3). apply H. congruence.
Qed.

Lemma wp_reset_tcb k Q t c (Phi : unit -> kernel -> Prop) :
  rep (links k) Q -> nodes_ok (links k) -> task_idx t -> tcbs k !! t = Some c ->
  (forall h, ~ inq Q h (LHead t)) -> (forall h, ~ inq Q h (LWait t)) -> alone Q (LWait t) ->
  (forall L, rep L (<[LHead t := []]> Q) -> dom L = dom (links k) ->
     Phi tt (with_lt L (<[t := blank_tcb (tskid c)]> (tcbs k)) k)) ->
  wp (reset_tcb t) Phi k.
Proof.
  intros Hr Hn Ht Hc Hh Hw Ha H. eapply wp_reset_any; [done..|]. intros L HL.
  apply H. rewrite insert_insert_ne, insert_delete_same in HL by done.
  by rewrite (insert_id Q (LWait t)) in HL.
Qed.

(** The control block of a task that was created from [p]. *)
Definition created_tcb (id : Z) (p : T_CTSK) : TCB :=
  let frame := bufptr p + stksz p - FRAME_BYTES in
  mk_TCB id (ct_itskpri p) TTS_DMT 0 frame frame (ct_task p) (ct_exinf p) 0 E_OK 0 WInfoZero.

(** Changes of a task that does not run leave the choice of the task alone. *)
Lemma sched_other k Q k' Q' t c :
  sched_ok k Q -> tcbs k !! t = Some c -> tskstat c <> TTS_RUN ->
  (forall u, u <> t -> tcbs k' !! u = tcbs k !! u) ->
  current k' = current k -> msip k' = msip k -> next k' = next k -> highest Q' = highest Q ->
  sched_ok k' Q'.
Proof.
  intros H Hc Hs Ho Ecur Em En Eh u Hu. rewrite Ecur in Hu. rewrite Em, En, Eh.
  destruct (H u Hu) as [H1 H2]. split; [|done]. intros Hm.
  destruct (H1 Hm) as (? & cu & Hcu & Hsu). split; [done|]. exists cu.
  rewrite Ho; [done|]. intros ->. simplify_eq.
Qed.


Lemma cre_tsk_error_none p : cre_tsk_error p = None ->
  (exists f, ct_task p = Some f) /\ 1 <= ct_itskpri p <= CFN_MAX_PRI /\
  FRAME_BYTES < stksz p /\ bufptr p + stksz p <= TKMC_UINTPTR_MAX /\
  (bufptr p + stksz p) mod STACK_ALIGN = 0.
Proof.
  unfold cre_tsk_error. intros H. repeat case_decide; try done.
  destruct (ct_task p) as [f|]; [|tauto]. split; [by exists f|]. repeat split; lia.
Qed.

Lemma settled_other_tcb k Q k' Q' t c' :
  semcbs k' = semcbs k -> flgcbs k' = flgcbs k -> tcbs k' = <[t := c']> (tcbs k) ->
  (forall h, obj_head h -> Q' !! h = Q !! h) -> (forall h, ~ inq Q h (LWait t)) ->
  (forall u, inq Q' LTimer (LHead u) -> u <> t /\ inq Q LTimer (LHead u)) ->
  settled k Q -> settled k' Q'.
Proof.
  intros ES EF ET HQ Hn Ht. apply settled_frame; try done.
  - intros h n _ Hi. rewrite ET. apply same_wait_other. intros ->. by apply (Hn h).
  - intros Htl u cu Hu Hi. destruct (Ht u Hi) as [Hne Hi'].
    rewrite ET, lookup_insert_ne in Hu by done. by eapply Htl.
Qed.

(** The block [t] leaves the free list as the task created from [p]. *)
Lemma created_wf k Q t c p L : let Q1 := <[LHead t := []]> (qrm (LHead t) Q) in
  wf k Q -> tcbs k !! t = Some c -> tskid c = t + 1 -> tskstat c = TTS_NOEXS ->
  1 <= ct_itskpri p <= CFN_MAX_PRI -> inq Q LFreeTcb (LHead t) -> alone Q (LWait t) ->
  rep L Q1 -> dom L = dom (links k) ->
  wf (with_lt L (<[t := created_tcb (t + 1) p]> (tcbs k)) k) Q1.
Proof.
  intros Q1 Hwf Hc Hid Hs Hp Hin Hw HL HD. pose proof Hwf as ((Hr & Hn & Ha) & Hset & Hsch).
  pose proof (rep_alone_loose _ _ _ Hr Hw) as [_ Hnw].
  assert (Hinq1 : forall h m, inq Q1 h m <-> h <> LHead t /\ m <> LHead t /\ inq Q h m).
  { intros h m. rewrite <- inq_qrm. apply inq_init. left. by rewrite lookup_qrm, decide_True. }
  assert (Hother : forall h, h <> LHead t -> ~ inq Q h (LHead t) -> Q1 !! h = Q !! h).
  { intros h Hne Hni. unfold Q1. rewrite lookup_insert_ne, lookup_qrm, decide_False by done.
    destruct (Q !! h) as [ys|] eqn:E; [|done]. simpl. f_equal. apply without_notin.
    by eapply notin_list. }
  set (k' := with_lt L (<[t := created_tcb (t + 1) p]> (tcbs k)) k).
  assert (Hi' : inv k' Q1).
  { split; [done|]. split; [by eapply nodes_ok_dom|].
    apply (ainv_drop _ _ _ _ _ Q t c); first [done | by rewrite Hid | by right]. }
  split; [done|]. split.
  - eapply (settled_other_tcb k Q); try done.
    + intros h Ho. apply Hother; [by intros ->|by eapply head_notin_obj].
    + intros u Hu. apply Hinq1 in Hu as (_ & Hne & Hu). split; [congruence|done].
  - eapply (sched_other k Q k' Q1 t c); try done.
    + intros E. stats. lia.
    + intros u Hu. unfold k', with_lt. proj. by rewrite lookup_insert_ne.
    + apply highest_ext. intros j. apply Hother; [done|]. intros Hi. located.
Qed.

(** The first frame lies in the stack. *)
Lemma created_frame id p : cre_tsk_error p = None -> let frame := sp (created_tcb id p) in
  bufptr p < frame /\ frame + FRAME_BYTES = bufptr p + stksz p /\
  bufptr p + stksz p <= TKMC_UINTPTR_MAX /\ frame mod STACK_ALIGN = 0.
Proof.
  intros Ee. destruct (cre_tsk_error_none p Ee) as (_ & Hp & Hsz & Hend & Hal). simpl.
  unfold FRAME_BYTES, FRAME_WORDS, STACK_ALIGN in *. repeat split; try lia.
  Z.to_euclidean_division_equations. lia.
Qed.

(** What [tk_cre_tsk] gives and leaves. *)
Definition cre_tsk_post k Q pk (r : Z) (k' : kernel) : Prop :=
  exists Q', wf k' Q' /\
    match pk with
    | None => r = E_PAR /\ k' = k
    | Some p =>
      match cre_tsk_error p with
      | Some e => r = e /\ k' = k
      | None =>
        match Q !! LFreeTcb with
        | Some (LHead t :: xs) => r = t + 1 /\ exists L,
            k' = with_lt L (<[t := created_tcb (t + 1) p]> (tcbs k)) k /\
            Q' = <[LHead t := []]> (qrm (LHead t) Q) /\
            let frame := sp (created_tcb (t + 1) p) in
            bufptr p < frame /\ frame + FRAME_BYTES = bufptr p + stksz p /\
            bufptr p + stksz p <= TKMC_UINTPTR_MAX /\ frame mod STACK_ALIGN = 0
        | _ => r = E_LIMIT /\ k' = k
        end
      end
    end.

(** The first free block leaves its list. *)
Lemma wp_take_tcb k Q n fr (Phi : Z * option Z -> kernel -> Prop) :
  inv k Q -> Q !! LFreeTcb = Some (n :: fr) ->
  (forall t c L, n = LHead t -> task_idx t -> tcbs k !! t = Some c -> tskstat c = TTS_NOEXS ->
     tskid c = t + 1 -> alone Q (LWait t) -> rep L (<[LHead t := []]> (qrm (LHead t) Q)) ->
     dom L = dom (links k) -> Phi (t + 1, Some t) (set_links L k)) ->
  wp (n <- list_next LFreeTcb ;; t <- tcb_of_head n ;; list_del (LHead t) ;;;
      list_init (LHead t) ;;; c <- tcb_get t ;; ret (tskid c, Some t)) Phi k.
Proof.
  intros (Hr & Hn & Ha) Hfr H.
  assert (Hin : inq Q LFreeTcb n) by (exists (n :: fr); split; [done|by left]).
  destruct (member_free_tcb Hr Ha n Hin) as (t & c & -> & Ht & Hc & Hs).
  destruct (ai_task _ _ _ _ _ _ Ha _ _ Hc) as [Hid Hok].
  assert (Hw : alone Q (LWait t)) by (destruct Hok; try (by stats); exfalso; stats; lia).
  apply wp_bind. eapply wp_list_first; [exact Hr|done|]. simpl.
  apply wp_bind, wp_ret. apply wp_bind. eapply wp_list_del; [exact Hr|exact Hin|].
  intros L1 HL1 HD1. proj.
  assert (Hnh : forall h, ~ inq (qrm (LHead t) Q) h (LHead t)).
  { intros h Hi. by apply inq_qrm in Hi as (_ & ? & _). }
  apply wp_bind. eapply wp_list_init; [exact HL1|done|proj; rewrite HD1; by apply Hn|].
  intros L2 HL2 HD2. proj. apply wp_bind. eapply wp_tcb_get; [exact Hc|]. apply wp_ret.
  rewrite Hid. specialize (H t c L2 eq_refl Ht Hc Hs Hid Hw HL2). proj.
  apply H. congruence.
Qed.

Lemma wp_cre_tsk k Q pk : wf k Q ->
  wp (tk_cre_tsk pk) (cre_tsk_post k Q pk) k.
Proof.
  unfold cre_tsk_post.
  intros Hwf. unfold tk_cre_tsk. destruct pk as [p|]; [|apply wp_ret; by exists Q].
  destruct (cre_tsk_error p) as [e|] eqn:Ee; [apply wp_ret; by exists Q|].
  destruct (cre_tsk_error_none p Ee) as (_ & Hp & Hsz & Hend & Hal).
  pose proof Hwf as (Hi & Hset & Hsch). pose proof Hi as (Hr & Hn & Ha).
  destruct (ai_head _ _ _ _ _ _ Ha LFreeTcb I) as [fr Hfr].
  apply wp_bind, wp_DI. apply wp_bind. eapply wp_list_empty; [exact Hr|done|].
  rewrite Hfr. destruct fr as [|n fr].
  { rewrite bool_decide_true by done. cbn [negb]. apply wp_bind, wp_ret. cbn [fst snd].
    rewrite decide_False by (by vm_compute). apply wp_bind, wp_ret, wp_leave. by exists Q. }
  rewrite bool_decide_false by done. cbn [negb]. apply wp_bind.
  eapply (wp_take_tcb (set_mie false k)); [exact Hi|exact Hfr|].
  intros t c L2 -> Ht Hc Hs Hid Hw HL2 HD2. proj. cbn [fst snd].
  rewrite decide_True by (unfold task_idx in Ht; lia).
  apply wp_bind, wp_bind. eapply wp_gets_opt; [done|]. apply wp_bind.
  set (Q1 := <[LHead t:=[]]> (qrm (LHead t) Q)) in *.
  assert (Hinq1 : forall h m, inq Q1 h m <-> h <> LHead t /\ m <> LHead t /\ inq Q h m).
  { intros h m. rewrite <- inq_qrm. apply inq_init. left. by rewrite lookup_qrm, decide_True. }
  eapply (wp_reset_tcb _ Q1 t c); [exact HL2| |exact Ht|exact Hc| | | |].
  { proj. by eapply nodes_ok_dom; [|exact Hn]. }
  { intros h Hx. by apply Hinq1 in Hx as (_ & ? & _). }
  { intros h Hx. apply Hinq1 in Hx as (_ & _ & Hx).
    by apply (proj2 (rep_alone_loose _ _ _ Hr Hw) h). }
  { unfold alone, Q1. rewrite lookup_insert_ne, lookup_qrm, decide_False by done. by rewrite Hw. }
  intros L3 HL3 HD3. unfold Q1 in HL3. rewrite insert_insert_eq in HL3. fold Q1 in HL3.
  unfold with_lt. proj. upd_tcb. apply wp_ret. rewrite Hid.
  apply wp_bind, wp_EI; [done|]. apply wp_ret.
  match goal with |- exists Q', wf ?kk Q' /\ _ =>
    assert (Ek : kk = with_lt L3 (<[t := created_tcb (t + 1) p]> (tcbs k)) k)
      by (unfold with_lt; clear; destruct k; reflexivity) end.
  rewrite Ek. exists Q1. split.
  - eapply created_wf; try done; [exists (LHead t :: fr); split; [done|by left]|congruence].
  - split; [done|]. exists L3. split; [done|]. split; [done|]. by apply (created_frame (t + 1)).
Qed.

(** C32: [tk_cre_tsk] on every branch: a refusal changes nothing; otherwise the
    first free block becomes a dormant task whose initial frame lies inside the
    stack it was given, 16-byte aligned and without wrap-around. *)
Theorem cre_tsk_spec k Q pk : wf k Q ->
  wp (tk_cre_tsk pk) (cre_tsk_post k Q pk) k.
Proof. apply wp_cre_tsk. Qed.

(** *** The frame of a task that starts *)

Definition frame_of (sp0 : Z) (task0 : FP) (stacd exinf0 : Z) (m : gmap Z cell) : Prop :=
  m !! (sp0 + 4 * REG_ra) = Some (CText F_tk_ext_tsk) /\
  m !! (sp0 + 4 * REG_mepc) =
    Some (match task0 with Some f => CText f | None => CWord 0 end) /\
  m !! (sp0 + 4 * REG_a0) = Some (CWord (u32 stacd)) /\
  m !! (sp0 + 4 * REG_a1) = Some (CWord exinf0) /\
  forall i, 0 <= i < FRAME_WORDS -> is_Some (m !! (sp0 + 4 * i)).

(** Only the words of the frame changed. *)
Definition frame_only (sp0 : Z) (m m' : gmap Z cell) : Prop :=
  forall a, ~ (sp0 <= a < sp0 + FRAME_BYTES) -> m' !! a = m !! a.

Lemma wp_build_frame k sp0 task0 stacd exinf0 (Phi : unit -> kernel -> Prop) :
  (forall m, frame_of sp0 task0 stacd exinf0 m -> frame_only sp0 (mem k) m ->
     Phi tt (set_mem m k)) ->
  wp (build_frame sp0 task0 stacd exinf0) Phi k.
Proof.
  intros H. unfold build_frame. apply wp_bind.
  apply (wp_for_range (fun i s => exists m, s = set_mem m k /\ frame_only sp0 (mem k) m /\
    forall j, 0 <= j < i -> is_Some (m !! (sp0 + 4 * j)))).
  - exists (mem k). split; [by destruct k|]. split; [done|lia].
  - intros i s Hi (m & -> & Hm & Hw). apply wp_modify. proj. eexists. split; [done|]. split.
    + intros a Ha. rewrite lookup_insert_ne; [by apply Hm|].
      unfold FRAME_BYTES, FRAME_WORDS in *. lia.
    + intros j Hj. apply lookup_insert_is_Some'. destruct (decide (j = i)) as [->|]; [by left|].
      right. apply Hw. lia.
  - intros s (m & -> & Hm & Hw). unfold store_w.
    apply wp_bind, wp_modify, wp_bind, wp_modify, wp_bind, wp_modify, wp_modify. proj.
    apply H.
    + unfold frame_of, REG_ra, REG_mepc, REG_a0, REG_a1. split; [|split; [|split; [|split]]].
      * do 3 rewrite lookup_insert_ne by lia. apply lookup_insert_eq.
      * do 2 rewrite lookup_insert_ne by lia. apply lookup_insert_eq.
      * rewrite lookup_insert_ne by lia. apply lookup_insert_eq.
      * apply lookup_insert_eq.
      * intros i Hi. do 4 (apply lookup_insert_is_Some'; right). apply Hw.
        unfold FRAME_WORDS in *. lia.
    + intros a Ha. unfold REG_ra, REG_mepc, REG_a0, REG_a1.
      unfold FRAME_BYTES, FRAME_WORDS in *.
      do 4 rewrite lookup_insert_ne by lia. apply Hm. unfold FRAME_BYTES, FRAME_WORDS. lia.
Qed.

(** ** Starting a task *)

Definition started_tcb (c : TCB) : TCB :=
  mk_TCB (tskid c) (itskpri c) TTS_RDY 0 (initial_sp c) (initial_sp c) (task c) (exinf c)
    0 E_OK 0 WInfoZero.

Lemma qpush_init h n Q : h <> n -> qpush h n (<[n := []]> Q) = qpush h n Q.
Proof.
  intros Hne. unfold qpush. rewrite lookup_insert_ne by done. apply map_eq. intros h'.
  rewrite !lookup_qset. repeat case_decide; try done. by rewrite lookup_insert_ne.
Qed.

(** The state of [k] with [t], of control block [c], started. *)
Definition started (k : kernel) (Q : queues) (t : Z) (c : TCB) (stacd : Z)
    (k1 : kernel) (Q' : queues) : Prop :=
  Q' = qpush (LReady (itskpri c - 1)) (LHead t) Q /\
  exists L m, frame_of (initial_sp c) (task c) stacd (exinf c) m /\
    frame_only (initial_sp c) (mem k) m /\ rep L Q' /\ dom L = dom (links k) /\
    k1 = set_mem m (with_lt L (<[t := started_tcb c]> (tcbs k)) k).

Lemma dormant_in k Q t c : inv k Q -> tcbs k !! t = Some c -> tskstat c = TTS_DMT ->
  pri_ok c /\ loose Q (LHead t) /\ alone Q (LWait t) /\ tskid c = t + 1.
Proof.
  intros (_ & _ & Ha) Hc Hs. destruct (ai_task _ _ _ _ _ _ Ha _ _ Hc) as [Hid Hok].
  destruct Hok; try done; exfalso; stats; lia.
Qed.

Lemma started_good k Q t c stacd k1 Q' :
  wf k Q -> tcbs k !! t = Some c -> tskstat c = TTS_DMT ->
  started k Q t c stacd k1 Q' -> inv k1 Q' /\ settled k1 Q' /\ cur_ok k1.
Proof.
  intros (Hi & Hset & Hsch) Hc Hs (-> & L & m & _ & _ & HL & HD & ->).
  destruct (dormant_in k Q t c Hi Hc Hs) as (Hp & [Hlh Hnh] & Hw & Hid).
  pose proof Hi as (Hr & Hn & Ha). pose proof (rep_alone_loose _ _ _ Hr Hw) as [_ Hnw].
  split; [|split].
  - split; [done|]. split; [by eapply nodes_ok_dom|].
    apply (ainv_push _ _ _ _ _ Q t c); try done.
    + unfold pri_ok in Hp. simpl. lia.
    + simpl. apply (ai_tcbs _ _ _ _ _ _ Ha). by eexists.
    + apply task_ready; try done.
      * by left.
      * unfold qpush. apply inq_qset. left. split; [done|]. apply elem_of_snoc. by right.
      * unfold alone, qpush. rewrite lookup_qset, 2!decide_False by done. by rewrite Hw.
  - eapply (settled_other_tcb k Q); try done.
    + intros h Ho. unfold qpush. rewrite lookup_qset, 2!decide_False by (intros ->; done).
      destruct (Q !! h) as [ys|] eqn:E; [|done]. simpl. f_equal. apply without_notin.
      eapply notin_list; [|done]. by eapply head_notin_obj.
    + intros u Hu. unfold qpush in Hu.
      apply inq_qset in Hu as [[? _]|(_ & _ & Hne & Hu)]; [done|]. split; [congruence|done].
  - intros Hm u Hu. destruct (sched_cur_ok k Q Hsch Hm u Hu) as (cu & Hcu & Hsu).
    exists cu. unfold with_lt. proj. rewrite lookup_insert_ne; [done|].
    intros ->. simplify_eq. stats. lia.
Qed.

Lemma wp_start_body k Q t c stacd (Phi : unit -> kernel -> Prop) :
  inv k Q -> tcbs k !! t = Some c -> tskstat c = TTS_DMT ->
  (forall k1 Q', started k Q t c stacd k1 Q' -> Phi tt k1) ->
  wp (start_body t stacd) Phi k.
Proof.
  intros Hi Hc Hs H. destruct (dormant_in k Q t c Hi Hc Hs) as (Hp & [Hlh Hnh] & Hw & Hid).
  pose proof Hi as (Hr & Hn & Ha). pose proof (rep_alone_loose _ _ _ Hr Hw) as [_ Hnw].
  assert (Ht : task_idx t) by (apply (ai_tcbs _ _ _ _ _ _ Ha); by eexists).
  unfold start_body. upd_tcb.
  apply wp_bind. eapply (wp_clear_winfo _ Q); [exact Hr|exact Hnw|by apply Hn|apply lookup_insert_eq|].
  intros L1 HL1 HD1. unfold with_lt. proj. rewrite insert_insert_eq.
  apply wp_bind. eapply wp_list_init; [exact HL1| |proj; rewrite HD1; by apply Hn|].
  { intros h (xs & [? ?]%lookup_delete_Some & Hx). apply (Hnw h). by exists xs. }
  intros L2 HL2 HD2. proj. rewrite insert_delete_same, insert_id in HL2 by done.
  apply wp_bind. eapply wp_tcb_get; [apply lookup_insert_eq|]. tproj.
  apply wp_bind, wp_build_frame. intros m Hfr Hfo. proj. upd_tcb.
  apply wp_bind. eapply wp_list_init; [exact HL2|done| |].
  { proj. rewrite HD2, HD1. by apply Hn. }
  intros L3 HL3 HD3. proj. eapply wp_list_add_tail; [exact HL3| | |done| |].
  - rewrite lookup_insert_ne by done. apply (ai_head _ _ _ _ _ _ Ha).
    unfold pri_ok in Hp. simpl. lia.
  - split; [right; by rewrite lookup_insert_eq|]. intros h Hx.
    apply inq_init in Hx; [by apply (Hnh h)|done].
  - proj. rewrite HD3, HD2, HD1. by apply Hn.
  - intros L4 HL4 HD4. proj. rewrite qpush_init in HL4 by done.
    apply (H _ (qpush (LReady (itskpri c - 1)) (LHead t) Q)). split; [done|].
    exists L4, m. repeat (split; [first [done|congruence]|]). by destruct k.
Qed.

(** What [tk_sta_tsk] gives and leaves. *)
Definition sta_tsk_post k Q id stacd (r : Z) (k' : kernel) : Prop :=
  exists Q', wf k' Q' /\
    if tkmc_id_in_range id CFN_MAX_TSKID then
      exists c, tcbs k !! (id - 1) = Some c /\
        if decide (tskstat c = TTS_DMT) then r = E_OK /\
          exists k1, started k Q (id - 1) c stacd k1 Q' /\
            k' = if decide (current k = None) then k1 else resched Q' k1
        else r = (if decide (tskstat c = TTS_NOEXS) then E_NOEXS else E_OBJ) /\ k' = k
    else r = E_ID /\ k' = k.

Lemma wp_sta_tsk k Q id stacd : wf k Q ->
  wp (tk_sta_tsk id stacd) (sta_tsk_post k Q id stacd) k.
Proof.
  unfold sta_tsk_post.
  intros Hwf. unfold tk_sta_tsk. destruct (tkmc_id_in_range id CFN_MAX_TSKID) eqn:Eid; simpl.
  2:{ apply wp_ret. by exists Q. }
  set (t := id - 1). destruct (tcb_here k Q t (proj1 Hwf) (id_range _ _ Eid)) as [c Hc].
  apply wp_bind, wp_DI. apply wp_bind. eapply wp_tcb_get; [done|].
  destruct (decide (tskstat c = TTS_NOEXS)) as [E1|E1].
  { apply wp_leave. exists Q. split; [done|]. exists c. split; [done|].
    rewrite decide_False by (rewrite E1; by vm_compute). by rewrite decide_True. }
  destruct (decide (tskstat c <> TTS_DMT)) as [E2|E2].
  { apply wp_leave. exists Q. split; [done|]. exists c. split; [done|].
    rewrite decide_False by done. by rewrite decide_False. }
  assert (Hs : tskstat c = TTS_DMT) by (destruct (decide (tskstat c = TTS_DMT)); done).
  pose proof (fun P => wp_start_body (set_mie false k) Q t c stacd P (proj1 Hwf) Hc Hs) as W.
  match goal with |- wp _ ?P _ => set (Post := P) end.
  assert (Hfin : forall k1 Q', started k Q t c stacd k1 Q' ->
    Post E_OK (if decide (current k = None) then k1 else resched Q' k1)).
  { intros k1 Q' Hst. destruct (started_good k Q t c stacd k1 Q' Hwf Hc Hs Hst) as (Hi1 & Hs1 & Hc1).
    exists Q'. split.
    - case_decide as Ec; [|by apply resched_wf]. split; [done|]. split; [done|].
      intros u Hu. destruct Hst as (_ & L & m & _ & _ & _ & _ & ->). unfold with_lt in Hu. proj.
      congruence.
    - exists c. split; [done|]. rewrite decide_True by done. split; [done|]. by exists k1. }
  apply wp_bind, W. intros k1 Q' Hst. apply wp_bind, wp_gets. apply wp_bind.
  assert (Hst' : started k Q t c stacd (set_mie (mie k) k1) Q').
  { destruct Hst as (HQ & L & m & Hf & Ho & HL & HD & ->). split; [done|].
    exists L, m. repeat (split; [done|]). by destruct k. }
  destruct (started_good _ _ _ _ _ _ _ Hwf Hc Hs Hst') as (Hi1 & _ & _).
  specialize (Hfin _ _ Hst').
  assert (Ecur : current k1 = current k) by (by destruct Hst as (_ & L & m & _ & _ & _ & _ & ->)).
  assert (Em : mie k1 = false) by (by destruct Hst as (_ & L & m & _ & _ & _ & _ & ->)).
  rewrite Ecur. destruct (decide (current k = None)) as [Ec|Ec].
  - rewrite decide_False by (intros Hn; by apply Hn).
    apply wp_ret, wp_bind, wp_EI; [done|]. by apply wp_ret.
  - rewrite decide_True by done. eapply (wp_reschedule _ Q'); [exact Hi1|].
    apply wp_bind, wp_EI; [unfold resched; by case_decide|]. apply wp_ret.
    unfold resched in *. proj. by case_decide.
Qed.

(** C33: [tk_sta_tsk] on every branch: a refusal changes nothing; otherwise the task
    starts from a fresh frame, last on its ready queue, and once a task runs a
    switch is requested if another should run. *)
Theorem sta_tsk_spec k Q id stacd : wf k Q ->
  wp (tk_sta_tsk id stacd) (sta_tsk_post k Q id stacd) k.
Proof. apply wp_sta_tsk. Qed.

(** ** Leaving a task *)

(** A task that left: [h] is the list its control block went to, if any. *)
Definition left_task (k : kernel) (t : Z) (c' : TCB) (k' : kernel) (Q' : queues) : Prop :=
  tcbs k' = <[t := c']> (tcbs k) /\ msip k' = 1 /\ next k' = highest Q' /\
  current k' = Some t /\ mie k' = true /\ highest Q' <> Some t.

Lemma highest_not_in k Q t : inv k Q -> (forall i, ~ inq Q (LReady i) (LHead t)) ->
  highest Q <> Some t.
Proof.
  intros Hi Hn E. destruct (highest_ready k Q t Hi E) as (c & xs & _ & _ & Hq).
  apply (Hn (itskpri c - 1)). eexists. split; [done|by left].
Qed.

(** The settled state does not mind a task that leaves the ready queues. *)
Lemma settled_left k Q t c k' Q' c' :
  inv k Q -> running k Q t c -> settled k Q ->
  semcbs k' = semcbs k -> flgcbs k' = flgcbs k -> tcbs k' = <[t := c']> (tcbs k) ->
  (forall h, obj_head h \/ h = LTimer -> Q' !! h = without (LHead t) <$> Q !! h) ->
  settled k' Q'.
Proof.
  intros (Hr & _ & Ha) Hrun Hset ES EF ET HQ.
  eapply (settled_other_tcb k Q); try done.
  - intros h Ho. rewrite HQ by auto.
    destruct (Q !! h) as [ys|] eqn:E; [|done]. simpl. f_equal. apply without_notin.
    eapply notin_list; [|done]. by eapply head_notin_obj.
  - apply (run_nowhere _ _ _ _ Hrun).
  - intros u (xs & E & Hi). rewrite HQ in E by auto.
    destruct (Q !! LTimer) as [ys|] eqn:Ey; simplify_eq/=.
    apply elem_of_without in Hi as [Hne Hi]. split; [congruence|]. by exists ys.
Qed.

Lemma fatal_context {A} api k : exists k', @tkmc_fatal_context A api k = Halt k' /\
  last_context_failure (panics k') = (api, E_CTX) /\ mie k' = false /\
  tcbs k' = tcbs k /\ links k' = links k.
Proof. by eexists. Qed.

(** What [tk_ext_tsk] leaves, called by a task. *)
Definition ext_tsk_post k Q (r : call) (k' : kernel) : Prop :=
  r = Suspend K_ext /\ exists t c, current k = Some t /\
    tcbs k !! t = Some c /\ wf k' (qrm (LHead t) Q) /\
    left_task k t (set_tskwait 0 (set_tskstat TTS_DMT c)) k' (qrm (LHead t) Q).

Lemma wp_ext_tsk k Q : wf k Q -> quiet k -> may_block k = true ->
  wp tk_ext_tsk (ext_tsk_post k Q) k.
Proof.
  intros Hwf Hqt Eb.
  destruct (may_block_task k Eb) as [t Htask].
  destruct (task_running k Q t Hwf Hqt Htask) as (_ & c & Hrun).
  pose proof Htask as (Hm & Hcur & _). pose proof Hwf as ((Hr & Hn & Ha) & Hset & _).
  pose proof Hrun as [Hc Hs Ht Hrd Hal Hno Hp Hh].
  unfold tk_ext_tsk. apply wp_bind, wp_DI, wp_bind, wp_can_block. proj.
  rewrite <- may_block_saved, Eb. simpl.
  apply wp_bind. eapply wp_current_tcb; [done|].
  apply wp_bind. eapply wp_list_del; [exact Hr|exact Hrd|]. intros L HL HD. proj. upd_tcb.
  set (k1 := with_lt L (<[t:=set_tskwait 0 (set_tskstat TTS_DMT c)]> (tcbs k)) k).
  assert (Hi1 : inv k1 (qrm (LHead t) Q)).
  { split; [done|]. split; [by eapply nodes_ok_dom|].
    apply (ainv_drop _ _ _ _ _ Q t c); first [done|by left]. }
  apply wp_bind. eapply (wp_get_highest _ (qrm (LHead t) Q)); [exact Hi1|].
  apply wp_bind, wp_modify, wp_bind, wp_dispatch. rewrite Hm.
  apply wp_bind, wp_EI; [done|]. apply wp_ret. split; [done|]. exists t, c.
  split; [done|]. split; [done|]. split.
  - apply (dispatched_wf (set_mie true k1)); [done|].
    eapply (settled_left k Q t c); try done. intros h Hho.
    by rewrite lookup_qrm, decide_False by (destruct Hho as [Hho| ->]; [intros ->|]; done).
  - repeat (split; [done|]). eapply highest_not_in; [exact Hi1|].
    intros i Hi. by apply inq_qrm in Hi as (_ & ? & _).
Qed.

Lemma ext_tsk_cases k Q : wf k Q -> quiet k ->
  if may_block k then wp tk_ext_tsk (ext_tsk_post k Q) k
  else exists k', tk_ext_tsk k = Halt k' /\
    last_context_failure (panics k') = (TKMC_CONTEXT_EXT_TSK, E_CTX) /\ mie k' = false.
Proof.
  intros Hwf Hqt. destruct (may_block k) eqn:Eb; [by apply wp_ext_tsk|].
  unfold tk_ext_tsk. rewrite (run_bind DI _ k (saved (mie k)) (set_mie false k) eq_refl).
  rewrite (run_bind _ _ _ _ _ (can_block_run _ _)). proj.
  rewrite <- may_block_saved, Eb. by eexists.
Qed.

(** What [tk_exd_tsk] leaves, called by a task. *)
Definition exd_tsk_post k Q (r : call) (k' : kernel) : Prop :=
  r = Suspend K_ext /\ exists t c, current k = Some t /\
    tcbs k !! t = Some c /\ wf k' (qpush LFreeTcb (LHead t) Q) /\
    left_task k t (set_tskstat TTS_NOEXS c) k' (qpush LFreeTcb (LHead t) Q).

Lemma wp_exd_tsk k Q : wf k Q -> quiet k -> may_block k = true ->
  wp tk_exd_tsk (exd_tsk_post k Q) k.
Proof.
  intros Hwf Hqt Eb.
  destruct (may_block_task k Eb) as [t Htask].
  destruct (task_running k Q t Hwf Hqt Htask) as (_ & c & Hrun).
  pose proof Htask as (Hm & Hcur & _). pose proof Hwf as ((Hr & Hn & Ha) & Hset & _).
  pose proof Hrun as [Hc Hs Ht Hrd Hal Hno Hp Hh].
  assert (Hnf : ~ inq Q LFreeTcb (LHead t)) by (intros Hi; located).
  unfold tk_exd_tsk. apply wp_bind, wp_DI, wp_bind, wp_can_block. proj.
  rewrite <- may_block_saved, Eb. simpl.
  apply wp_bind. eapply wp_current_tcb; [done|].
  apply wp_bind. eapply wp_list_del; [exact Hr|exact Hrd|]. intros L HL HD. proj. upd_tcb.
  apply wp_bind. eapply wp_list_add_tail; [exact HL| | |done| |].
  { rewrite lookup_qrm, decide_False by done.
    destruct (ai_head _ _ _ _ _ _ Ha LFreeTcb I) as [? ->]. by eexists. }
  { by eapply loose_qrm. }
  { proj. rewrite HD. by apply Hn. }
  intros L2 HL2 HD2. proj. rewrite qpush_qrm in HL2 by done.
  set (k1 := with_lt L2 (<[t:=set_tskstat TTS_NOEXS c]> (tcbs k)) k).
  assert (Hi1 : inv k1 (qpush LFreeTcb (LHead t) Q)).
  { split; [done|]. split; [unfold k1, with_lt; proj; eapply nodes_ok_dom; [|exact Hn]; congruence|].
    apply (ainv_push _ _ _ _ _ Q t c); try done. apply task_none; try done.
    - unfold qpush. apply inq_qset. left. split; [done|]. apply elem_of_snoc. by right.
    - unfold alone, qpush. rewrite lookup_qset, 2!decide_False by done. by rewrite Hal. }
  apply wp_bind. eapply (wp_get_highest _ (qpush LFreeTcb (LHead t) Q)); [exact Hi1|].
  apply wp_bind, wp_modify, wp_bind, wp_dispatch. rewrite Hm.
  apply wp_bind, wp_EI; [done|]. apply wp_ret. split; [done|]. exists t, c.
  split; [done|]. split; [done|]. split.
  - apply (dispatched_wf (set_mie true k1)); [done|].
    eapply (settled_left k Q t c); try done. intros h Hho. unfold qpush.
    by rewrite lookup_qset, 2!decide_False
      by (destruct Hho as [Hho| ->]; [intros ->|]; done).
  - repeat (split; [done|]). eapply highest_not_in; [exact Hi1|].
    intros i Hi. unfold qpush in Hi. by apply inq_qset in Hi as [[? _]|(_ & _ & ? & _)].
Qed.

Lemma exd_tsk_cases k Q : wf k Q -> quiet k ->
  if may_block k then wp tk_exd_tsk (exd_tsk_post k Q) k
  else exists k', tk_exd_tsk k = Halt k' /\
    last_context_failure (panics k') = (TKMC_CONTEXT_EXD_TSK, E_CTX) /\ mie k' = false.
Proof.
  intros Hwf Hqt. destruct (may_block k) eqn:Eb; [by apply wp_exd_tsk|].
  unfold tk_exd_tsk. rewrite (run_bind DI _ k (saved (mie k)) (set_mie false k) eq_refl).
  rewrite (run_bind _ _ _ _ _ (can_block_run _ _)). proj.
  rewrite <- may_block_saved, Eb. by eexists.
Qed.

(** C34: [tk_ext_tsk] and [tk_exd_tsk]: from a running task the first leaves the
    task dormant on no queue, the second puts its block back on the free list, and
    both request a switch to the task to run; from any other context the system
    stops with the record of the failure and interrupts off. *)
Theorem exit_spec k Q : wf k Q -> quiet k ->
  if may_block k then wp tk_ext_tsk (ext_tsk_post k Q) k /\ wp tk_exd_tsk (exd_tsk_post k Q) k
  else
    (exists k', tk_ext_tsk k = Halt k' /\ mie k' = false /\
       last_context_failure (panics k') = (TKMC_CONTEXT_EXT_TSK, E_CTX)) /\
    (exists k', tk_exd_tsk k = Halt k' /\ mie k' = false /\
       last_context_failure (panics k') = (TKMC_CONTEXT_EXD_TSK, E_CTX)).
Proof.
  intros Hwf Hq. pose proof (ext_tsk_cases k Q Hwf Hq) as H1.
  pose proof (exd_tsk_cases k Q Hwf Hq) as H2. destruct (may_block k); [done|].
  destruct H1 as (k1 & E1 & ? & ?), H2 as (k2 & E2 & ? & ?). split; [by exists k1|by exists k2].
Qed.

(** ** The idle task *)

(** A ready task of the lowest priority that is the highest, and alone on its queue,
    is the only ready task. *)
Lemma only_ready k Q t c xs : inv k Q -> tcbs k !! t = Some c -> itskpri c = CFN_MAX_PRI ->
  ready_stat c -> Q !! LReady (CFN_MAX_PRI - 1) = Some xs ->
  (highest Q = Some t /\ xs = [LHead t] <->
   forall u cu, tcbs k !! u = Some cu -> ready_stat cu -> u = t).
Proof.
  intros Hi Hc Hp Hs Hxs. pose proof Hi as (Hr & _ & Ha).
  destruct (ready_in Ha t c Hc Hs) as (Hin & _).
  assert (Htx : LHead t ∈ xs) by (destruct Hin as (ys & E & ?); rewrite Hp in E; by simplify_eq).
  split.
  - intros [Hh Hx] u cu Hu Hsu.
    destruct (ready_in Ha u cu Hu Hsu) as ((ys & E' & Hiu) & _ & Hpu & _).
    destruct (decide (itskpri cu = CFN_MAX_PRI)) as [Ep|Ep].
    + rewrite Ep in E'. simplify_eq. by apply list_elem_of_singleton in Hiu; simplify_eq.
    + destruct (highest_level k Q t c Hi Hh Hc Hs) as [_ Hbelow].
      destruct (ready_looked k Q u cu Hi Hu Hsu) as [Hlu Hfu].
      unfold pri_ok in Hpu. rewrite Hbelow in Hfu by lia. by destruct Hfu.
  - intros Honly. assert (Hx : forall n, n ∈ xs -> n = LHead t).
    { intros n Hnx. destruct (member_ready Hr Ha (CFN_MAX_PRI - 1) n) as
        (u & cu & -> & _ & Hu & Hsu & _); [by exists xs|]. f_equal. by eapply Honly. }
    split.
    + destruct (highest_some_ready k Q Hi) as [u E']; [by exists t, c|].
      destruct (highest_ready k Q u Hi E') as (cu & zs & Hu & Hsu & _).
      rewrite E'. f_equal. by eapply Honly.
    + pose proof (rep_nodup _ _ _ _ Hr Hxs) as [_ Hnd]%NoDup_cons.
      destruct xs as [|x [|y ys]]; [by apply elem_of_nil in Htx|f_equal; apply Hx; by left|].
      exfalso. apply NoDup_cons in Hnd as [Hnin _]. apply Hnin.
      rewrite (Hx x) by (by left). rewrite (Hx y) by (right; by left). by left.
Qed.

(** [tkmc_idle_can_halt], asked by the ready task of the lowest priority. *)
Lemma idle_can_halt k Q t c : wf k Q -> current k = Some t ->
  tcbs k !! t = Some c -> itskpri c = CFN_MAX_PRI -> ready_stat c ->
  exists b, tkmc_idle_can_halt k = Ret b k /\
    (b = true <-> forall u cu, tcbs k !! u = Some cu -> ready_stat cu -> u = t).
Proof.
  intros (Hi & _ & _) Hcur Hc Hp Hs. pose proof Hi as (Hr & Hn & Ha).
  destruct (ready_in Ha t c Hc Hs) as (Hin & _).
  destruct (ai_head _ _ _ _ _ _ Ha (LReady (CFN_MAX_PRI - 1))) as [xs Hxs]; [done|].
  assert (Htx : LHead t ∈ xs) by (destruct Hin as (ys & E & ?); rewrite Hp in E; by simplify_eq).
  cut (wp tkmc_idle_can_halt (fun b k' => k' = k /\
    b = bool_decide (highest Q = Some t /\ xs = [LHead t])) k).
  { intros (b & k' & E & -> & ->)%wp_returns. eexists. split; [exact E|].
    rewrite bool_decide_eq_true. by eapply only_ready. }
  unfold tkmc_idle_can_halt. apply wp_bind. eapply wp_get_highest; [done|].
  apply wp_bind, wp_gets. rewrite Hcur. case_decide as E.
  - apply wp_bind. eapply wp_list_first; [exact Hr|exact Hxs|].
    apply wp_bind. eapply wp_list_last; [exact Hr|exact Hxs|]. apply wp_ret. split; [done|].
    apply bool_decide_ext. pose proof (rep_nodup _ _ _ _ Hr Hxs) as [_ Hnd]%NoDup_cons.
    destruct xs as [|x [|y ys]]; [by apply elem_of_nil in Htx| |].
    + apply list_elem_of_singleton in Htx as <-. simpl. tauto.
    + simpl. split; [|by intros [_ ?]]. intros Ex. exfalso.
      apply NoDup_cons in Hnd as [Hnin _]. apply Hnin. rewrite Ex. apply tail_of_in.
  - apply wp_ret. split; [done|]. rewrite bool_decide_false; [done|]. by intros [? _].
Qed.
