(* ===== verification/KernelTasks.v ===== *)
(** * The two tasks of the kernel

    The code of the initial task ([src/kernel/ini_tsk.c], with the weak default of
    [usermain.c]) and of the idle task ([src/kernel/asm/rv32/idl_tsk.S]), which the
    boot creates. *)

From S2P Require Import Prelude DList Tkernel Kernel Inv Moves Rules Wait Sched Task.

Open Scope Z_scope.
Implicit Types (k : kernel) (Q : queues).

(** ** The initial task *)

(** The code of the application, and its default. *)
Definition usermain_default (_a0 : Z) : K unit := ret tt.

Definition tkmc_ini_tsk (usermain : Z -> K unit) (stacd exinf0 : Z) : K call :=
  usermain stacd ;;;
  tk_exd_tsk.

(** When the application returns from [usermain], in the initial task, the task is
    gone and its block is free. *)
Lemma wp_ini_tsk usermain stacd exinf0 k (Phi : call -> kernel -> Prop) :
  wp (usermain stacd) (fun _ k1 => exists Q1, wf k1 Q1 /\ quiet k1 /\ may_block k1 = true /\
    forall r k', exd_tsk_post k1 Q1 r k' -> Phi r k') k ->
  wp (tkmc_ini_tsk usermain stacd exinf0) Phi k.
Proof.
  intros H. apply wp_bind. eapply wp_mono; [exact H|].
  intros [] k1 (Q1 & Hwf & Hq & Hm & HP). eapply wp_mono; [by apply (wp_exd_tsk k1 Q1)|exact HP].
Qed.

(** ** The idle task *)

(** [csrs mstatus, v], of which the model sees the bit MIE. *)
Definition csrs_mstatus (v : Z) : K unit :=
  modify (fun k => set_mie (mie k || negb (bool_decide (Z.land v MSTATUS_MIE = 0))) k).

(** [wfi] waits until an interrupt is pending. It changes no register; that the
    hart executes it, and with the interrupts on or off, goes to the machine's log. *)
Definition wfi : K unit := modify (fun k => set_wfi_log (mie k :: wfi_log k) k).

(** One round of the loop up to the call of [tkmc_yield]. *)
Definition tkmc_idl_tsk : K unit :=
  s0 <- DI ;;
  a0 <- tkmc_idle_can_halt ;;
  (if (a0 : bool) then wfi else ret tt) ;;;
  csrs_mstatus (Z.land s0 8).

Lemma csrs_restores b k : csrs_mstatus (Z.land (saved b) 8) (set_mie false k) =
  Ret tt (set_mie b k).
Proof. by destruct b. Qed.

(** The idle task executes [wfi] exactly if no other task is ready, with the
    interrupts off since before it asked; the flag is put back. *)
Lemma idle_round k Q t c : wf k Q -> current k = Some t -> tcbs k !! t = Some c ->
  itskpri c = CFN_MAX_PRI -> ready_stat c ->
  exists b, tkmc_idle_can_halt (set_mie false k) = Ret b (set_mie false k) /\
    tkmc_idl_tsk k = Ret tt (set_wfi_log (if b then false :: wfi_log k else wfi_log k) k) /\
    (b = true <-> forall u cu, tcbs k !! u = Some cu -> ready_stat cu -> u = t).
Proof.
  intros Hwf Hcur Hc Hp Hs.
  destruct (idle_can_halt (set_mie false k) Q t c) as (b & E & Hb); try done.
  exists b. split; [exact E|]. split; [|exact Hb]. unfold tkmc_idl_tsk.
  rewrite (run_bind DI _ k (saved (mie k)) (set_mie false k) eq_refl).
  rewrite (run_bind _ _ _ _ _ E). destruct b.
  - assert (W : wfi (set_mie false k) =
      Ret tt (set_mie false (set_wfi_log (false :: wfi_log k) k))) by done.
    rewrite (run_bind _ _ _ _ _ W), csrs_restores. by destruct k.
  - rewrite (run_bind (ret tt) _ _ tt (set_mie false k) eq_refl), csrs_restores.
    by destruct k.
Qed.
