(* ===== verification/Semaphore.v ===== *)
(** * Semaphores: [src/kernel/semaphore.c] *)

From S2P Require Import Prelude DList Tkernel Kernel Inv Moves Rules Wait Sched Timer Block.

Open Scope Z_scope.

Definition tkmc_init_semcb : K unit :=
  list_init LFreeSem ;;;
  for_range (Z.to_nat CFN_MAX_SEMID) 0 (fun i =>
    sem_upd i (fun _ => mk_SEMCB (i32 (Z.lor (i + 1) NOEXS_MASK)) 0 0 0 0) ;;;
    list_init (LSem i) ;;;
    list_add_tail (LSem i) LFreeSem).

Definition VALID_SEMATR := Z.lor TA_TFIFO (Z.lor TA_TPRI (Z.lor TA_CNT TA_FIRST)).

Definition cre_sem_error (p : T_CSEM) : option Z :=
  if decide (Z.land (cs_sematr p) (not32 VALID_SEMATR) <> 0) then Some E_RSATR
  else if decide (cs_maxsem p < 1 \/ TK_SEMAPHORE_MAXCNT < cs_maxsem p \/
                  cs_isemcnt p < 0 \/ cs_maxsem p < cs_isemcnt p) then Some E_PAR
  else None.

Definition tk_cre_sem (pk_csem : option T_CSEM) : K Z :=
  match pk_csem with
  | None => ret E_PAR
  | Some p =>
    match cre_sem_error p with
    | Some e => ret e
    | None =>
      intsts <- DI ;;
      empty <- list_empty LFreeSem ;;
      new_semid <- (if negb empty then
        n <- list_next LFreeSem ;;
        s <- semcb_of n ;;
        list_del (LSem s) ;;;
        list_init (LSem s) ;;;
        sc <- sem_get s ;;
        let id := i32 (Z.land (u32 (semid sc)) (not32 NOEXS_MASK)) in
        sem_upd s (set_semid id) ;;;
        sem_upd s (set_sem_exinf (cs_exinf p)) ;;;
        sem_upd s (set_sematr (cs_sematr p)) ;;;
        sem_upd s (set_semcnt (cs_isemcnt p)) ;;;
        sem_upd s (set_maxsem (cs_maxsem p)) ;;;
        ret id
      else ret E_LIMIT) ;;
      EI intsts ;;;
      ret new_semid
    end
  end.

(** Into the wait queue, with [tkmc_list_for_each_entry_safe]. *)
Definition sem_enqueue (t s atr : Z) : K unit :=
  enqueue list_for_each_entry_safe t atr (LSem s).

(** Whether a request for [cnt] units may take them at once. *)
Definition sem_may_take (t s cnt : Z) : K bool :=
  sc <- sem_get s ;;
  if bool_decide (semcnt sc < cnt) then ret false
  else
    empty <- list_empty (LSem s) ;;
    if negb empty && bool_decide (Z.land (sematr sc) TA_CNT = 0) then
      n <- list_next (LSem s) ;;
      h <- tcb_of_wait n ;;
      ch <- tcb_get h ;;
      c <- tcb_get t ;;
      ret (bool_decide (Z.land (sematr sc) TA_TPRI <> 0) &&
           bool_decide (itskpri c < itskpri ch))
    else ret true.

Definition tk_wai_sem (semid0 cnt tmout : Z) : K call :=
  if negb (tkmc_id_in_range semid0 CFN_MAX_SEMID) then ret (Return E_ID)
  else if decide (cnt <= 0 \/ tmout < TMO_FEVR) then ret (Return E_PAR)
  else
    let s := semid0 - 1 in
    intsts <- DI ;;
    can <- tkmc_can_block intsts ;;
    if negb can then EI intsts ;;; ret (Return E_CTX)
    else
      sc <- sem_get s ;;
      if no_exist (semid sc) then EI intsts ;;; ret (Return E_NOEXS)
      else if decide (maxsem sc < cnt) then EI intsts ;;; ret (Return E_PAR)
      else
        t <- current_tcb ;;
        may_take <- sem_may_take t s cnt ;;
        if (may_take : bool) then
          left <- int_op (semcnt sc - cnt) ;;
          sem_upd s (set_semcnt left) ;;;
          EI intsts ;;;
          ret (Return E_OK)
        else if decide (tmout = TMO_POL) then EI intsts ;;; ret (Return E_TMOUT)
        else
          tcb_upd t (set_winfo (WSemaphore cnt s)) ;;;
          sem_enqueue t s (sematr sc) ;;;
          (if decide (0 < tmout) then
             tkmc_schedule_timer t (tkmc_ms_to_ticks tmout) TTW_SEM
           else wait_forever t TTW_SEM) ;;;
          EI intsts ;;;
          ret (Suspend K_sem).

Definition tk_wai_sem_resume : K Z :=
  intsts <- DI ;;
  ercd <- take_wupcause ;;
  EI intsts ;;;
  ret ercd.

Definition tk_sig_sem (semid0 cnt : Z) : K Z :=
  if negb (tkmc_id_in_range semid0 CFN_MAX_SEMID) then ret E_ID
  else if decide (cnt <= 0) then ret E_PAR
  else
    let s := semid0 - 1 in
    intsts <- DI ;;
    sc <- sem_get s ;;
    if no_exist (semid sc) then EI intsts ;;; ret E_NOEXS
    else
      room <- int_op (maxsem sc - semcnt sc) ;;
      if decide (room < cnt) then EI intsts ;;; ret E_QOVR
      else
        total <- int_op (semcnt sc + cnt) ;;
        sem_upd s (set_semcnt total) ;;;
        tkmc_sem_serve_waiters s ;;;
        reschedule ;;;
        EI intsts ;;;
        ret E_OK.

(** The loop of [tk_del_sem]: whether it released a task. *)
Fixpoint release_all (fuel : nat) (hd : link) (released : bool) : K bool :=
  match fuel with
  | O => hang
  | S fuel =>
    empty <- list_empty hd ;;
    if (empty : bool) then ret released
    else
      n <- list_next hd ;;
      t <- tcb_of_wait n ;;
      tkmc_complete_wait t E_DLT ;;;
      release_all fuel hd true
  end.

Definition tk_del_sem (semid0 : Z) : K Z :=
  if negb (tkmc_id_in_range semid0 CFN_MAX_SEMID) then ret E_ID
  else
    let s := semid0 - 1 in
    intsts <- DI ;;
    sc <- sem_get s ;;
    if no_exist (semid sc) then EI intsts ;;; ret E_NOEXS
    else
      fuel <- gets walk_fuel ;;
      released <- release_all fuel (LSem s) false ;;
      sem_upd s (fun sc => set_semid (i32 (Z.lor (u32 (semid sc)) NOEXS_MASK)) sc) ;;;
      sem_upd s (set_sem_exinf 0) ;;;
      sem_upd s (set_sematr 0) ;;;
      sem_upd s (set_semcnt 0) ;;;
      sem_upd s (set_maxsem 0) ;;;
      list_add_tail (LSem s) LFreeSem ;;;
      (if (released : bool) then reschedule else ret tt) ;;;
      EI intsts ;;;
      ret E_OK.

Implicit Types (k : kernel) (Q : queues) (t : Z) (h n : link).

(** ** Looking up a semaphore *)

Lemma sem_here k Q id : inv k Q -> tkmc_id_in_range id CFN_MAX_SEMID = true ->
  0 <= id - 1 < CFN_MAX_SEMID /\ exists sc, semcbs k !! (id - 1) = Some sc /\
    ((no_exist (semid sc) = false /\ semid sc = id - 1 + 1 /\
        exists ws, Q !! LSem (id - 1) = Some ws /\ sem_live (tcbs k) sc ws) \/
     (no_exist (semid sc) = true /\ semid sc = noexs_id (id - 1) /\
        inq Q LFreeSem (LSem (id - 1)))).
Proof.
  intros (_ & _ & Ha) Hid.
  assert (Hr : 0 <= id - 1 < CFN_MAX_SEMID).
  { unfold tkmc_id_in_range in Hid. rewrite andb_true_iff, !bool_decide_eq_true in Hid. lia. }
  split; [done|]. destruct (ai_sem _ _ _ _ _ _ Ha _ Hr) as (sc & Hs & Hok).
  exists sc. split; [done|].
  destruct (id_bits_ok (id - 1)) as (_ & Hb1 & Hb2 & _); [unfold CFN_MAX_SEMID in Hr; lia|].
  destruct Hok as [(E & ws & Hq & Hl)|(E & Hi)]; rewrite E; [left|right].
  - split; [done|]. split; [done|]. by exists ws.
  - done.
Qed.

(** ** [tk_cre_sem] *)

Lemma cre_sem_error_none p : cre_sem_error p = None ->
  1 <= cs_maxsem p <= TK_SEMAPHORE_MAXCNT /\ 0 <= cs_isemcnt p <= cs_maxsem p.
Proof. unfold cre_sem_error. intros H. repeat case_decide; try done. lia. Qed.

Definition created_sem (s : Z) (p : T_CSEM) : SEMCB :=
  mk_SEMCB (s + 1) (cs_exinf p) (cs_sematr p) (cs_isemcnt p) (cs_maxsem p).

(** The updates of one semaphore, one after the other. *)
Ltac upd_sem :=
  repeat (apply wp_bind; eapply wp_sem_upd; [first [eassumption | apply lookup_insert_eq]|]; proj);
  rewrite ?insert_insert_eq.

(** A semaphore that appears: nothing else changes. *)
Lemma created_sem_wf k Q s sc p L :
  wf k Q -> 0 <= s < CFN_MAX_SEMID -> semcbs k !! s = Some sc -> inq Q LFreeSem (LSem s) ->
  1 <= cs_maxsem p <= TK_SEMAPHORE_MAXCNT -> 0 <= cs_isemcnt p <= cs_maxsem p ->
  let Q' := <[LSem s := []]> (qrm (LSem s) Q) in
  rep L Q' -> dom L = dom (links k) ->
  wf (set_semcbs (<[s := created_sem s p]> (semcbs k)) (set_links L k)) Q'.
Proof.
  intros (Hi & Hset & Hsch) Hrange Hs Hin Hmax Hini Q' HL HD.
  pose proof Hi as (Hr & Hn & Ha).
  assert (Hobj : (exists s', LSem s = LSem s') \/ (exists f, LSem s = LFlg f) \/
    (exists mb, LSem s = LMbx mb)) by eauto.
  assert (Hlk : forall h, obj_head h -> h <> LSem s -> Q' !! h = Q !! h).
  { intros h Ho Hne. by apply (lookup_obj_new Ha Hobj). }
  split; [|split; [split; [split|]|]].
  - split; [done|]. split; [by eapply nodes_ok_dom|]. proj.
    apply (ainv_obj Ha Hobj).
    + apply moved_obj_new. by eapply rep_inq_no_head.
    + done.
    + intros h Hx. by apply inq_obj_new in Hx.
    + intros s' Hr'. destruct (decide (s' = s)) as [->|Hne].
      * right. rewrite lookup_insert_eq. eexists. split; [done|]. left. split; [done|].
        exists []. split; [apply lookup_insert_eq|]. split; [done|]. split; [done|].
        split; [|done]. intros _. constructor.
      * left. rewrite lookup_insert_ne by done. split; [done|]. congruence.
    + intros f _. by left.
    + intros mb _. by left.
  - intros s' sc' Hs'. proj. destruct (decide (s' = s)) as [->|Hne].
    + intros ws _ Hq. unfold Q' in Hq. rewrite lookup_insert_eq in Hq. simplify_eq.
      case_decide; [|constructor]. by intros n Hn'.
    + rewrite lookup_insert_ne in Hs' by done. destruct Hset as [[HS _] _].
      eapply (sem_settled_same (tcbs k) _ Q); [apply Hlk; [done|congruence]|done|by apply HS].
  - destruct Hset as [[_ HF] _]. intros f fc Hf ws Hid Hq. rewrite Hlk in Hq by done.
    by apply (HF f fc Hf).
  - by apply (new_obj_timers Hi Hobj), Hset.
  - by apply (new_obj_sched Hi Hobj).
Qed.

(** What [tk_cre_sem] gives and leaves. *)
Definition cre_sem_post k Q pk (r : Z) (k' : kernel) : Prop :=
  exists Q', wf k' Q' /\
    match pk with
    | None => r = E_PAR /\ k' = k
    | Some p =>
      match cre_sem_error p with
      | Some e => r = e /\ k' = k
      | None =>
        match Q !! LFreeSem with
        | Some (LSem s :: _) => r = s + 1 /\ exists L,
            k' = set_semcbs (<[s := created_sem s p]> (semcbs k)) (set_links L k) /\
            Q' = <[LSem s := []]> (qrm (LSem s) Q)
        | _ => r = E_LIMIT /\ k' = k
        end
      end
    end.

Lemma wp_cre_sem k Q pk : wf k Q ->
  wp (tk_cre_sem pk) (cre_sem_post k Q pk) k.
Proof.
  unfold cre_sem_post.
  intros Hwf. unfold tk_cre_sem. destruct pk as [p|]; [|apply wp_ret; by exists Q].
  destruct (cre_sem_error p) as [e|] eqn:Ee; [apply wp_ret; by exists Q|].
  destruct (cre_sem_error_none p Ee) as [Hmax Hini].
  pose proof Hwf as ((Hr & Hn & Ha) & _).
  destruct (ai_head _ _ _ _ _ _ Ha LFreeSem I) as [fr Hfr].
  apply wp_bind, wp_DI. apply wp_bind. eapply wp_list_empty; [exact Hr|done|].
  rewrite Hfr. destruct fr as [|n fr].
  { rewrite bool_decide_true by done. apply wp_bind, wp_ret, wp_leave. by exists Q. }
  rewrite bool_decide_false by done. cbn [negb].
  assert (Hin : inq Q LFreeSem n) by (exists (n :: fr); split; [done|by left]).
  pose proof (ai_kind _ _ _ _ _ _ Ha _ _ Hin) as Hk. destruct n as [| | | | | | | | | |s| | | |]; try done.
  destruct (ai_sem _ _ _ _ _ _ Ha s Hk) as (sc & Hs & Hok).
  assert (Hid : semid sc = noexs_id s).
  { destruct Hok as [(_ & ws & E & _)|[? _]]; [|done].
    pose proof (rep_inq_no_head _ _ _ _ Hr Hin). congruence. }
  apply wp_bind, wp_bind. eapply wp_list_first; [exact Hr|done|]. simpl.
  apply wp_bind, wp_ret. apply wp_bind. eapply wp_list_del; [exact Hr|exact Hin|].
  intros L1 HL1 HD1. proj. apply wp_bind. eapply wp_list_init; [exact HL1| | |].
  { intros h Hx. by apply inq_qrm in Hx as (_ & ? & _). }
  { proj. rewrite HD1. by apply Hn. }
  intros L2 HL2 HD2. proj. apply wp_bind. eapply wp_sem_get; [done|]. upd_sem.
  destruct (id_bits_ok s) as (_ & _ & _ & Hb & _); [unfold kind_ok, CFN_MAX_SEMID in Hk; lia|].
  rewrite Hid, Hb. apply wp_ret. apply wp_bind, wp_EI; [done|]. apply wp_ret.
  set (k' := set_semcbs (<[s := created_sem s p]> (semcbs k)) (set_links L2 k)).
  match goal with |- exists Q', wf ?kk Q' /\ _ =>
    assert (Ek : kk = k') by (unfold k'; clear; destruct k; reflexivity) end.
  rewrite Ek. exists (<[LSem s := []]> (qrm (LSem s) Q)). split.
  - eapply created_sem_wf; try done. congruence.
  - split; [done|]. by exists L2.
Qed.

(** ** [tk_wai_sem] *)

(** Whether a request for [cnt] units of the running task may be met at once:
    there are so many, and either nobody waits, or the semaphore is [TA_CNT],
    or the task is ahead of the first waiter. *)
Definition may_take (T : gmap Z TCB) (sc : SEMCB) (ws : list link) (c : TCB) (cnt : Z) : bool :=
  bool_decide (cnt <= semcnt sc) &&
  match ws with
  | [] => true
  | n :: _ => negb (bool_decide (Z.land (sematr sc) TA_CNT = 0)) ||
      (bool_decide (Z.land (sematr sc) TA_TPRI <> 0) && bool_decide (itskpri c < wpri T n))
  end.

Lemma wp_sem_may_take k Q t c s sc ws cnt (Phi : bool -> kernel -> Prop) :
  inv k Q -> semcbs k !! s = Some sc -> Q !! LSem s = Some ws -> tcbs k !! t = Some c ->
  Phi (may_take (tcbs k) sc ws c cnt) k -> wp (sem_may_take t s cnt) Phi k.
Proof.
  intros Hi Hs Hq Hc H. pose proof Hi as (Hr & _ & Ha). unfold sem_may_take, may_take in *.
  apply wp_bind. eapply wp_sem_get; [done|]. destruct (decide (semcnt sc < cnt)) as [Hlt|Hlt].
  { rewrite (bool_decide_true (_ < _)) by done. apply wp_ret.
    by rewrite bool_decide_false in H by lia. }
  rewrite (bool_decide_false (_ < _)) by done.
  rewrite bool_decide_true in H by lia. simpl in H.
  apply wp_bind. eapply wp_list_empty; [exact Hr|exact Hq|]. destruct ws as [|n ws].
  { rewrite bool_decide_true by done. by apply wp_ret. }
  rewrite bool_decide_false by done. simpl.
  destruct (waiter_sem Hr Ha s n) as (u & cu & req & -> & _ & Hcu & _).
  { exists (n :: ws). split; [done|by left]. }
  assert (Hw : wpri (tcbs k) (LWait u) = itskpri cu) by (unfold wpri, waiter; by rewrite Hcu).
  rewrite Hw in H. destruct (bool_decide (Z.land (sematr sc) TA_CNT = 0)); simpl in *.
  - apply wp_bind. eapply wp_list_first; [exact Hr|exact Hq|]. apply wp_bind, wp_ret.
    apply wp_bind. eapply wp_tcb_get; [done|]. apply wp_bind. eapply wp_tcb_get; [done|].
    by apply wp_ret.
  - by apply wp_ret.
Qed.

(** The semaphore with a new waiter: it could not take its units, and whoever
    is first now was refused. *)
Lemma sem_join_settled k Q t c s sc xs ys cnt k1 timed w d :
  wf k Q -> running k Q t c -> semcbs k !! s = Some sc -> Q !! LSem s = Some (xs ++ ys) ->
  semid sc = s + 1 ->
  placed (tcbs k) (sematr sc) t xs ys -> may_take (tcbs k) sc (xs ++ ys) c cnt = false ->
  tcbs k1 = <[t := queued (WSemaphore cnt s) w d c]> (tcbs k) ->
  sem_settled (tcbs k1) (q_block t timed (q_wait (LSem s) xs ys t Q)) s sc.
Proof.
  intros Hwf Hrun Hs Hq Hid Hp Hmt HT ws _ Hws.
  rewrite (others_lookup (h := LSem s) Hwf Hrun I Hq), decide_True in Hws by done. injection Hws as <-.
  assert (Hreq : wreq (tcbs k1) (LWait t) = cnt).
  { unfold wreq, waiter. by rewrite HT, lookup_insert_eq. }
  assert (Hsame : forall n, n ∈ xs ++ ys -> wreq (tcbs k1) n = wreq (tcbs k) n).
  { intros n Hn. eapply wreq_same, (others_wait Hrun HT (LSem s)). by exists (xs ++ ys). }
  destruct Hwf as (_ & [[HS _] _] & _). specialize (HS s sc Hs (xs ++ ys) Hid Hq).
  unfold may_take in Hmt. case_decide as Ea.
  - rewrite (bool_decide_true (Z.land (sematr sc) TA_CNT = 0)) in Hmt by done. simpl in Hmt.
    intros n Hn. destruct xs as [|x xs]; simpl in *.
    + injection Hn as <-. rewrite Hreq. destruct (decide (cnt <= semcnt sc)) as [Hle|]; [exfalso|lia].
      rewrite bool_decide_true in Hmt by done. simpl in Hmt. unfold placed in Hp.
      destruct ys as [|y ys]; [done|]. case_decide as Et; [done|].
      destruct Hp as [_ [Hy _]%Forall_cons].
      assert (Hpw : wpri (tcbs k) (LWait t) = itskpri c).
      { unfold wpri, waiter. by rewrite (run_tcb _ _ _ _ Hrun). }
      rewrite Hpw in Hy. rewrite bool_decide_true, bool_decide_true in Hmt by done. done.
    + injection Hn as <-. rewrite Hsame by (by left). by apply HS.
  - rewrite (bool_decide_false (Z.land (sematr sc) TA_CNT = 0)) in Hmt by done. simpl in Hmt.
    assert (Hlt : semcnt sc < cnt).
    { destruct (decide (cnt <= semcnt sc)); [|lia]. rewrite bool_decide_true in Hmt by done.
      by destruct (xs ++ ys). }
    rewrite Forall_app in HS. rewrite Forall_app, Forall_cons, Hreq. destruct HS as [Hx Hy].
    rewrite !Forall_forall in *. split; [|split; [done|]].
    + intros n Hn. rewrite Hsame by (apply elem_of_app; by left). by apply Hx.
    + intros n Hn. rewrite Hsame by (apply elem_of_app; by right). by apply Hy.
Qed.

Lemma sem_join_ok k Q t c s sc xs ys cnt timed :
  wf k Q -> running k Q t c -> semcbs k !! s = Some sc -> Q !! LSem s = Some (xs ++ ys) ->
  semid sc = s + 1 -> 0 <= s < CFN_MAX_SEMID -> 1 <= cnt <= maxsem sc ->
  placed (tcbs k) (sematr sc) t xs ys -> may_take (tcbs k) sc (xs ++ ys) c cnt = false ->
  join_ok (k := k) (Q := Q) (t := t) (c := c) (h := LSem s) (xs := xs) (ys := ys)
    (w := TTW_SEM) (wi := WSemaphore cnt s) timed.
Proof.
  intros Hwf Hrun Hs Hq Hid Hrange Hcnt Hp Hmt d L Hd HL HD k1.
  pose proof Hwf as ((Hr & Hn & Ha) & _). split.
  - split; [done|]. split; [by eapply nodes_ok_dom|]. unfold k1, with_lt. proj.
    eapply (ainv_join_sem Ha (run_tcb _ _ _ _ Hrun)); try done.
    + apply (run_nowhere _ _ _ _ Hrun).
    + apply (run_pri _ _ _ _ Hrun).
  - assert (HT : tcbs k1 = <[t := queued (WSemaphore cnt s) TTW_SEM d c]> (tcbs k)) by done.
    split.
    + intros s' sc' Hs'. destruct (decide (s' = s)) as [->|Hne].
      * assert (sc' = sc) as -> by (unfold k1, with_lt in Hs'; proj; congruence).
        by eapply sem_join_settled.
      * eapply (others_sem (h := LSem s) Hwf Hrun I Hq HT); [congruence|exact Hs'].
    + intros f fc Hf. eapply (others_flg (h := LSem s) Hwf Hrun I Hq HT); [done|exact Hf].
Qed.

(** Units go. *)
Lemma take_wf k Q s sc ws cnt :
  wf k Q -> 0 <= s < CFN_MAX_SEMID -> semcbs k !! s = Some sc -> semid sc = s + 1 ->
  Q !! LSem s = Some ws -> 0 <= cnt <= semcnt sc ->
  wf (set_semcbs (<[s := set_semcnt (semcnt sc - cnt) sc]> (semcbs k)) k) Q.
Proof.
  intros (Hi & [[HS HF] HT] & Hsch) Hrange Hs Hid Hq Hcnt.
  split; [by eapply inv_sem_cnt; try done; lia|]. split; [split; [split|done]|done]; [|done].
  intros s' sc' Hs'. proj. destruct (decide (s' = s)) as [->|Hne].
  - rewrite lookup_insert_eq in Hs'. simplify_eq. intros ws' _ Hq'. simplify_eq.
    specialize (HS s sc Hs ws Hid Hq). simpl. case_decide.
    + intros n Hn. specialize (HS n Hn). lia.
    + eapply Forall_impl; [exact HS|]. simpl. lia.
  - rewrite lookup_insert_ne in Hs' by done. by apply HS.
Qed.

Lemma waiters_tcbs k Q s ws : inv k Q -> Q !! LSem s = Some ws ->
  forall n, n ∈ ws -> exists u cu, n = LWait u /\ tcbs k !! u = Some cu.
Proof.
  intros (Hr & _ & Ha) Hq n Hn.
  destruct (waiter_sem Hr Ha s n) as (u & cu & req & -> & _ & Hcu & _); [by exists ws|]. eauto.
Qed.

(** What [tk_wai_sem] gives and leaves. *)
Definition wai_sem_post k Q id cnt tmout (r : call) (k' : kernel) : Prop :=
  exists Q', wf k' Q' /\ mie k' = mie k /\
    if negb (tkmc_id_in_range id CFN_MAX_SEMID) then r = Return E_ID /\ k' = k
    else if decide (cnt <= 0 \/ tmout < TMO_FEVR) then r = Return E_PAR /\ k' = k
    else if negb (may_block k) then r = Return E_CTX /\ k' = k
    else let s := id - 1 in
      exists t c sc, current k = Some t /\ tcbs k !! t = Some c /\ semcbs k !! s = Some sc /\
      if no_exist (semid sc) then r = Return E_NOEXS /\ k' = k
      else if decide (maxsem sc < cnt) then r = Return E_PAR /\ k' = k
      else exists ws, Q !! LSem s = Some ws /\
        if may_take (tcbs k) sc ws c cnt then r = Return E_OK /\ Q' = Q /\
          k' = set_semcbs (<[s := set_semcnt (semcnt sc - cnt) sc]> (semcbs k)) k
        else if decide (tmout = TMO_POL) then r = Return E_TMOUT /\ k' = k
        else r = Suspend K_sem /\ exists xs ys, ws = xs ++ ys /\
          placed (tcbs k) (sematr sc) t xs ys /\
          waits_in (k := k) (Q := Q) (t := t) (c := c) (h := LSem s) (xs := xs) (ys := ys)
            (w := TTW_SEM) (wi := WSemaphore cnt s) (ticks := tkmc_ms_to_ticks tmout)
            (bool_decide (0 < tmout)) k' Q'.

Lemma wp_wai_sem k Q id cnt tmout :
  wf k Q -> quiet k -> timer_in_reach k -> is_i32 cnt -> is_i32 tmout ->
  wp (tk_wai_sem id cnt tmout) (wai_sem_post k Q id cnt tmout) k.
Proof.
  unfold wai_sem_post.
  intros Hwf Hqt Hreach Hc32 Ht32. unfold tk_wai_sem.
  destruct (tkmc_id_in_range id CFN_MAX_SEMID) eqn:Eid; cbn [negb].
  2:{ apply wp_ret. by exists Q. }
  destruct (decide (cnt <= 0 \/ tmout < TMO_FEVR)) as [Ep|Ep]; [apply wp_ret; by exists Q|].
  apply wp_bind, wp_DI, wp_may_block; [intros ->; apply wp_leave; by exists Q|].
  intros t -> Htask. destruct (task_running k Q t Hwf Hqt Htask) as (Hm0 & c & Hrun).
  pose proof Htask as (Hm & Hcur & Hisr). pose proof (run_tcb _ _ _ _ Hrun) as Hc.
  pose proof Hwf as (Hi & _). pose proof Hi as (Hr & Hn & Ha).
  destruct (sem_here k Q id Hi Eid) as (Hrange & sc & Hs & Hcase). set (s := id - 1) in *.
  apply wp_bind. eapply wp_sem_get; [exact Hs|].
  destruct Hcase as [(Hex & Hid & ws & Hq & Hl)|(Hex & _ & _)].
  2:{ rewrite Hex. apply wp_leave. exists Q. split; [done|]. split; [done|].
      exists t, c, sc. by rewrite Hex. }
  rewrite Hex. destruct Hl as (Hcnt & Hmax & Hord & Hreq).
  destruct (decide (maxsem sc < cnt)) as [Emx|Emx].
  { apply wp_leave. exists Q. split; [done|]. split; [done|].
    exists t, c, sc. rewrite Hex, decide_True by done. done. }
  apply wp_bind. eapply wp_current_tcb; [done|]. apply wp_bind.
  eapply (wp_sem_may_take (set_mie false k) Q t c s sc ws); [exact Hi|exact Hs|exact Hq|exact Hc|].
  proj. destruct (may_take (tcbs k) sc ws c cnt) eqn:Emt.
  { assert (Hle : cnt <= semcnt sc).
    { unfold may_take in Emt. apply andb_prop in Emt as [?%bool_decide_eq_true _]. done. }
    apply wp_bind, wp_int_op.
    { unfold is_i32, TK_SEMAPHORE_MAXCNT in *. lia. }
    apply wp_bind. eapply wp_sem_upd; [exact Hs|]. apply wp_bind, wp_EI; [done|]. apply wp_ret.
    exists Q. split; [eapply (take_wf k Q s sc ws cnt); try done; lia|]. split; [done|].
    exists t, c, sc. rewrite Hex, decide_False by done. repeat (split; [done|]).
    exists ws. rewrite Emt. split; [done|]. split; [done|]. split; [done|]. by destruct k. }
  destruct (decide (tmout = TMO_POL)) as [Epol|Epol].
  { apply wp_leave. exists Q. split; [done|]. split; [done|]. exists t, c, sc.
    rewrite Hex, decide_False by done. repeat (split; [done|]). exists ws. by rewrite Emt. }
  apply (wp_enqueue_wait (h := LSem s) (ws := ws) Hwf Htask Hrun Hreach I Hq Ht32);
    [|exact for_each_safe_scans|by eapply waiters_tcbs|exact Hord|].
  { intros xs ys -> Hpl timed. eapply sem_join_ok; try done. lia. }
  intros k' Q' Hwf' Hm' Hw. exists Q'. split; [done|]. split; [done|].
  exists t, c, sc. rewrite Hex, decide_False by done. repeat (split; [done|]).
  exists ws. by rewrite Emt.
Qed.

(** C15: [tk_wai_sem] on every branch: the errors change nothing, a request that may
    be met takes its units, a poll times out, and otherwise the caller is queued at
    its place by arrival or by priority, waits with or without a time limit, and the
    next task is chosen; the state stays well formed. *)
Theorem wai_sem_spec k Q id cnt tmout :
  wf k Q -> quiet k -> timer_in_reach k -> is_i32 cnt -> is_i32 tmout ->
  wp (tk_wai_sem id cnt tmout) (wai_sem_post k Q id cnt tmout) k.
Proof. apply wp_wai_sem. Qed.

(** ** [tk_sig_sem] *)

(** More units, before anybody is served. *)
Lemma inv_sem_add k Q s sc ws cnt :
  inv k Q -> 0 <= s < CFN_MAX_SEMID -> semcbs k !! s = Some sc -> semid sc = s + 1 ->
  Q !! LSem s = Some ws -> 0 <= cnt <= maxsem sc ->
  inv (set_semcbs (<[s := set_semcnt cnt sc]> (semcbs k)) k) Q.
Proof.
  intros Hi Hrange Hs Hid Hq Hcnt. pose proof (sem_facts _ _ _ _ _ Hi Hrange Hs Hid Hq) as Hl.
  destruct Hi as (Hr & Hn & Ha). split; [done|]. split; [done|]. proj.
  apply ainv_set_sem; [done|]. intros _. left. split; [done|]. exists ws. split; [done|].
  destruct Hl as (_ & H2 & H3 & H4). split; [exact Hcnt|]. split; [exact H2|]. by split.
Qed.

(** The units arrive, and the waiters are served by the reference. *)
Definition signalled (k : kernel) (Q : queues) (s : Z) (sc : SEMCB) (total : Z)
    (k' : kernel) (Q' : queues) : Prop :=
  exists ws gs kept rem, Q !! LSem s = Some ws /\
    grant (tcbs k) (bool_decide (Z.land (sematr sc) TA_CNT = 0)) total ws = (gs, kept, rem) /\
    a_wakes E_OK (task_of <$> gs) (tcbs k, Q) = (tcbs k', Q') /\
    Q' !! LSem s = Some kept /\ semcbs k' = <[s := set_semcnt rem sc]> (semcbs k) /\
    switched k Q' k'.

Lemma wp_signal k Q s sc ws total (Phi : Z -> kernel -> Prop) :
  wf k Q -> 0 <= s < CFN_MAX_SEMID -> semcbs k !! s = Some sc -> semid sc = s + 1 ->
  Q !! LSem s = Some ws -> 0 <= total <= maxsem sc ->
  (forall k' Q', wf k' Q' -> signalled k Q s sc total k' Q' -> Phi E_OK k') ->
  wp (sem_upd s (set_semcnt total) ;;; tkmc_sem_serve_waiters s ;;; reschedule ;;;
      EI (saved (mie k)) ;;; ret E_OK) Phi (set_mie false k).
Proof.
  intros (Hi & [[HS HF] HT] & Hsch) Hrange Hs Hid Hq Htot H.
  set (sc1 := set_semcnt total sc).
  set (k1 := set_semcbs (<[s := sc1]> (semcbs k)) (set_mie false k)).
  assert (Hi1 : inv k1 Q) by exact (inv_sem_add k Q s sc ws total Hi Hrange Hs Hid Hq Htot).
  apply wp_bind. eapply wp_sem_upd; [exact Hs|]. proj. fold sc1 k1.
  assert (Hs1 : semcbs k1 !! s = Some sc1) by apply lookup_insert_eq.
  apply wp_bind. eapply (wp_sem_serve (k := k1) (sc := sc1) (ws := ws)); try done.
  intros k2 (Q2 & gs & kept & rem & Hg & Hv & Hk).
  assert (Ho : objs_settled k2 Q2).
  { eapply (served_objs k1 Q s sc1 ws gs kept rem); try done.
    intros s' sc' Hne Hs'. unfold k1 in Hs'. proj. rewrite lookup_insert_ne in Hs' by done.
    by apply HS. }
  assert (Hw : woken_only k1 k2).
  { eapply served_woken; [done|done|done|]. by apply (grant_perm _ _ _ _ _ _ _ Hg). }
  destruct Hv as (L & T & -> & Hwk & Hi2).
  eapply wp_reschedule_ret; [exact Hi2|done|].
  match goal with |- Phi E_OK (set_mie _ (resched _ ?kk)) => set (k2 := kk) in * end.
  apply (H _ Q2).
  - change (wf (resched Q2 k2) Q2). apply resched_wf; [done| |].
    + split; [done|]. by eapply (timers_live_wakes E_OK _ _ _ _ _ Hwk).
    + eapply (woken_cur_ok k1); [done|]. by eapply sched_cur_ok.
  - exists ws, gs, kept, rem. split; [done|]. split; [done|]. unfold resched, switched.
    unfold k2, k1, with_lt, sc1 in *. proj. destruct (decide (highest Q2 = current k)); proj;
      rewrite insert_insert_eq; done.
Qed.

(** What [tk_sig_sem] gives and leaves. *)
Definition sig_sem_post k Q id cnt (r : Z) (k' : kernel) : Prop :=
  exists Q', wf k' Q' /\
    if negb (tkmc_id_in_range id CFN_MAX_SEMID) then r = E_ID /\ k' = k
    else if decide (cnt <= 0) then r = E_PAR /\ k' = k
    else let s := id - 1 in exists sc, semcbs k !! s = Some sc /\
      if no_exist (semid sc) then r = E_NOEXS /\ k' = k
      else if decide (maxsem sc - semcnt sc < cnt) then r = E_QOVR /\ k' = k
      else r = E_OK /\ signalled k Q s sc (semcnt sc + cnt) k' Q'.

Lemma wp_sig_sem k Q id cnt : wf k Q -> is_i32 cnt ->
  wp (tk_sig_sem id cnt) (sig_sem_post k Q id cnt) k.
Proof.
  unfold sig_sem_post.
  intros Hwf Hc32. unfold tk_sig_sem.
  destruct (tkmc_id_in_range id CFN_MAX_SEMID) eqn:Eid; cbn [negb].
  2:{ apply wp_ret. by exists Q. }
  destruct (decide (cnt <= 0)) as [Ep|Ep]; [apply wp_ret; by exists Q|].
  destruct (sem_here k Q id (proj1 Hwf) Eid) as (Hrange & sc & Hs & Hcase). set (s := id - 1) in *.
  apply wp_bind, wp_DI. apply wp_bind. eapply wp_sem_get; [exact Hs|].
  destruct Hcase as [(Hex & Hid & ws & Hq & Hl)|(Hex & _ & _)]; rewrite Hex.
  2:{ apply wp_leave. exists Q. split; [done|]. exists sc. by rewrite Hex. }
  destruct Hl as (Hcnt & Hmax & _ & _). unfold is_i32, TK_SEMAPHORE_MAXCNT in *.
  apply wp_bind, wp_int_op; [unfold is_i32; lia|].
  destruct (decide (maxsem sc - semcnt sc < cnt)) as [Eq|Eq].
  { apply wp_leave. exists Q. split; [done|]. exists sc. by rewrite Hex, decide_True. }
  apply wp_bind, wp_int_op; [unfold is_i32; lia|].
  eapply (wp_signal k Q s sc ws); try done; [lia|]. intros k' Q' Hwf' Hsig.
  exists Q'. split; [done|]. exists sc. by rewrite Hex, decide_False.
Qed.

(** C12: [tk_sig_sem] on every branch: it refuses with E_ID, E_PAR, E_NOEXS or
    E_QOVR and then changes nothing; otherwise the units arrive and the waiters are
    served exactly as the reference walk [grant] says, no waiter that could be
    served is left, and a switch is requested if another task should run. *)
Theorem sig_sem_spec k Q id cnt : wf k Q -> is_i32 cnt ->
  wp (tk_sig_sem id cnt) (sig_sem_post k Q id cnt) k.
Proof. apply wp_sig_sem. Qed.

(** ** [tk_del_sem] *)

(** The loop releases every waiter. *)
Lemma wp_release_all s ws : forall k Q fuel released (Phi : bool -> kernel -> Prop),
  inv k Q -> Q !! LSem s = Some ws -> (length ws < fuel)%nat ->
  (forall L T Q', a_wakes E_DLT (task_of <$> ws) (tcbs k, Q) = (T, Q') ->
     inv (with_lt L T k) Q' -> Q' !! LSem s = Some [] -> woken_only k (with_lt L T k) ->
     Phi (released || negb (bool_decide (ws = []))) (with_lt L T k)) ->
  wp (release_all fuel (LSem s) released) Phi k.
Proof.
  induction ws as [|n ws IH]; intros k Q fuel released Phi Hi Hq Hf H;
    (destruct fuel as [|fuel]; [simpl in Hf; lia|]); pose proof Hi as (Hr & _ & Ha);
    simpl; apply wp_bind; (eapply wp_list_empty; [exact Hr|exact Hq|]).
  - rewrite bool_decide_true by done. apply wp_ret.
    specialize (H (links k) (tcbs k) Q eq_refl). unfold with_lt in H.
    rewrite orb_false_r in H.
    assert (E : set_links (links k) (set_tcbs (tcbs k) k) = k) by by destruct k.
    rewrite E in H. apply H; [done|done|apply woken_only_refl].
  - rewrite bool_decide_false by done.
    destruct (waiter_sem Hr Ha s n) as (t & c & cnt & -> & _ & Hc & Hst & _).
    { exists (n :: ws). split; [done|by left]. }
    apply wp_bind. eapply wp_list_first; [exact Hr|exact Hq|]. apply wp_bind, wp_ret, wp_bind.
    eapply (wp_complete_wait_plain _ _ _ _ Q c); [done..|by right|].
    intros L k1 Hi1.
    assert (Hq1 : q_ready t (itskpri c) Q !! LSem s = Some ws).
    { rewrite lookup_q_ready, 3!decide_False, Hq by done. simpl.
      pose proof (rep_nodup _ _ _ _ Hr Hq) as [_ [Hnw _]%NoDup_cons]%NoDup_cons.
      unfold without at 2. rewrite filter_cons_False by auto. fold (without (LWait t) ws).
      rewrite (without_notin (LWait t)) by done. f_equal. apply without_notin. intros Hin.
      apply (head_notin_obj _ _ _ _ _ _ t (LSem s) Ha); [done|].
      exists (LWait t :: ws). split; [done|by right]. }
    eapply (IH k1 (q_ready t (itskpri c) Q)); [exact Hi1|exact Hq1|simpl in Hf; lia|].
    intros L' T Q' Hw Hi' Hq' Hwo.
    assert (E : with_lt L' T k1 = with_lt L' T k) by (unfold k1; by destruct k).
    rewrite E in *. specialize (H L' T Q').
    rewrite bool_decide_false, orb_true_r in H by done. apply H; try done.
    + cbn [fmap list_fmap task_of]. unfold a_wakes. cbn [foldl].
      change (a_wakes E_DLT (task_of <$> ws) (a_wake E_DLT t (tcbs k, Q)) = (T, Q')).
      by rewrite (a_wake_eq _ _ _ _ c).
    + eapply woken_only_trans; [|exact Hwo]. by apply woken_only_ready.
Qed.

Definition deleted_sem (s : Z) : SEMCB := mk_SEMCB (noexs_id s) 0 0 0 0.

(** A semaphore that disappears: nothing else changes. *)
Lemma freed_sem_inv k Q s L :
  inv k Q -> 0 <= s < CFN_MAX_SEMID -> Q !! LSem s = Some [] ->
  let Q' := qpush LFreeSem (LSem s) Q in rep L Q' -> dom L = dom (links k) ->
  inv (set_semcbs (<[s := deleted_sem s]> (semcbs k)) (set_links L k)) Q'.
Proof.
  intros (Hr & Hn & Ha) Hrange Hq Q' HL HD.
  assert (Hobj : (exists s', LSem s = LSem s') \/ (exists f, LSem s = LFlg f) \/
    (exists mb, LSem s = LMbx mb)) by eauto.
  split; [done|]. split; [by eapply nodes_ok_dom|]. proj. apply (ainv_obj Ha Hobj).
  - by apply (moved_obj_free Ha Hobj LFreeSem I).
  - intros h Ho Hne. apply (lookup_obj_free Ha Hobj); [done|done|by intros ->].
  - by intros h ->%inq_obj_free.
  - intros s' Hr'. destruct (decide (s' = s)) as [->|Hne].
    + right. rewrite lookup_insert_eq. eexists. split; [done|]. right. split; [done|].
      by apply inq_obj_free.
    + left. rewrite lookup_insert_ne by done. split; [done|]. congruence.
  - intros f _. by left.
  - intros mb _. by left.
Qed.

Lemma freed_sem_settled k Q s L :
  inv k Q -> 0 <= s < CFN_MAX_SEMID ->
  (forall s' sc, s' <> s -> semcbs k !! s' = Some sc -> sem_settled (tcbs k) Q s' sc) ->
  flgs_settled k Q -> timers_live (tcbs k) Q ->
  settled (set_semcbs (<[s := deleted_sem s]> (semcbs k)) (set_links L k))
    (qpush LFreeSem (LSem s) Q).
Proof.
  intros (Hr & Hn & Ha) Hrange HS HF HT.
  assert (Hobj : (exists s', LSem s = LSem s') \/ (exists f, LSem s = LFlg f) \/
    (exists mb, LSem s = LMbx mb)) by eauto.
  split; [split|].
  - intros s' sc Hs'. proj. destruct (decide (s' = s)) as [->|Hne].
    + rewrite lookup_insert_eq in Hs'. simplify_eq. intros ws Hid.
      exfalso. apply (noexs_id_neq s); [unfold CFN_MAX_SEMID in *; lia|done].
    + rewrite lookup_insert_ne in Hs' by done.
      eapply (sem_settled_same (tcbs k) _ Q); [|done|by apply HS].
      apply (lookup_obj_free Ha Hobj); [done|congruence|done].
  - intros f fc Hf ws Hid Hq. rewrite (lookup_obj_free Ha Hobj) in Hq by done.
    by apply (HF f fc Hf).
  - intros t c Hc (xs & E & Hx). apply (HT t c Hc). unfold qpush in E.
    rewrite lookup_qset, 2!decide_False in E by done.
    destruct (Q !! LTimer) as [ys|] eqn:Ey; simplify_eq/=.
    apply elem_of_without in Hx as [_ Hx]. by exists ys.
Qed.

(** What [tk_del_sem] gives and leaves. *)
Definition del_sem_post k Q id (r : Z) (k' : kernel) : Prop :=
  exists Q', wf k' Q' /\
    if negb (tkmc_id_in_range id CFN_MAX_SEMID) then r = E_ID /\ k' = k
    else let s := id - 1 in exists sc, semcbs k !! s = Some sc /\
      if no_exist (semid sc) then r = E_NOEXS /\ k' = k
      else r = E_OK /\ exists ws Q1, Q !! LSem s = Some ws /\
        a_wakes E_DLT (task_of <$> ws) (tcbs k, Q) = (tcbs k', Q1) /\
        Q' = qpush LFreeSem (LSem s) Q1 /\
        semcbs k' = <[s := deleted_sem s]> (semcbs k) /\
        if decide (ws = []) then next k' = next k /\ msip k' = msip k else switched k Q' k'.

(** The block is cleared and goes back to the free list. *)
Lemma wp_free_sem {A} k Q s sc (m : K A) (Phi : A -> kernel -> Prop) :
  inv k Q -> 0 <= s < CFN_MAX_SEMID -> semcbs k !! s = Some sc -> semid sc = s + 1 ->
  Q !! LSem s = Some [] ->
  let Q' := qpush LFreeSem (LSem s) Q in
  (forall L, let k' := set_semcbs (<[s := deleted_sem s]> (semcbs k)) (set_links L k) in
     inv k' Q' -> highest Q' = highest Q -> wp m Phi k') ->
  wp (sem_upd s (fun sc => set_semid (i32 (Z.lor (u32 (semid sc)) NOEXS_MASK)) sc) ;;;
      sem_upd s (set_sem_exinf 0) ;;; sem_upd s (set_sematr 0) ;;; sem_upd s (set_semcnt 0) ;;;
      sem_upd s (set_maxsem 0) ;;; list_add_tail (LSem s) LFreeSem ;;; m) Phi k.
Proof.
  intros Hi Hrange Hs Hid Hq Q' H. pose proof Hi as (Hr & Hn & Ha).
  assert (Hobj : (exists s', LSem s = LSem s') \/ (exists f, LSem s = LFlg f) \/
    (exists mb, LSem s = LMbx mb)) by eauto.
  upd_sem. rewrite Hid. destruct (id_bits_ok s) as (_ & _ & _ & _ & Hb);
    [unfold CFN_MAX_SEMID in Hrange; lia|]. rewrite Hb.
  destruct (ai_head _ _ _ _ _ _ Ha LFreeSem I) as [fr Hfr].
  apply wp_bind. eapply wp_list_add_tail; [exact Hr|by exists fr| |done| |].
  { by apply (rep_alone_loose _ _ _ Hr). }
  { by apply Hn. }
  intros L HL HD. proj.
  assert (Hi' : inv (set_semcbs (<[s := deleted_sem s]> (semcbs k)) (set_links L k)) Q')
    by (by apply freed_sem_inv).
  specialize (H L Hi' (highest_free_obj k Q _ LFreeSem Hi Hobj ltac:(by left))). clear - H. by destruct k.
Qed.

(** Without waiters, the next task stays the same. *)
Lemma freed_unused_wf k Q s k' : wf k Q -> let Q' := qpush LFreeSem (LSem s) Q in
  tcbs k' = tcbs k -> current k' = current k -> next k' = next k -> msip k' = msip k ->
  inv k' Q' -> settled k' Q' -> wf k' Q'.
Proof.
  intros (Hi & _ & Hsch) Q' ET Ec En Em Hi' Hset'.
  split; [exact Hi'|]. split; [exact Hset'|].
  eapply (sched_objs k Q); try done. intros j. unfold Q', qpush.
  rewrite lookup_qset, 2!decide_False by done.
  destruct (Q !! LReady j) as [ys|] eqn:Ey; [|done]. simpl. f_equal. apply without_notin.
  intros Hx. assert (Hk : kind_ok (LReady j) (LSem s)); [|done].
  apply (ai_kind _ _ _ _ _ _ (proj2 (proj2 Hi))). by exists ys.
Qed.

Lemma wp_del_sem k Q id : wf k Q ->
  wp (tk_del_sem id) (del_sem_post k Q id) k.
Proof.
  unfold del_sem_post.
  intros Hwf. unfold tk_del_sem.
  destruct (tkmc_id_in_range id CFN_MAX_SEMID) eqn:Eid; cbn [negb].
  2:{ apply wp_ret. by exists Q. }
  pose proof Hwf as (Hi & [[HS HF] HT] & Hsch). pose proof Hi as (Hr & Hn & Ha).
  destruct (sem_here k Q id Hi Eid) as (Hrange & sc & Hs & Hcase). set (s := id - 1) in *.
  apply wp_bind, wp_DI. apply wp_bind. eapply wp_sem_get; [exact Hs|].
  destruct Hcase as [(Hex & Hid & ws & Hq & Hl)|(Hex & _ & _)]; rewrite Hex.
  2:{ apply wp_leave. exists Q. split; [done|]. exists sc. by rewrite Hex. }
  apply wp_bind, wp_gets. apply wp_bind.
  eapply (wp_release_all s ws (set_mie false k) Q); [exact Hi|exact Hq| |].
  { unfold walk_fuel. proj. pose proof (rep_length _ _ _ _ Hr Hq). lia. }
  intros L T Q1 Hw Hi1 Hq1 Hwo. proj. cbn [orb].
  set (k1 := with_lt L T (set_mie false k)) in *.
  eapply (wp_free_sem k1 Q1 s sc); [exact Hi1|exact Hrange|exact Hs|exact Hid|exact Hq1|].
  set (Q2 := qpush LFreeSem (LSem s) Q1) in *. intros L2 k2 Hi2 Hh2.
  assert (Hset2 : settled k2 Q2).
  { apply freed_sem_settled; [exact Hi1|exact Hrange| |exact (flgs_settled_wakes _ _ _ _ _ _ _ Hw HF)|
      exact (timers_live_wakes _ _ _ _ _ _ Hw HT)].
    intros s' sc' Hne Hs'. eapply (wakes_sem_settled (h := LSem s) Hi I Hq (reflexivity ws) Hw);
      [congruence|]. by apply HS. }
  apply wp_bind. destruct (decide (ws = [])) as [->|Hne].
  - rewrite bool_decide_true by done. cbn [negb]. apply wp_ret. apply wp_bind, wp_EI; [done|].
    apply wp_ret. exists Q2. injection Hw as HT' HQ'. subst T Q1. split.
    + apply (freed_unused_wf k Q s); [exact Hwf|done..|exact Hi2|exact Hset2].
    + exists sc. rewrite Hex. split; [done|]. split; [done|]. by exists [], Q.
  - rewrite bool_decide_false by done. cbn [negb].
    eapply wp_reschedule; [exact Hi2|]. apply wp_bind, wp_EI.
    { unfold resched. by destruct (decide (highest Q2 = _)). }
    apply wp_ret. exists Q2. split.
    + change (wf (resched Q2 k2) Q2). apply resched_wf; [done|done|].
      assert (Hok : cur_ok k1) by (eapply woken_cur_ok; [exact Hwo|by eapply sched_cur_ok]).
      exact Hok.
    + exists sc. rewrite Hex. split; [done|]. split; [done|]. exists ws, Q1.
      split; [done|]. unfold resched, switched. unfold k2, k1, with_lt. proj.
      rewrite (decide_False (P := ws = [])) by done.
      destruct (decide (highest Q2 = current k)); done.
Qed.

(** C26: [tk_del_sem] on every branch: it refuses with E_ID or E_NOEXS and then
    changes nothing; otherwise every waiter becomes ready with E_DLT, the block is
    cleared, marked and last on the free list, and a switch is requested if a
    released task should run. *)
Theorem del_sem_spec k Q id : wf k Q ->
  wp (tk_del_sem id) (del_sem_post k Q id) k.
Proof. apply wp_del_sem. Qed.

(** The end of [tk_wai_sem], in the task that waited. *)
Lemma wp_sem_resume k t c : current k = Some t -> tcbs k !! t = Some c ->
  wp tk_wai_sem_resume (cause_back k t c) k.
Proof. intros Hcur Hc. apply (wp_cause_back Hcur Hc id). Qed.
