(* ===== verification/EventFlag.v ===== *)
(** * Event flags: [src/kernel/event_flag.c] *)

From S2P Require Import Prelude DList Tkernel Kernel Inv Moves Rules Wait Sched Timer Block.

Open Scope Z_scope.

Definition tkmc_init_flgcb : K unit :=
  list_init LFreeFlg ;;;
  for_range (Z.to_nat CFN_MAX_FLGID) 0 (fun i =>
    flg_upd i (fun _ => mk_FLGCB (i32 (Z.lor (i + 1) NOEXS_MASK)) 0 0 0) ;;;
    list_init (LFlg i) ;;;
    list_add_tail (LFlg i) LFreeFlg).

Definition VALID_FLGATR := Z.lor TA_TFIFO (Z.lor TA_TPRI (Z.lor TA_WSGL TA_WMUL)).

Definition tk_cre_flg (pk_cflg : option T_CFLG) : K Z :=
  match pk_cflg with
  | None => ret E_PAR
  | Some p =>
    if decide (Z.land (cf_flgatr p) (not32 VALID_FLGATR) <> 0) then ret E_RSATR
    else
      intsts <- DI ;;
      empty <- list_empty LFreeFlg ;;
      new_flgid <- (if negb empty then
        n <- list_next LFreeFlg ;;
        f <- flgcb_of n ;;
        list_del (LFlg f) ;;;
        list_init (LFlg f) ;;;
        fc <- flg_get f ;;
        let id := i32 (Z.land (u32 (flgid fc)) (not32 NOEXS_MASK)) in
        flg_upd f (set_flgid id) ;;;
        flg_upd f (set_flg_exinf (cf_exinf p)) ;;;
        flg_upd f (set_flgatr (cf_flgatr p)) ;;;
        flg_upd f (set_flgptn (iflgptn p)) ;;;
        ret id
      else ret E_LIMIT) ;;
      EI intsts ;;;
      ret new_flgid
  end.

(** What a satisfied wait leaves of the pattern. *)
Definition clear_ptn (flgptn0 waiptn wfmode : Z) : Z :=
  if decide (Z.land wfmode TWF_CLR <> 0) then 0
  else if decide (Z.land wfmode TWF_BITCLR <> 0) then
    Z.land flgptn0 (not32 waiptn)
  else flgptn0.

Definition VALID_WFMODE :=
  Z.lor TWF_ANDW (Z.lor TWF_ORW (Z.lor TWF_CLR TWF_BITCLR)).

(** Into the wait queue, with [tkmc_list_for_each_entry]. *)
Definition flg_enqueue (t f atr : Z) : K unit :=
  enqueue list_for_each_entry t atr (LFlg f).

Definition tk_wai_flg (flgid0 waiptn wfmode p_flgptn tmout : Z) : K call :=
  if negb (tkmc_id_in_range flgid0 CFN_MAX_FLGID) then ret (Return E_ID)
  else if decide (p_flgptn = 0 \/ waiptn = 0) then ret (Return E_PAR)
  else if decide (Z.land wfmode (not32 VALID_WFMODE) <> 0) then ret (Return E_PAR)
  else if decide (tmout < TMO_FEVR) then ret (Return E_PAR)
  else
    let f := flgid0 - 1 in
    intsts <- DI ;;
    can <- tkmc_can_block intsts ;;
    if negb can then EI intsts ;;; ret (Return E_CTX)
    else
      fc <- flg_get f ;;
      if no_exist (flgid fc) then EI intsts ;;; ret (Return E_NOEXS)
      else
        empty <- list_empty (LFlg f) ;;
        if decide (Z.land (flgatr fc) TA_WMUL = 0 /\ empty = false) then
          EI intsts ;;; ret (Return E_OBJ)
        else if check_ptn (flgptn fc) waiptn wfmode then
          store_w p_flgptn (CWord (flgptn fc)) ;;;
          flg_upd f (set_flgptn (clear_ptn (flgptn fc) waiptn wfmode)) ;;;
          EI intsts ;;;
          ret (Return E_OK)
        else if decide (tmout = TMO_POL) then EI intsts ;;; ret (Return E_TMOUT)
        else
          t <- current_tcb ;;
          tcb_upd t (set_winfo (WEventFlag waiptn wfmode 0)) ;;;
          flg_enqueue t f (flgatr fc) ;;;
          (if decide (0 < tmout) then
             tkmc_schedule_timer t (tkmc_ms_to_ticks tmout) TTW_FLG
           else wait_forever t TTW_FLG) ;;;
          EI intsts ;;;
          ret (Suspend (K_flg p_flgptn)).

Definition tk_wai_flg_resume (p_flgptn : Z) : K Z :=
  intsts <- DI ;;
  t <- current_tcb ;;
  c <- tcb_get t ;;
  (if decide (wupcause c = E_OK) then
     match winfo c with
     | WEventFlag _ _ ptn => store_w p_flgptn (CWord ptn)
     | _ => wild
     end
   else ret tt) ;;;
  tcb_upd t (set_wupcause E_OK) ;;;
  EI intsts ;;;
  ret (wupcause c).

(** The body of the loop of [tk_set_flg]. *)
Definition set_flg_body (f : Z) (pos : link) : K bool :=
  t <- tcb_of_wait pos ;;
  c <- tcb_get t ;;
  fc <- flg_get f ;;
  match winfo c with
  | WEventFlag waiptn wfmode _ =>
    if check_ptn (flgptn fc) waiptn wfmode then
      tcb_upd t (set_winfo (WEventFlag waiptn wfmode (flgptn fc))) ;;;
      flg_upd f (set_flgptn (clear_ptn (flgptn fc) waiptn wfmode)) ;;;
      tkmc_complete_wait t E_OK ;;;
      ret true
    else ret true
  | _ => wild
  end.

Definition tk_set_flg (flgid0 setptn : Z) : K Z :=
  if negb (tkmc_id_in_range flgid0 CFN_MAX_FLGID) then ret E_ID
  else
    let f := flgid0 - 1 in
    intsts <- DI ;;
    fc <- flg_get f ;;
    if no_exist (flgid fc) then EI intsts ;;; ret E_NOEXS
    else
      flg_upd f (set_flgptn (Z.lor (flgptn fc) setptn)) ;;;
      empty <- list_empty (LFlg f) ;;
      (if negb empty then
         list_for_each_entry_safe (LFlg f) (set_flg_body f) ;;;
         reschedule
       else ret tt) ;;;
      EI intsts ;;;
      ret E_OK.

Definition tk_clr_flg (flgid0 clrptn : Z) : K Z :=
  if negb (tkmc_id_in_range flgid0 CFN_MAX_FLGID) then ret E_ID
  else
    let f := flgid0 - 1 in
    intsts <- DI ;;
    fc <- flg_get f ;;
    if no_exist (flgid fc) then EI intsts ;;; ret E_NOEXS
    else
      flg_upd f (set_flgptn (Z.land (flgptn fc) clrptn)) ;;;
      EI intsts ;;;
      ret E_OK.

Implicit Types (k : kernel) (Q : queues) (t : Z) (h n : link).

(** ** Patterns *)

(** [p'] has no bit that [p] has not. *)
Definition subptn (p' p : Z) : Prop := Z.land p' p = p'.

Lemma subptn_refl p : subptn p p.
Proof. apply Z.land_diag. Qed.

Lemma subptn_trans p1 p2 p3 : subptn p1 p2 -> subptn p2 p3 -> subptn p1 p3.
Proof. unfold subptn. intros E1 E2. by rewrite <- E1, <- Z.land_assoc, E2. Qed.

Lemma subptn_land p m : subptn (Z.land p m) p.
Proof. unfold subptn. by rewrite (Z.land_comm p m), <- Z.land_assoc, Z.land_diag. Qed.

Lemma subptn_clear p w m : subptn (clear_ptn p w m) p.
Proof.
  unfold clear_ptn. repeat case_decide; [apply Z.land_0_l|apply subptn_land|apply subptn_refl].
Qed.

(** A pattern with fewer bits satisfies no more. *)
Lemma check_ptn_sub p' p w m : subptn p' p -> check_ptn p w m = false -> check_ptn p' w m = false.
Proof.
  unfold subptn, check_ptn. intros E. case_decide.
  - rewrite !negb_false_iff, !bool_decide_eq_true. intros Hp.
    by rewrite <- E, <- Z.land_assoc, Hp, Z.land_0_r.
  - rewrite !bool_decide_eq_false. intros Hp Hp'. apply Hp.
    by rewrite <- Hp', Z.land_assoc, (Z.land_comm p p'), E.
Qed.

Lemma wmatch_sub T p' p n : subptn p' p -> wmatch T p n = false -> wmatch T p' n = false.
Proof.
  intros Hs. unfold wmatch. destruct (waiter T n) as [c|]; [|done].
  destruct (winfo c); try done. by apply check_ptn_sub.
Qed.

Lemma u32_land p m : is_u32 p -> is_u32 (Z.land p m).
Proof.
  unfold is_u32. intros Hp. assert (E : p = Z.land p (Z.ones 32)).
  { rewrite Z.land_ones by lia. by rewrite Z.mod_small. }
  rewrite E, <- Z.land_assoc, (Z.land_comm _ m), Z.land_assoc, Z.land_ones by lia.
  apply Z.mod_pos_bound. lia.
Qed.

Lemma u32_lor p m : is_u32 p -> is_u32 m -> is_u32 (Z.lor p m).
Proof.
  unfold is_u32. intros Hp Hm. assert (E : Z.lor p m = Z.land (Z.lor p m) (Z.ones 32)).
  { rewrite Z.land_lor_distr_l, !Z.land_ones by lia. by rewrite !Z.mod_small. }
  rewrite E, Z.land_ones by lia. apply Z.mod_pos_bound. lia.
Qed.

Lemma u32_clear p w m : is_u32 p -> is_u32 (clear_ptn p w m).
Proof.
  intros Hp. unfold clear_ptn. repeat case_decide; [unfold is_u32; lia|by apply u32_land|done].
Qed.

(** ** Looking up an event flag *)

Lemma flg_here k Q id : inv k Q -> tkmc_id_in_range id CFN_MAX_FLGID = true ->
  0 <= id - 1 < CFN_MAX_FLGID /\ exists fc, flgcbs k !! (id - 1) = Some fc /\
    ((no_exist (flgid fc) = false /\ flgid fc = id - 1 + 1 /\
        exists ws, Q !! LFlg (id - 1) = Some ws /\ flg_live (tcbs k) fc ws) \/
     (no_exist (flgid fc) = true /\ flgid fc = noexs_id (id - 1) /\
        inq Q LFreeFlg (LFlg (id - 1)))).
Proof.
  intros (_ & _ & Ha) Hid.
  assert (Hr : 0 <= id - 1 < CFN_MAX_FLGID).
  { unfold tkmc_id_in_range in Hid. rewrite andb_true_iff, !bool_decide_eq_true in Hid. lia. }
  split; [done|]. destruct (ai_flg _ _ _ _ _ _ Ha _ Hr) as (fc & Hs & Hok).
  exists fc. split; [done|].
  destruct (id_bits_ok (id - 1)) as (_ & Hb1 & Hb2 & _); [unfold CFN_MAX_FLGID in Hr; lia|].
  destruct Hok as [(E & ws & Hq & Hl)|(E & Hi)]; rewrite E; [left|right].
  - split; [done|]. split; [done|]. by exists ws.
  - done.
Qed.

(** The pattern of a flag changes. *)
Lemma inv_flg_ptn k Q f fc ws p :
  inv k Q -> 0 <= f < CFN_MAX_FLGID -> flgcbs k !! f = Some fc -> flgid fc = f + 1 ->
  Q !! LFlg f = Some ws -> flg_live (tcbs k) fc ws -> is_u32 p ->
  inv (set_flgcbs (<[f := set_flgptn p fc]> (flgcbs k)) k) Q.
Proof.
  intros (Hr & Hn & Ha) Hrange Hf Hid Hq Hl Hp. split; [done|]. split; [done|]. proj.
  apply ainv_set_flg; [done|]. intros _. left. split; [done|]. exists ws. split; [done|].
  destruct Hl as (_ & H2 & H3). by split.
Qed.

(** It loses bits, and nobody can be satisfied by that. *)
Lemma wf_flg_less k Q f fc ws p :
  wf k Q -> 0 <= f < CFN_MAX_FLGID -> flgcbs k !! f = Some fc -> flgid fc = f + 1 ->
  Q !! LFlg f = Some ws -> flg_live (tcbs k) fc ws -> is_u32 p -> subptn p (flgptn fc) ->
  wf (set_flgcbs (<[f := set_flgptn p fc]> (flgcbs k)) k) Q.
Proof.
  intros (Hi & [[HS HF] HT] & Hsch) Hrange Hf Hid Hq Hl Hp Hsub.
  split; [by eapply inv_flg_ptn|]. split; [split; [split|done]|done]; [done|].
  intros f' fc' Hf'. proj. destruct (decide (f' = f)) as [->|Hne].
  - rewrite lookup_insert_eq in Hf'. simplify_eq. intros ws' _ Hq'. simplify_eq. simpl.
    specialize (HF f fc Hf ws Hid Hq). eapply Forall_impl; [exact HF|]. simpl.
    intros n. by apply wmatch_sub.
  - rewrite lookup_insert_ne in Hf' by done. by apply HF.
Qed.

(** What [tk_clr_flg] gives and leaves. *)
Definition clr_flg_post k Q id clrptn (r : Z) (k' : kernel) : Prop :=
  wf k' Q /\
    if negb (tkmc_id_in_range id CFN_MAX_FLGID) then r = E_ID /\ k' = k
    else exists fc, flgcbs k !! (id - 1) = Some fc /\
      if no_exist (flgid fc) then r = E_NOEXS /\ k' = k
      else r = E_OK /\
        k' = set_flgcbs (<[id - 1 := set_flgptn (Z.land (flgptn fc) clrptn) fc]> (flgcbs k)) k.

Lemma wp_clr_flg k Q id clrptn : wf k Q ->
  wp (tk_clr_flg id clrptn) (clr_flg_post k Q id clrptn) k.
Proof.
  unfold clr_flg_post.
  intros Hwf. unfold tk_clr_flg.
  destruct (tkmc_id_in_range id CFN_MAX_FLGID) eqn:Eid; cbn [negb]; [|by apply wp_ret].
  destruct (flg_here k Q id (proj1 Hwf) Eid) as (Hrange & fc & Hf & Hcase). set (f := id - 1) in *.
  apply wp_bind, wp_DI. apply wp_bind. eapply wp_flg_get; [exact Hf|].
  destruct Hcase as [(Hex & Hid & ws & Hq & Hl)|(Hex & _ & _)]; rewrite Hex.
  2:{ apply wp_leave. split; [done|]. exists fc. by rewrite Hex. }
  apply wp_bind. eapply wp_flg_upd; [exact Hf|]. apply wp_bind, wp_EI; [done|]. apply wp_ret.
  split.
  - eapply (wf_flg_less k Q f fc ws); try done; [by apply u32_land, Hl|apply subptn_land].
  - exists fc. rewrite Hex. split; [done|]. split; [done|]. by destruct k.
Qed.

(** ** Setting bits

    The reference: walk the waiters in their order with the pattern there is.
    A satisfied waiter gets the pattern, and what it clears is gone for those
    behind it. The result is who gets what, who keeps waiting, and the pattern
    left. *)

Fixpoint deliver (T : gmap Z TCB) (ptn : Z) (ws : list link)
    : list (Z * WaitInfo) * list link * Z :=
  match ws with
  | [] => ([], [], ptn)
  | n :: ws =>
    match winfo <$> waiter T n with
    | Some (WEventFlag waiptn wfmode _) =>
      if check_ptn ptn waiptn wfmode then
        let '(g, kept, p) := deliver T (clear_ptn ptn waiptn wfmode) ws in
        ((task_of n, WEventFlag waiptn wfmode ptn) :: g, kept, p)
      else let '(g, kept, p) := deliver T ptn ws in (g, n :: kept, p)
    | _ => let '(g, kept, p) := deliver T ptn ws in (g, n :: kept, p)
    end
  end.

Lemma deliver_sub T ptn ws g kept p : deliver T ptn ws = (g, kept, p) -> subptn p ptn.
Proof.
  revert ptn g kept p. induction ws as [|n ws IH]; intros ptn g kept p; simpl.
  { intros. simplify_eq. apply subptn_refl. }
  assert (Hno : (let '(g, kept, p) := deliver T ptn ws in (g, n :: kept, p)) = (g, kept, p) ->
    subptn p ptn).
  { destruct (deliver T ptn ws) as [[g' k'] p'] eqn:E. intros. simplify_eq. by eapply IH. }
  destruct (winfo <$> waiter T n) as [[|w m r| |]|]; try done.
  destruct (check_ptn ptn w m); [|done].
  destruct (deliver T (clear_ptn ptn w m) ws) as [[g' k'] p'] eqn:E. intros. simplify_eq.
  eapply subptn_trans; [by eapply IH|apply subptn_clear].
Qed.

(** Nobody who keeps waiting is satisfied by what is left. *)
Lemma deliver_settled T ptn ws g kept p :
  deliver T ptn ws = (g, kept, p) -> Forall (fun n => wmatch T p n = false) kept.
Proof.
  revert ptn g kept p. induction ws as [|n ws IH]; intros ptn g kept p; simpl.
  { intros. by simplify_eq. }
  assert (Hno : wmatch T ptn n = false ->
    (let '(g, kept, p) := deliver T ptn ws in (g, n :: kept, p)) = (g, kept, p) ->
    Forall (fun n => wmatch T p n = false) kept).
  { intros Hn. destruct (deliver T ptn ws) as [[g' k'] p'] eqn:E. intros. simplify_eq.
    constructor; [|by eapply IH]. eapply wmatch_sub; [|exact Hn]. by eapply deliver_sub. }
  unfold wmatch in Hno at 1. destruct (waiter T n) as [c|]; simpl in *; [|by apply Hno].
  destruct (winfo c) as [|w m r| |]; simpl in *; try by apply Hno.
  destruct (check_ptn ptn w m); [|by apply Hno].
  destruct (deliver T (clear_ptn ptn w m) ws) as [[g' k'] p'] eqn:E. intros. simplify_eq.
  by eapply IH.
Qed.

(** Who gets something was waiting; the others keep their order. *)
Lemma deliver_perm T ptn ws g kept p :
  deliver T ptn ws = (g, kept, p) ->
  (fst <$> g) `sublist_of` (task_of <$> ws) /\ kept `sublist_of` ws.
Proof.
  revert ptn g kept p. induction ws as [|n ws IH]; intros ptn g kept p; simpl.
  { intros. by simplify_eq. }
  assert (Hno : (let '(g, kept, p) := deliver T ptn ws in (g, n :: kept, p)) = (g, kept, p) ->
    (fst <$> g) `sublist_of` (task_of <$> n :: ws) /\ kept `sublist_of` n :: ws).
  { destruct (deliver T ptn ws) as [[g' k'] p'] eqn:E. intros. simplify_eq.
    destruct (IH _ _ _ _ E). split; by constructor. }
  destruct (winfo <$> waiter T n) as [[|w m r| |]|]; try done.
  destruct (check_ptn ptn w m); [|done].
  destruct (deliver T (clear_ptn ptn w m) ws) as [[g' k'] p'] eqn:E. intros. simplify_eq.
  destruct (IH _ _ _ _ E). split; by constructor.
Qed.

(** *** The loop of [tk_set_flg] refines the reference *)

Section set_loop.
Context {k : kernel} {Q : queues} {f : Z} {fc : FLGCB} {ws : list link}.
Hypothesis Hrange : 0 <= f < CFN_MAX_FLGID.
Hypothesis Hf : flgcbs k !! f = Some fc.
Hypothesis Hid : flgid fc = f + 1.
Hypothesis Hq : Q !! LFlg f = Some ws.
Hypothesis Hi : inv k Q.
Hypothesis Hlive : timers_live (tcbs k) Q.

(** [k'] is [k] when [gs] were handed out, [ptn] left. *)
Record handed (gs : list (Z * WaitInfo)) (left : list link) (ptn : Z) (k' : kernel)
    (Q' : queues) : Prop := {
  hd_state : exists L T,
    k' = set_flgcbs (<[f := set_flgptn ptn fc]> (flgcbs k)) (with_lt L T k);
  hd_gives : a_gives E_OK gs (tcbs k, Q) = (tcbs k', Q');
  hd_inv : inv k' Q';
  hd_queue : Q' !! LFlg f = Some left;
  hd_other h : obj_head h -> h <> LFlg f -> Q' !! h = Q !! h;
  hd_left u : LWait u ∈ left -> tcbs k' !! u = tcbs k !! u;
  hd_rest u : LWait u ∉ ws -> tcbs k' !! u = tcbs k !! u;
  hd_live : timers_live (tcbs k') Q';
  hd_woken : woken_only k k';
  hd_u32 : is_u32 ptn;
}.

Lemma handed_refl : is_u32 (flgptn fc) -> handed [] ws (flgptn fc) k Q.
Proof using Hf Hid Hq Hi Hlive.
  intros Hu. split; try done; [|apply woken_only_refl].
  exists (links k), (tcbs k). unfold with_lt.
  rewrite insert_id by (rewrite Hf; by destruct fc). by destruct k.
Qed.

Lemma handed_flg gs left ptn k' Q' :
  handed gs left ptn k' Q' -> flgcbs k' !! f = Some (set_flgptn ptn fc).
Proof using. intros []. destruct hd_state0 as (L & T & ->). apply lookup_insert_eq. Qed.

(** One more waiter [t] gets its pattern. *)
Lemma handed_step gs pre t rest ptn k' Q' c w m r p' L :
  handed gs (pre ++ LWait t :: rest) ptn k' Q' -> (pre ++ LWait t :: rest) `sublist_of` ws ->
  tcbs k' !! t = Some c -> tskstat c = TTS_WAI -> winfo c = WEventFlag w m r -> is_u32 p' ->
  let c1 := set_winfo (WEventFlag w m ptn) c in
  let k1 := set_flgcbs (<[f := set_flgptn p' fc]> (flgcbs k'))
    (with_lt L (<[t := readied E_OK c1]> (tcbs k')) k') in
  inv k1 (q_ready t (itskpri c) Q') ->
  handed (gs ++ [(t, WEventFlag w m ptn)]) (pre ++ rest) p' k1 (q_ready t (itskpri c) Q').
Proof using Hq Hi.
  intros H Hsub Hc Hs Hw Hp' c1 k1 Hi1. pose proof H as [E1 E2 E3 E4 E5 E6 E7 E8 E9 E10].
  assert (Htw : LWait t ∈ ws).
  { eapply elem_of_sublist; [|exact Hsub]. apply elem_of_app. right. by left. }
  assert (Hnd : NoDup (pre ++ LWait t :: rest)).
  { by pose proof (rep_nodup _ _ _ _ (proj1 E3) E4) as [_ Hnd]%NoDup_cons. }
  split; try done.
  - destruct E1 as (L0 & T0 & ->). exists L, (<[t := readied E_OK c1]> T0).
    unfold k1, with_lt. proj. by rewrite insert_insert_eq.
  - rewrite a_gives_snoc, E2. by rewrite (a_give_eq _ _ _ _ _ c).
  - by apply (given_own (h := LFlg f) E3 I).
  - intros h Ho Hne. rewrite (given_other (h := LFlg f) E3 I E4 h Ho Hne). by apply E5.
  - intros u Hu. unfold k1, with_lt. proj. rewrite lookup_insert_ne.
    + apply E6. apply elem_of_app in Hu as [?|?]; apply elem_of_app; [by left|right; by right].
    + intros ->. apply NoDup_app in Hnd as (_ & Hno & [Hnr _]%NoDup_cons).
      apply elem_of_app in Hu as [Hu|Hu]; [|done]. apply (Hno _ Hu). by left.
  - intros u Hu. unfold k1, with_lt. proj. rewrite lookup_insert_ne by (by intros ->).
    by apply E7.
  - intros u cu Hu Hiu. apply inq_q_ready_timer in Hiu as [Hne Hiu].
    unfold k1, with_lt in Hu. proj. rewrite lookup_insert_ne in Hu by done. by eapply E8.
  - eapply woken_only_trans; [exact E9|]. split.
    + exists (semcbs k'), (flgcbs k1), L, (<[t := readied E_OK c1]> (tcbs k')).
      unfold k1, with_lt. by destruct k'.
    + intros u cu Hu. unfold k1, with_lt. proj. destruct (decide (u = t)) as [->|].
      * right. rewrite lookup_insert_eq. simplify_eq. split; [done|]. by eexists.
      * left. by rewrite lookup_insert_ne.
Qed.

(** The state of the loop: [pre] were passed over, [rest] are to come, and
    the reference gives from here what it gives from the start. *)
Definition giving (pre rest : list link) (Q' : queues) (k' : kernel) : Prop :=
  exists gs ptn, handed gs (pre ++ rest) ptn k' Q' /\ (pre ++ rest) `sublist_of` ws /\
    deliver (tcbs k) (flgptn fc) ws =
      (let '(g, kept, p) := deliver (tcbs k) ptn rest in (gs ++ g, pre ++ kept, p)).

Lemma wp_set_flg_body pre n rest Q' k' :
  giving pre (n :: rest) Q' k' ->
  wp (set_flg_body f n) (fun go k'' => go = true /\
    exists pre' Q'', giving pre' rest Q'' k'') k'.
Proof using Hrange Hf Hid Hq Hi.
  intros (gs & ptn & H & Hsub & Hg). pose proof (hd_inv _ _ _ _ _ H) as Hi'.
  pose proof (hd_queue _ _ _ _ _ H) as Hq'. pose proof (handed_flg _ _ _ _ _ H) as Hf'.
  pose proof (hd_u32 _ _ _ _ _ H) as Hu.
  destruct (waiter_flg (proj1 Hi') (proj2 (proj2 Hi')) f n)
    as (t & c & w & m & r & -> & _ & Hc & Hst & Htw & Hwi).
  { exists (pre ++ n :: rest). split; [done|]. apply elem_of_app. right. by left. }
  assert (Hc0 : tcbs k !! t = Some c).
  { rewrite <- (hd_left _ _ _ _ _ H); [done|]. apply elem_of_app. right. by left. }
  simpl in Hg. rewrite Hc0 in Hg. simpl in Hg. rewrite Hwi in Hg.
  unfold set_flg_body. apply wp_bind, wp_ret. apply wp_bind. eapply wp_tcb_get; [exact Hc|].
  apply wp_bind. eapply wp_flg_get; [exact Hf'|]. rewrite Hwi. simpl.
  destruct (check_ptn ptn w m) eqn:Ec.
  2:{ apply wp_ret. split; [done|]. exists (pre ++ [LWait t]), Q', gs, ptn.
      rewrite <- app_assoc. split; [done|]. split; [done|]. rewrite Hg.
      destruct (deliver (tcbs k) ptn rest) as [[g kept] p]. by rewrite <- app_assoc. }
  set (p' := clear_ptn ptn w m) in *. set (c1 := set_winfo (WEventFlag w m ptn) c).
  apply wp_bind. eapply wp_tcb_upd; [exact Hc|]. apply wp_bind.
  eapply wp_flg_upd; [exact Hf'|]. proj. fold c1. change (set_flgptn p' (set_flgptn ptn fc))
    with (set_flgptn p' fc).
  set (k2 := set_flgcbs (<[f := set_flgptn p' fc]> (flgcbs k'))
    (set_tcbs (<[t := c1]> (tcbs k')) k')).
  assert (Hi2 : inv k2 Q').
  { assert (Hk : same_kind (winfo c) (WEventFlag w m ptn)) by by rewrite Hwi.
    pose proof (inv_given Hi' Hc Hst Hk) as Hi1.
    destruct (ai_flg _ _ _ _ _ _ (proj2 (proj2 Hi1)) f Hrange) as (fc' & E & Hok).
    proj. rewrite Hf' in E. injection E as <-.
    destruct Hok as [(_ & ws' & E' & Hl)|(E' & _)].
    - exact (inv_flg_ptn _ _ _ _ _ p' Hi1 Hrange Hf' Hid E' Hl (u32_clear _ _ _ Hu)).
    - exfalso. apply (noexs_id_neq f); [unfold CFN_MAX_FLGID in *; lia|simpl in E'; congruence]. }
  apply wp_bind. eapply (wp_complete_wait_plain _ _ _ _ Q' c1);
    [exact Hi2|apply lookup_insert_eq|exact Hst|left; simpl; rewrite Htw; done|].
  intros L k3 Hi3. apply wp_ret. split; [done|].
  exists pre, (q_ready t (itskpri c) Q'), (gs ++ [(t, WEventFlag w m ptn)]), p'.
  assert (Ek3 : k3 = set_flgcbs (<[f := set_flgptn p' fc]> (flgcbs k'))
    (with_lt L (<[t := readied E_OK c1]> (tcbs k')) k')).
  { unfold k3, k2, with_lt. proj. rewrite insert_insert_eq. reflexivity. }
  split; [|split].
  - rewrite Ek3 in *. eapply handed_step; try done. by apply u32_clear.
  - etrans; [|exact Hsub]. apply sublist_app; [done|]. by constructor.
  - rewrite Hg. destruct (deliver (tcbs k) p' rest) as [[g kept] p]. by rewrite <- app_assoc.
Qed.

Lemma wp_set_loop (Phi : bool -> kernel -> Prop) :
  is_u32 (flgptn fc) ->
  (forall gs kept p k' Q', deliver (tcbs k) (flgptn fc) ws = (gs, kept, p) ->
     handed gs kept p k' Q' -> Phi true k') ->
  wp (list_for_each_entry_safe (LFlg f) (set_flg_body f)) Phi k.
Proof using Hrange Hf Hid Hq Hi Hlive.
  intros Hu H. eapply (wp_for_each_safe (LFlg f) giving).
  - intros pre rest Q' k' (gs & ptn & Hh & _). destruct Hh. by split; [apply hd_inv0|].
  - intros pre n rest Q' k' Hg. eapply wp_mono; [by eapply wp_set_flg_body|].
    intros go k'' (-> & Hex). exact Hex.
  - intros pre Q' k' (gs & ptn & Hh & _ & Hg). simpl in Hg. rewrite !app_nil_r in *.
    by eapply H.
  - exists [], (flgptn fc). split; [by apply handed_refl|]. split; [done|].
    by destruct (deliver (tcbs k) (flgptn fc) ws) as [[? ?] ?].
Qed.
End set_loop.

(** Everything is settled again after the loop. *)
Lemma handed_settled k Q f fc ws gs kept p k' Q' :
  inv k Q -> flgid fc = f + 1 -> Q !! LFlg f = Some ws ->
  sems_settled k Q ->
  (forall f' fc', f' <> f -> flgcbs k !! f' = Some fc' -> flg_settled (tcbs k) Q f' fc') ->
  deliver (tcbs k) (flgptn fc) ws = (gs, kept, p) ->
  handed (k := k) (Q := Q) (f := f) (fc := fc) (ws := ws) gs kept p k' Q' -> settled k' Q'.
Proof.
  intros Hi Hid Hq HS HF Hg [(L & T & ->) _ Hi' Hq' Hoth Hleft Hrest Hlive _ _]. unfold with_lt in *.
  proj. pose proof Hi as (Hr & _ & Ha).
  assert (Hsame : forall h n, obj_head h -> h <> LFlg f -> inq Q h n -> same_wait (tcbs k) T n).
  { intros h n Ho Hne Hin. unfold same_wait, waiter. destruct n as [| | | | | | | | |u| | | | |]; try done.
    rewrite Hrest; [done|]. intros Hu. apply Hne.
    eapply rep_inq_unique; [exact Hr|exact Hin|by exists ws]. }
  split; [split|done].
  - intros s sc Hs. eapply (sem_settled_same (tcbs k) _ Q); [by apply Hoth| |by apply HS].
    intros n. by apply Hsame.
  - intros f' fc' Hf'. proj. destruct (decide (f' = f)) as [->|Hne].
    + rewrite lookup_insert_eq in Hf'. simplify_eq. intros ws' _ Hws'. simplify_eq. simpl.
      pose proof (deliver_settled _ _ _ _ _ _ Hg) as Hset.
      rewrite Forall_forall in *. intros n Hn. rewrite <- (Hset n Hn).
      unfold wmatch, waiter. destruct n as [| | | | | | | | |u| | | | |]; try done. by rewrite Hleft.
    + rewrite lookup_insert_ne in Hf' by done. intros ws' Hid' Hws'.
      assert (LFlg f' <> LFlg f) by congruence.
      eapply (flg_settled_shrinks (tcbs k) _ Q Q); [| |by apply HF|exact Hid'|].
      * rewrite <- (Hoth (LFlg f')) by done. by eexists.
      * intros ws0 E. exists ws0. split; [done|]. split; [done|]. intros n Hn.
        apply (Hsame (LFlg f')); [done|done|by exists ws0].
      * by rewrite <- (Hoth (LFlg f')).
Qed.

(** The bits arrive: the state, and what the waiters get by the reference. *)
Definition flag_set (k : kernel) (Q : queues) (f : Z) (fc : FLGCB) (ptn : Z)
    (k' : kernel) (Q' : queues) : Prop :=
  exists ws gs kept p, Q !! LFlg f = Some ws /\ deliver (tcbs k) ptn ws = (gs, kept, p) /\
    a_gives E_OK gs (tcbs k, Q) = (tcbs k', Q') /\ Q' !! LFlg f = Some kept /\
    flgcbs k' = <[f := set_flgptn p fc]> (flgcbs k) /\ mie k' = mie k /\
    if decide (ws = []) then next k' = next k /\ msip k' = msip k else switched k Q' k'.

(** What [tk_set_flg] gives and leaves. *)
Definition set_flg_post k Q id setptn (r : Z) (k' : kernel) : Prop :=
  exists Q', wf k' Q' /\
    if negb (tkmc_id_in_range id CFN_MAX_FLGID) then r = E_ID /\ k' = k
    else exists fc, flgcbs k !! (id - 1) = Some fc /\
      if no_exist (flgid fc) then r = E_NOEXS /\ k' = k
      else r = E_OK /\ flag_set k Q (id - 1) fc (Z.lor (flgptn fc) setptn) k' Q'.

Lemma others_settled k Q f fc1 : flgs_settled k Q -> forall f' fc', f' <> f ->
  <[f := fc1]> (flgcbs k) !! f' = Some fc' -> flg_settled (tcbs k) Q f' fc'.
Proof. intros H f' fc' Hne Hf'. rewrite lookup_insert_ne in Hf' by done. by apply H. Qed.

(** The state after the loop and the request to switch. *)
Lemma flag_served k Q f fc p1 ws gs kept p k2 Q2 :
  let fc1 := set_flgptn p1 fc in
  let k1 := set_flgcbs (<[f := fc1]> (flgcbs k)) (set_mie false k) in
  let k' := set_mie (mie k) (resched Q2 k2) in
  wf k Q -> flgid fc = f + 1 -> Q !! LFlg f = Some ws -> ws <> [] -> inv k1 Q ->
  deliver (tcbs k) p1 ws = (gs, kept, p) ->
  handed (k := k1) (Q := Q) (f := f) (fc := fc1) (ws := ws) gs kept p k2 Q2 ->
  wf k' Q2 /\ flag_set k Q f fc p1 k' Q2.
Proof.
  intros fc1 k1 k' (Hi & [[HS HF] HT] & Hsch) Hid Hq Hne Hi1 Hg Hh.
  pose proof (others_settled k Q f fc1 HF) as HF1.
  pose proof (hd_inv _ _ _ _ _ Hh) as Hi2.
  pose proof (handed_settled k1 Q f fc1 ws gs kept p k2 Q2 Hi1 Hid Hq HS HF1 Hg Hh) as Hs2.
  destruct Hh as [(L & T & Ek) Hgv _ Hk2 _ _ _ _ Hw _]. split.
  - change (wf (resched Q2 k2) Q2). apply resched_wf; [done|done|].
    eapply (woken_cur_ok k1); [exact Hw|]. by eapply sched_cur_ok.
  - exists ws, gs, kept, p. rewrite (decide_False (P := ws = [])) by done.
    split; [done|]. split; [exact Hg|].
    assert (Hsw : switched k Q2 k') by (apply resched_switched; [by rewrite Ek|by rewrite Ek|done]).
    destruct (resched_fields Q2 k2 (mie k)) as (Et & _ & Ef & _). unfold k'.
    rewrite Et, Ef. split; [exact Hgv|]. split; [done|]. split; [|split; [done|exact Hsw]].
    rewrite Ek. unfold k1, with_lt, fc1. proj. by rewrite insert_insert_eq.
Qed.

Lemma wp_set_flg k Q id setptn : wf k Q -> is_u32 setptn ->
  wp (tk_set_flg id setptn) (set_flg_post k Q id setptn) k.
Proof.
  unfold set_flg_post.
  intros Hwf Hset32. unfold tk_set_flg.
  destruct (tkmc_id_in_range id CFN_MAX_FLGID) eqn:Eid; cbn [negb]; [|by apply wp_ret; exists Q].
  destruct (flg_here k Q id (proj1 Hwf) Eid) as (Hrange & fc & Hf & Hcase). set (f := id - 1) in *.
  apply wp_bind, wp_DI. apply wp_bind. eapply wp_flg_get; [exact Hf|].
  destruct Hcase as [(Hex & Hid & ws & Hq & Hl)|(Hex & _ & _)]; rewrite Hex.
  2:{ apply wp_leave. exists Q. split; [done|]. exists fc. by rewrite Hex. }
  pose proof Hwf as (Hi & [[HS HF] HT] & Hsch).
  set (p1 := Z.lor (flgptn fc) setptn). set (fc1 := set_flgptn p1 fc).
  set (k1 := set_flgcbs (<[f := fc1]> (flgcbs k)) (set_mie false k)).
  assert (Hp1 : is_u32 p1) by (apply u32_lor; [apply Hl|done]).
  apply wp_bind. eapply wp_flg_upd; [exact Hf|]. proj. fold p1 fc1 k1.
  assert (Hf1 : flgcbs k1 !! f = Some fc1) by apply lookup_insert_eq.
  assert (Hi1 : inv k1 Q) by exact (inv_flg_ptn _ _ _ _ _ p1 Hi Hrange Hf Hid Hq Hl Hp1).
  apply wp_bind. eapply wp_list_empty; [exact (proj1 Hi1)|exact Hq|]. apply wp_bind.
  destruct (decide (ws = [])) as [->|Hne].
  - rewrite bool_decide_true by done. cbn [negb]. apply wp_ret. apply wp_bind, wp_EI; [done|].
    apply wp_ret. exists Q. split.
    + assert (Hs1 : settled k1 Q).
      { eapply (handed_settled k1 Q f fc1 [] [] [] p1); try done; [exact (others_settled k Q f fc1 HF)|].
        exact (handed_refl (k := k1) (fc := fc1) Hf1 Hid Hq Hi1 HT Hp1). }
      split; [exact Hi1|]. split; [exact Hs1|exact Hsch].
    + exists fc. rewrite Hex. split; [done|]. split; [done|]. exists [], [], [], p1. done.
  - rewrite bool_decide_false by done. cbn [negb]. apply wp_bind.
    eapply (wp_set_loop (k := k1) (fc := fc1) Hrange Hf1 Hid Hq Hi1 HT _ Hp1).
    intros gs kept p k2 Q2 Hg Hh. pose proof Hh as [(L & T & Ek) _ Hi2 _ _ _ _ _ _ _].
    destruct (flag_served k Q f fc p1 ws gs kept p k2 Q2 Hwf Hid Hq Hne Hi1 Hg Hh) as [Hwf' Hset].
    eapply wp_reschedule; [exact Hi2|]. apply wp_bind, wp_EI; [by rewrite resched_mie, Ek|].
    apply wp_ret. exists Q2. split; [exact Hwf'|]. exists fc. by rewrite Hex.
Qed.

(** C13: [tk_set_flg] on every branch: it refuses with E_ID or E_NOEXS and then
    changes nothing; otherwise the bits are set and the loop over the waiters gives
    each of them what the reference walk [deliver] gives, with the pattern at its
    turn and the clears of those before it, and no satisfied waiter is left. *)
Theorem set_flg_spec k Q id setptn : wf k Q -> is_u32 setptn ->
  wp (tk_set_flg id setptn) (set_flg_post k Q id setptn) k.
Proof. apply wp_set_flg. Qed.

(** ** [tk_cre_flg] *)

Definition created_flg (f : Z) (p : T_CFLG) : FLGCB :=
  mk_FLGCB (f + 1) (cf_exinf p) (cf_flgatr p) (iflgptn p).

(** The updates of one flag, one after the other. *)
Ltac upd_flg :=
  repeat (apply wp_bind; eapply wp_flg_upd; [first [eassumption | apply lookup_insert_eq]|]; proj);
  rewrite ?insert_insert_eq.

(** A flag that appears: nothing else changes. *)
Lemma created_flg_wf k Q f fc p L :
  wf k Q -> 0 <= f < CFN_MAX_FLGID -> flgcbs k !! f = Some fc -> inq Q LFreeFlg (LFlg f) ->
  is_u32 (iflgptn p) ->
  let Q' := <[LFlg f := []]> (qrm (LFlg f) Q) in
  rep L Q' -> dom L = dom (links k) ->
  wf (set_flgcbs (<[f := created_flg f p]> (flgcbs k)) (set_links L k)) Q'.
Proof.
  intros (Hi & Hset & Hsch) Hrange Hf Hin Hini Q' HL HD.
  pose proof Hi as (Hr & Hn & Ha).
  assert (Hobj : (exists s, LFlg f = LSem s) \/ (exists f', LFlg f = LFlg f') \/
    (exists mb, LFlg f = LMbx mb)) by eauto.
  assert (Hlk : forall h, obj_head h -> h <> LFlg f -> Q' !! h = Q !! h).
  { intros h Ho Hne. by apply (lookup_obj_new Ha Hobj). }
  split; [|split; [split; [split|]|]].
  - split; [done|]. split; [by eapply nodes_ok_dom|]. proj.
    apply (ainv_obj Ha Hobj).
    + apply moved_obj_new. by eapply rep_inq_no_head.
    + done.
    + intros h Hx. by apply inq_obj_new in Hx.
    + intros s _. by left.
    + intros f' Hr'. destruct (decide (f' = f)) as [->|Hne].
      * right. rewrite lookup_insert_eq. eexists. split; [done|]. left. split; [done|].
        exists []. split; [apply lookup_insert_eq|]. split; [done|].
        split; [intros _; constructor|]. simpl. lia.
      * left. rewrite lookup_insert_ne by done. split; [done|]. congruence.
    + intros mb _. by left.
  - destruct Hset as [[HS _] _]. intros s sc Hs.
    eapply (sem_settled_same (tcbs k) _ Q); [by apply Hlk|done|by apply HS].
  - destruct Hset as [[_ HF] _]. intros f' fc' Hf'. proj. destruct (decide (f' = f)) as [->|Hne].
    + intros ws _ Hq. unfold Q' in Hq. rewrite lookup_insert_eq in Hq. simplify_eq. constructor.
    + rewrite lookup_insert_ne in Hf' by done. intros ws Hid Hq.
      rewrite Hlk in Hq by (done || congruence). by apply (HF f' fc' Hf').
  - by apply (new_obj_timers Hi Hobj), Hset.
  - by apply (new_obj_sched Hi Hobj).
Qed.

(** What [tk_cre_flg] gives and leaves. *)
Definition cre_flg_post k Q pk (r : Z) (k' : kernel) : Prop :=
  exists Q', wf k' Q' /\
    match pk with
    | None => r = E_PAR /\ k' = k
    | Some p =>
      if decide (Z.land (cf_flgatr p) (not32 VALID_FLGATR) <> 0) then r = E_RSATR /\ k' = k
      else match Q !! LFreeFlg with
        | Some (LFlg f :: _) => r = f + 1 /\ exists L,
            k' = set_flgcbs (<[f := created_flg f p]> (flgcbs k)) (set_links L k) /\
            Q' = <[LFlg f := []]> (qrm (LFlg f) Q)
        | _ => r = E_LIMIT /\ k' = k
        end
    end.

Lemma wp_cre_flg k Q pk : wf k Q -> (forall p, pk = Some p -> is_u32 (iflgptn p)) ->
  wp (tk_cre_flg pk) (cre_flg_post k Q pk) k.
Proof.
  unfold cre_flg_post.
  intros Hwf Hini. unfold tk_cre_flg. destruct pk as [p|]; [|apply wp_ret; by exists Q].
  specialize (Hini p eq_refl).
  destruct (decide (Z.land (cf_flgatr p) (not32 VALID_FLGATR) <> 0)) as [Eatr|Eatr]; [apply wp_ret; by exists Q|].
  pose proof Hwf as ((Hr & Hn & Ha) & _).
  destruct (ai_head _ _ _ _ _ _ Ha LFreeFlg I) as [fr Hfr].
  apply wp_bind, wp_DI. apply wp_bind. eapply wp_list_empty; [exact Hr|done|].
  rewrite Hfr. destruct fr as [|n fr].
  { rewrite bool_decide_true by done. apply wp_bind, wp_ret, wp_leave. by exists Q. }
  rewrite bool_decide_false by done. cbn [negb].
  assert (Hin : inq Q LFreeFlg n) by (exists (n :: fr); split; [done|by left]).
  pose proof (ai_kind _ _ _ _ _ _ Ha _ _ Hin) as Hk.
  destruct n as [| | | | | | | | | | |f| | |]; try done.
  destruct (ai_flg _ _ _ _ _ _ Ha f Hk) as (fc & Hf & Hok).
  assert (Hid : flgid fc = noexs_id f).
  { destruct Hok as [(_ & ws & E & _)|[? _]]; [|done].
    pose proof (rep_inq_no_head _ _ _ _ Hr Hin). congruence. }
  apply wp_bind, wp_bind. eapply wp_list_first; [exact Hr|done|]. simpl.
  apply wp_bind, wp_ret. apply wp_bind. eapply wp_list_del; [exact Hr|exact Hin|].
  intros L1 HL1 HD1. proj. apply wp_bind. eapply wp_list_init; [exact HL1| | |].
  { intros h Hx. by apply inq_qrm in Hx as (_ & ? & _). }
  { proj. rewrite HD1. by apply Hn. }
  intros L2 HL2 HD2. proj. apply wp_bind. eapply wp_flg_get; [done|]. upd_flg.
  destruct (id_bits_ok f) as (_ & _ & _ & Hb & _); [unfold kind_ok, CFN_MAX_FLGID in Hk; lia|].
  rewrite Hid, Hb. apply wp_ret. apply wp_bind, wp_EI; [done|]. apply wp_ret.
  set (k' := set_flgcbs (<[f := created_flg f p]> (flgcbs k)) (set_links L2 k)).
  match goal with |- exists Q', wf ?kk Q' /\ _ =>
    assert (Ek : kk = k') by (unfold k'; clear; destruct k; reflexivity) end.
  rewrite Ek. exists (<[LFlg f := []]> (qrm (LFlg f) Q)). split.
  - eapply created_flg_wf; try done. congruence.
  - split; [done|]. by exists L2.
Qed.

(** ** [tk_wai_flg] *)

Lemma flg_join_ok k Q t c f fc xs ys w m timed :
  wf k Q -> running k Q t c -> flgcbs k !! f = Some fc -> Q !! LFlg f = Some (xs ++ ys) ->
  flgid fc = f + 1 -> 0 <= f < CFN_MAX_FLGID ->
  (Z.land (flgatr fc) TA_WMUL = 0 -> xs ++ ys = []) ->
  placed (tcbs k) (flgatr fc) t xs ys -> check_ptn (flgptn fc) w m = false ->
  join_ok (k := k) (Q := Q) (t := t) (c := c) (h := LFlg f) (xs := xs) (ys := ys)
    (w := TTW_FLG) (wi := WEventFlag w m 0) timed.
Proof.
  intros Hwf Hrun Hf Hq Hid Hrange Hone Hp Hck d L Hd HL HD k1.
  pose proof Hwf as ((Hr & Hn & Ha) & [[_ HF] _] & _). split.
  - split; [done|]. split; [by eapply nodes_ok_dom|]. unfold k1, with_lt. proj.
    eapply (ainv_join_flg Ha (run_tcb _ _ _ _ Hrun)); try done.
    + apply (run_nowhere _ _ _ _ Hrun).
    + apply (run_pri _ _ _ _ Hrun).
  - assert (HT : tcbs k1 = <[t := queued (WEventFlag w m 0) TTW_FLG d c]> (tcbs k)) by done.
    split.
    + intros s sc Hs. eapply (others_sem (h := LFlg f) Hwf Hrun I Hq HT); [done|exact Hs].
    + intros f' fc' Hf'. destruct (decide (f' = f)) as [->|Hne].
      * assert (fc' = fc) as -> by (unfold k1, with_lt in Hf'; proj; congruence).
        intros ws _ Hws. rewrite (others_lookup (h := LFlg f) Hwf Hrun I Hq), decide_True in Hws
          by done. injection Hws as <-.
        specialize (HF f fc Hf (xs ++ ys) Hid Hq). rewrite Forall_app in HF.
        assert (Hsame : forall n, n ∈ xs ++ ys ->
          wmatch (tcbs k1) (flgptn fc) n = wmatch (tcbs k) (flgptn fc) n).
        { intros n Hin. eapply wmatch_same, (others_wait Hrun HT (LFlg f)). by exists (xs ++ ys). }
        destruct HF as [Hx Hy]. rewrite Forall_app, Forall_cons. rewrite !Forall_forall in *.
        split; [|split].
        -- intros n Hin. rewrite Hsame by (apply elem_of_app; by left). by apply Hx.
        -- unfold wmatch, waiter. rewrite HT, lookup_insert_eq. exact Hck.
        -- intros n Hin. rewrite Hsame by (apply elem_of_app; by right). by apply Hy.
      * eapply (others_flg (h := LFlg f) Hwf Hrun I Hq HT); [congruence|exact Hf'].
Qed.

Definition wai_flg_error (p_flgptn waiptn wfmode tmout : Z) : bool :=
  bool_decide (p_flgptn = 0 \/ waiptn = 0) ||
  bool_decide (Z.land wfmode (not32 VALID_WFMODE) <> 0) || bool_decide (tmout < TMO_FEVR).

Lemma wai_flg_error_eq {A} p_flgptn waiptn wfmode tmout (e m : A) :
  (if decide (p_flgptn = 0 \/ waiptn = 0) then e
   else if decide (Z.land wfmode (not32 VALID_WFMODE) <> 0) then e
   else if decide (tmout < TMO_FEVR) then e else m) =
  if wai_flg_error p_flgptn waiptn wfmode tmout then e else m.
Proof. unfold wai_flg_error. repeat case_bool_decide; repeat case_decide; tauto. Qed.

(** What the call does to the flag that exists. *)
Definition wai_flg_case (k : kernel) (Q : queues) (t : Z) (c : TCB) (f : Z) (fc : FLGCB)
    (ws : list link) (waiptn wfmode p_flgptn tmout : Z) (r : call) (k' : kernel)
    (Q' : queues) : Prop :=
  if decide (Z.land (flgatr fc) TA_WMUL = 0 /\ ws <> []) then r = Return E_OBJ /\ k' = k
  else if check_ptn (flgptn fc) waiptn wfmode then r = Return E_OK /\ Q' = Q /\
    k' = set_flgcbs (<[f := set_flgptn (clear_ptn (flgptn fc) waiptn wfmode) fc]> (flgcbs k))
      (set_mem (<[p_flgptn := CWord (flgptn fc)]> (mem k)) k)
  else if decide (tmout = TMO_POL) then r = Return E_TMOUT /\ k' = k
  else r = Suspend (K_flg p_flgptn) /\ exists xs ys, ws = xs ++ ys /\
    placed (tcbs k) (flgatr fc) t xs ys /\
    waits_in (k := k) (Q := Q) (t := t) (c := c) (h := LFlg f) (xs := xs) (ys := ys)
      (w := TTW_FLG) (wi := WEventFlag waiptn wfmode 0) (ticks := tkmc_ms_to_ticks tmout)
      (bool_decide (0 < tmout)) k' Q'.

Lemma flg_waiters_tcbs k Q f ws : inv k Q -> Q !! LFlg f = Some ws ->
  forall n, n ∈ ws -> exists u cu, n = LWait u /\ tcbs k !! u = Some cu.
Proof.
  intros (Hr & _ & Ha) Hq n Hn.
  destruct (waiter_flg Hr Ha f n) as (u & cu & p & m & r & -> & _ & Hcu & _); [by exists ws|]. eauto.
Qed.

(** What [tk_wai_flg] gives and leaves. *)
Definition wai_flg_post k Q id waiptn wfmode p_flgptn tmout (r : call) (k' : kernel) : Prop :=
  exists Q', wf k' Q' /\ mie k' = mie k /\
    if negb (tkmc_id_in_range id CFN_MAX_FLGID) then r = Return E_ID /\ k' = k
    else if wai_flg_error p_flgptn waiptn wfmode tmout then r = Return E_PAR /\ k' = k
    else if negb (may_block k) then r = Return E_CTX /\ k' = k
    else let f := id - 1 in
      exists t c fc, current k = Some t /\ tcbs k !! t = Some c /\ flgcbs k !! f = Some fc /\
      if no_exist (flgid fc) then r = Return E_NOEXS /\ k' = k
      else exists ws, Q !! LFlg f = Some ws /\
        wai_flg_case k Q t c f fc ws waiptn wfmode p_flgptn tmout r k' Q'.

Lemma wp_wai_flg k Q id waiptn wfmode p_flgptn tmout :
  wf k Q -> quiet k -> timer_in_reach k -> is_i32 tmout ->
  wp (tk_wai_flg id waiptn wfmode p_flgptn tmout) (wai_flg_post k Q id waiptn wfmode p_flgptn tmout) k.
Proof.
  unfold wai_flg_post.
  intros Hwf Hqt Hreach Ht32. unfold tk_wai_flg. rewrite wai_flg_error_eq.
  destruct (tkmc_id_in_range id CFN_MAX_FLGID) eqn:Eid; cbn [negb]; [|by apply wp_ret; exists Q].
  destruct (wai_flg_error p_flgptn waiptn wfmode tmout); [by apply wp_ret; exists Q|].
  apply wp_bind, wp_DI, wp_may_block; [intros ->; apply wp_leave; by exists Q|].
  intros t -> Htask. destruct (task_running k Q t Hwf Hqt Htask) as (Hm0 & c & Hrun).
  pose proof Htask as (Hm & Hcur & Hisr). pose proof (run_tcb _ _ _ _ Hrun) as Hc.
  pose proof Hwf as (Hi & _). pose proof Hi as (Hr & Hn & Ha).
  destruct (flg_here k Q id Hi Eid) as (Hrange & fc & Hf & Hcase). set (f := id - 1) in *.
  apply wp_bind. eapply wp_flg_get; [exact Hf|].
  destruct Hcase as [(Hex & Hid & ws & Hq & Hl)|(Hex & _ & _)]; rewrite Hex.
  2:{ apply wp_leave. exists Q. split; [done|]. split; [done|].
      exists t, c, fc. by rewrite Hex. }
  apply wp_bind. eapply wp_list_empty; [exact Hr|exact Hq|].
  match goal with |- wp _ ?P _ => set (Post := P) end.
  assert (Hpost : forall r k' Q', wf k' Q' -> mie k' = mie k ->
    wai_flg_case k Q t c (id - 1) fc ws waiptn wfmode p_flgptn tmout r k' Q' -> Post r k').
  { intros r k' Q' Hwf' Hm' H. exists Q'. split; [done|]. split; [done|].
    exists t, c, fc. rewrite Hex. repeat (split; [done|]). by exists ws. }
  clearbody Post. unfold wai_flg_case in Hpost. fold f in Hpost.
  destruct (decide (Z.land (flgatr fc) TA_WMUL = 0 /\ ws <> [])) as [Eo|Eo].
  { rewrite decide_True by (split; [apply Eo|by apply bool_decide_eq_false, Eo]).
    apply wp_leave. by apply (Hpost _ _ Q). }
  rewrite decide_False by (rewrite bool_decide_eq_false; exact Eo).
  destruct (check_ptn (flgptn fc) waiptn wfmode) eqn:Eck.
  { unfold store_w. apply wp_bind, wp_modify. apply wp_bind. eapply wp_flg_upd; [exact Hf|].
    apply wp_bind, wp_EI; [done|]. apply wp_ret. apply (Hpost _ _ Q); [|done|].
    - eapply (wf_flg_less k Q f fc ws); try done; [|apply subptn_clear]. by apply u32_clear, Hl.
    - split; [done|]. split; [done|]. by destruct k. }
  destruct (decide (tmout = TMO_POL)) as [Epol|Epol].
  { apply wp_leave. by apply (Hpost _ _ Q). }
  destruct Hl as (_ & Hord & Hone).
  apply wp_bind. eapply wp_current_tcb; [done|].
  apply (wp_enqueue_wait (h := LFlg f) (ws := ws) Hwf Htask Hrun Hreach I Hq Ht32);
    [|exact for_each_scans|by eapply flg_waiters_tcbs|exact Hord|].
  { intros xs ys -> Hpl timed. eapply flg_join_ok; try done. intros Ha0.
    destruct (xs ++ ys) eqn:E; [done|]. exfalso. apply Eo. done. }
  intros k' Q' Hwf' Hm' Hw. by apply (Hpost _ _ Q').
Qed.

(** C16: [tk_wai_flg] on every branch: the errors change nothing, a pattern that
    satisfies the request is written to the caller and cleared as asked, a poll
    times out, and otherwise the caller is queued at its place and waits; the state
    stays well formed. *)
Theorem wai_flg_spec k Q id waiptn wfmode p_flgptn tmout :
  wf k Q -> quiet k -> timer_in_reach k -> is_i32 tmout ->
  wp (tk_wai_flg id waiptn wfmode p_flgptn tmout) (wai_flg_post k Q id waiptn wfmode p_flgptn tmout) k.
Proof. apply wp_wai_flg. Qed.

(** What [tk_wai_flg_resume] gives and leaves. *)
Definition wai_flg_resume_post k Q t c p_flgptn (r : Z) (k' : kernel) : Prop :=
  r = wupcause c /\ wf k' Q /\
    exists M, k' = set_mem M (cause_taken k t c) /\
    forall p m ptn, winfo c = WEventFlag p m ptn ->
      M = if decide (wupcause c = E_OK) then <[p_flgptn := CWord ptn]> (mem k) else mem k.

Lemma wp_wai_flg_resume k Q t c p_flgptn : wf k Q -> current k = Some t ->
  tcbs k !! t = Some c ->
  (wupcause c = E_OK -> exists p m ptn, winfo c = WEventFlag p m ptn) ->
  wp (tk_wai_flg_resume p_flgptn) (wai_flg_resume_post k Q t c p_flgptn) k.
Proof.
  unfold wai_flg_resume_post.
  intros Hwf Hcur Hc Hptn. pose proof (cause_taken_wf k Q t c Hwf Hc) as Hwf'.
  unfold tk_wai_flg_resume. apply wp_bind, wp_DI. apply wp_bind.
  eapply wp_current_tcb; [done|]. apply wp_bind. eapply wp_tcb_get; [done|].
  apply wp_bind. case_decide as Ec.
  - destruct (Hptn Ec) as (p & m & ptn & Ew). rewrite Ew. unfold store_w. apply wp_modify. proj.
    upd_tcb. apply wp_bind, wp_EI; [done|]. apply wp_ret.
    split; [done|]. split; [exact Hwf'|]. exists (<[p_flgptn := CWord ptn]> (mem k)).
    split; [by destruct k|]. intros p' m' ptn' E. by simplify_eq.
  - apply wp_ret. upd_tcb. apply wp_bind, wp_EI; [done|]. apply wp_ret.
    split; [done|]. split; [exact Hwf'|]. exists (mem k). split; [by destruct k|]. done.
Qed.
