(* ===== verification/Mailbox.v ===== *)
(** * Mailboxes: [src/kernel/mailbox.c]

    A message is the address of a [T_MSG] of the application; its link is
    [LMsg a], and the priority of a [T_MSG_PRI] is the word behind the link. *)

From S2P Require Import Prelude DList Tkernel Kernel Inv Moves Rules Wait Sched Timer Block.

Open Scope Z_scope.

(** [offsetof(T_MSG_PRI, msgpri)]: a [T_MSG] is two pointers. *)
Definition MSGPRI_OFFSET := 8.

Definition msg_pri (a : Z) : K Z :=
  v <- load_w (a + MSGPRI_OFFSET) ;;
  match v with CWord z => ret z | CText _ => wild end.

Definition insert_msg_fifo (m msg : Z) : K unit :=
  list_add_tail (msg_link msg) (LMbxq m).

Fixpoint insert_msg_scan (fuel : nat) (m msg : Z) (pos : link) : K unit :=
  match fuel with
  | O => hang
  | S fuel =>
    if decide (pos = LMbxq m) then list_add_tail (msg_link msg) (LMbxq m)
    else
      queued <- msg_from_link pos ;;
      pri <- msg_pri msg ;;
      qpri <- msg_pri queued ;;
      if decide (pri < qpri) then
        before <- list_prev pos ;;
        list_add (msg_link msg) before
      else
        pos <- list_next pos ;;
        insert_msg_scan fuel m msg pos
  end.

(** The first check of [insert_msg_pri]: the message is not ahead of the last
    one. *)
Definition msg_goes_last (m msg : Z) : K bool :=
  empty <- list_empty (LMbxq m) ;;
  if negb empty then
    l <- list_prev (LMbxq m) ;;
    last <- msg_from_link l ;;
    pri <- msg_pri msg ;;
    lpri <- msg_pri last ;;
    ret (bool_decide (lpri <= pri))
  else ret false.

Definition insert_msg_pri (m msg : Z) : K unit :=
  pos <- list_next (LMbxq m) ;;
  goes_last <- msg_goes_last m msg ;;
  if (goes_last : bool) then list_add_tail (msg_link msg) (LMbxq m)
  else
    fuel <- gets walk_fuel ;;
    insert_msg_scan fuel m msg pos.

Fixpoint insert_waiter_scan (fuel : nat) (m t : Z) (pos : link) : K unit :=
  match fuel with
  | O => hang
  | S fuel =>
    if decide (pos = LMbx m) then list_add_tail (LWait t) (LMbx m)
    else
      queued <- tcb_of_wait pos ;;
      c <- tcb_get t ;;
      cq <- tcb_get queued ;;
      if decide (itskpri c < itskpri cq) then
        before <- list_prev pos ;;
        list_add (LWait t) before
      else
        pos <- list_next pos ;;
        insert_waiter_scan fuel m t pos
  end.

Definition insert_waiter (m t : Z) : K unit :=
  mc <- mbx_get m ;;
  if decide (Z.land (mbxatr mc) TA_TPRI <> 0) then
    pos <- list_next (LMbx m) ;;
    fuel <- gets walk_fuel ;;
    insert_waiter_scan fuel m t pos
  else list_add_tail (LWait t) (LMbx m).

Fixpoint pop_waiting_loop (fuel : nat) (m : Z) : K (option Z) :=
  match fuel with
  | O => hang
  | S fuel =>
    empty <- list_empty (LMbx m) ;;
    if (empty : bool) then ret None
    else
      n <- list_next (LMbx m) ;;
      t <- tcb_of_wait n ;;
      list_del (LWait t) ;;;
      list_init (LWait t) ;;;
      c <- tcb_get t ;;
      if decide (tskstat c = TTS_WAI /\ tskwait c = TTW_MBX) then ret (Some t)
      else pop_waiting_loop fuel m
  end.

Definition pop_waiting_receiver (m : Z) : K (option Z) :=
  fuel <- gets walk_fuel ;;
  pop_waiting_loop fuel m.

Definition make_waiter_ready (t cause msg : Z) : K unit :=
  tcb_upd t (set_winfo (WMailbox msg)) ;;;
  tkmc_complete_wait t cause.

Definition dispatch_if_needed : K unit :=
  cur <- gets current ;;
  if decide (cur = None) then ret tt else reschedule.

Definition tkmc_init_mbxcb : K unit :=
  list_init LFreeMbx ;;;
  for_range (Z.to_nat CFN_MAX_MBXID) 0 (fun i =>
    mbx_upd i (fun _ => mk_MBXCB (i32 (Z.lor (i + 1) NOEXS_MASK)) 0 0) ;;;
    list_init (LMbx i) ;;;
    list_init (LMbxq i) ;;;
    list_add_tail (LMbx i) LFreeMbx).

Definition VALID_MBXATR := Z.lor TA_TFIFO (Z.lor TA_TPRI (Z.lor TA_MFIFO TA_MPRI)).

Definition tk_cre_mbx (pk_cmbx : option T_CMBX) : K Z :=
  match pk_cmbx with
  | None => ret E_PAR
  | Some p =>
    if decide (Z.land (cm_mbxatr p) (not32 VALID_MBXATR) <> 0) then ret E_RSATR
    else
      intsts <- DI ;;
      empty <- list_empty LFreeMbx ;;
      new_mbxid <- (if negb empty then
        n <- list_next LFreeMbx ;;
        m <- mbxcb_of n ;;
        list_del (LMbx m) ;;;
        list_init (LMbx m) ;;;
        list_init (LMbxq m) ;;;
        mc <- mbx_get m ;;
        let id := i32 (Z.land (u32 (mbxid mc)) (not32 NOEXS_MASK)) in
        mbx_upd m (set_mbxid id) ;;;
        mbx_upd m (set_mbx_exinf (cm_exinf p)) ;;;
        mbx_upd m (set_mbxatr (cm_mbxatr p)) ;;;
        ret id
      else ret E_LIMIT) ;;
      EI intsts ;;;
      ret new_mbxid
  end.

Fixpoint release_receivers (fuel : nat) (m : Z) : K unit :=
  match fuel with
  | O => hang
  | S fuel =>
    r <- pop_waiting_receiver m ;;
    match r with
    | None => ret tt
    | Some t =>
      make_waiter_ready t E_DLT 0 ;;;
      release_receivers fuel m
    end
  end.

Definition tk_del_mbx (mbxid0 : Z) : K Z :=
  if negb (tkmc_id_in_range mbxid0 CFN_MAX_MBXID) then ret E_ID
  else
    let m := mbxid0 - 1 in
    intsts <- DI ;;
    mc <- mbx_get m ;;
    if no_exist (mbxid mc) then EI intsts ;;; ret E_NOEXS
    else
      fuel <- gets walk_fuel ;;
      release_receivers fuel m ;;;
      mbx_upd m (set_mbxid (i32 (Z.lor (u32 mbxid0) NOEXS_MASK))) ;;;
      mbx_upd m (set_mbx_exinf 0) ;;;
      mbx_upd m (set_mbxatr 0) ;;;
      list_init (LMbx m) ;;;
      list_init (LMbxq m) ;;;
      list_add_tail (LMbx m) LFreeMbx ;;;
      dispatch_if_needed ;;;
      EI intsts ;;;
      ret E_OK.

Definition tk_snd_mbx (mbxid0 pk_msg : Z) : K Z :=
  if negb (tkmc_id_in_range mbxid0 CFN_MAX_MBXID) then ret E_ID
  else if decide (pk_msg = 0) then ret E_PAR
  else
    let m := mbxid0 - 1 in
    intsts <- DI ;;
    mc <- mbx_get m ;;
    if no_exist (mbxid mc) then EI intsts ;;; ret E_NOEXS
    else
      let mpri := negb (bool_decide (Z.land (mbxatr mc) TA_MPRI = 0)) in
      bad <- (if (mpri : bool) then
                pri <- msg_pri pk_msg ;; ret (bool_decide (pri <= 0))
              else ret false) ;;
      if (bad : bool) then EI intsts ;;; ret E_PAR
      else
        r <- pop_waiting_receiver m ;;
        match r with
        | Some t =>
          make_waiter_ready t E_OK pk_msg ;;;
          dispatch_if_needed
        | None =>
          if mpri then insert_msg_pri m pk_msg else insert_msg_fifo m pk_msg
        end ;;;
        EI intsts ;;;
        ret E_OK.

Definition tk_rcv_mbx (mbxid0 ppk_msg tmout : Z) : K call :=
  if negb (tkmc_id_in_range mbxid0 CFN_MAX_MBXID) then ret (Return E_ID)
  else if decide (ppk_msg = 0 \/ tmout < TMO_FEVR) then ret (Return E_PAR)
  else
    let m := mbxid0 - 1 in
    intsts <- DI ;;
    can <- tkmc_can_block intsts ;;
    if negb can then EI intsts ;;; ret (Return E_CTX)
    else
      mc <- mbx_get m ;;
      if no_exist (mbxid mc) then EI intsts ;;; ret (Return E_NOEXS)
      else
        empty <- list_empty (LMbxq m) ;;
        if negb empty then
          link <- list_next (LMbxq m) ;;
          msg <- msg_from_link link ;;
          list_del link ;;;
          list_init link ;;;
          store_w ppk_msg (CWord msg) ;;;
          EI intsts ;;;
          ret (Return E_OK)
        else if decide (tmout = TMO_POL) then EI intsts ;;; ret (Return E_TMOUT)
        else
          t <- current_tcb ;;
          tcb_upd t (set_winfo (WMailbox 0)) ;;;
          list_init (LWait t) ;;;
          insert_waiter m t ;;;
          (if decide (0 < tmout) then
             tkmc_schedule_timer t (tkmc_ms_to_ticks tmout) TTW_MBX
           else wait_forever t TTW_MBX) ;;;
          EI intsts ;;;
          ret (Suspend (K_mbx ppk_msg)).

Definition tk_rcv_mbx_resume (ppk_msg : Z) : K Z :=
  intsts <- DI ;;
  t <- current_tcb ;;
  c <- tcb_get t ;;
  empty <- list_empty (LWait t) ;;
  (if negb empty then list_del (LWait t) ;;; list_init (LWait t) else ret tt) ;;;
  (if decide (wupcause c = E_OK) then
     match winfo c with
     | WMailbox msg => store_w ppk_msg (CWord msg)
     | _ => wild
     end
   else ret tt) ;;;
  tcb_upd t (set_winfo (WMailbox 0)) ;;;
  tcb_upd t (set_wupcause E_OK) ;;;
  tcb_upd t (set_delay_ticks 0) ;;;
  tcb_upd t (set_tskwait 0) ;;;
  EI intsts ;;;
  ret (wupcause c).

Implicit Types (k : kernel) (Q : queues) (t m : Z) (h n : link).

(** ** Looking up a mailbox *)

Lemma mbx_here k Q id : inv k Q -> tkmc_id_in_range id CFN_MAX_MBXID = true ->
  0 <= id - 1 < CFN_MAX_MBXID /\ exists mc, mbxcbs k !! (id - 1) = Some mc /\
    ((no_exist (mbxid mc) = false /\ mbxid mc = id - 1 + 1 /\
        exists ws msgs, Q !! LMbx (id - 1) = Some ws /\ Q !! LMbxq (id - 1) = Some msgs /\
          order_ok (tcbs k) (mbxatr mc) ws /\ (ws = [] \/ msgs = [])) \/
     (no_exist (mbxid mc) = true /\ mbxid mc = noexs_id (id - 1) /\
        inq Q LFreeMbx (LMbx (id - 1)) /\ alone Q (LMbxq (id - 1)))).
Proof.
  intros (_ & _ & Ha) Hid. apply id_in_range_spec in Hid.
  assert (Hr : 0 <= id - 1 < CFN_MAX_MBXID) by lia.
  split; [done|]. destruct (ai_mbx _ _ _ _ _ _ Ha _ Hr) as (mc & Hs & Hok).
  exists mc. split; [done|].
  destruct (id_bits_ok (id - 1)) as (_ & Hb1 & Hb2 & _); [unfold CFN_MAX_MBXID in Hr; lia|].
  destruct Hok as [(E & ws & msgs & Hq & Hq' & Ho & He)|(E & Hi & Hal)]; rewrite E; [left|right].
  - split; [done|]. split; [done|]. by exists ws, msgs.
  - done.
Qed.

(** ** Messages come and go *)

Section messages.
Context {k : kernel} {Q Q' : queues} {m : Z} {mc : MBXCB} {L : gmap link (link * link)}.
Hypothesis Hi : inv k Q.
Hypothesis Hmc : mbxcbs k !! m = Some mc.
Hypothesis Hid : mbxid mc = m + 1.
Hypothesis Hrange : 0 <= m < CFN_MAX_MBXID.
(** Only links of messages move, from the queue of [m] and into it. *)
Hypothesis Hsame : forall h, (forall a, h <> LMsg a) -> h <> LMbxq m -> Q' !! h = Q !! h.
Hypothesis Hmsgs : exists msgs, Q' !! LMbxq m = Some msgs /\
  (forall n, n ∈ msgs -> exists a, n = LMsg a) /\ (Q !! LMbx m = Some [] \/ msgs = []).
Hypothesis Hheads : forall a xs, Q' !! LMsg a = Some xs -> xs = [].
Hypothesis Hlinks : rep L Q'.
Hypothesis Hdom : dom L = dom (links k).

Let moves (n : link) : Prop := n = LMbxq m \/ exists a, n = LMsg a.

Lemma msgs_moved : moved_nodes moves Q Q'.
Proof using Hi Hsame Hmsgs Hheads.
  destruct Hi as (_ & _ & Ha). destruct Hmsgs as (msgs & Eq & Hm & _).
  intros n Hn. assert (Hno : forall a, n <> LMsg a) by (intros a ->; apply Hn; right; by exists a).
  assert (En : Q' !! n = Q !! n) by (apply Hsame; [done|by intros ->; apply Hn; left]).
  split; [|by rewrite En; unfold alone; rewrite En]. intros h.
  destruct (decide (h = LMbxq m)) as [->|Hne].
  { split; intros Hx'; exfalso.
    - destruct Hx' as (xs & E & Hx). simplify_eq. destruct (Hm n Hx) as [a ->]. by apply (Hno a).
    - pose proof (ai_kind _ _ _ _ _ _ Ha _ _ Hx') as Hk. destruct n; try done. by eapply Hno. }
  destruct h; try (unfold inq; by rewrite Hsame). split; intros Hx'; exfalso.
  - destruct Hx' as (xs & E & Hx). by rewrite (Hheads _ _ E) in Hx; apply elem_of_nil in Hx.
  - by pose proof (ai_kind _ _ _ _ _ _ Ha _ _ Hx').
Qed.

Lemma msgs_inv : inv (set_links L k) Q'.
Proof using Hi Hmc Hid Hrange Hsame Hmsgs Hheads Hlinks Hdom.
  destruct Hi as (Hr & Hn & Ha). destruct Hmsgs as (msgs & Eq & Hm & He).
  split; [done|]. split; [by eapply nodes_ok_dom|]. proj.
  assert (Hs : forall h, (forall a, h <> LMsg a) -> h <> LMbxq m ->
    shrinks (tcbs k) (tcbs k) Q Q' h).
  { intros h H1 H2. by apply obj_same_shrinks, Hsame. }
  eapply (ainv_objs _ _ _ _ _ Q _ _ _ Q' moves); [exact Ha|exact msgs_moved|..].
  - intros t n [->| ->] [?|[? ?]]; done.
  - intros h Hh [->|[a ->]]; done.
  - intros h n Hmv Hx'. destruct (decide (h = LMbxq m)) as [->|Hne].
    + destruct Hx' as (xs & E & Hx). simplify_eq. by destruct (Hm n Hx) as [a ->].
    + destruct h; try (apply (ai_kind _ _ _ _ _ _ Ha); unfold inq; by rewrite <- Hsame).
      destruct Hx' as (xs & E & Hx). rewrite (Hheads _ _ E) in Hx. by apply elem_of_nil in Hx.
  - intros n. unfold moves. destruct (decide (n = LMbxq m)); [by left; left|].
    destruct n; try (right; intros [?|[? ?]]; done). left. right. by eexists.
  - intros s Hrs. destruct (ai_sem _ _ _ _ _ _ Ha s Hrs) as (sc & ? & ?). exists sc. split; [done|].
    eapply (sem_ok_sub msgs_moved); [by intros [?|[? ?]]|by apply Hs|done].
  - intros f Hrf. destruct (ai_flg _ _ _ _ _ _ Ha f Hrf) as (fc & ? & ?). exists fc. split; [done|].
    eapply (flg_ok_sub msgs_moved); [by intros [?|[? ?]]|by apply Hs|done].
  - intros mb Hrm. destruct (ai_mbx _ _ _ _ _ _ Ha mb Hrm) as (mc' & Emc & Hok). exists mc'.
    split; [done|]. destruct (decide (mb = m)) as [->|Hne].
    + simplify_eq. destruct Hok as [(_ & ws & msgs0 & Hq & _ & Ho & _)|(E & _)].
      * left. split; [done|]. exists ws, msgs. rewrite Hsame by done.
        split; [done|]. split; [done|]. split; [done|].
        destruct He as [E| ->]; [left; congruence|by right].
      * exfalso. apply (noexs_id_neq m); [unfold CFN_MAX_MBXID in *; lia|congruence].
    + eapply (mbx_ok_sub msgs_moved); [by intros [?|[? ?]]|by apply Hs| |done].
      apply Hs; [done|congruence].
Qed.

Lemma msgs_settled : settled k Q -> settled (set_links L k) Q'.
Proof using Hsame.
  intros [[HS HF] HT]. split; [split|].
  - intros s sc Hs. eapply (sem_settled_same (tcbs k) _ Q); [by apply Hsame|done|by apply HS].
  - intros f fc Hf ws Hx Hq. rewrite Hsame in Hq by done. by apply (HF f fc Hf).
  - intros t c Hc (xs & E & Hx). apply (HT t c Hc). exists xs. by rewrite <- Hsame.
Qed.

Lemma msgs_wf : wf k Q -> wf (set_links L k) Q'.
Proof using Hi Hmc Hid Hrange Hsame Hmsgs Hheads Hlinks Hdom.
  intros (_ & Hset & Hsch). split; [exact msgs_inv|]. split; [by apply msgs_settled|].
  eapply (sched_objs k Q); try done. intros j. by apply Hsame.
Qed.
End messages.

Lemma msg_head_empty k Q a xs : inv k Q -> Q !! LMsg a = Some xs -> xs = [].
Proof.
  intros (_ & _ & Ha) E. destruct xs as [|n xs]; [done|]. exfalso.
  apply (ai_kind _ _ _ _ _ _ Ha (LMsg a) n). exists (n :: xs). split; [done|by left].
Qed.

Lemma mbxq_members k Q m msgs : inv k Q -> Q !! LMbxq m = Some msgs ->
  forall n, n ∈ msgs -> exists a, n = LMsg a.
Proof.
  intros (_ & _ & Ha) Hq n Hn. assert (Hk : kind_ok (LMbxq m) n).
  { apply (ai_kind _ _ _ _ _ _ Ha). by exists msgs. }
  destruct n; try done. by eexists.
Qed.

(** A message enters the queue of a mailbox nobody waits at. *)
Lemma msg_in_wf k Q m mc xs ys a L :
  wf k Q -> mbxcbs k !! m = Some mc -> mbxid mc = m + 1 -> 0 <= m < CFN_MAX_MBXID ->
  Q !! LMbx m = Some [] -> Q !! LMbxq m = Some (xs ++ ys) -> loose Q (LMsg a) ->
  let Q' := qset (LMbxq m) (xs ++ LMsg a :: ys) (LMsg a) Q in
  rep L Q' -> dom L = dom (links k) -> wf (set_links L k) Q'.
Proof.
  intros Hwf Hmc Hid Hrange Hws Hq [_ Hl] Q' HL HD. pose proof (proj1 Hwf) as Hi.
  apply (msgs_wf (Q := Q) (m := m) (mc := mc)); try done.
  - intros h Hm Hne. unfold Q'. rewrite lookup_qset, 2!decide_False by done.
    destruct (Q !! h) as [zs|] eqn:E; [|done]. simpl. f_equal. apply without_notin.
    by apply (notin_list _ _ _ _ (Hl h)).
  - exists (xs ++ LMsg a :: ys). unfold Q'. rewrite lookup_qset, decide_True by done.
    split; [done|]. split; [|by left]. intros n Hn.
    apply elem_of_app in Hn as [Hn|Hn]; [|apply elem_of_cons in Hn as [->|Hn]; [by exists a|]];
      apply (mbxq_members k Q m _ Hi Hq), elem_of_app; auto.
  - intros b zs E. unfold Q' in E. rewrite lookup_qset, decide_False in E by done.
    case_decide; [done|]. destruct (Q !! LMsg b) as [zs0|] eqn:E0; [|done].
    rewrite (msg_head_empty k Q b zs0 Hi E0) in E. by simplify_eq/=.
Qed.

(** The first message leaves the queue. *)
Lemma msg_out_wf k Q m mc n msgs L :
  wf k Q -> mbxcbs k !! m = Some mc -> mbxid mc = m + 1 -> 0 <= m < CFN_MAX_MBXID ->
  Q !! LMbxq m = Some (n :: msgs) -> Q !! LMbx m = Some [] ->
  let Q' := <[n := []]> (qrm n Q) in
  rep L Q' -> dom L = dom (links k) -> wf (set_links L k) Q' /\ Q' !! LMbxq m = Some msgs.
Proof.
  intros Hwf Hmc Hid Hrange Hq Hws Q' HL HD. pose proof (proj1 Hwf) as Hi.
  destruct (mbxq_members k Q m _ Hi Hq n) as [a ->]; [by left|].
  assert (Hin : inq Q (LMbxq m) (LMsg a)) by (eexists; split; [exact Hq|by left]).
  assert (Hm : Q' !! LMbxq m = Some msgs).
  { unfold Q'. rewrite lookup_insert_ne, lookup_qrm, decide_False, Hq by done. simpl. f_equal.
    pose proof (rep_nodup _ _ _ _ (proj1 Hi) Hq) as [_ Hnd]%NoDup_cons.
    change (LMsg a :: msgs) with ([] ++ LMsg a :: msgs). by rewrite without_split. }
  split; [|done]. apply (msgs_wf (Q := Q) (m := m) (mc := mc)); try done.
  - intros h Hne Hneq. unfold Q'. rewrite lookup_insert_ne, lookup_qrm, decide_False by auto.
    destruct (Q !! h) as [zs|] eqn:E; [|done]. simpl. f_equal. apply without_notin.
    intros Hx. apply Hneq. eapply rep_inq_unique; [exact (proj1 Hi)|by exists zs|done].
  - exists msgs. split; [done|]. split; [|by left]. intros n Hn.
    apply (mbxq_members k Q m _ Hi Hq). by right.
  - intros b zs E. unfold Q' in E. destruct (decide (LMsg b = LMsg a)) as [Hne|Hne].
    { injection Hne as ->. rewrite lookup_insert_eq in E. by simplify_eq. }
    rewrite lookup_insert_ne, lookup_qrm, decide_False in E by congruence.
    destruct (Q !! LMsg b) as [zs0|] eqn:E0; [|done].
    rewrite (msg_head_empty k Q b zs0 Hi E0) in E. by simplify_eq/=.
Qed.

(** ** The place of a message by priority *)

(** The priority of a message, in the RAM of the application. *)
Definition mpri (M : gmap Z cell) (n : link) : option Z :=
  match n with
  | LMsg a => match M !! (a + MSGPRI_OFFSET) with Some (CWord z) => Some z | _ => None end
  | _ => None
  end.

(** The reference: stable insertion into a queue sorted by priority. *)
Fixpoint insert_stable (pri : link -> Z) (n : link) (ns : list link) : list link :=
  match ns with
  | [] => [n]
  | x :: ns' => if decide (pri n < pri x) then n :: ns else x :: insert_stable pri n ns'
  end.

(** The priorities can be read, and the queue is in their order. *)
Definition msgs_sorted (M : gmap Z cell) (ns : list link) : Prop :=
  Forall (fun n => is_Some (mpri M n)) ns /\
  StronglySorted (fun a b => default 0 (mpri M a) <= default 0 (mpri M b)) ns.

Lemma insert_stable_place pri n xs ys :
  Forall (fun x => pri x <= pri n) xs ->
  (forall y, head ys = Some y -> pri n < pri y) ->
  insert_stable pri n (xs ++ ys) = xs ++ n :: ys.
Proof.
  intros Hx Hy. induction xs as [|x xs IH]; simpl.
  - destruct ys as [|y ys]; [done|]. simpl. by rewrite decide_True by (by apply Hy).
  - apply Forall_cons in Hx as [Hx1 Hx]. rewrite decide_False by lia. by rewrite IH.
Qed.

Lemma insert_stable_split pri n ns : exists xs ys,
  ns = xs ++ ys /\ insert_stable pri n ns = xs ++ n :: ys /\
  Forall (fun x => pri x <= pri n) xs /\ (forall y, head ys = Some y -> pri n < pri y).
Proof.
  induction ns as [|x ns (xs & ys & -> & E & Hx & Hy)]; simpl.
  - by exists [], [].
  - case_decide as Hlt.
    + exists [], (x :: xs ++ ys). split; [done|]. split; [done|]. split; [done|].
      intros y [= <-]. done.
    + exists (x :: xs), ys. rewrite E. split; [done|]. split; [done|]. split; [|done].
      constructor; [lia|done].
Qed.

Lemma insert_stable_sorted M n ns :
  is_Some (mpri M n) -> msgs_sorted M ns ->
  msgs_sorted M (insert_stable (fun x => default 0 (mpri M x)) n ns).
Proof.
  intros Hn [Hs Ho]. destruct (insert_stable_split (fun x => default 0 (mpri M x)) n ns)
    as (xs & ys & -> & -> & Hx & Hy). split.
  - apply Forall_app in Hs as [? ?]. apply Forall_app. split; [done|]. by constructor.
  - apply (StronglySorted_insert _ xs n ys); [done|done|].
    assert (Hys : StronglySorted (fun a b => default 0 (mpri M a) <= default 0 (mpri M b)) ys).
    { clear -Ho. induction xs; [done|]. inversion Ho; subst. auto. }
    destruct ys as [|y ys]; [done|]. specialize (Hy y eq_refl). inversion Hys as [|? ? _ Ha]; subst.
    constructor; [lia|]. eapply Forall_impl; [exact Ha|]. simpl. lia.
Qed.

Lemma wp_msg_pri k n a v (Phi : Z -> kernel -> Prop) :
  n = LMsg a -> mpri (mem k) n = Some v -> Phi v k -> wp (msg_pri a) Phi k.
Proof.
  intros -> E H. simpl in E. unfold msg_pri, load_w. apply wp_bind.
  destruct (mem k !! (a + MSGPRI_OFFSET)) as [[z|f]|] eqn:Em; try done. simplify_eq.
  eapply wp_gets_opt; [exact Em|]. by apply wp_ret.
Qed.

Section place_msg.
Context {k : kernel} {Q : queues} {m a : Z} {msgs : list link}.
Hypothesis Hi : inv k Q.
Hypothesis Hq : Q !! LMbxq m = Some msgs.
Hypothesis Hl : loose Q (LMsg a).
Hypothesis Hd : LMsg a ∈ dom (links k).
Hypothesis Hs : msgs_sorted (mem k) msgs.
Hypothesis Ha : is_Some (mpri (mem k) (LMsg a)).

Let pri (n : link) : Z := default 0 (mpri (mem k) n).

(** The message is put where [insert_stable] puts it. *)
Definition msg_put (Phi : unit -> kernel -> Prop) : Prop :=
  forall xs ys L, msgs = xs ++ ys -> insert_stable pri (LMsg a) msgs = xs ++ LMsg a :: ys ->
    rep L (qset (LMbxq m) (xs ++ LMsg a :: ys) (LMsg a) Q) -> dom L = dom (links k) ->
    Phi tt (set_links L k).

Lemma wp_read_pri n b (Phi : Z -> kernel -> Prop) :
  n = LMsg b -> n ∈ LMsg a :: msgs -> Phi (pri n) k -> wp (msg_pri b) Phi k.
Proof using Hs Ha.
  intros E Hn H. assert (Hsome : is_Some (mpri (mem k) n)).
  { apply elem_of_cons in Hn as [->|Hn]; [done|]. destruct Hs as [Hall _].
    rewrite Forall_forall in Hall. by apply Hall. }
  destruct Hsome as [v Ev]. eapply wp_msg_pri; [exact E|exact Ev|].
  unfold pri in H. by rewrite Ev in H.
Qed.

Lemma wp_msg_tail (Phi : unit -> kernel -> Prop) :
  msg_put Phi -> Forall (fun n => pri n <= pri (LMsg a)) msgs ->
  wp (list_add_tail (msg_link a) (LMbxq m)) Phi k.
Proof using Hi Hq Hl Hd.
  intros H Hall. eapply wp_list_add_tail; [exact (proj1 Hi)|by exists msgs|exact Hl|done|exact Hd|].
  intros L HL HD. apply (H msgs [] L); [by rewrite app_nil_r| |unfold qpush in HL; by rewrite Hq in HL|done].
  rewrite <- (app_nil_r msgs) at 1. by apply insert_stable_place.
Qed.

Lemma wp_msg_scan (Phi : unit -> kernel -> Prop) ys : forall xs fuel,
  msg_put Phi -> msgs = xs ++ ys -> Forall (fun n => pri n <= pri (LMsg a)) xs ->
  (length ys < fuel)%nat ->
  wp (insert_msg_scan fuel m a (default (LMbxq m) (head ys))) Phi k.
Proof using Hi Hq Hl Hd Hs Ha.
  induction ys as [|y ys IH]; intros xs fuel H E Hx Hf;
    (destruct fuel as [|fuel]; [simpl in Hf; lia|]); simpl.
  - rewrite decide_True by done. apply wp_msg_tail; [done|]. by rewrite E, app_nil_r.
  - assert (Hy : y ∈ msgs) by (rewrite E; apply elem_of_app; right; by left).
    destruct (mbxq_members k Q m msgs Hi Hq y Hy) as [b Eb].
    rewrite decide_False by (by rewrite Eb). rewrite Eb at 1. apply wp_bind, wp_ret.
    apply wp_bind. eapply wp_read_pri; [done|by left|]. apply wp_bind.
    eapply (wp_read_pri y); [done|by right|]. case_decide as Hlt.
    + eapply (wp_list_add_before (proj1 Hi) (LMbxq m) xs y ys); [by rewrite Hq, E|exact Hl|done|exact Hd|].
      intros L HL HD. apply (H xs (y :: ys) L E); [|exact HL|exact HD].
      rewrite E. apply insert_stable_place; [exact Hx|]. by intros z [= <-].
    + apply wp_bind. eapply (wp_list_next (proj1 Hi) (LMbxq m) xs y ys); [by rewrite Hq, E|].
      apply (IH (xs ++ [y])); [done|by rewrite <- app_assoc| |simpl in Hf; lia].
      apply Forall_app. split; [done|]. constructor; [lia|done].
Qed.

Lemma wp_goes_last (Phi : bool -> kernel -> Prop) :
  (forall b : bool, (b = true -> Forall (fun n => pri n <= pri (LMsg a)) msgs) -> Phi b k) ->
  wp (msg_goes_last m a) Phi k.
Proof using Hi Hq Hs Ha.
  intros H. unfold msg_goes_last. apply wp_bind. eapply wp_list_empty; [exact (proj1 Hi)|exact Hq|].
  case_bool_decide as Ee; cbn [negb]; [by apply wp_ret, H|].
  destruct (exists_last Ee) as (xs & x & E). apply wp_bind.
  eapply wp_list_last; [exact (proj1 Hi)|exact Hq|]. rewrite E, tail_of_app. simpl.
  assert (Hx : x ∈ msgs) by (rewrite E; apply elem_of_app; right; by left).
  destruct (mbxq_members k Q m msgs Hi Hq x Hx) as [b Eb]. rewrite Eb at 1. apply wp_bind, wp_ret.
  apply wp_bind. eapply wp_read_pri; [done|by left|]. apply wp_bind.
  eapply (wp_read_pri x); [done|by right|]. apply wp_ret, H.
  intros Hle%bool_decide_eq_true. destruct Hs as [_ Ho]. fold pri in Ho. rewrite E in Ho |- *.
  clear -Ho Hle. induction xs as [|z xs IH]; simpl in *; [by constructor|].
  inversion Ho as [|? ? Ho' Hz]; subst. constructor; [|by apply IH].
  apply Forall_app in Hz as [_ [Hz _]%Forall_cons]. unfold pri in *. lia.
Qed.

Lemma wp_insert_msg_pri (Phi : unit -> kernel -> Prop) :
  msg_put Phi -> wp (insert_msg_pri m a) Phi k.
Proof using Hi Hq Hl Hd Hs Ha.
  intros H. unfold insert_msg_pri. apply wp_bind. eapply wp_list_first; [exact (proj1 Hi)|exact Hq|].
  apply wp_bind, wp_goes_last. intros [] Hb; [by apply wp_msg_tail, Hb|].
  apply wp_bind, wp_gets. apply (wp_msg_scan Phi msgs []); [done..|].
  unfold walk_fuel. pose proof (rep_length _ _ _ _ (proj1 Hi) Hq). lia.
Qed.
End place_msg.

(** ** Receivers leave the wait queue *)

Lemma wp_pop_none k Q m (Phi : option Z -> kernel -> Prop) :
  inv k Q -> Q !! LMbx m = Some [] -> Phi None k -> wp (pop_waiting_receiver m) Phi k.
Proof.
  intros (Hr & _ & _) Hq H. unfold pop_waiting_receiver, walk_fuel. apply wp_bind, wp_gets. simpl.
  apply wp_bind. eapply wp_list_empty; [exact Hr|exact Hq|]. by apply wp_ret.
Qed.

(** A task taken off the queue is made ready with its result. *)
Lemma wp_pop_make {A} k Q m n rest cause msg (m1 : K A) (f : option Z -> K A)
    (Phi : A -> kernel -> Prop) :
  inv k Q -> Q !! LMbx m = Some (n :: rest) ->
  (forall t s, wp (make_waiter_ready t cause msg ;;; m1) Phi s -> wp (f (Some t)) Phi s) ->
  (forall t c L, n = LWait t -> tcbs k !! t = Some c -> tskstat c = TTS_WAI ->
     same_kind (winfo c) (WMailbox msg) ->
     let k' := with_lt L (<[t := readied cause (set_winfo (WMailbox msg) c)]> (tcbs k)) k in
     inv k' (q_ready t (itskpri c) Q) -> wp m1 Phi k') ->
  wp (r <- pop_waiting_receiver m ;; f r) Phi k.
Proof.
  intros Hi Hq Hf H. pose proof Hi as (Hr & Hn & Ha).
  assert (Hin : inq Q (LMbx m) n) by (eexists; split; [exact Hq|by left]).
  destruct (waiter_mbx Hr Ha m n Hin) as (t & c & msg0 & -> & Ht & Hc & Hst & Htw & Hwi).
  assert (Hk : same_kind (winfo c) (WMailbox msg)) by by rewrite Hwi.
  unfold pop_waiting_receiver, walk_fuel. apply wp_bind, wp_bind, wp_gets. cbn [pop_waiting_loop].
  apply wp_bind. eapply wp_list_empty; [exact Hr|exact Hq|]. rewrite bool_decide_false by done.
  apply wp_bind. eapply wp_list_first; [exact Hr|exact Hq|]. apply wp_bind, wp_ret.
  apply wp_bind. eapply wp_list_del; [exact Hr|exact Hin|]. intros L1 HL1 HD1.
  apply wp_bind. eapply wp_list_init; [exact HL1| | |].
  { intros h Hx. by apply inq_qrm in Hx as (_ & ? & _). }
  { proj. rewrite HD1. by apply Hn. }
  intros L2 HL2 HD2. proj. apply wp_bind. eapply wp_tcb_get; [exact Hc|].
  rewrite decide_True by done. apply wp_ret, Hf.
  set (Q0 := <[LWait t := []]> (qrm (LWait t) Q)) in *. set (c1 := set_winfo (WMailbox msg) c).
  apply wp_bind, wp_bind. eapply wp_tcb_upd; [exact Hc|]. proj. fold c1.
  pose proof (inv_given Hi Hc Hst Hk) as Hi1. fold c1 in Hi1.
  destruct (waiting_nodes _ _ t c1 Hi1 (lookup_insert_eq _ _ _) Hst) as (_ & Hp & (Hh & _ & Hrd)).
  apply (wp_complete_wait_with _ _ _ _ Q0 c1); [exact HL2| |done|apply lookup_insert_eq| |].
  { proj. eapply nodes_ok_dom; [|exact Hn]. congruence. }
  { split; [|split].
    - destruct Hh as [Hal|Hti]; [left|right].
      + unfold alone, Q0. by rewrite lookup_insert_ne, lookup_qrm, decide_False, Hal.
      + unfold Q0. rewrite inq_init by (left; by rewrite lookup_qrm, decide_True).
        by apply inq_qrm.
    - left. apply lookup_insert_eq.
    - unfold Q0. rewrite lookup_insert_ne, lookup_qrm, decide_False by done.
      destruct Hrd as [xs E]. tproj. rewrite E. by eexists. }
  intros L HL HD. unfold serve_next. tproj. rewrite bool_decide_false by (unfold c1; tproj; by rewrite Htw).
  cbn [andb]. apply wp_ret. proj. unfold Q0 in HL. rewrite q_ready_settle in HL. tproj.
  specialize (H t c L eq_refl Hc Hst Hk). unfold with_lt in *. proj. rewrite insert_insert_eq.
  fold c1 in H. assert (HD' : dom L = dom (links k)) by congruence.
  pose proof (inv_woken _ _ t c1 cause L Hi1 (lookup_insert_eq _ _ _) Hp HL HD') as Hw.
  unfold with_lt in Hw. proj. rewrite insert_insert_eq in Hw. by apply H.
Qed.

Section received.
Context {k : kernel} {Q : queues} {m cause : Z} {ws : list link}.
Hypothesis Hi : inv k Q.
Hypothesis Hq : Q !! LMbx m = Some ws.

(** [k'] is [k] when [gs] were handed to the first waiters of [m], [left] keep
    waiting. *)
Record received (gs : list (Z * WaitInfo)) (left : list link) (k' : kernel)
    (Q' : queues) : Prop := {
  rc_state : exists L T, k' = with_lt L T k;
  rc_gives : a_gives cause gs (tcbs k, Q) = (tcbs k', Q');
  rc_inv : inv k' Q';
  rc_queue : Q' !! LMbx m = Some left;
  rc_sub : left `sublist_of` ws;
  rc_other h : obj_head h -> h <> LMbx m -> Q' !! h = Q !! h;
  rc_rest u : LWait u ∉ ws -> tcbs k' !! u = tcbs k !! u;
  rc_timer u cu : tcbs k' !! u = Some cu -> inq Q' LTimer (LHead u) ->
    tcbs k !! u = Some cu /\ inq Q LTimer (LHead u);
  rc_woken : woken_only k k';
}.

Lemma received_refl : received [] ws k Q.
Proof using Hi Hq.
  split; try done; [|apply woken_only_refl].
  exists (links k), (tcbs k). unfold with_lt. by destruct k.
Qed.

Lemma received_step gs t rest k' Q' c msg L :
  received gs (LWait t :: rest) k' Q' -> tcbs k' !! t = Some c -> tskstat c = TTS_WAI ->
  let c1 := set_winfo (WMailbox msg) c in
  let k1 := with_lt L (<[t := readied cause c1]> (tcbs k')) k' in
  inv k1 (q_ready t (itskpri c) Q') ->
  received (gs ++ [(t, WMailbox msg)]) rest k1 (q_ready t (itskpri c) Q').
Proof using Hi Hq.
  intros [E1 E2 E3 E4 E5 E6 E7 E8 E9] Hc Hs c1 k1 Hi1.
  assert (Htw : LWait t ∈ ws) by (eapply elem_of_sublist; [by left|exact E5]).
  split; try done.
  - destruct E1 as (L0 & T0 & ->). exists L, (<[t := readied cause c1]> T0). by destruct k.
  - rewrite a_gives_snoc, E2. by rewrite (a_give_eq _ _ _ _ _ c).
  - by apply (given_own (h := LMbx m) (pre := []) E3 I).
  - etrans; [|exact E5]. by constructor.
  - intros h Ho Hne. rewrite (given_other (h := LMbx m) (pre := []) E3 I E4 h Ho Hne). by apply E6.
  - intros u Hu. unfold k1, with_lt. proj. rewrite lookup_insert_ne by (by intros ->).
    by apply E7.
  - intros u cu Hu Hiu. apply inq_q_ready_timer in Hiu as [Hne Hiu].
    unfold k1, with_lt in Hu. proj. rewrite lookup_insert_ne in Hu by done. by apply E8.
  - eapply woken_only_trans; [exact E9|]. split.
    + exists (semcbs k'), (flgcbs k'), L, (<[t := readied cause c1]> (tcbs k')).
      unfold k1, with_lt. by destruct k'.
    + intros u cu Hu. unfold k1, with_lt. proj. destruct (decide (u = t)) as [->|].
      * right. rewrite lookup_insert_eq. simplify_eq. split; [done|]. by eexists.
      * left. by rewrite lookup_insert_ne.
Qed.

(** Everything stays settled. *)
Lemma received_settled gs left k' Q' : received gs left k' Q' -> settled k Q -> settled k' Q'.
Proof using Hi Hq.
  intros [(L & T & ->) _ _ _ _ Hoth Hrest Htim _] [[HS HF] HT]. unfold with_lt in *. proj.
  pose proof Hi as (Hr & _ & Ha).
  assert (Hsame : forall h n, obj_head h -> h <> LMbx m -> inq Q h n -> same_wait (tcbs k) T n).
  { intros h n Ho Hne Hin. unfold same_wait, waiter.
    destruct n as [| | | | | | | | |u| | | | |]; try done.
    rewrite Hrest; [done|]. intros Hu. apply Hne.
    eapply rep_inq_unique; [exact Hr|exact Hin|by exists ws]. }
  split; [split|].
  - intros s sc Hs. eapply (sem_settled_same (tcbs k) _ Q); [by apply Hoth| |by apply HS].
    intros n. by apply Hsame.
  - intros f fc Hf ws' Hid' Hws'.
    eapply (flg_settled_shrinks (tcbs k) _ Q Q); [| |by apply HF|exact Hid'|].
    + rewrite <- (Hoth (LFlg f)) by done. by eexists.
    + intros ws0 E. exists ws0. split; [done|]. split; [done|]. intros n Hn.
      apply (Hsame (LFlg f)); [done|done|by exists ws0].
    + by rewrite <- (Hoth (LFlg f)).
  - intros t c Hc Hin. destruct (Htim t c Hc Hin) as [Hc' Hin']. by apply (HT t c).
Qed.
End received.
Arguments received : clear implicits.

(** ** The end of a call: the choice of the task, if one runs *)

Definition resched_if (Q : queues) (k : kernel) : kernel :=
  if decide (current k = None) then k else resched Q k.

Lemma wp_dispatch_if_needed k Q (Phi : unit -> kernel -> Prop) :
  inv k Q -> Phi tt (resched_if Q k) -> wp dispatch_if_needed Phi k.
Proof.
  intros Hi H. unfold dispatch_if_needed, resched_if in *. apply wp_bind, wp_gets.
  case_decide; [by apply wp_ret|]. by eapply wp_reschedule.
Qed.

Lemma resched_if_wf k Q : inv k Q -> settled k Q -> cur_ok k -> wf (resched_if Q k) Q.
Proof.
  intros Hi Hs Hc. unfold resched_if. case_decide as E; [|by apply resched_wf].
  split; [done|]. split; [done|]. intros t Ht. congruence.
Qed.

(** What the end of the call did. *)
Definition switched_if (k : kernel) (Q' : queues) (k' : kernel) : Prop :=
  mie k' = mie k /\
  if decide (current k = None) then next k' = next k /\ msip k' = msip k /\ current k' = None
  else switched k Q' k'.

Lemma resched_if_switched k Q' k1 :
  current k1 = current k -> msip k1 = msip k -> next k1 = next k ->
  switched_if k Q' (set_mie (mie k) (resched_if Q' k1)).
Proof.
  intros Ec Em En. unfold switched_if, resched_if. rewrite Ec. split; [done|].
  destruct (decide (current k = None)); [proj; split; [|split]; congruence|].
  by apply resched_switched.
Qed.

Lemma resched_if_mie b Q k : mie k = b -> mie (resched_if Q k) = b.
Proof. intros <-. unfold resched_if, resched. by repeat case_decide. Qed.

(** The fields the choice of the task leaves alone. *)
Lemma resched_if_frame Q k b : let k' := set_mie b (resched_if Q k) in
  tcbs k' = tcbs k /\ mbxcbs k' = mbxcbs k /\ semcbs k' = semcbs k /\ flgcbs k' = flgcbs k /\
  mem k' = mem k.
Proof. unfold resched_if, resched. by repeat case_decide. Qed.

(** ** [tk_snd_mbx] *)

(** What the caller owes: the message is a [T_MSG] in RAM that is in no queue,
    and in a mailbox ordered by priority ([TA_MPRI]) the priorities of the
    messages can be read and were not changed while they were queued. *)
Record sendable (k : kernel) (Q : queues) (m msg : Z) : Prop := {
  sn_link : LMsg msg ∈ dom (links k);
  sn_loose : loose Q (LMsg msg);
  sn_pri mc msgs : mbxcbs k !! m = Some mc -> Z.land (mbxatr mc) TA_MPRI <> 0 ->
    Q !! LMbxq m = Some msgs -> is_Some (mpri (mem k) (LMsg msg)) /\ msgs_sorted (mem k) msgs;
}.

(** It owes that only to a call that gets as far as the message. *)
Definition may_send k Q id msg : Prop :=
  tkmc_id_in_range id CFN_MAX_MBXID = true -> msg <> 0 ->
  (exists mc, mbxcbs k !! (id - 1) = Some mc /\ no_exist (mbxid mc) = false) ->
  sendable k Q (id - 1) msg.

Definition pri_of (k : kernel) (n : link) : Z := default 0 (mpri (mem k) n).

(** The message goes to the first waiter, or into the queue. *)
Definition sent (k : kernel) (Q : queues) (m msg : Z) (mc : MBXCB) (k' : kernel)
    (Q' : queues) : Prop :=
  exists ws msgs, Q !! LMbx m = Some ws /\ Q !! LMbxq m = Some msgs /\ mbxcbs k' = mbxcbs k /\
    match ws with
    | n :: rest => exists t c, n = LWait t /\ tcbs k !! t = Some c /\
        tcbs k' = <[t := readied E_OK (set_winfo (WMailbox msg) c)]> (tcbs k) /\
        Q' = q_ready t (itskpri c) Q /\ Q' !! LMbx m = Some rest /\ switched_if k Q' k'
    | [] => (exists L, dom L = dom (links k) /\ k' = set_links L k) /\ exists msgs', Q' = qset (LMbxq m) msgs' (LMsg msg) Q /\
        if decide (Z.land (mbxatr mc) TA_MPRI = 0) then msgs' = msgs ++ [LMsg msg]
        else msgs' = insert_stable (pri_of k) (LMsg msg) msgs /\ msgs_sorted (mem k) msgs'
    end.

(** The message goes into the queue. *)
Lemma wp_send_queue k Q m msg mc msgs (Phi : Z -> kernel -> Prop) :
  wf k Q -> sendable k Q m msg -> 0 <= m < CFN_MAX_MBXID ->
  mbxcbs k !! m = Some mc -> mbxid mc = m + 1 ->
  Q !! LMbx m = Some [] -> Q !! LMbxq m = Some msgs ->
  (forall k' Q', wf k' Q' -> sent k Q m msg mc k' Q' -> Phi E_OK k') ->
  wp ((if negb (bool_decide (Z.land (mbxatr mc) TA_MPRI = 0)) then insert_msg_pri m msg
       else insert_msg_fifo m msg) ;;; EI (saved (mie k)) ;;; ret E_OK) Phi (set_mie false k).
Proof.
  intros Hwf [Hd Hl Hp] Hrange Hm Hid Hws Hq H. pose proof Hwf as (Hi & _).
  assert (Hend : forall xs ys L, msgs = xs ++ ys ->
    rep L (qset (LMbxq m) (xs ++ LMsg msg :: ys) (LMsg msg) Q) -> dom L = dom (links k) ->
    (if decide (Z.land (mbxatr mc) TA_MPRI = 0) then ys = []
     else xs ++ LMsg msg :: ys = insert_stable (pri_of k) (LMsg msg) msgs /\
       msgs_sorted (mem k) (xs ++ LMsg msg :: ys)) ->
    wp (EI (saved (mie k)) ;;; ret E_OK) Phi (set_links L (set_mie false k))).
  { intros xs ys L E HL HD Hplace. apply wp_bind, wp_EI; [done|]. apply wp_ret.
    set (Q' := qset (LMbxq m) (xs ++ LMsg msg :: ys) (LMsg msg) Q) in *.
    assert (Hwf' : wf (set_links L k) Q').
    { eapply (msg_in_wf k Q m mc xs ys msg L); try done. by rewrite Hq, E. }
    match goal with |- Phi _ ?kk => assert (Ek : kk = set_links L k)
      by (clear; destruct k; reflexivity) end.
    rewrite Ek. apply (H _ Q' Hwf'). exists [], msgs.
    split; [done|]. split; [done|]. split; [done|]. split; [by exists L|].
    exists (xs ++ LMsg msg :: ys). split; [done|]. case_decide; [|done].
    by rewrite Hplace, E, Hplace, app_nil_r. }
  apply wp_bind. case_bool_decide as Ea; cbn [negb].
  - eapply wp_list_add_tail; [exact (proj1 Hi)|by exists msgs|exact Hl|done|exact Hd|].
    intros L HL HD. apply (Hend msgs []); [by rewrite app_nil_r| |exact HD|by rewrite decide_True].
    unfold qpush in HL. by rewrite Hq in HL.
  - destruct (Hp mc msgs Hm Ea Hq) as [Hmp Hsorted].
    apply (wp_insert_msg_pri (k := set_mie false k) (Q := Q) Hi Hq Hl Hd Hsorted Hmp).
    intros xs ys L E Es HL HD. apply (Hend xs ys L E HL HD). rewrite decide_False by done.
    split; [done|]. rewrite <- Es. by apply insert_stable_sorted.
Qed.

(** The check of the priority of a message. *)
Lemma wp_bad_pri k mc msg (Phi : bool -> kernel -> Prop) :
  (Z.land (mbxatr mc) TA_MPRI <> 0 -> is_Some (mpri (mem k) (LMsg msg))) ->
  Phi (bool_decide (Z.land (mbxatr mc) TA_MPRI <> 0 /\ pri_of k (LMsg msg) <= 0)) k ->
  wp (if negb (bool_decide (Z.land (mbxatr mc) TA_MPRI = 0)) then
        pri <- msg_pri msg ;; ret (bool_decide (pri <= 0))
      else ret false) Phi k.
Proof.
  intros Hp H. destruct (decide (Z.land (mbxatr mc) TA_MPRI = 0)) as [Ea|Ea];
    [rewrite (bool_decide_true (_ = 0)) by done|rewrite (bool_decide_false (_ = 0)) by done]; cbn [negb].
  - apply wp_ret. by rewrite bool_decide_false in H by (by intros [? _]).
  - apply wp_bind. destruct (Hp Ea) as [v Ev]. eapply wp_msg_pri; [done|exact Ev|].
    apply wp_ret. unfold pri_of in H. rewrite Ev in H.
    erewrite bool_decide_ext; [exact H|]. simpl. tauto.
Qed.

(** What [tk_snd_mbx] gives and leaves. *)
Definition snd_mbx_post k Q id msg (r : Z) (k' : kernel) : Prop :=
  exists Q', wf k' Q' /\
    if negb (tkmc_id_in_range id CFN_MAX_MBXID) then r = E_ID /\ k' = k
    else if decide (msg = 0) then r = E_PAR /\ k' = k
    else let m := id - 1 in exists mc, mbxcbs k !! m = Some mc /\
      if no_exist (mbxid mc) then r = E_NOEXS /\ k' = k
      else if decide (Z.land (mbxatr mc) TA_MPRI <> 0 /\ pri_of k (LMsg msg) <= 0)
      then r = E_PAR /\ k' = k
      else r = E_OK /\ sent k Q m msg mc k' Q'.

Lemma wp_snd_mbx k Q id msg : wf k Q -> may_send k Q id msg ->
  wp (tk_snd_mbx id msg) (snd_mbx_post k Q id msg) k.
Proof.
  unfold snd_mbx_post.
  intros Hwf Hsend'. unfold tk_snd_mbx. pose proof Hwf as (Hi & Hset & Hsch).
  destruct (tkmc_id_in_range id CFN_MAX_MBXID) eqn:Eid; cbn [negb]; [|by apply wp_ret; exists Q].
  destruct (decide (msg = 0)) as [E0|E0]; [by apply wp_ret; exists Q|].
  destruct (mbx_here k Q id Hi Eid) as (Hrange & mc & Hm & Hcase). set (m := id - 1) in *.
  apply wp_bind, wp_DI. apply wp_bind. eapply wp_mbx_get; [exact Hm|].
  destruct Hcase as [(Hex & Hid & ws & msgs & Hq & Hq' & Ho & He)|(Hex & _)]; rewrite Hex.
  2:{ apply wp_leave. exists Q. split; [done|]. exists mc. by rewrite Hex. }
  assert (Hsend := Hsend' Eid E0 (ex_intro _ mc (conj Hm Hex))).
  apply wp_bind. apply (wp_bad_pri (set_mie false k) mc msg).
  { intros Ea. by apply (sn_pri _ _ _ _ Hsend mc msgs Hm Ea Hq'). }
  case_bool_decide as Eb.
  { apply wp_leave. exists Q. split; [done|]. exists mc. by rewrite Hex, decide_True. }
  assert (Hpost : forall k' Q', wf k' Q' -> sent k Q m msg mc k' Q' ->
    exists Q'', wf k' Q'' /\ exists mc', mbxcbs k !! m = Some mc' /\
      if no_exist (mbxid mc') then E_OK = E_NOEXS /\ k' = k
      else if decide (Z.land (mbxatr mc') TA_MPRI <> 0 /\ pri_of k (LMsg msg) <= 0)
      then E_OK = E_PAR /\ k' = k else E_OK = E_OK /\ sent k Q m msg mc' k' Q'').
  { intros k' Q' Hw Hs. exists Q'. split; [done|]. exists mc. rewrite Hex, decide_False by done. done. }
  destruct ws as [|n rest].
  - apply wp_bind. eapply (wp_pop_none (set_mie false k) Q m); [exact Hi|exact Hq|].
    eapply (wp_send_queue k Q m msg mc msgs); try done.
  - eapply (wp_pop_make (set_mie false k) Q m n rest E_OK msg); [exact Hi|exact Hq| |].
    { intros t s Hw. apply wp_assoc_seq, Hw. }
    intros t c L -> Hc Hst Hk k1 Hi1.
    pose proof (received_step (k := set_mie false k) (cause := E_OK) Hi Hq [] t rest _ Q c msg L
      (received_refl (k := set_mie false k) Hi Hq) Hc Hst Hi1) as Hrc. fold k1 in Hrc.
    pose proof (received_settled (k := set_mie false k) Hi Hq _ _ _ _ Hrc Hset) as Hset1.
    apply wp_bind. eapply wp_dispatch_if_needed; [exact Hi1|]. apply wp_bind, wp_EI.
    { by apply resched_if_mie. }
    apply wp_ret. set (Q1 := q_ready t (itskpri c) Q) in *.
    destruct (resched_if_frame Q1 k1 (mie k)) as (ET & EM & _).
    apply (Hpost _ Q1).
    + change (wf (resched_if Q1 k1) Q1). apply resched_if_wf; [done|done|].
      eapply (woken_cur_ok (set_mie false k)); [exact (rc_woken _ _ _ _ Hrc)|].
      by eapply sched_cur_ok.
    + exists (LWait t :: rest), msgs. split; [done|]. split; [done|]. split; [exact EM|].
      exists t, c. split; [done|]. split; [done|]. split; [exact ET|]. split; [done|].
      split; [exact (rc_queue _ _ _ _ Hrc)|]. by apply resched_if_switched.
Qed.

(** C14: [tk_snd_mbx] on every branch: the errors change nothing; otherwise the task
    that is first in the wait queue becomes ready with the message, or, if nobody
    waits, the message joins the queue, last, or at its place by stable insertion in
    the order of priority; the state stays well formed. The message has to be in no
    queue only if the call gets as far as it. *)
Theorem snd_mbx_spec k Q id msg : wf k Q -> may_send k Q id msg ->
  wp (tk_snd_mbx id msg) (snd_mbx_post k Q id msg) k.
Proof. apply wp_snd_mbx. Qed.

(** ** [tk_del_mbx] *)

Lemma wp_release_receivers k Q m ws (Hi : inv k Q) (Hq : Q !! LMbx m = Some ws)
    (Phi : unit -> kernel -> Prop) rest : forall k' Q' gs fuel,
  received k Q m E_DLT ws gs rest k' Q' -> (length rest < fuel)%nat ->
  (forall k'' Q'', received k Q m E_DLT ws (gs ++ ((fun n => (task_of n, WMailbox 0)) <$> rest))
     [] k'' Q'' -> Phi tt k'') ->
  wp (release_receivers fuel m) Phi k'.
Proof.
  induction rest as [|n rest IH]; intros k' Q' gs fuel Hrc Hf H;
    (destruct fuel as [|fuel]; [simpl in Hf; lia|]); cbn [release_receivers];
    pose proof (rc_inv _ _ _ _ Hrc) as Hi'; pose proof (rc_queue _ _ _ _ Hrc) as Hq'.
  - apply wp_bind. eapply wp_pop_none; [exact Hi'|exact Hq'|]. apply wp_ret.
    apply (H _ Q'). by rewrite app_nil_r.
  - eapply (wp_pop_make k' Q' m n rest E_DLT 0); [exact Hi'|exact Hq'|done|].
    intros t c L -> Hc Hst Hk k1 Hi1.
    pose proof (received_step Hi Hq _ _ _ _ _ _ 0 L Hrc Hc Hst Hi1) as Hrc1.
    eapply IH; [exact Hrc1|simpl in Hf; lia|]. intros k'' Q'' Hrc2. apply (H _ Q'').
    by rewrite <- app_assoc in Hrc2.
Qed.

Definition deleted_mbx (m : Z) : MBXCB := mk_MBXCB (noexs_id m) 0 0.

(** The queues when the block of [m] is on the free list. *)
Definition q_free_mbx (m : Z) (Q : queues) : queues :=
  qpush LFreeMbx (LMbx m) (<[LMbxq m := []]> Q).

(** The updates of one mailbox, one after the other. *)
Ltac upd_mbx :=
  repeat (apply wp_bind; eapply wp_mbx_upd; [first [eassumption | apply lookup_insert_eq]|]; proj);
  rewrite ?insert_insert_eq.

Section freed.
Context {k : kernel} {Q : queues} {m : Z} {mc : MBXCB} {msgs : list link}.
Context {L1 L2 : gmap link (link * link)}.
Hypothesis Hi : inv k Q.
Hypothesis Hrange : 0 <= m < CFN_MAX_MBXID.
Hypothesis Hmc : mbxcbs k !! m = Some mc.
Hypothesis Hid : mbxid mc = m + 1.
Hypothesis Hws : Q !! LMbx m = Some [].
Hypothesis Hq : Q !! LMbxq m = Some msgs.
Hypothesis HL1 : rep L1 (<[LMbxq m := []]> Q).
Hypothesis HD1 : dom L1 = dom (links k).
Hypothesis HL2 : rep L2 (q_free_mbx m Q).
Hypothesis HD2 : dom L2 = dom (links k).
Let Q1 : queues := <[LMbxq m := []]> Q.
Let Q2 : queues := q_free_mbx m Q.

(** The messages are left to the application. *)
Lemma forgotten : inv (set_links L1 k) Q1 /\ (settled k Q -> settled (set_links L1 k) Q1).
Proof using Hi Hrange Hmc Hid HL1 HD1.
  assert (Hsame : forall h, (forall a, h <> LMsg a) -> h <> LMbxq m -> Q1 !! h = Q !! h).
  { intros h _ Hne. unfold Q1. by rewrite lookup_insert_ne. }
  split; [|by apply (msgs_settled (m := m))].
  apply (msgs_inv (Q := Q) (m := m) (mc := mc)); try done.
  - exists []. unfold Q1. rewrite lookup_insert_eq. split; [done|].
    split; [by intros n Hn%elem_of_nil|by right].
  - intros a xs E. unfold Q1 in E. rewrite lookup_insert_ne in E by done. by eapply msg_head_empty.
Qed.

Let Hobj : (exists s, LMbx m = LSem s) \/ (exists f, LMbx m = LFlg f) \/
  (exists mb, LMbx m = LMbx mb).
Proof. eauto. Qed.

Lemma freed_lookup h : obj_head h -> h <> LMbx m -> Q2 !! h = Q1 !! h.
Proof using Hi Hrange Hmc Hid HL1 HD1.
  intros Ho Hne. destruct forgotten as [(_ & _ & Ha1) _].
  apply (lookup_obj_free Ha1 Hobj); [done|done|by intros ->].
Qed.

Lemma freed_mbx_inv : inv (set_mbxcbs (<[m := deleted_mbx m]> (mbxcbs k)) (set_links L2 k)) Q2.
Proof using Hi Hrange Hmc Hid Hws HL1 HD1 HL2 HD2.
  destruct forgotten as [(_ & Hn1 & Ha1) _]. proj.
  assert (Hws1 : Q1 !! LMbx m = Some []) by (unfold Q1; by rewrite lookup_insert_ne).
  split; [done|]. split; [proj; apply (nodes_ok_dom L1); [congruence|exact Hn1]|]. proj.
  apply (ainv_obj Ha1 Hobj).
  - by apply (moved_obj_free Ha1 Hobj LFreeMbx I).
  - exact freed_lookup.
  - by intros h ->%inq_obj_free.
  - intros s _. by left.
  - intros f _. by left.
  - intros mb Hr'. destruct (decide (mb = m)) as [->|Hne].
    + right. rewrite lookup_insert_eq. eexists. split; [done|]. right. split; [done|].
      split; [by apply inq_obj_free|]. unfold alone. rewrite freed_lookup by done.
      unfold Q1. by rewrite lookup_insert_eq.
    + left. rewrite lookup_insert_ne by done. split; [done|]. congruence.
Qed.

Lemma freed_mbx_settled : settled k Q ->
  settled (set_mbxcbs (<[m := deleted_mbx m]> (mbxcbs k)) (set_links L2 k)) Q2.
Proof using Hi Hrange Hmc Hid HL1 HD1.
  intros Hs. destruct forgotten as [_ [[HS HF] HT]]; [done|]. proj. split; [split|].
  - intros s sc Hs'. eapply (sem_settled_same (tcbs k) _ Q1); [by apply freed_lookup|done|by apply HS].
  - intros f fc Hf ws Hx Hqf. rewrite freed_lookup in Hqf by done. by apply (HF f fc Hf).
  - intros t c Hc (xs & E & Hx). apply (HT t c Hc). unfold Q2, q_free_mbx, qpush in E.
    rewrite lookup_qset, 2!decide_False in E by done. fold Q1 in E.
    destruct (Q1 !! LTimer) as [ys|] eqn:Ey; simplify_eq/=.
    apply elem_of_without in Hx as [_ Hx]. by exists ys.
Qed.
End freed.

(** The lists of the mailbox are emptied, and its block goes to the free list. *)
Lemma wp_free_mbx {A} k1 Q1 m mc msgs (m1 : K A) (Phi : A -> kernel -> Prop) :
  inv k1 Q1 -> settled k1 Q1 -> 0 <= m < CFN_MAX_MBXID ->
  mbxcbs k1 !! m = Some mc -> mbxid mc = m + 1 ->
  Q1 !! LMbx m = Some [] -> Q1 !! LMbxq m = Some msgs ->
  (forall L, let k2 := set_mbxcbs (<[m := deleted_mbx m]> (mbxcbs k1)) (set_links L k1) in
     inv k2 (q_free_mbx m Q1) -> settled k2 (q_free_mbx m Q1) -> wp m1 Phi k2) ->
  wp (list_init (LMbx m) ;;; list_init (LMbxq m) ;;; list_add_tail (LMbx m) LFreeMbx ;;; m1) Phi
    (set_mbxcbs (<[m := deleted_mbx m]> (mbxcbs k1)) k1).
Proof.
  intros Hi1 Hset1 Hrange Hm1 Hid Hq1 Hq1' H. pose proof Hi1 as (Hr1 & Hn1 & Ha1).
  assert (Hnh : forall n xs h, Q1 !! n = Some xs -> ~ inq Q1 h n).
  { intros n xs h Hn Hx. pose proof (rep_inq_no_head _ _ _ _ Hr1 Hx). congruence. }
  apply wp_bind. eapply wp_list_init; [exact Hr1|intros h; by eapply Hnh|by apply Hn1|].
  intros L1 HL1 HD1. rewrite insert_id in HL1 by done. proj.
  apply wp_bind. eapply wp_list_init; [exact HL1|intros h; by eapply Hnh|proj; rewrite HD1; by apply Hn1|].
  intros L2 HL2 HD2. proj. set (Q2 := <[LMbxq m := []]> Q1) in *.
  assert (Hal : alone Q2 (LMbx m)) by (unfold alone, Q2; by rewrite lookup_insert_ne).
  apply wp_bind. eapply wp_list_add_tail; [exact HL2| |by apply (rep_alone_loose _ _ _ HL2 Hal)|done| |].
  { unfold Q2. rewrite lookup_insert_ne by done. by apply (ai_head _ _ _ _ _ _ Ha1). }
  { proj. rewrite HD2, HD1. by apply Hn1. }
  intros L3 HL3 HD3. proj. fold (q_free_mbx m Q1) in HL3.
  assert (HD2' : dom L2 = dom (links k1)) by congruence.
  assert (HD3' : dom L3 = dom (links k1)) by congruence.
  match goal with |- wp _ _ ?kk => assert (Ek : kk =
    set_mbxcbs (<[m := deleted_mbx m]> (mbxcbs k1)) (set_links L3 k1))
    by (clear; destruct k1; reflexivity) end.
  rewrite Ek. apply H.
  - exact (freed_mbx_inv Hi1 Hrange Hm1 Hid Hq1 HL2 HD2' HL3 HD3').
  - exact (freed_mbx_settled Hi1 Hrange Hm1 Hid HL2 HD2' Hset1).
Qed.

(** What [tk_del_mbx] gives and leaves. *)
Definition del_mbx_post k Q id (r : Z) (k' : kernel) : Prop :=
  exists Q', wf k' Q' /\
    if negb (tkmc_id_in_range id CFN_MAX_MBXID) then r = E_ID /\ k' = k
    else let m := id - 1 in exists mc, mbxcbs k !! m = Some mc /\
      if no_exist (mbxid mc) then r = E_NOEXS /\ k' = k
      else r = E_OK /\ exists ws Q1, Q !! LMbx m = Some ws /\
        a_gives E_DLT ((fun n => (task_of n, WMailbox 0)) <$> ws) (tcbs k, Q) = (tcbs k', Q1) /\
        Q' = q_free_mbx m Q1 /\ mbxcbs k' = <[m := deleted_mbx m]> (mbxcbs k) /\
        switched_if k Q' k'.

Lemma wp_del_mbx k Q id : wf k Q ->
  wp (tk_del_mbx id) (del_mbx_post k Q id) k.
Proof.
  unfold del_mbx_post.
  intros Hwf. unfold tk_del_mbx. pose proof Hwf as (Hi & Hset & Hsch).
  destruct (tkmc_id_in_range id CFN_MAX_MBXID) eqn:Eid; cbn [negb]; [|by apply wp_ret; exists Q].
  destruct (mbx_here k Q id Hi Eid) as (Hrange & mc & Hm & Hcase).
  assert (Em : id = id - 1 + 1) by lia. set (m := id - 1) in *.
  apply wp_bind, wp_DI. apply wp_bind. eapply wp_mbx_get; [exact Hm|].
  destruct Hcase as [(Hex & Hid & ws & msgs & Hq & Hq' & Ho & He)|(Hex & _)]; rewrite Hex.
  2:{ apply wp_leave. exists Q. split; [done|]. exists mc. by rewrite Hex. }
  apply wp_bind, wp_gets. apply wp_bind. set (k0 := set_mie false k).
  eapply (wp_release_receivers k0 Q m ws Hi Hq _ ws k0 Q []); [by apply received_refl| |].
  { unfold walk_fuel. proj. pose proof (rep_length _ _ _ _ (proj1 Hi) Hq). change (links k0) with (links k). lia. }
  intros k1 Q1 Hrc. pose proof (rc_inv _ _ _ _ Hrc) as Hi1. pose proof (received_settled (k := k0) Hi Hq _ _ _ _ Hrc Hset) as Hset1.
  pose proof (rc_woken _ _ _ _ Hrc) as Hwo. pose proof (rc_queue _ _ _ _ Hrc) as Hq1.
  assert (Hq1' : Q1 !! LMbxq m = Some msgs) by (by rewrite (rc_other _ _ _ _ Hrc)).
  destruct (rc_state _ _ _ _ Hrc) as (L & T & Ek1).
  assert (Hm1 : mbxcbs k1 !! m = Some mc) by (by rewrite Ek1).
  upd_mbx. change (set_mbxatr 0 (set_mbx_exinf 0 (set_mbxid ?i mc))) with (mk_MBXCB i 0 0).
  rewrite Em at 1. destruct (id_bits_ok m) as (_ & _ & _ & _ & Hb);
    [unfold CFN_MAX_MBXID in Hrange; lia|]. rewrite Hb. fold (deleted_mbx m).
  match goal with |- wp _ _ ?kk => assert (Ek : kk =
    set_mbxcbs (<[m := deleted_mbx m]> (mbxcbs k1)) k1) by (clear; destruct k1; reflexivity) end.
  rewrite Ek. clear Ek.
  eapply wp_free_mbx; [exact Hi1|exact Hset1|exact Hrange|exact Hm1|exact Hid|exact Hq1|exact Hq1'|].
  intros L3 k2 Hi2 Hs2. set (Q3 := q_free_mbx m Q1) in *.
  assert (Ec : current k2 = current k /\ msip k2 = msip k /\ next k2 = next k /\
    mie k2 = false /\ mbxcbs k1 = mbxcbs k) by (unfold k2; by rewrite Ek1).
  destruct Ec as (Ec & Emsip & En & Emie & Emb).
  apply wp_bind. eapply wp_dispatch_if_needed; [exact Hi2|]. apply wp_bind, wp_EI.
  { by apply resched_if_mie. }
  apply wp_ret. exists Q3. destruct (resched_if_frame Q3 k2 (mie k)) as (ET & EM & _). split.
  - change (wf (resched_if Q3 k2) Q3). apply resched_if_wf; [done|done|].
    change (cur_ok k1). eapply (woken_cur_ok k0); [exact Hwo|]. by eapply sched_cur_ok.
  - exists mc. rewrite Hex. split; [done|]. split; [done|]. exists ws, Q1. split; [done|].
    rewrite ET, EM. unfold k2. proj. rewrite Emb.
    split; [exact (rc_gives _ _ _ _ Hrc)|]. split; [done|]. split; [done|].
    by apply resched_if_switched.
Qed.

(** C27: [tk_del_mbx] on every branch: it refuses with E_ID or E_NOEXS and then
    changes nothing; otherwise every receiver becomes ready with E_DLT, the block is
    cleared, marked and last on the free list, and a switch is requested if another
    task should run. *)
Theorem del_mbx_spec k Q id : wf k Q ->
  wp (tk_del_mbx id) (del_mbx_post k Q id) k.
Proof. apply wp_del_mbx. Qed.

(** ** [tk_cre_mbx] *)

Definition created_mbx (m : Z) (p : T_CMBX) : MBXCB :=
  mk_MBXCB (m + 1) (cm_exinf p) (cm_mbxatr p).

(** A mailbox that appears: nothing else changes. *)
Lemma created_mbx_wf k Q m mc p L :
  wf k Q -> 0 <= m < CFN_MAX_MBXID -> mbxcbs k !! m = Some mc -> inq Q LFreeMbx (LMbx m) ->
  alone Q (LMbxq m) ->
  let Q' := <[LMbx m := []]> (qrm (LMbx m) Q) in
  rep L Q' -> dom L = dom (links k) ->
  wf (set_mbxcbs (<[m := created_mbx m p]> (mbxcbs k)) (set_links L k)) Q'.
Proof.
  intros (Hi & Hset & Hsch) Hrange Hm Hin Hal Q' HL HD. pose proof Hi as (Hr & Hn & Ha).
  assert (Hobj : (exists s, LMbx m = LSem s) \/ (exists f, LMbx m = LFlg f) \/
    (exists mb, LMbx m = LMbx mb)) by eauto.
  assert (Hlk : forall h, obj_head h -> h <> LMbx m -> Q' !! h = Q !! h).
  { intros h Ho Hne. by apply (lookup_obj_new Ha Hobj). }
  split; [|split; [split; [split|]|]].
  - split; [done|]. split; [by eapply nodes_ok_dom|]. proj. apply (ainv_obj Ha Hobj).
    + apply moved_obj_new. by eapply rep_inq_no_head.
    + done.
    + intros h Hx. by apply inq_obj_new in Hx.
    + intros s _. by left.
    + intros f _. by left.
    + intros mb Hr'. destruct (decide (mb = m)) as [->|Hne].
      * right. rewrite lookup_insert_eq. eexists. split; [done|]. left. split; [done|].
        exists [], []. split; [apply lookup_insert_eq|]. rewrite Hlk by done.
        split; [exact Hal|]. split; [intros _; constructor|by left].
      * left. rewrite lookup_insert_ne by done. split; [done|]. congruence.
  - destruct Hset as [[HS _] _]. intros s sc Hs.
    eapply (sem_settled_same (tcbs k) _ Q); [by apply Hlk|done|by apply HS].
  - destruct Hset as [[_ HF] _]. intros f fc Hf ws Hid Hq. rewrite Hlk in Hq by done.
    by apply (HF f fc Hf).
  - by apply (new_obj_timers Hi Hobj), Hset.
  - by apply (new_obj_sched Hi Hobj).
Qed.

(** What [tk_cre_mbx] gives and leaves. *)
Definition cre_mbx_post k Q pk (r : Z) (k' : kernel) : Prop :=
  exists Q', wf k' Q' /\
    match pk with
    | None => r = E_PAR /\ k' = k
    | Some p =>
      if decide (Z.land (cm_mbxatr p) (not32 VALID_MBXATR) <> 0) then r = E_RSATR /\ k' = k
      else match Q !! LFreeMbx with
        | Some (LMbx m :: _) => r = m + 1 /\ exists L,
            k' = set_mbxcbs (<[m := created_mbx m p]> (mbxcbs k)) (set_links L k) /\
            Q' = <[LMbx m := []]> (qrm (LMbx m) Q) /\ Q' !! LMbxq m = Some []
        | _ => r = E_LIMIT /\ k' = k
        end
    end.

Lemma wp_cre_mbx k Q pk : wf k Q ->
  wp (tk_cre_mbx pk) (cre_mbx_post k Q pk) k.
Proof.
  unfold cre_mbx_post.
  intros Hwf. unfold tk_cre_mbx. destruct pk as [p|]; [|apply wp_ret; by exists Q].
  destruct (decide (Z.land (cm_mbxatr p) (not32 VALID_MBXATR) <> 0)) as [Eatr|Eatr];
    [apply wp_ret; by exists Q|].
  pose proof Hwf as ((Hr & Hn & Ha) & _).
  destruct (ai_head _ _ _ _ _ _ Ha LFreeMbx I) as [fr Hfr].
  apply wp_bind, wp_DI. apply wp_bind. eapply wp_list_empty; [exact Hr|done|].
  rewrite Hfr. destruct fr as [|n fr].
  { rewrite bool_decide_true by done. apply wp_bind, wp_ret, wp_leave. by exists Q. }
  rewrite bool_decide_false by done. cbn [negb].
  assert (Hin : inq Q LFreeMbx n) by (exists (n :: fr); split; [done|by left]).
  pose proof (ai_kind _ _ _ _ _ _ Ha _ _ Hin) as Hk.
  destruct n as [| | | | | | | | | | | |m| |]; try done.
  destruct (ai_mbx _ _ _ _ _ _ Ha m Hk) as (mc & Hm & Hok).
  destruct Hok as [(_ & ws & msgs & E & _)|(Hid & _ & Hal)].
  { pose proof (rep_inq_no_head _ _ _ _ Hr Hin). congruence. }
  apply wp_bind, wp_bind. eapply wp_list_first; [exact Hr|done|]. simpl.
  apply wp_bind, wp_ret. apply wp_bind. eapply wp_list_del; [exact Hr|exact Hin|].
  intros L1 HL1 HD1. proj. apply wp_bind. eapply wp_list_init; [exact HL1| | |].
  { intros h Hx. by apply inq_qrm in Hx as (_ & ? & _). }
  { proj. rewrite HD1. by apply Hn. }
  intros L2 HL2 HD2. proj. set (Q' := <[LMbx m := []]> (qrm (LMbx m) Q)) in *.
  assert (Hal' : Q' !! LMbxq m = Some []).
  { unfold Q'. rewrite lookup_insert_ne by done. by apply alone_qrm. }
  apply wp_bind. eapply wp_list_init; [exact HL2| | |].
  { apply (rep_alone_loose _ _ _ HL2 Hal'). }
  { proj. rewrite HD2, HD1. by apply Hn. }
  intros L3 HL3 HD3. rewrite insert_id in HL3 by done. proj.
  apply wp_bind. eapply wp_mbx_get; [done|]. upd_mbx.
  destruct (id_bits_ok m) as (_ & _ & _ & Hb & _); [unfold kind_ok, CFN_MAX_MBXID in Hk; lia|].
  rewrite Hid, Hb. apply wp_ret. apply wp_bind, wp_EI; [done|]. apply wp_ret.
  set (k' := set_mbxcbs (<[m := created_mbx m p]> (mbxcbs k)) (set_links L3 k)).
  match goal with |- exists Q', wf ?kk Q' /\ _ =>
    assert (Ek : kk = k') by (unfold k'; clear; destruct k; reflexivity) end.
  rewrite Ek. exists Q'. split.
  - eapply created_mbx_wf; try done. congruence.
  - split; [done|]. by exists L3.
Qed.

(** ** [tk_rcv_mbx] *)

Section insert_waiter.
Context {k : kernel} {Q : queues} {m t : Z} {c : TCB} {mc : MBXCB} {ws : list link}.
Hypothesis Hr : rep (links k) Q.
Hypothesis Hn : nodes_ok (links k).
Hypothesis Ht : task_idx t.
Hypothesis Hc : tcbs k !! t = Some c.
Hypothesis Hmc : mbxcbs k !! m = Some mc.
Hypothesis Halone : alone Q (LWait t).
Hypothesis Hq : Q !! LMbx m = Some ws.
Hypothesis Hmem : forall n, n ∈ ws -> exists u cu, n = LWait u /\ tcbs k !! u = Some cu.
Hypothesis Ho : order_ok (tcbs k) (mbxatr mc) ws.

Definition waiter_put (Phi : unit -> kernel -> Prop) : Prop :=
  forall xs ys L, ws = xs ++ ys -> placed (tcbs k) (mbxatr mc) t xs ys ->
    rep L (q_wait (LMbx m) xs ys t Q) -> dom L = dom (links k) -> Phi tt (set_links L k).

Lemma wp_waiter_scan (Phi : unit -> kernel -> Prop) ys : forall xs fuel,
  Z.land (mbxatr mc) TA_TPRI <> 0 -> waiter_put Phi -> ws = xs ++ ys ->
  Forall (fun n => wpri (tcbs k) n <= itskpri c) xs -> (length ys < fuel)%nat ->
  wp (insert_waiter_scan fuel m t (default (LMbx m) (head ys))) Phi k.
Proof using Hr Hn Ht Hc Halone Hq Hmem Ho.
  induction ys as [|y ys IH]; intros xs fuel Ha H E Hx Hf;
    (destruct fuel as [|fuel]; [simpl in Hf; lia|]); simpl.
  - rewrite decide_True by done.
    apply (wp_join_tail (h := LMbx m) Hr Hn Ht Halone I Hq).
    intros k' (_ & L & HL & HD & ->). rewrite app_nil_r in E. subst xs.
    apply (H ws [] L); [by rewrite app_nil_r| |done|done].
    apply (placed_pri Hc); [done|rewrite app_nil_r; by apply Ho|done|done].
  - assert (Hy : y ∈ ws) by (rewrite E; apply elem_of_app; right; by left).
    destruct (Hmem y Hy) as (u & cu & Ey & Hu).
    assert (Hw : wpri (tcbs k) y = itskpri cu) by (rewrite Ey; unfold wpri, waiter; by rewrite Hu).
    rewrite decide_False by (by rewrite Ey). rewrite Ey at 1. apply wp_bind, wp_ret.
    apply wp_bind. eapply wp_tcb_get; [exact Hc|]. apply wp_bind.
    eapply wp_tcb_get; [exact Hu|]. case_decide as Hlt.
    + eapply (wp_list_add_before Hr (LMbx m) xs y ys); [by rewrite Hq, E|
        by apply (rep_alone_loose _ _ _ Hr Halone)|done|by apply Hn|].
      intros L HL HD. apply (H xs (y :: ys) L E); [|exact HL|exact HD].
      apply (placed_pri Hc); [done|rewrite <- E; by apply Ho|done|].
      intros z [= <-]. by rewrite Hw.
    + apply wp_bind. eapply (wp_list_next Hr (LMbx m) xs y ys); [by rewrite Hq, E|].
      apply (IH (xs ++ [y])); [done|done|by rewrite <- app_assoc| |simpl in Hf; lia].
      apply Forall_app. split; [done|]. constructor; [lia|done].
Qed.

Lemma wp_insert_waiter (Phi : unit -> kernel -> Prop) :
  waiter_put Phi -> wp (insert_waiter m t) Phi k.
Proof using Hr Hn Ht Hc Hmc Halone Hq Hmem Ho.
  intros H. unfold insert_waiter. apply wp_bind. eapply wp_mbx_get; [exact Hmc|]. case_decide as Ha.
  - apply wp_bind. eapply wp_list_first; [exact Hr|exact Hq|]. apply wp_bind, wp_gets.
    apply (wp_waiter_scan Phi ws []); [done..|]. unfold walk_fuel.
    pose proof (rep_length _ _ _ _ Hr Hq). lia.
  - apply (wp_join_tail (h := LMbx m) Hr Hn Ht Halone I Hq).
    intros k' (E & L & HL & HD & ->). rewrite app_nil_r in E.
    apply (H ws [] L); [by rewrite app_nil_r| |done|done]. unfold placed.
    rewrite decide_True; [done|]. by destruct (decide (Z.land (mbxatr mc) TA_TPRI = 0)).
Qed.
End insert_waiter.

Lemma mbx_join_ok k Q t c m mc xs ys timed :
  wf k Q -> running k Q t c -> mbxcbs k !! m = Some mc -> Q !! LMbx m = Some (xs ++ ys) ->
  Q !! LMbxq m = Some [] -> mbxid mc = m + 1 -> 0 <= m < CFN_MAX_MBXID ->
  placed (tcbs k) (mbxatr mc) t xs ys ->
  join_ok (k := k) (Q := Q) (t := t) (c := c) (h := LMbx m) (xs := xs) (ys := ys)
    (w := TTW_MBX) (wi := WMailbox 0) timed.
Proof.
  intros Hwf Hrun Hm Hq Hmsgs Hid Hrange Hp d L Hd HL HD k1.
  pose proof Hwf as ((Hr & Hn & Ha) & _). split.
  - split; [done|]. split; [by eapply nodes_ok_dom|]. unfold k1, with_lt. proj.
    eapply (ainv_join_mbx Ha (run_tcb _ _ _ _ Hrun)); try done.
    + apply (run_nowhere _ _ _ _ Hrun).
    + apply (run_pri _ _ _ _ Hrun).
  - assert (HT : tcbs k1 = <[t := queued (WMailbox 0) TTW_MBX d c]> (tcbs k)) by done. split.
    + intros s sc Hs. eapply (others_sem (h := LMbx m) Hwf Hrun I Hq HT); [done|exact Hs].
    + intros f fc Hf. eapply (others_flg (h := LMbx m) Hwf Hrun I Hq HT); [done|exact Hf].
Qed.

Lemma mbx_waiters_tcbs k Q m ws : inv k Q -> Q !! LMbx m = Some ws ->
  forall n, n ∈ ws -> exists u cu, n = LWait u /\ tcbs k !! u = Some cu.
Proof.
  intros (Hr & _ & Ha) Hq n Hn.
  destruct (waiter_mbx Hr Ha m n) as (u & cu & msg & -> & _ & Hcu & _); [by exists ws|]. eauto.
Qed.

(** What the call does to the mailbox that exists. *)
Definition rcv_mbx_case (k : kernel) (Q : queues) (t : Z) (c : TCB) (m : Z) (mc : MBXCB)
    (ws msgs : list link) (ppk_msg tmout : Z) (r : call) (k' : kernel) (Q' : queues) : Prop :=
  match msgs with
  | n :: msgs' => r = Return E_OK /\ exists a L, n = LMsg a /\
      Q' = <[n := []]> (qrm n Q) /\ Q' !! LMbxq m = Some msgs' /\
      k' = set_mem (<[ppk_msg := CWord a]> (mem k)) (set_links L k)
  | [] =>
    if decide (tmout = TMO_POL) then r = Return E_TMOUT /\ k' = k
    else r = Suspend (K_mbx ppk_msg) /\ exists xs ys, ws = xs ++ ys /\
      placed (tcbs k) (mbxatr mc) t xs ys /\
      waits_in (k := k) (Q := Q) (t := t) (c := c) (h := LMbx m) (xs := xs) (ys := ys)
        (w := TTW_MBX) (wi := WMailbox 0) (ticks := tkmc_ms_to_ticks tmout)
        (bool_decide (0 < tmout)) k' Q'
  end.

(** The caller waits at its place in the queue. *)
Lemma wp_receive_wait k Q t c m mc ws ppk_msg tmout (Phi : call -> kernel -> Prop) :
  wf k Q -> quiet k -> timer_in_reach k -> is_i32 tmout -> in_task k t -> running k Q t c ->
  mbxcbs k !! m = Some mc -> mbxid mc = m + 1 -> 0 <= m < CFN_MAX_MBXID ->
  Q !! LMbx m = Some ws -> Q !! LMbxq m = Some [] -> order_ok (tcbs k) (mbxatr mc) ws ->
  tmout <> TMO_POL ->
  (forall r k' Q', wf k' Q' -> mie k' = mie k ->
     rcv_mbx_case k Q t c m mc ws [] ppk_msg tmout r k' Q' -> Phi r k') ->
  wp (t <- current_tcb ;;
      tcb_upd t (set_winfo (WMailbox 0)) ;;;
      list_init (LWait t) ;;;
      insert_waiter m t ;;;
      (if decide (0 < tmout) then tkmc_schedule_timer t (tkmc_ms_to_ticks tmout) TTW_MBX
       else wait_forever t TTW_MBX) ;;;
      EI (saved (mie k)) ;;;
      ret (Suspend (K_mbx ppk_msg))) Phi (set_mie false k).
Proof.
  intros Hwf Hqt Hreach Ht32 Htask Hrun Hm Hid Hrange Hq Hq' Ho Epol Hpost.
  pose proof Htask as (Hmie & Hcur & Hisr). pose proof (run_tcb _ _ _ _ Hrun) as Hc.
  pose proof Hwf as (Hi & _). pose proof Hi as (Hr & Hn & Ha).
  pose proof (run_alone _ _ _ _ Hrun) as Hal.
  apply wp_bind. eapply wp_current_tcb; [done|].
  apply wp_bind. eapply wp_tcb_upd; [exact Hc|]. apply wp_bind.
  eapply wp_list_init; [exact Hr|by apply (rep_alone_loose _ _ _ Hr Hal)|apply Hn, (run_idx _ _ _ _ Hrun)|].
  intros L0 HL0 HD0. rewrite insert_id in HL0 by done. proj.
  assert (Hwp : forall n, wpri (<[t := set_winfo (WMailbox 0) c]> (tcbs k)) n =
    wpri (tcbs k) n) by (by apply wpri_winfo).
  assert (Hn0 : nodes_ok L0) by (by eapply nodes_ok_dom).
  apply wp_bind.
  eapply (wp_insert_waiter (k := set_links L0 (set_tcbs (<[t := set_winfo (WMailbox 0) c]> (tcbs k))
    (set_mie false k))) (mc := mc) (ws := ws) HL0 Hn0 (run_idx _ _ _ _ Hrun));
    [proj; apply lookup_insert_eq|exact Hm|exact Hal|exact Hq| | |].
  { intros n Hin. proj. eapply waiter_insert. by eapply mbx_waiters_tcbs. }
  { proj. by eapply order_ok_wpri. }
  intros xs ys L -> Hpl HL HD. proj. rewrite (placed_wpri _ _ _ _ _ _ Hwp) in Hpl.
  assert (HD' : dom L = dom (links k)) by congruence.
  apply (wp_wait_joined (h := LMbx m) (ws := xs ++ ys) (atr := mbxatr mc) Hwf Htask Hrun Hreach I
    Ht32) with (xs := xs) (ys := ys); [|done|exact Hpl|exact HL|exact HD'|].
  { intros xs' ys' E Hpl' timed. rewrite E in Hq. by eapply mbx_join_ok. }
  intros k' Q' Hwf' Hm' Hw. apply (Hpost _ _ Q' Hwf' Hm'). simpl. by rewrite decide_False.
Qed.

(** What [tk_rcv_mbx] gives and leaves. *)
Definition rcv_mbx_post k Q id ppk_msg tmout (r : call) (k' : kernel) : Prop :=
  exists Q', wf k' Q' /\ mie k' = mie k /\
    if negb (tkmc_id_in_range id CFN_MAX_MBXID) then r = Return E_ID /\ k' = k
    else if decide (ppk_msg = 0 \/ tmout < TMO_FEVR) then r = Return E_PAR /\ k' = k
    else if negb (may_block k) then r = Return E_CTX /\ k' = k
    else let m := id - 1 in
      exists t c mc, current k = Some t /\ tcbs k !! t = Some c /\ mbxcbs k !! m = Some mc /\
      if no_exist (mbxid mc) then r = Return E_NOEXS /\ k' = k
      else exists ws msgs, Q !! LMbx m = Some ws /\ Q !! LMbxq m = Some msgs /\
        rcv_mbx_case k Q t c m mc ws msgs ppk_msg tmout r k' Q'.

Lemma wp_rcv_mbx k Q id ppk_msg tmout :
  wf k Q -> quiet k -> timer_in_reach k -> is_i32 tmout ->
  wp (tk_rcv_mbx id ppk_msg tmout) (rcv_mbx_post k Q id ppk_msg tmout) k.
Proof.
  unfold rcv_mbx_post.
  intros Hwf Hqt Hreach Ht32. unfold tk_rcv_mbx.
  destruct (tkmc_id_in_range id CFN_MAX_MBXID) eqn:Eid; cbn [negb]; [|by apply wp_ret; exists Q].
  destruct (decide (ppk_msg = 0 \/ tmout < TMO_FEVR)) as [E1|E1]; [by apply wp_ret; exists Q|].
  apply wp_bind, wp_DI, wp_may_block; [intros ->; apply wp_leave; by exists Q|].
  intros t -> Htask. destruct (task_running k Q t Hwf Hqt Htask) as (Hm0 & c & Hrun).
  pose proof Htask as (Hmie & Hcur & Hisr). pose proof (run_tcb _ _ _ _ Hrun) as Hc.
  pose proof Hwf as (Hi & _). pose proof Hi as (Hr & Hn & Ha).
  destruct (mbx_here k Q id Hi Eid) as (Hrange & mc & Hm & Hcase). set (m := id - 1) in *.
  apply wp_bind. eapply wp_mbx_get; [exact Hm|].
  destruct Hcase as [(Hex & Hid & ws & msgs & Hq & Hq' & Ho & He)|(Hex & _)]; rewrite Hex.
  2:{ apply wp_leave. exists Q. split; [done|]. split; [done|]. exists t, c, mc. by rewrite Hex. }
  apply wp_bind. eapply wp_list_empty; [exact Hr|exact Hq'|].
  match goal with |- wp _ ?P _ => set (Post := P) end.
  assert (Hpost : forall r k' Q', wf k' Q' -> mie k' = mie k ->
    rcv_mbx_case k Q t c m mc ws msgs ppk_msg tmout r k' Q' -> Post r k').
  { intros r k' Q' Hwf' Hm' H. exists Q'. split; [done|]. split; [done|].
    exists t, c, mc. rewrite Hex. repeat (split; [done|]). by exists ws, msgs. }
  clearbody Post. destruct msgs as [|n msgs].
  - rewrite bool_decide_true by done. cbn [negb].
    destruct (decide (tmout = TMO_POL)) as [Epol|Epol].
    { apply wp_leave. apply (Hpost _ _ Q); [done|done|]. simpl. by rewrite decide_True. }
    by eapply (wp_receive_wait k Q t c m mc ws).
  - rewrite bool_decide_false by done. cbn [negb]. destruct He as [->|]; [|done].
    assert (Hin : inq Q (LMbxq m) n) by (eexists; split; [exact Hq'|by left]).
    destruct (mbxq_members k Q m _ Hi Hq' n) as [a ->]; [by left|].
    apply wp_bind. eapply wp_list_first; [exact Hr|exact Hq'|]. apply wp_bind, wp_ret.
    apply wp_bind. eapply wp_list_del; [exact Hr|exact Hin|]. intros L1 HL1 HD1. proj.
    apply wp_bind. eapply wp_list_init; [exact HL1| | |].
    { intros h Hx. by apply inq_qrm in Hx as (_ & ? & _). }
    { proj. rewrite HD1. apply (rep_dom _ _ _ _ _ Hr Hq'). right. by left. }
    intros L2 HL2 HD2. proj. unfold store_w. apply wp_bind, wp_modify.
    apply wp_bind, wp_EI; [done|]. apply wp_ret.
    assert (HD2' : dom L2 = dom (links k)) by congruence.
    destruct (msg_out_wf k Q m mc (LMsg a) msgs L2 Hwf Hm Hid Hrange Hq' Hq HL2 HD2') as [Hwf' Hms].
    apply (Hpost _ _ (<[LMsg a := []]> (qrm (LMsg a) Q))); [exact Hwf'|done|].
    split; [done|]. exists a, L2. split; [done|]. split; [done|]. split; [done|].
    by destruct k.
Qed.

(** C17: [tk_rcv_mbx] on every branch: the errors change nothing, the first message
    leaves the queue and is stored for the caller, a poll of an empty mailbox times
    out, and otherwise the caller is queued at its place and waits; the state stays
    well formed. *)
Theorem rcv_mbx_spec k Q id ppk_msg tmout :
  wf k Q -> quiet k -> timer_in_reach k -> is_i32 tmout ->
  wp (tk_rcv_mbx id ppk_msg tmout) (rcv_mbx_post k Q id ppk_msg tmout) k.
Proof. apply wp_rcv_mbx. Qed.

(** ** The end of [tk_rcv_mbx], in the task that waited *)

(** The control block afterwards. *)
Definition rested (c : TCB) : TCB :=
  set_tskwait 0 (set_delay_ticks 0 (set_wupcause E_OK (set_winfo (WMailbox 0) c))).

(** What [tk_rcv_mbx_resume] gives and leaves. *)
Definition rcv_mbx_resume_post k Q t c ppk_msg (r : Z) (k' : kernel) : Prop :=
  r = wupcause c /\ wf k' Q /\
    tcbs k' = <[t := rested c]> (tcbs k) /\ mie k' = mie k /\
    forall msg, winfo c = WMailbox msg ->
      mem k' = if decide (wupcause c = E_OK) then <[ppk_msg := CWord msg]> (mem k) else mem k.

Lemma wp_rcv_mbx_resume k Q t c ppk_msg : wf k Q -> current k = Some t ->
  tcbs k !! t = Some c -> ready_stat c ->
  (wupcause c = E_OK -> exists msg, winfo c = WMailbox msg) ->
  wp (tk_rcv_mbx_resume ppk_msg) (rcv_mbx_resume_post k Q t c ppk_msg) k.
Proof.
  unfold rcv_mbx_resume_post.
  intros Hwf Hcur Hc Hrs Hmsg. pose proof Hwf as ((Hr & Hn & Ha) & _).
  destruct (ready_in Ha t c Hc Hrs) as (_ & Hal & _).
  assert (Hwf' : forall M, wf (set_mem M (set_tcbs (<[t := rested c]> (tcbs k)) k)) Q).
  { intros M. exact (wf_touch_ready k Q t c (rested c) Hwf Hc Hrs eq_refl eq_refl eq_refl
      eq_refl eq_refl). }
  unfold tk_rcv_mbx_resume. apply wp_bind, wp_DI. apply wp_bind.
  eapply wp_current_tcb; [done|]. apply wp_bind. eapply wp_tcb_get; [done|].
  apply wp_bind. eapply wp_list_empty_alone; [exact Hr|exact Hal|]. cbn [negb].
  apply wp_bind, wp_ret. apply wp_bind. case_decide as Ec.
  - destruct (Hmsg Ec) as [msg Em]. rewrite Em. unfold store_w. apply wp_modify. proj.
    upd_tcb. apply wp_bind, wp_EI; [done|]. apply wp_ret. proj.
    split; [done|]. split; [exact (Hwf' _)|]. split; [done|]. split; [done|].
    intros msg' E. by simplify_eq.
  - apply wp_ret. upd_tcb. apply wp_bind, wp_EI; [done|]. apply wp_ret. proj.
    split; [done|]. split; [exact (Hwf' (mem k))|]. done.
Qed.
