(* ===== verification/IntCtl.v ===== *)
(** * The interrupt controller: [src/kernel/intctl.c]

    The handlers are functions of the application: a handler is a parameter
    of [tkmc_external_interrupt], what it does to the state. *)

From S2P Require Import Prelude DList Tkernel Kernel Inv Rules Sched.

Open Scope Z_scope.

Definition is_intno (intno : Z) : bool := bool_decide (1 <= intno < CFN_MAX_INTNO).

Definition is_enabled (src : Z) : K bool :=
  w <- in_w (PLIC_ENABLE src) ;;
  ret (bool_decide (Z.land (Z.shiftr w (src mod 32)) 1 <> 0)).

Definition set_enabled (src : Z) (on : bool) : K unit :=
  word <- in_w (PLIC_ENABLE src) ;;
  let bit := Z.shiftl 1 (src mod 32) in
  out_w (PLIC_ENABLE src) (if on then Z.lor word bit else Z.land word (not32 bit)).

Definition set_handler (intno : Z) (h : FP) : K unit :=
  modify (fun k => set_s_handlers (<[intno := h]> (s_handlers k)) k).

Definition tkmc_init_intctl : K unit :=
  for_range (Z.to_nat CFN_MAX_INTNO) 0 (fun intno => set_handler intno None) ;;;
  for_range (Z.to_nat (PLIC_SOURCE_COUNT - 1)) 1 (fun src => out_w (PLIC_PRIORITY src) 0) ;;;
  for_range (Z.to_nat ((PLIC_SOURCE_COUNT + 31) / 32)) 0
    (fun word => out_w (PLIC_ENABLE (32 * word)) 0) ;;;
  out_w PLIC_THRESHOLD 0.

Definition tk_def_int (intno : Z) (pk_dint : option T_DINT) : K Z :=
  intsts <- DI ;;
  isr <- tkmc_in_isr ;;
  ercd <- (if isDI intsts || isr then ret E_CTX
    else if negb (is_intno intno) then ret E_PAR
    else match pk_dint with
         | None => set_handler intno None ;;; ret E_OK
         | Some d =>
           if decide (intatr d <> TA_HLNG) then ret E_RSATR
           else if decide (inthdr d = None) then ret E_PAR
           else set_handler intno (inthdr d) ;;; ret E_OK
         end) ;;
  EI intsts ;;;
  ret ercd.

Definition EnableInt (intno level : Z) : K unit :=
  if negb (is_intno intno) || bool_decide (level < 1)
     || bool_decide (PLIC_MAX_PRIORITY < level) then ret tt
  else
    intsts <- DI ;;
    out_w (PLIC_PRIORITY intno) level ;;;
    set_enabled intno true ;;;
    th <- in_w PLIC_THRESHOLD ;;
    out_w PLIC_THRESHOLD th ;;;
    EI intsts.

Definition DisableInt (intno : Z) : K unit :=
  if negb (is_intno intno) then ret tt
  else
    intsts <- DI ;;
    set_enabled intno false ;;;
    EI intsts.

Section external_interrupt.
(** What the application's handler at an address does, given its number. *)
Variable run_handler : text -> Z -> K unit.

Definition tkmc_external_interrupt : K unit :=
  intno <- in_w PLIC_CLAIM ;;
  if decide (intno = 0) then ret tt
  else
    handler <- (if is_intno intno
                then gets_opt (fun k => s_handlers k !! intno) else ret None) ;;
    match (handler : FP) with
    | Some h =>
      threshold <- in_w PLIC_THRESHOLD ;;
      pri <- in_w (PLIC_PRIORITY intno) ;;
      out_w PLIC_THRESHOLD pri ;;;
      run_handler h intno ;;;
      out_w PLIC_THRESHOLD threshold
    | None => ret tt
    end ;;;
    stays_on <- match (handler : FP) with
                | Some _ => is_enabled intno
                | None => ret false
                end ;;
    set_enabled intno true ;;;
    out_w PLIC_CLAIM intno ;;;
    if (stays_on : bool) then ret tt else set_enabled intno false.
End external_interrupt.

Implicit Types (k : kernel) (Q : queues) (p : PLIC).

(** ** The registers *)

Ltac ports := unfold priority_source, enable_word, PLIC_PRIORITY, PLIC_ENABLE, PLIC_THRESHOLD,
  PLIC_CLAIM, PLIC_BASE_ADDRESS, PLIC_PRIORITY_OFFSET, PLIC_ENABLE_OFFSET,
  PLIC_THRESHOLD_OFFSET, PLIC_CLAIM_OFFSET, PLIC_SOURCE_COUNT, CLINT_MSIP_ADDRESS,
  CLINT_MTIMECMP_ADDRESS, CLINT_MTIME_ADDRESS, CLINT_BASE_ADDRESS, CLINT_MSIP_OFFSET,
  CLINT_MTIMECMP_OFFSET, CLINT_MTIME_OFFSET, CFN_MAX_INTNO in *.

Lemma priority_source_port i : 1 <= i < PLIC_SOURCE_COUNT -> priority_source (PLIC_PRIORITY i) = Some i.
Proof.
  intros Hi. unfold priority_source.
  replace ((PLIC_PRIORITY i - PLIC_PRIORITY 0) / 4) with i; [by rewrite decide_True|].
  unfold PLIC_PRIORITY. replace (_ - _) with (i * 4) by lia. by rewrite Z.div_mul.
Qed.

Lemma enable_word_port i : 0 <= i < PLIC_SOURCE_COUNT ->
  priority_source (PLIC_ENABLE i) = None /\ enable_word (PLIC_ENABLE i) = Some (i / 32).
Proof.
  intros Hi. assert (Hw : 0 <= i / 32 < 3).
  { ports. split; [apply Z.div_pos; lia|apply Z.div_lt_upper_bound; lia]. }
  split.
  - unfold priority_source. rewrite decide_False; [done|]. intros [Hr E].
    set (j := (PLIC_ENABLE i - PLIC_PRIORITY 0) / 4) in *. clearbody j. ports. lia.
  - unfold enable_word. replace ((PLIC_ENABLE i - PLIC_ENABLE 0) / 4) with (i / 32).
    + rewrite decide_True; [done|]. split; [exact Hw|].
      unfold PLIC_ENABLE. by rewrite (Z.mul_comm 32), Z.div_mul.
    + unfold PLIC_ENABLE. change (0 / 32) with 0.
      replace (_ - _) with (i / 32 * 4) by lia. by rewrite Z.div_mul.
Qed.

Lemma wp_out_priority k i v (Phi : unit -> kernel -> Prop) : 1 <= i < PLIC_SOURCE_COUNT ->
  Phi tt (set_plic (set_pl_priority (<[i := v]> (pl_priority (plic k))) (plic k)) k) ->
  wp (out_w (PLIC_PRIORITY i) v) Phi k.
Proof.
  intros Hi H. unfold out_w. rewrite !decide_False by (ports; lia).
  eapply wp_modify_opt; [|exact H]. unfold plic_out.
  rewrite !decide_False by (ports; lia). by rewrite priority_source_port.
Qed.

Lemma enable_port_other i : 0 <= i < PLIC_SOURCE_COUNT ->
  let a := PLIC_ENABLE i in a <> CLINT_MSIP_ADDRESS /\ a <> CLINT_MTIMECMP_ADDRESS /\
  a <> CLINT_MTIMECMP_ADDRESS + 4 /\ a <> CLINT_MTIME_ADDRESS /\ a <> CLINT_MTIME_ADDRESS + 4 /\
  a <> PLIC_THRESHOLD /\ a <> PLIC_CLAIM.
Proof.
  intros Hi. assert (Hw : 0 <= i / 32 < 3).
  { ports. split; [apply Z.div_pos; lia|apply Z.div_lt_upper_bound; lia]. }
  ports. simpl. lia.
Qed.

Lemma wp_out_enable k i v (Phi : unit -> kernel -> Prop) : 0 <= i < PLIC_SOURCE_COUNT ->
  Phi tt (set_plic (set_pl_enable (<[i / 32 := v]> (pl_enable (plic k))) (plic k)) k) ->
  wp (out_w (PLIC_ENABLE i) v) Phi k.
Proof.
  intros Hi H. destruct (enable_port_other i Hi) as (H1 & H2 & H3 & H4 & H5 & H6 & H7).
  destruct (enable_word_port i Hi) as [E1 E2]. unfold out_w. rewrite !decide_False by done.
  eapply wp_modify_opt; [|exact H]. unfold plic_out. rewrite !decide_False by done.
  by rewrite E1, E2.
Qed.

(** A read of a register of the PLIC counts, as every read of a port. *)
Definition read_once (k : kernel) : kernel := set_reads (S (reads k)) k.

Lemma wp_in_plic k port v p' (Phi : Z -> kernel -> Prop) :
  port <> CLINT_MTIME_ADDRESS -> port <> CLINT_MTIME_ADDRESS + 4 -> port <> CLINT_MSIP_ADDRESS ->
  plic_in port (plic k) = Some (v, p') -> Phi v (set_plic p' (read_once k)) ->
  wp (in_w port) Phi k.
Proof.
  intros H1 H2 H3 E H. unfold in_w. apply wp_bind, wp_gets. apply wp_bind, wp_modify.
  rewrite !decide_False by done. apply wp_bind. eapply wp_gets_opt; [exact E|].
  apply wp_bind, wp_modify. by apply wp_ret.
Qed.

Lemma plic_same k : set_plic (plic k) k = k.
Proof. by destruct k. Qed.

Lemma wp_in_enable k i (Phi : Z -> kernel -> Prop) : 0 <= i < PLIC_SOURCE_COUNT ->
  Phi (default 0 (pl_enable (plic k) !! (i / 32))) (read_once k) ->
  wp (in_w (PLIC_ENABLE i)) Phi k.
Proof.
  intros Hi H. destruct (enable_port_other i Hi) as (H1 & H2 & H3 & H4 & H5 & H6 & H7).
  destruct (enable_word_port i Hi) as [E1 E2].
  eapply (wp_in_plic k _ _ (plic k)); [done..| |].
  - unfold plic_in. rewrite !decide_False by done. by rewrite E1, E2.
  - change (plic k) with (plic (read_once k)) at 2. by rewrite plic_same.
Qed.

Lemma wp_in_priority k i (Phi : Z -> kernel -> Prop) : 1 <= i < PLIC_SOURCE_COUNT ->
  Phi (default 0 (pl_priority (plic k) !! i)) (read_once k) ->
  wp (in_w (PLIC_PRIORITY i)) Phi k.
Proof.
  intros Hi H. eapply (wp_in_plic k _ _ (plic k)); [ports; lia..| |].
  - unfold plic_in. rewrite !decide_False by (ports; lia). by rewrite priority_source_port.
  - change (plic k) with (plic (read_once k)) at 2. by rewrite plic_same.
Qed.

Lemma wp_in_threshold k (Phi : Z -> kernel -> Prop) :
  Phi (pl_threshold (plic k)) (read_once k) -> wp (in_w PLIC_THRESHOLD) Phi k.
Proof.
  intros H. eapply (wp_in_plic k _ _ (plic k)); [done..| |].
  - unfold plic_in. by rewrite decide_True.
  - change (plic k) with (plic (read_once k)) at 2. by rewrite plic_same.
Qed.

Lemma wp_out_threshold k v (Phi : unit -> kernel -> Prop) :
  Phi tt (set_plic (set_pl_threshold v (plic k)) k) -> wp (out_w PLIC_THRESHOLD v) Phi k.
Proof. intros H. exact H. Qed.

Lemma wp_in_claim k (Phi : Z -> kernel -> Prop) :
  Phi (pl_claim (plic k)) (set_plic (set_pl_claim 0 (plic k)) (read_once k)) ->
  wp (in_w PLIC_CLAIM) Phi k.
Proof. intros H. by eapply (wp_in_plic k); [done..|]. Qed.

(** ** The enable bits *)

Definition set_bit (src : Z) (on : bool) (w : Z) : Z :=
  let bit := Z.shiftl 1 (src mod 32) in
  if on then Z.lor w bit else Z.land w (not32 bit).

(** The PLIC with the bit of [src] on or off. *)
Definition enabled_as (src : Z) (on : bool) (p : PLIC) : PLIC :=
  set_pl_enable (<[src / 32 := set_bit src on (default 0 (pl_enable p !! (src / 32)))]>
    (pl_enable p)) p.

Lemma testbit_one n m : 0 <= n -> 0 <= m -> Z.testbit (Z.shiftl 1 n) m = bool_decide (m = n).
Proof.
  intros Hn Hm. rewrite Z.shiftl_spec by done. destruct (decide (m = n)) as [->|Hne].
  - by rewrite bool_decide_true, Z.sub_diag.
  - rewrite bool_decide_false by done. destruct (decide (m < n)).
    + apply Z.testbit_neg_r. lia.
    + apply (Z.bits_above_log2 1); simpl; lia.
Qed.

Lemma testbit_not32 x m : 0 <= m < 32 -> Z.testbit (not32 x) m = negb (Z.testbit x m).
Proof.
  intros Hm. unfold not32, u32. rewrite Z.lxor_spec, Z.mod_pow2_bits_low by lia.
  rewrite Z.ones_spec_low by lia. by destruct (Z.testbit x m).
Qed.

(** Only the bit of that source changes. *)
Lemma plic_enabled_as src on p src' : 0 <= src -> 0 <= src' ->
  plic_enabled (enabled_as src on p) src' = if decide (src' = src) then on else plic_enabled p src'.
Proof.
  intros Hs Hs'. unfold plic_enabled, enabled_as.
  cbn [pl_enable set_pl_enable]. assert (Hb : 0 <= src mod 32 < 32) by (by apply Z.mod_pos_bound).
  assert (Hb' : 0 <= src' mod 32 < 32) by (by apply Z.mod_pos_bound).
  destruct (decide (src' / 32 = src / 32)) as [E|E].
  - rewrite E, lookup_insert_eq. cbn [default from_option id]. unfold set_bit.
    assert (Hm : src' mod 32 = src mod 32 <-> src' = src).
    { split; [intros Em|by intros ->]. rewrite (Z.div_mod src' 32), (Z.div_mod src 32) by done.
      congruence. }
    destruct on.
    + rewrite Z.lor_spec, testbit_one by lia. case_decide as Es.
      * rewrite bool_decide_true by tauto. by rewrite orb_true_r.
      * rewrite bool_decide_false by tauto. by rewrite orb_false_r.
    + rewrite Z.land_spec, testbit_not32, testbit_one by lia. case_decide as Es.
      * rewrite bool_decide_true by tauto. by rewrite andb_false_r.
      * rewrite bool_decide_false by tauto. by rewrite andb_true_r.
  - rewrite lookup_insert_ne by congruence. rewrite decide_False; [done|]. by intros ->.
Qed.

Lemma wp_set_enabled k src on (Phi : unit -> kernel -> Prop) : 0 <= src < PLIC_SOURCE_COUNT ->
  Phi tt (set_plic (enabled_as src on (plic k)) (read_once k)) ->
  wp (set_enabled src on) Phi k.
Proof.
  intros Hs H. unfold set_enabled. apply wp_bind, wp_in_enable; [done|].
  apply wp_out_enable; [done|exact H].
Qed.

Lemma wp_is_enabled k src (Phi : bool -> kernel -> Prop) : 0 <= src < PLIC_SOURCE_COUNT ->
  Phi (plic_enabled (plic k) src) (read_once k) -> wp (is_enabled src) Phi k.
Proof.
  intros Hs H. unfold is_enabled. apply wp_bind, wp_in_enable; [done|]. apply wp_ret.
  set (w := default 0 _). assert (E : Z.land (Z.shiftr w (src mod 32)) 1 =
    Z.b2z (plic_enabled (plic k) src)); [|rewrite E; by destruct (plic_enabled (plic k) src)].
  assert (Hb : 0 <= src mod 32 < 32) by (by apply Z.mod_pos_bound).
  unfold plic_enabled. fold w. rewrite Z.testbit_spec', Z.shiftr_div_pow2 by lia.
  change 1 with (Z.ones 1). by rewrite Z.land_ones.
Qed.

(** ** What the calls leave alone *)

(** Only the registers of the PLIC changed (and ports were read). *)
Definition plic_only (k k' : kernel) : Prop := k' = set_plic (plic k') (set_reads (reads k') k).

Lemma plic_only_refl k : plic_only k k.
Proof. unfold plic_only. by destruct k. Qed.

Lemma plic_only_trans k1 k2 k3 : plic_only k1 k2 -> plic_only k2 k3 -> plic_only k1 k3.
Proof. unfold plic_only. intros -> ->. by destruct k1. Qed.

Lemma plic_only_step k p n : plic_only k (set_reads n (set_plic p k)).
Proof. unfold plic_only. by destruct k. Qed.

Lemma plic_only_wf k k' Q : plic_only k k' -> wf k Q -> wf k' Q.
Proof. intros -> H. exact H. Qed.

(** The priorities of the sources are levels of the PLIC, and so is the threshold. *)
Record plic_ok p : Prop := {
  po_priority src : 1 <= src < PLIC_SOURCE_COUNT ->
    0 <= default 0 (pl_priority p !! src) <= PLIC_MAX_PRIORITY;
  po_threshold : 0 <= pl_threshold p;
}.

(** A call that may write a priority leaves the threshold. *)
Definition plic_step p p' : Prop := pl_threshold p' = pl_threshold p /\ (plic_ok p -> plic_ok p').

Lemma plic_step_refl p : plic_step p p.
Proof. by split. Qed.

Lemma plic_ok_same p p' : pl_priority p' = pl_priority p -> pl_threshold p' = pl_threshold p ->
  plic_ok p -> plic_ok p'.
Proof. intros E1 E2 [H1 H2]. split; by rewrite ?E1, ?E2. Qed.

(** *** [tk_def_int] *)

Definition def_int_error (k : kernel) (intno : Z) (pk : option T_DINT) : Z :=
  if negb (mie k) || negb (bool_decide (isr_depth k = 0)) then E_CTX
  else if negb (is_intno intno) then E_PAR
  else match pk with
       | None => E_OK
       | Some d => if decide (intatr d <> TA_HLNG) then E_RSATR
                   else if decide (inthdr d = None) then E_PAR else E_OK
       end.

(** What [tk_def_int] gives and leaves. *)
Definition def_int_post k intno pk (r : Z) (k' : kernel) : Prop :=
  r = def_int_error k intno pk /\
    (forall Q, wf k Q -> wf k' Q) /\
    k' = (if decide (r = E_OK)
          then set_s_handlers (<[intno := d ← pk; inthdr d]> (s_handlers k)) k else k).

Lemma wp_def_int k intno pk :
  wp (tk_def_int intno pk) (def_int_post k intno pk) k.
Proof.
  unfold def_int_post.
  unfold tk_def_int. apply wp_bind, wp_DI. apply wp_bind, wp_gets. proj.
  rewrite isDI_saved.
  assert (Hend : forall r h, r = def_int_error k intno pk ->
    (r = E_OK -> h = <[intno := d ← pk; inthdr d]> (s_handlers k)) -> (r <> E_OK -> h = s_handlers k) ->
    wp (EI (saved (mie k)) ;;; ret r) (fun r k' => r = def_int_error k intno pk /\
      (forall Q, wf k Q -> wf k' Q) /\
      k' = (if decide (r = E_OK)
          then set_s_handlers (<[intno := d ← pk; inthdr d]> (s_handlers k)) k else k))
      (set_s_handlers h (set_mie false k))).
  { intros r h Hr H1 H2. apply wp_bind, wp_EI; [done|]. apply wp_ret. split; [done|].
    split; [intros Q H; exact H|]. case_decide as E; [rewrite (H1 E)|rewrite (H2 E)]; by destruct k. }
  assert (Hsame : set_mie false k = set_s_handlers (s_handlers k) (set_mie false k)) by by destruct k.
  unfold def_int_error in Hend |- *.
  destruct (negb (mie k) || negb (bool_decide (isr_depth k = 0))).
  { apply wp_bind, wp_ret. rewrite Hsame. by apply Hend. }
  destruct (is_intno intno); cbn [negb] in *.
  2:{ apply wp_bind, wp_ret. rewrite Hsame. by apply Hend. }
  destruct pk as [d|].
  2:{ apply wp_bind, wp_bind, wp_modify, wp_ret. by apply Hend. }
  destruct (decide (intatr d <> TA_HLNG)).
  { apply wp_bind, wp_ret. rewrite Hsame. by apply Hend. }
  destruct (decide (inthdr d = None)).
  { apply wp_bind, wp_ret. rewrite Hsame. by apply Hend. }
  apply wp_bind, wp_bind, wp_modify, wp_ret. by apply Hend.
Qed.

(** *** [EnableInt] and [DisableInt] *)

Lemma is_intno_spec i : is_intno i = true <-> 1 <= i < CFN_MAX_INTNO.
Proof. unfold is_intno. by rewrite bool_decide_eq_true. Qed.

(** What [EnableInt] gives and leaves. *)
Definition enable_int_post k intno level (_ : unit) (k' : kernel) : Prop :=
  plic_only k k' /\ (forall Q, wf k Q -> wf k' Q) /\
    if is_intno intno && bool_decide (1 <= level <= PLIC_MAX_PRIORITY) then
      pl_threshold (plic k') = pl_threshold (plic k) /\
      pl_priority (plic k') = <[intno := level]> (pl_priority (plic k)) /\
      (forall src, 0 <= src -> plic_enabled (plic k') src =
         if decide (src = intno) then true else plic_enabled (plic k) src) /\
      pl_claim (plic k') = pl_claim (plic k) /\ pl_completed (plic k') = pl_completed (plic k) /\
      pl_ignored (plic k') = pl_ignored (plic k)
    else k' = k.

Lemma wp_enable_int k intno level :
  wp (EnableInt intno level) (enable_int_post k intno level) k.
Proof.
  unfold enable_int_post.
  unfold EnableInt. destruct (is_intno intno) eqn:Ei; cbn [negb orb andb].
  2:{ apply wp_ret. split; [apply plic_only_refl|]. done. }
  apply is_intno_spec in Ei. destruct (decide (1 <= level <= PLIC_MAX_PRIORITY)) as [El|El].
  2:{ replace (bool_decide (level < 1) || bool_decide (PLIC_MAX_PRIORITY < level)) with true.
      - apply wp_ret. rewrite bool_decide_false by done. split; [apply plic_only_refl|]. done.
      - symmetry. rewrite orb_true_iff, !bool_decide_eq_true. lia. }
  rewrite !(bool_decide_false (_ < _)) by lia. rewrite bool_decide_true by done. cbn [orb].
  assert (Hr : 1 <= intno < PLIC_SOURCE_COUNT) by (unfold CFN_MAX_INTNO, PLIC_SOURCE_COUNT in *; lia).
  apply wp_bind, wp_DI. apply wp_bind, wp_out_priority; [done|].
  apply wp_bind, wp_set_enabled; [lia|]. apply wp_bind, wp_in_threshold.
  apply wp_bind, wp_out_threshold. apply wp_EI; [done|].
  unfold plic_only, read_once. proj. split; [by destruct k|]. split; [intros Q H; exact H|].
  split; [done|]. split; [done|]. split; [|done].
  intros src Hs. apply (plic_enabled_as intno true (set_pl_priority _ (plic k))); lia.
Qed.

Lemma enable_int_plic k intno level u k' : enable_int_post k intno level u k' ->
  plic_step (plic k) (plic k').
Proof.
  intros (_ & _ & H). destruct (is_intno intno && _) eqn:E; [|rewrite H; apply plic_step_refl].
  apply andb_prop in E as [Hi%is_intno_spec Hl%bool_decide_eq_true].
  destruct H as (Et & Ep & _). split; [exact Et|]. intros [H1 H2]. split; [|by rewrite Et].
  intros src Hs. rewrite Ep. destruct (decide (src = intno)) as [->|Hne].
  - rewrite lookup_insert_eq. simpl. lia.
  - rewrite lookup_insert_ne by done. by apply H1.
Qed.

(** What [DisableInt] gives and leaves. *)
Definition disable_int_post k intno (_ : unit) (k' : kernel) : Prop :=
  plic_only k k' /\ (forall Q, wf k Q -> wf k' Q) /\
    if is_intno intno then
      (forall src, 0 <= src -> plic_enabled (plic k') src =
         if decide (src = intno) then false else plic_enabled (plic k) src) /\
      plic k' = set_pl_enable (pl_enable (plic k')) (plic k)
    else k' = k.

Lemma wp_disable_int k intno :
  wp (DisableInt intno) (disable_int_post k intno) k.
Proof.
  unfold disable_int_post.
  unfold DisableInt. destruct (is_intno intno) eqn:Ei; cbn [negb].
  2:{ apply wp_ret. split; [apply plic_only_refl|]. done. }
  apply is_intno_spec in Ei.
  apply wp_bind, wp_DI. apply wp_bind, wp_set_enabled.
  { unfold CFN_MAX_INTNO, PLIC_SOURCE_COUNT in *. lia. }
  apply wp_EI; [done|]. unfold plic_only, read_once. proj. split; [by destruct k|].
  split; [intros Q H; exact H|]. split; [|done].
  intros src Hs. apply (plic_enabled_as intno false (plic k)); lia.
Qed.

Lemma disable_int_plic k intno u k' : disable_int_post k intno u k' ->
  plic_step (plic k) (plic k').
Proof.
  intros (_ & _ & H). destruct (is_intno intno); [|rewrite H; apply plic_step_refl].
  destruct H as (_ & H). split; [by rewrite H|]. apply plic_ok_same; by rewrite H.
Qed.

(** *** [tkmc_init_intctl] *)

(** No handler, no source on, and every interrupt may come. *)
Definition init_intctl_post k (_ : unit) (k' : kernel) : Prop :=
  k' = set_s_handlers (s_handlers k') (set_plic (plic k') k) /\
  (forall i, 0 <= i < CFN_MAX_INTNO -> s_handlers k' !! i = Some None) /\
  (forall src, 1 <= src < PLIC_SOURCE_COUNT -> pl_priority (plic k') !! src = Some 0) /\
  (forall src, 0 <= src < PLIC_SOURCE_COUNT -> plic_enabled (plic k') src = false) /\
  pl_threshold (plic k') = 0.

Lemma wp_init_intctl k : wp tkmc_init_intctl (init_intctl_post k) k.
Proof.
  unfold init_intctl_post.
  unfold tkmc_init_intctl. apply wp_bind.
  pose (only := fun k1 => exists h p, k1 = set_s_handlers h (set_plic p k)).
  pose (hdl := fun n k1 => forall i, 0 <= i < n -> s_handlers k1 !! i = Some None).
  pose (pri := fun n k1 => forall i, 1 <= i < n -> pl_priority (plic k1) !! i = Some 0).
  pose (ena := fun n k1 => forall i, 0 <= i < n -> pl_enable (plic k1) !! i = Some 0).
  apply (wp_for_range (fun n k1 => only k1 /\ hdl n k1)).
  { split; [exists (s_handlers k), (plic k); by destruct k|]. intros i Hi. lia. }
  { intros j k1 Hj [Ho Hh]. apply wp_modify. split; [destruct Ho as (h & p & ->); by eexists _, _|].
    intros i Hi. proj. destruct (decide (i = j)) as [->|]; [apply lookup_insert_eq|].
    rewrite lookup_insert_ne by done. apply Hh. lia. }
  intros k1 [Ho1 Hh1]. apply wp_bind.
  apply (wp_for_range (fun n k2 => only k2 /\ hdl CFN_MAX_INTNO k2 /\ pri n k2)).
  { split; [done|]. split; [exact Hh1|]. intros i Hi. lia. }
  { intros j k2 Hj (Ho & Hh & Hp). apply wp_out_priority; [unfold PLIC_SOURCE_COUNT in *; lia|].
    split; [destruct Ho as (h & p & ->); by eexists _, _|]. split; [exact Hh|].
    intros i Hi. proj. cbn [pl_priority set_pl_priority].
    destruct (decide (i = j)) as [->|]; [apply lookup_insert_eq|].
    rewrite lookup_insert_ne by done. apply Hp. lia. }
  intros k2 (Ho2 & Hh2 & Hp2). apply wp_bind.
  apply (wp_for_range (fun n k3 => only k3 /\ hdl CFN_MAX_INTNO k3 /\ pri PLIC_SOURCE_COUNT k3 /\ ena n k3)).
  { split; [done|]. split; [done|]. split; [exact Hp2|]. intros i Hi. lia. }
  { intros j k3 Hj (Ho & Hh & Hp & He).
    change (Z.to_nat ((PLIC_SOURCE_COUNT + 31) / 32)) with 3%nat in Hj.
    apply wp_out_enable; [unfold PLIC_SOURCE_COUNT; lia|].
    replace (32 * j / 32) with j by (by rewrite (Z.mul_comm 32), Z.div_mul).
    split; [destruct Ho as (h & p & ->); by eexists _, _|]. split; [exact Hh|]. split; [exact Hp|].
    intros i Hi. proj. cbn [pl_enable set_pl_enable].
    destruct (decide (i = j)) as [->|]; [apply lookup_insert_eq|].
    rewrite lookup_insert_ne by done. apply He. lia. }
  intros k3 (Ho3 & Hh3 & Hp3 & He3). apply wp_out_threshold.
  split; [destruct Ho3 as (h & p & ->); done|]. split; [exact Hh3|]. split; [exact Hp3|].
  split; [|done]. intros src Hs. unfold plic_enabled. proj. cbn [pl_enable set_pl_threshold].
  rewrite (He3 (src / 32)); [by rewrite Z.testbit_0_l|].
  split; [apply Z.div_pos; lia|].
  change (0 + Z.of_nat (Z.to_nat ((PLIC_SOURCE_COUNT + 31) / 32))) with 3.
  apply Z.div_lt_upper_bound; [done|]. unfold PLIC_SOURCE_COUNT in Hs. lia.
Qed.

(** *** [tkmc_external_interrupt] *)

Section external.
Variable run_handler : text -> Z -> K unit.

(** The state in which the handler of the source [intno] is called: the claim is
    taken, and only sources of a higher priority can interrupt. *)
Definition handler_entry (k : kernel) (intno : Z) : kernel :=
  set_reads (S (S (S (reads k))))
    (set_plic (set_pl_threshold (default 0 (pl_priority (plic k) !! intno))
      (set_pl_claim 0 (plic k))) k).

Definition handler_of (k : kernel) (intno : Z) : FP :=
  if is_intno intno then default None (s_handlers k !! intno) else None.

(** The end of the handling of [intno], from the state [k1] after the handler:
    it is completed, while it is enabled, and it is enabled then if [on]. *)
Definition finished (k1 k' : kernel) (intno : Z) (on : bool) (threshold : Z) : Prop :=
  plic_only k1 k' /\ pl_threshold (plic k') = threshold /\
  pl_completed (plic k') = intno :: pl_completed (plic k1) /\
  pl_ignored (plic k') = pl_ignored (plic k1) /\ pl_claim (plic k') = pl_claim (plic k1) /\
  pl_priority (plic k') = pl_priority (plic k1) /\
  forall src, 0 <= src -> plic_enabled (plic k') src =
    if decide (src = intno) then on else plic_enabled (plic k1) src.

Lemma wp_finish k1 k2 intno on (Phi : unit -> kernel -> Prop) :
  1 <= intno < PLIC_SOURCE_COUNT -> plic_only k1 k2 ->
  plic k2 = set_pl_threshold (pl_threshold (plic k2)) (plic k1) ->
  (on = true -> plic_enabled (plic k1) intno = true) ->
  (forall k', finished k1 k' intno on (pl_threshold (plic k2)) -> Phi tt k') ->
  wp (set_enabled intno true ;;; out_w PLIC_CLAIM intno ;;;
      if on then ret tt else set_enabled intno false) Phi k2.
Proof.
  intros Hr H12 Hp Hon H. apply wp_bind, wp_set_enabled; [lia|].
  set (p2 := enabled_as intno true (plic k2)).
  assert (He : plic_enabled p2 intno = true).
  { unfold p2. rewrite plic_enabled_as by lia. by rewrite decide_True. }
  apply wp_bind. eapply wp_modify_opt.
  { unfold plic_out. rewrite decide_False, decide_True by done. proj. fold p2. rewrite He.
    rewrite bool_decide_true by (apply Hr). reflexivity. }
  assert (Hen : forall p src, pl_enable p = pl_enable (plic k2) ->
    plic_enabled p src = plic_enabled (plic k1) src).
  { intros p src E. unfold plic_enabled. rewrite E. by rewrite Hp. }
  assert (Hf : forall n p, pl_threshold p = pl_threshold (plic k2) ->
    pl_completed p = intno :: pl_completed (plic k1) -> pl_ignored p = pl_ignored (plic k1) ->
    pl_claim p = pl_claim (plic k1) -> pl_priority p = pl_priority (plic k1) ->
    (forall src, 0 <= src -> plic_enabled p src =
      if decide (src = intno) then on else plic_enabled (plic k1) src) ->
    Phi tt (set_plic p (set_reads n k2))).
  { intros n p H1 H2 H3 H4 H5 H6. apply H. split; [|by repeat split].
    eapply plic_only_trans; [exact H12|]. unfold plic_only. by destruct k2. }
  assert (Hp' : pl_completed (plic k2) = pl_completed (plic k1) /\
    pl_ignored (plic k2) = pl_ignored (plic k1) /\ pl_claim (plic k2) = pl_claim (plic k1) /\
    pl_priority (plic k2) = pl_priority (plic k1)) by (rewrite Hp; done).
  destruct Hp' as (P1 & P2 & P3 & P4). destruct on.
  - apply wp_ret. unfold read_once. proj. apply (Hf _ (set_pl_completed _ p2)); try done.
    + cbn. by rewrite P1.
    + intros src Hs. change (plic_enabled p2 src = if decide (src = intno) then true else
        plic_enabled (plic k1) src). unfold p2. rewrite plic_enabled_as by lia.
      case_decide; [done|]. by apply Hen.
  - apply wp_set_enabled; [lia|]. unfold read_once. proj.
    apply (Hf _ (enabled_as intno false (set_pl_completed _ p2))); try done.
    + cbn. by rewrite P1.
    + intros src Hs. rewrite plic_enabled_as by lia. case_decide as E; [done|].
      change (plic_enabled p2 src = plic_enabled (plic k1) src).
      unfold p2. rewrite plic_enabled_as, decide_False by lia. by apply Hen.
Qed.

Lemma wp_handler_of k i (Phi : FP -> kernel -> Prop) :
  (forall i, 0 <= i < CFN_MAX_INTNO -> is_Some (s_handlers k !! i)) ->
  Phi (handler_of k i) k ->
  wp (if is_intno i then gets_opt (fun k => s_handlers k !! i) else ret None) Phi k.
Proof.
  intros Hh HP. unfold handler_of in HP. destruct (is_intno i) eqn:Ei; [|by apply wp_ret].
  apply is_intno_spec in Ei. destruct (Hh i) as [fp Efp]; [lia|]. rewrite Efp in HP.
  eapply wp_gets_opt; [exact Efp|exact HP].
Qed.

(** What [tkmc_external_interrupt] leaves, [Psi] being what the handler leaves. *)
Definition external_interrupt_post (k : kernel) (Psi : kernel -> Prop) (_ : unit)
    (k' : kernel) : Prop :=
  let intno := pl_claim (plic k) in
  if decide (intno = 0) then plic_only k k' /\ plic k' = plic k
  else match handler_of k intno with
    | Some h => exists k1, Psi k1 /\
        finished k1 k' intno (plic_enabled (plic k1) intno) (pl_threshold (plic k))
    | None => exists k1, plic_only k k1 /\ plic k1 = set_pl_claim 0 (plic k) /\
        finished k1 k' intno false (pl_threshold (plic k))
    end.

Lemma wp_external_interrupt k (Psi : kernel -> Prop) :
  (forall i, 0 <= i < CFN_MAX_INTNO -> is_Some (s_handlers k !! i)) ->
  0 <= pl_claim (plic k) < PLIC_SOURCE_COUNT ->
  let intno := pl_claim (plic k) in
  (forall h, handler_of k intno = Some h ->
     wp (run_handler h intno) (fun _ => Psi) (handler_entry k intno)) ->
  wp (tkmc_external_interrupt run_handler) (external_interrupt_post k Psi) k.
Proof.
  intros Hh Hr intno Hrun. unfold external_interrupt_post, tkmc_external_interrupt. apply wp_bind, wp_in_claim. fold intno.
  destruct (decide (intno = 0)) as [E0|E0].
  { apply wp_ret. split; [unfold plic_only, read_once; by destruct k|]. proj.
    unfold set_pl_claim. fold intno. rewrite <- E0. unfold intno. by destruct (plic k). }
  assert (Hs : 1 <= intno < PLIC_SOURCE_COUNT) by lia.
  set (k0 := set_plic (set_pl_claim 0 (plic k)) (read_once k)).
  apply wp_bind.
  apply (wp_handler_of k0 intno); [exact Hh|]. change (handler_of k0 intno) with (handler_of k intno).
  destruct (handler_of k intno) as [h|] eqn:Eh.
  - specialize (Hrun h eq_refl). apply wp_bind. apply wp_bind, wp_in_threshold.
    apply wp_bind, wp_in_priority; [done|]. apply wp_bind, wp_out_threshold. apply wp_bind.
    assert (Ee : set_plic (set_pl_threshold (default 0 (pl_priority (plic (read_once k0)) !! intno))
      (plic (read_once (read_once k0)))) (read_once (read_once k0)) = handler_entry k intno).
    { unfold handler_entry, k0, read_once. by destruct k. }
    rewrite Ee. eapply wp_mono; [exact Hrun|]. intros u k1 Hk1.
    apply wp_out_threshold. change (pl_threshold (plic k0)) with (pl_threshold (plic k)).
    apply wp_bind, wp_is_enabled; [lia|]. proj.
    set (on := plic_enabled (plic k1) intno).
    apply (wp_finish k1 _ intno on); [done|apply plic_only_step|reflexivity|done|].
    intros k' Hf. exists k1. split; [done|]. exact Hf.
  - apply wp_bind, wp_ret. apply wp_bind, wp_ret.
    apply (wp_finish k0 k0 intno false); [done|apply plic_only_refl|reflexivity|done|].
    intros k' Hf. exists k0. split; [apply plic_only_step|].
    split; [done|]. exact Hf.
Qed.

(** C25: [tkmc_external_interrupt]: no claim changes nothing; otherwise the handler
    of the source runs under the priority of the source as threshold, the old
    threshold is put back, and the claim is completed while the source is on; the
    source is on afterwards exactly if it has a handler and was on. *)
Theorem external_interrupt_spec k (Psi : kernel -> Prop) :
  (forall i, 0 <= i < CFN_MAX_INTNO -> is_Some (s_handlers k !! i)) ->
  0 <= pl_claim (plic k) < PLIC_SOURCE_COUNT ->
  let intno := pl_claim (plic k) in
  (forall h, handler_of k intno = Some h ->
     wp (run_handler h intno) (fun _ => Psi) (handler_entry k intno)) ->
  wp (tkmc_external_interrupt run_handler) (external_interrupt_post k Psi) k.
Proof. apply wp_external_interrupt. Qed.
End external.
