(* ===== verification/Start.v ===== *)
(** * Boot and the switch of tasks: [src/kernel/start.c]

    The state the reset code leaves, [tkmc_start] up to the launch of the first
    task, and [schedule], which the trap entries call. *)

From S2P Require Import Prelude DList Tkernel Kernel Inv Moves Rules Wait Sched Timer Task.
From S2P Require Import Semaphore EventFlag Mailbox IntCtl.

Open Scope Z_scope.

(** ** The state after [clear_bss]: every variable of the kernel is zero *)

Definition zero_TCB : TCB := mk_TCB 0 0 0 0 0 0 None 0 0 0 0 WInfoZero.
Definition table {A} (n : Z) (a : A) : gmap Z A :=
  list_to_map ((fun i => (i, a)) <$> seqZ 0 n).

(** [msgs] are the messages of the application (addresses of [T_MSG]): their
    links are RAM the kernel may write. *)
Definition bss_links (msgs : list Z) : gmap link (link * link) :=
  list_to_map ((fun n => (n, (LNull, LNull))) <$> (kernel_nodes ++ (LMsg <$> msgs))).

Definition bss_state (msgs : list Z) (clk0 : nat -> Z) (mem0 : gmap Z cell)
    (csrs0 : CSR) : kernel :=
  mk_kernel (bss_links msgs) (table CFN_MAX_TSKID zero_TCB)
    (table CFN_MAX_SEMID (mk_SEMCB 0 0 0 0 0)) (table CFN_MAX_FLGID (mk_FLGCB 0 0 0 0))
    (table CFN_MAX_MBXID (mk_MBXCB 0 0 0))
    None None 0 0 (table CFN_MAX_INTNO None)
    (mk_panics (0, 0, 0) (0, 0) (0, 0))
    false csrs0 0 0 [] clk0 0%nat (mk_PLIC ∅ ∅ 0 0 [] 0) mem0 [].

(** ** schedule() *)

Definition schedule (sp0 : Z) : K Z :=
  tmp <- current_tcb ;;
  tcb_upd tmp (set_sp sp0) ;;;
  c <- tcb_get tmp ;;
  (if decide (tskstat c = TTS_RUN) then tcb_upd tmp (set_tskstat TTS_RDY) else ret tt) ;;;
  n <- gets_opt next ;;
  tcb_upd n (set_tskstat TTS_RUN) ;;;
  modify (set_current (Some n)) ;;;
  c <- tcb_get n ;;
  ret (sp c).

(** ** tkmc_start *)

(** The stacks of the two tasks are variables of start.c; the linker gives
    their addresses. *)
Section start.
Variables ini_tsk_stack idl_tsk_stack : Z.
Definition TASK_STACK_BYTES := 4 * 128.

Definition kernel_init : K unit :=
  tkmc_init_tcb ;;;
  tkmc_init_flgcb ;;;
  tkmc_init_semcb ;;;
  tkmc_init_timer ;;;
  tkmc_init_mbxcb ;;;
  tkmc_init_intctl.

Definition start_one (p : T_CTSK) (a0 create_stage start_stage : Z) : K unit :=
  id <- tk_cre_tsk (Some p) ;;
  if decide (id <= 0) then tkmc_fatal_startup create_stage id
  else
    error <- tk_sta_tsk id a0 ;;
    if decide (error <> E_OK) then tkmc_fatal_startup start_stage error
    else ret tt.

Definition ini_ctsk : T_CTSK :=
  mk_T_CTSK 0 TA_USERBUF (Some F_tkmc_ini_tsk) 1 TASK_STACK_BYTES ini_tsk_stack.
Definition idl_ctsk : T_CTSK :=
  mk_T_CTSK 0 TA_USERBUF (Some F_tkmc_idl_tsk) CFN_MAX_PRI TASK_STACK_BYTES idl_tsk_stack.

(** Up to [__launch_task], which gets [&tcb->sp]: the stack pointer. *)
Definition tkmc_start (a0 : Z) : K Z :=
  kernel_init ;;;
  start_one ini_ctsk a0 TKMC_STARTUP_INITIAL_CREATE TKMC_STARTUP_INITIAL_START ;;;
  start_one idl_ctsk a0 TKMC_STARTUP_IDLE_CREATE TKMC_STARTUP_IDLE_START ;;;
  n <- tkmc_get_highest_priority_task ;;
  match n with
  | None => wild
  | Some t =>
    tcb_upd t (set_tskstat TTS_RUN) ;;;
    modify (set_current (Some t)) ;;;
    tkmc_start_timer ;;;
    EI 0 ;;;
    c <- tcb_get t ;;
    ret (sp c)
  end.
End start.

Implicit Types (k : kernel) (Q : queues) (t u n : Z).

(** ** The switch *)

Lemma ainv_cur T S F B cur cur' Q :
  ainv T S F B cur Q -> (forall t c, T !! t = Some c -> tskstat c = TTS_RUN -> cur' = Some t) ->
  (forall t, cur' = Some t -> task_idx t) -> ainv T S F B cur' Q.
Proof. intros [] Hr Hc. by split. Qed.

(** A ready task gets another of the two states of a ready task. *)
Lemma ainv_ready_stat T S F B cur Q t c s :
  ainv T S F B cur Q -> T !! t = Some c -> ready_stat c ->
  s = TTS_RDY \/ (s = TTS_RUN /\ cur = Some t) ->
  ainv (<[t := set_tskstat s c]> T) S F B cur Q.
Proof.
  intros Ha Hc Hrs Hs. destruct (ready_in Ha t c Hc Hrs) as (Hin & Hal & Hp & Hw & Hd).
  eapply (ainv_move_shrink T S F B cur Q _ Q t c); try done.
  - intros E. simpl in E. destruct Hs as [->|[_ ?]]; [exfalso; stats; lia|done].
  - apply task_ready; try done. unfold ready_stat. simpl. destruct Hs as [->|[-> _]]; auto.
  - intros h n _. apply (ai_kind _ _ _ _ _ _ Ha).
  - intros h _ ws Hws. exists ws. split; [done|]. split; [done|]. intros n _.
    by eapply same_wait_keep.
Qed.

(** A change of a control block that leaves what others see of the task. *)
Lemma settled_tcb k Q k' t c c' :
  semcbs k' = semcbs k -> flgcbs k' = flgcbs k -> tcbs k !! t = Some c ->
  tcbs k' = <[t := c']> (tcbs k) -> itskpri c' = itskpri c -> winfo c' = winfo c ->
  delay_ticks c' = delay_ticks c -> settled k Q -> settled k' Q.
Proof.
  intros ES EF Hc ET E1 E2 E3. eapply settled_frame; try done.
  - intros h n _ _. rewrite ET. by eapply same_wait_keep.
  - intros Htl u cu Hu Hi. rewrite ET in Hu. destruct (decide (u = t)) as [->|].
    + rewrite lookup_insert_eq in Hu. simplify_eq. rewrite E3. by eapply Htl.
    + rewrite lookup_insert_ne in Hu by done. by eapply Htl.
Qed.

(** [t] goes on as [current]: nobody ran, or [t] already did. *)
Lemma wf_run k Q t c :
  inv k Q -> settled k Q -> msip k = 0 ->
  tcbs k !! t = Some c -> ready_stat c -> highest Q = Some t ->
  (forall u cu, tcbs k !! u = Some cu -> tskstat cu <> TTS_RUN) ->
  wf (set_current (Some t) (set_tcbs (<[t := set_tskstat TTS_RUN c]> (tcbs k)) k)) Q.
Proof.
  intros (Hr & Hn & Ha) Hset Hm Hc Hrs Hh Hno.
  assert (Ht : task_idx t) by (apply (ai_tcbs _ _ _ _ _ _ Ha); by eexists).
  split; [|split].
  - split; [done|]. split; [done|]. proj. eapply ainv_ready_stat; [|done|done|by right].
    eapply ainv_cur; [exact Ha| |by intros ? [= <-]]. intros u cu Hu Hs. by destruct (Hno u cu).
  - eapply (settled_tcb k Q _ t c); done.
  - intros u Hu. simpl in Hu. injection Hu as <-. split.
    + intros _. split; [done|]. eexists. split; [apply lookup_insert_eq|done].
    + by intros Hm'.
Qed.

(** What [schedule] makes of the task that ran. *)
Definition saved_tcb (sp0 : Z) (c : TCB) : TCB :=
  let c1 := set_sp sp0 c in
  if decide (tskstat c = TTS_RUN) then set_tskstat TTS_RDY c1 else c1.

Lemma inv_saved k Q u c sp0 : inv k Q -> tcbs k !! u = Some c ->
  inv (set_tcbs (<[u := saved_tcb sp0 c]> (tcbs k)) k) Q.
Proof.
  intros Hi Hc. pose proof (inv_touch k Q u c (set_sp sp0 c) Hi Hc) as Hi1.
  specialize (Hi1 ltac:(by repeat split)). unfold saved_tcb. case_decide as Es; [|exact Hi1].
  destruct Hi1 as (Hr & Hn & Ha). split; [done|]. split; [done|]. proj.
  rewrite <- (insert_insert_eq (tcbs k) u (set_tskstat TTS_RDY (set_sp sp0 c)) (set_sp sp0 c)).
  eapply ainv_ready_stat; [exact Ha|apply lookup_insert_eq|by right|by left].
Qed.

(** The pending switch from [u] to [t] is taken. *)
Definition schedule_post k Q u sp0 (r : Z) (k' : kernel) : Prop :=
  exists c t ct, tcbs k !! u = Some c /\ highest Q = Some t /\
    <[u := saved_tcb sp0 c]> (tcbs k) !! t = Some ct /\ ready_stat ct /\ r = sp ct /\
    k' = set_current (Some t) (set_tcbs (<[t := set_tskstat TTS_RUN ct]>
           (<[u := saved_tcb sp0 c]> (tcbs k))) (set_msip 0 k)) /\
    wf k' Q /\ forall v cv, tcbs k' !! v = Some cv -> tskstat cv = TTS_RUN -> v = t.

Lemma wp_schedule k Q u sp0 :
  wf k Q -> msip k <> 0 -> current k = Some u -> is_Some (highest Q) ->
  wp (schedule sp0) (schedule_post k Q u sp0) (set_msip 0 k).
Proof.
  intros (Hi & Hset & Hsch) Hm Hcur [t Ht]. unfold schedule_post.
  pose proof (proj2 (Hsch u Hcur) Hm) as Hnext. rewrite Ht in Hnext.
  pose proof Hi as (Hr & Hn & Ha).
  destruct (proj2 (ai_tcbs _ _ _ _ _ _ Ha u) (ai_cur _ _ _ _ _ _ Ha u Hcur)) as [c Hc].
  assert (Eid : tskid (saved_tcb sp0 c) = tskid c /\ itskpri (saved_tcb sp0 c) = itskpri c /\
    winfo (saved_tcb sp0 c) = winfo c /\ delay_ticks (saved_tcb sp0 c) = delay_ticks c)
    by (unfold saved_tcb; by case_decide).
  destruct Eid as (_ & E2 & E3 & E4).
  set (k1 := set_tcbs (<[u := saved_tcb sp0 c]> (tcbs k)) (set_msip 0 k)).
  assert (Hi1 : inv k1 Q) by exact (inv_saved k Q u c sp0 Hi Hc).
  assert (Hset1 : settled k1 Q) by (by apply (settled_tcb k Q _ u c (saved_tcb sp0 c))).
  destruct (highest_ready k1 Q t Hi1 Ht) as (ct & xs & Hct & Hrs & _).
  assert (Hno : forall v cv, tcbs k1 !! v = Some cv -> tskstat cv <> TTS_RUN).
  { intros v cv Hv Es. unfold k1 in Hv. proj. destruct (decide (v = u)) as [->|Hne].
    - rewrite lookup_insert_eq in Hv. injection Hv as <-. unfold saved_tcb in Es.
      case_decide; [by stats|done].
    - rewrite lookup_insert_ne in Hv by done.
      pose proof (ai_run _ _ _ _ _ _ Ha v cv Hv Es). congruence. }
  pose proof (wf_run k1 Q t ct Hi1 Hset1 eq_refl Hct Hrs Ht Hno) as Hwf.
  unfold schedule. apply wp_bind. eapply wp_current_tcb; [exact Hcur|].
  apply wp_bind. eapply wp_tcb_upd; [exact Hc|]. proj.
  apply wp_bind. eapply wp_tcb_get; [apply lookup_insert_eq|]. tproj. apply wp_bind.
  match goal with |- wp _ ?P _ => assert (HP : P tt k1 -> wp (if decide (tskstat c = TTS_RUN)
    then tcb_upd u (set_tskstat TTS_RDY) else ret tt) P (set_tcbs (<[u := set_sp sp0 c]> (tcbs k))
      (set_msip 0 k))) end.
  { unfold k1, saved_tcb. intros HP. case_decide; [|by apply wp_ret].
    eapply wp_tcb_upd; [apply lookup_insert_eq|]. proj. by rewrite insert_insert_eq. }
  apply HP. clear HP. apply wp_bind. eapply wp_gets_opt; [exact Hnext|].
  apply wp_bind. eapply wp_tcb_upd; [exact Hct|]. apply wp_bind, wp_modify.
  apply wp_bind. eapply wp_tcb_get; [apply lookup_insert_eq|]. apply wp_ret.
  exists c, t, ct. split; [done|]. split; [done|]. split; [done|]. split; [done|].
  split; [done|]. split; [by unfold k1|]. split; [exact Hwf|].
  intros v cv Hv Es. unfold k1 in Hv. proj. destruct (decide (v = t)); [done|].
  rewrite lookup_insert_ne in Hv by done. by destruct (Hno v cv).
Qed.

(** C22: [schedule], called with a switch requested, saves the frame of the current
    task, makes the highest ready task the one that runs and returns its frame;
    afterwards it is the only one in the state RUN and the state is well formed. *)
Theorem schedule_spec k Q u sp0 :
  wf k Q -> msip k <> 0 -> current k = Some u -> is_Some (highest Q) ->
  wp (schedule sp0) (schedule_post k Q u sp0) (set_msip 0 k).
Proof. apply wp_schedule. Qed.
