(* ===== verification/Boot.v ===== *)
(** * The boot: from the cleared memory to the launch of the initial task

    The theorem of this file is that [tkmc_start] of [src/kernel/start.c]
    establishes the invariant, for any clock, any place of the two stacks and any
    messages of the application: with the theorems of the calls it is the base
    of everything the kernel does later. The loops that link the control blocks
    into their free lists run over constant ranges, so what they do to the lists
    is computed on the queues, and the links follow by [rep]. *)

From S2P Require Import Prelude DList Tkernel Kernel Inv Moves Rules Wait Sched Check.
From S2P Require Import Timer Block Task Semaphore EventFlag Mailbox IntCtl Start.

Open Scope Z_scope.
Implicit Types (k : kernel) (Q : queues) (h : link).

(** ** Initialising a table *)

(** The control blocks are there. *)
Definition tables_ok (k : kernel) : Prop :=
  (forall i, 0 <= i < CFN_MAX_TSKID -> is_Some (tcbs k !! i)) /\
  (forall i, 0 <= i < CFN_MAX_SEMID -> is_Some (semcbs k !! i)) /\
  (forall i, 0 <= i < CFN_MAX_FLGID -> is_Some (flgcbs k !! i)) /\
  (forall i, 0 <= i < CFN_MAX_MBXID -> is_Some (mbxcbs k !! i)).

(** A loop that does [qf i] to the queues and [tf i] to the tables. *)
Definition q_loop (qf : Z -> queues -> queues) (n : Z) (Q : queues) : queues :=
  foldl (fun Q i => qf i Q) Q (seqZ 0 n).
Definition t_loop (tf : Z -> kernel -> kernel) (n : Z) (k : kernel) : kernel :=
  foldl (fun k i => tf i k) k (seqZ 0 n).

Lemma seqZ_snoc n : 0 <= n -> seqZ 0 (n + 1) = seqZ 0 n ++ [n].
Proof. intros Hn. rewrite seqZ_app by lia. by rewrite Z.add_0_l. Qed.

Lemma q_loop_snoc qf n Q : 0 <= n -> q_loop qf (n + 1) Q = qf n (q_loop qf n Q).
Proof. intros Hn. unfold q_loop. by rewrite seqZ_snoc, foldl_app. Qed.
Lemma t_loop_snoc tf n k : 0 <= n -> t_loop tf (n + 1) k = tf n (t_loop tf n k).
Proof. intros Hn. unfold t_loop. by rewrite seqZ_snoc, foldl_app. Qed.

Lemma set_links_twice L1 L2 k : set_links L1 (set_links L2 k) = set_links L1 k.
Proof. by destruct k. Qed.

Section init_loop.
Context (body : Z -> K unit) (qf : Z -> queues -> queues) (tf : Z -> kernel -> kernel).
Context (ok : Z -> queues -> Prop) (n : Z).
Hypothesis Hn : 0 <= n.
Hypothesis Hbody : forall i Q k (Phi : unit -> kernel -> Prop),
  0 <= i < n -> rep (links k) Q -> nodes_ok (links k) -> tables_ok k -> ok i Q ->
  (forall L, rep L (qf i Q) -> dom L = dom (links k) -> Phi tt (set_links L (tf i k))) ->
  wp (body i) Phi k.
Hypothesis Htf : forall i L k, tf i (set_links L k) = set_links L (tf i k).
Hypothesis Htab : forall i k, tables_ok k -> tables_ok (tf i k).

Lemma t_loop_frame i k : 0 <= i -> tables_ok k -> tables_ok (t_loop tf i k).
Proof using Htab.
  intros Hi. revert i Hi. refine (natlike_ind _ _ _); [done|].
  intros i Hi IH Hk. unfold Z.succ. rewrite t_loop_snoc by done. auto.
Qed.

Lemma t_loop_links (m : Z) L k : t_loop tf m (set_links L k) = set_links L (t_loop tf m k).
Proof using Htf.
  unfold t_loop. revert k. induction (seqZ 0 m) as [|j js IH]; intros k; simpl; [done|].
  by rewrite Htf, IH.
Qed.

Lemma wp_init_loop k Q (Phi : unit -> kernel -> Prop) :
  rep (links k) Q -> nodes_ok (links k) -> tables_ok k ->
  Forall (fun i => ok i (q_loop qf i Q)) (seqZ 0 n) ->
  (forall L, rep L (q_loop qf n Q) -> dom L = dom (links k) ->
     Phi tt (set_links L (t_loop tf n k))) ->
  wp (for_range (Z.to_nat n) 0 body) Phi k.
Proof using Hn Hbody Htf Htab.
  intros Hr Hnd Ht Hok H.
  apply (wp_for_range (fun i k' => exists L, k' = set_links L (t_loop tf i k) /\
    rep L (q_loop qf i Q) /\ dom L = dom (links k))).
  - exists (links k). split; [by destruct k|done].
  - intros i k' Hi (L & -> & HL & HD). rewrite Forall_forall in Hok.
    eapply Hbody; [lia|exact HL|by eapply nodes_ok_dom| |apply Hok, elem_of_seqZ; lia|].
    { assert (Htk : tables_ok (t_loop tf i k)) by (apply t_loop_frame; [lia|done]). exact Htk. }
    intros L' HL' HD'. exists L'. rewrite q_loop_snoc, t_loop_snoc, Htf by lia.
    split; [by destruct (tf i (t_loop tf i k))|]. split; [done|]. by rewrite HD'.
  - intros k' (L & -> & HL & HD). rewrite Z.add_0_l, Z2Nat.id in * by done. by apply H.
Qed.
End init_loop.

(** ** The tables of the objects *)

(** A block that is marked, and last on its free list: the semaphores, the event
    flags and the mailboxes. *)
Definition q_add_free (fr : link) (n : link) (Q : queues) : queues :=
  qpush fr n (<[n := []]> Q).
Definition free_ok (fr n : link) (Q : queues) : Prop :=
  nowhere Q n /\ is_Some (Q !! fr).

Lemma nowhere_inq Q (x : link) : nowhere Q x -> forall h, ~ inq Q h x.
Proof. intros Hx h (xs & E & Hi). by apply (Hx _ _ E). Qed.

Lemma init_loose Q (x : link) : (forall h, ~ inq Q h x) -> loose (<[x := []]> Q) x.
Proof.
  intros Hx. split; [right; by rewrite lookup_insert_eq|]. intros h (xs & E & Hi).
  destruct (decide (h = x)) as [->|Hne].
  - rewrite lookup_insert_eq in E. injection E as <-. by apply elem_of_nil in Hi.
  - rewrite lookup_insert_ne in E by done. apply (Hx h). by exists xs.
Qed.

(** The end of the body of each loop. *)
Lemma wp_init_free k Q (fr x : link) (Phi : unit -> kernel -> Prop) :
  rep (links k) Q -> nodes_ok (links k) -> kernel_node x -> x <> fr -> free_ok fr x Q ->
  (forall L, rep L (q_add_free fr x Q) -> dom L = dom (links k) -> Phi tt (set_links L k)) ->
  wp (list_init x ;;; list_add_tail x fr) Phi k.
Proof.
  intros Hr Hn Hx Hne [Hno Hfr] H. pose proof (nowhere_inq Q x Hno) as Hni.
  apply wp_bind. eapply wp_list_init; [exact Hr|exact Hni|by apply Hn|]. intros L HL HD.
  eapply wp_list_add_tail; [exact HL| |by apply init_loose|exact Hne| |].
  - by rewrite lookup_insert_ne.
  - proj. rewrite HD. by apply Hn.
  - intros L' HL' HD'. proj. apply H; [exact HL'|]. by rewrite HD'.
Qed.

Definition marked_sem (i : Z) (k : kernel) : kernel :=
  set_semcbs (<[i := mk_SEMCB (noexs_id i) 0 0 0 0]> (semcbs k)) k.
Definition marked_flg (i : Z) (k : kernel) : kernel :=
  set_flgcbs (<[i := mk_FLGCB (noexs_id i) 0 0 0]> (flgcbs k)) k.
Definition marked_mbx (i : Z) (k : kernel) : kernel :=
  set_mbxcbs (<[i := mk_MBXCB (noexs_id i) 0 0]> (mbxcbs k)) k.
Definition marked_tcb (i : Z) (k : kernel) : kernel :=
  set_tcbs (<[i := mk_TCB (i + 1) 0 TTS_NOEXS 0 0 0 None 0 0 E_OK 0 WInfoZero]> (tcbs k)) k.

Lemma insert_some {A} (M : gmap Z A) (n i j : Z) (a : A) :
  (forall j, 0 <= j < n -> is_Some (M !! j)) -> 0 <= j < n -> is_Some (<[i := a]> M !! j).
Proof.
  intros H Hj. destruct (decide (i = j)) as [->|].
  - rewrite lookup_insert_eq. by eexists.
  - rewrite lookup_insert_ne by done. by apply H.
Qed.

Lemma marked_tables i k : tables_ok k ->
  tables_ok (marked_tcb i k) /\ tables_ok (marked_sem i k) /\ tables_ok (marked_flg i k) /\
  tables_ok (marked_mbx i k).
Proof.
  intros (H1 & H2 & H3 & H4). unfold tables_ok, marked_tcb, marked_sem, marked_flg, marked_mbx. proj.
  split; [|split; [|split]]; repeat split; try done; intros j Hj; by eapply insert_some.
Qed.

(** *** Each table *)

Definition q_sem (i : Z) : queues -> queues := q_add_free LFreeSem (LSem i).
Definition q_flg (i : Z) : queues -> queues := q_add_free LFreeFlg (LFlg i).
Definition q_mbx (i : Z) (Q : queues) : queues :=
  qpush LFreeMbx (LMbx i) (<[LMbxq i := []]> (<[LMbx i := []]> Q)).
Definition q_tcb (i : Z) (Q : queues) : queues :=
  qpush LFreeTcb (LHead i) (<[LWait i := []]> (<[LHead i := []]> (delete (LWait i) Q))).
Definition q_ready_lists (i : Z) (Q : queues) : queues := <[LReady i := []]> Q.

Definition mbx_free_ok (i : Z) (Q : queues) : Prop :=
  free_ok LFreeMbx (LMbx i) Q /\ nowhere Q (LMbxq i).
Definition tcb_free_ok (i : Z) (Q : queues) : Prop :=
  free_ok LFreeTcb (LHead i) Q /\ nowhere Q (LWait i).

#[export] Instance free_ok_dec fr x Q : Decision (free_ok fr x Q).
Proof. unfold free_ok. apply _. Defined.
#[export] Instance mbx_free_ok_dec i Q : Decision (mbx_free_ok i Q).
Proof. unfold mbx_free_ok. apply _. Defined.
#[export] Instance tcb_free_ok_dec i Q : Decision (tcb_free_ok i Q).
Proof. unfold tcb_free_ok. apply _. Defined.

Lemma wp_init_semcb k Q (Phi : unit -> kernel -> Prop) :
  rep (links k) Q -> nodes_ok (links k) -> tables_ok k -> nowhere Q LFreeSem ->
  let Q0 := <[LFreeSem := []]> Q in
  Forall (fun i => free_ok LFreeSem (LSem i) (q_loop q_sem i Q0)) (seqZ 0 CFN_MAX_SEMID) ->
  (forall L, rep L (q_loop q_sem CFN_MAX_SEMID Q0) -> dom L = dom (links k) ->
     Phi tt (set_links L (t_loop marked_sem CFN_MAX_SEMID k))) ->
  wp tkmc_init_semcb Phi k.
Proof.
  intros Hr Hn Ht Hno Q0 Hok H. unfold tkmc_init_semcb. apply wp_bind.
  eapply wp_list_init; [exact Hr|by apply nowhere_inq|by apply Hn|]. intros L HL HD.
  eapply (wp_init_loop _ q_sem marked_sem (fun i => free_ok LFreeSem (LSem i)) CFN_MAX_SEMID);
    [done| | | |exact HL|by eapply nodes_ok_dom|exact Ht|exact Hok|].
  - intros i Q' k' Psi Hi Hr' Hn' Ht' Hok' HPsi. destruct Ht' as (_ & Hs & _).
    destruct (Hs i Hi) as [sc Hsc]. apply wp_bind. eapply wp_sem_upd; [exact Hsc|].
    eapply (wp_init_free (marked_sem i k') Q'); [exact Hr'|exact Hn'|exact Hi|done|exact Hok'|].
    exact HPsi.
  - done.
  - intros i k' Hk. by destruct (marked_tables i k' Hk) as (_ & ? & _).
  - intros L' HL' HD'. rewrite t_loop_links, set_links_twice by done. apply H; [exact HL'|].
    rewrite HD'. exact HD.
Qed.

Lemma wp_init_flgcb k Q (Phi : unit -> kernel -> Prop) :
  rep (links k) Q -> nodes_ok (links k) -> tables_ok k -> nowhere Q LFreeFlg ->
  let Q0 := <[LFreeFlg := []]> Q in
  Forall (fun i => free_ok LFreeFlg (LFlg i) (q_loop q_flg i Q0)) (seqZ 0 CFN_MAX_FLGID) ->
  (forall L, rep L (q_loop q_flg CFN_MAX_FLGID Q0) -> dom L = dom (links k) ->
     Phi tt (set_links L (t_loop marked_flg CFN_MAX_FLGID k))) ->
  wp tkmc_init_flgcb Phi k.
Proof.
  intros Hr Hn Ht Hno Q0 Hok H. unfold tkmc_init_flgcb. apply wp_bind.
  eapply wp_list_init; [exact Hr|by apply nowhere_inq|by apply Hn|]. intros L HL HD.
  eapply (wp_init_loop _ q_flg marked_flg (fun i => free_ok LFreeFlg (LFlg i)) CFN_MAX_FLGID);
    [done| | | |exact HL|by eapply nodes_ok_dom|exact Ht|exact Hok|].
  - intros i Q' k' Psi Hi Hr' Hn' Ht' Hok' HPsi. destruct Ht' as (_ & _ & Hs & _).
    destruct (Hs i Hi) as [fc Hfc]. apply wp_bind. eapply wp_flg_upd; [exact Hfc|].
    eapply (wp_init_free (marked_flg i k') Q'); [exact Hr'|exact Hn'|exact Hi|done|exact Hok'|].
    exact HPsi.
  - done.
  - intros i k' Hk. by destruct (marked_tables i k' Hk) as (_ & _ & ? & _).
  - intros L' HL' HD'. rewrite t_loop_links, set_links_twice by done. apply H; [exact HL'|].
    rewrite HD'. exact HD.
Qed.

Lemma wp_init_mbxcb k Q (Phi : unit -> kernel -> Prop) :
  rep (links k) Q -> nodes_ok (links k) -> tables_ok k -> nowhere Q LFreeMbx ->
  let Q0 := <[LFreeMbx := []]> Q in
  Forall (fun i => mbx_free_ok i (q_loop q_mbx i Q0)) (seqZ 0 CFN_MAX_MBXID) ->
  (forall L, rep L (q_loop q_mbx CFN_MAX_MBXID Q0) -> dom L = dom (links k) ->
     Phi tt (set_links L (t_loop marked_mbx CFN_MAX_MBXID k))) ->
  wp tkmc_init_mbxcb Phi k.
Proof.
  intros Hr Hn Ht Hno Q0 Hok H. unfold tkmc_init_mbxcb. apply wp_bind.
  eapply wp_list_init; [exact Hr|by apply nowhere_inq|by apply Hn|]. intros L HL HD.
  eapply (wp_init_loop _ q_mbx marked_mbx mbx_free_ok CFN_MAX_MBXID);
    [done| | | |exact HL|by eapply nodes_ok_dom|exact Ht|exact Hok|].
  - intros i Q' k' Psi Hi Hr' Hn' Ht' [[Hf1 Hf2] Hq] HPsi. destruct Ht' as (_ & _ & _ & Hs).
    destruct (Hs i Hi) as [mc Hmc]. apply wp_bind. eapply wp_mbx_upd; [exact Hmc|].
    apply wp_bind. eapply wp_list_init; [exact Hr'|by apply nowhere_inq|by apply Hn'|].
    intros L1 HL1 HD1. apply wp_bind. eapply wp_list_init; [exact HL1| | |].
    { intros h (xs & E & Hi2). destruct (decide (h = LMbx i)) as [->|Hne].
      - rewrite lookup_insert_eq in E. injection E as <-. by apply elem_of_nil in Hi2.
      - rewrite lookup_insert_ne in E by done. by apply (Hq _ _ E). }
    { proj. rewrite HD1. by apply Hn'. }
    intros L2 HL2 HD2. eapply wp_list_add_tail; [exact HL2| | |done| |].
    + by rewrite !lookup_insert_ne.
    + destruct (init_loose Q' (LMbx i) (nowhere_inq _ _ Hf1)) as [Hl1 Hl2]. split.
      * rewrite lookup_insert_ne by done. exact Hl1.
      * intros h (xs & E & Hi2). destruct (decide (h = LMbxq i)) as [->|Hne].
        -- rewrite lookup_insert_eq in E. injection E as <-. by apply elem_of_nil in Hi2.
        -- rewrite lookup_insert_ne in E by done. apply (Hl2 h). by exists xs.
    + proj. rewrite HD2, HD1. by apply Hn'.
    + intros L3 HL3 HD3. apply HPsi; [exact HL3|]. proj. by rewrite HD3, HD2, HD1.
  - done.
  - intros i k' Hk. by destruct (marked_tables i k' Hk) as (_ & _ & _ & ?).
  - intros L' HL' HD'. rewrite t_loop_links, set_links_twice by done. apply H; [exact HL'|].
    rewrite HD'. exact HD.
Qed.

Lemma wp_init_tcb_body i k Q (Phi : unit -> kernel -> Prop) :
  0 <= i < CFN_MAX_TSKID -> rep (links k) Q -> nodes_ok (links k) -> tables_ok k ->
  tcb_free_ok i Q ->
  (forall L, rep L (q_tcb i Q) -> dom L = dom (links k) ->
     Phi tt (set_links L (marked_tcb i k))) ->
  wp (default_tcb i ;;; tcb_upd i (set_tskid (i + 1)) ;;; list_add_tail (LHead i) LFreeTcb)
    Phi k.
Proof.
  intros Hi Hr Hn [Ht _] [[Hf1 Hf2] Hw] H. destruct (Ht i Hi) as [c Hc].
  assert (Hdel : forall n : link, nowhere Q n -> forall h, ~ inq (delete (LWait i) Q) h n).
  { intros n Hno h (xs & [_ E]%lookup_delete_Some & Hi2). by apply (Hno _ _ E). }
  unfold default_tcb. apply wp_bind, wp_bind.
  eapply wp_reset_any; [exact Hr|exact Hn|exact Hi|exact Hc|by apply nowhere_inq..|].
  intros L HL HD. unfold with_lt.
  eapply wp_tcb_upd; [apply lookup_insert_eq|]. proj. rewrite insert_insert_eq.
  apply wp_bind. eapply wp_tcb_upd; [apply lookup_insert_eq|]. proj. rewrite insert_insert_eq.
  eapply wp_list_add_tail; [exact HL| | |done| |].
  - by rewrite !lookup_insert_ne, lookup_delete_ne.
  - destruct (init_loose (delete (LWait i) Q) (LHead i) (Hdel _ Hf1)) as [Hl1 Hl2]. split.
    + rewrite lookup_insert_ne by done. exact Hl1.
    + intros h (xs & E & Hi2). destruct (decide (h = LWait i)) as [->|Hne].
      * rewrite lookup_insert_eq in E. injection E as <-. by apply elem_of_nil in Hi2.
      * rewrite lookup_insert_ne in E by done. apply (Hl2 h). by exists xs.
  - proj. rewrite HD. by apply Hn.
  - intros L' HL' HD'. proj. apply H; [exact HL'|]. by rewrite HD', HD.
Qed.

Lemma q_loop_ok (P : Z -> queues -> Prop) qf n Q i :
  Forall (fun j => P j (q_loop qf j Q)) (seqZ 0 n) -> 0 <= i < n -> P i (q_loop qf i Q).
Proof. rewrite Forall_forall. intros H Hi. apply H, elem_of_seqZ. lia. Qed.

Lemma wp_init_tcb k Q (Phi : unit -> kernel -> Prop) :
  rep (links k) Q -> nodes_ok (links k) -> tables_ok k -> nowhere Q LFreeTcb ->
  let Q0 := <[LFreeTcb := []]> Q in
  Forall (fun i => tcb_free_ok i (q_loop q_tcb i Q0)) (seqZ 0 CFN_MAX_TSKID) ->
  let Q1 := q_loop q_tcb CFN_MAX_TSKID Q0 in
  Forall (fun i => nowhere (q_loop q_ready_lists i Q1) (LReady i)) (seqZ 0 CFN_MAX_PRI) ->
  (forall L, rep L (q_loop q_ready_lists CFN_MAX_PRI Q1) -> dom L = dom (links k) ->
     Phi tt (set_links L (t_loop marked_tcb CFN_MAX_TSKID k))) ->
  wp tkmc_init_tcb Phi k.
Proof.
  intros Hr Hn Ht Hno Q0 Hok Q1 Hok2 H. unfold tkmc_init_tcb. apply wp_bind.
  eapply wp_list_init; [exact Hr|by apply nowhere_inq|by apply Hn|]. intros L HL HD.
  apply wp_bind.
  eapply (wp_init_loop _ q_tcb marked_tcb tcb_free_ok CFN_MAX_TSKID);
    [done| | | |exact HL|by eapply nodes_ok_dom|exact Ht|exact Hok|].
  - intros. by eapply wp_init_tcb_body.
  - done.
  - intros i k' Hk. by destruct (marked_tables i k' Hk) as (? & _).
  - intros L1 HL1 HD1. rewrite t_loop_links, set_links_twice by done.
    eapply (wp_init_loop _ q_ready_lists (fun _ k => k)
      (fun i Q => nowhere Q (LReady i)) CFN_MAX_PRI);
      [done| |done|done|exact HL1| | |exact Hok2|].
    + intros i Q' k' Psi Hi Hr' Hn' Ht' Hok' HPsi.
      eapply wp_list_init; [exact Hr'|by apply nowhere_inq|by apply Hn'|exact HPsi].
    + eapply nodes_ok_dom; [exact HD1|]. by eapply nodes_ok_dom.
    + assert (Hk : tables_ok (t_loop marked_tcb CFN_MAX_TSKID k)); [|exact Hk].
      apply t_loop_frame; [|done|done]. intros i k' Hk. by destruct (marked_tables i k' Hk) as (? & _).
    + intros L2 HL2 HD2.
      assert (E : forall (m : Z) k0, t_loop (fun _ k => k) m k0 = k0).
      { intros m k0. unfold t_loop. by induction (seqZ 0 m). }
      rewrite E, set_links_twice. apply H; [exact HL2|]. rewrite HD2. proj. by rewrite HD1.
Qed.

(** ** The state the initialisations leave *)

(** A loop of marks only writes its table. *)
Definition mark_all {A} (f : Z -> A) (n : Z) (M : gmap Z A) : gmap Z A :=
  foldl (fun M i => <[i := f i]> M) M (seqZ 0 n).

Lemma marked_tcbs n k : t_loop marked_tcb n k =
  set_tcbs (mark_all (fun i => mk_TCB (i + 1) 0 TTS_NOEXS 0 0 0 None 0 0 E_OK 0 WInfoZero) n
    (tcbs k)) k.
Proof.
  unfold t_loop, mark_all. revert k. induction (seqZ 0 n) as [|j js IH]; intros k; simpl.
  - by destruct k.
  - by rewrite IH.
Qed.
Lemma marked_sems n k : t_loop marked_sem n k =
  set_semcbs (mark_all (fun i => mk_SEMCB (noexs_id i) 0 0 0 0) n (semcbs k)) k.
Proof.
  unfold t_loop, mark_all. revert k. induction (seqZ 0 n) as [|j js IH]; intros k; simpl.
  - by destruct k.
  - by rewrite IH.
Qed.
Lemma marked_flgs n k : t_loop marked_flg n k =
  set_flgcbs (mark_all (fun i => mk_FLGCB (noexs_id i) 0 0 0) n (flgcbs k)) k.
Proof.
  unfold t_loop, mark_all. revert k. induction (seqZ 0 n) as [|j js IH]; intros k; simpl.
  - by destruct k.
  - by rewrite IH.
Qed.
Lemma marked_mbxs n k : t_loop marked_mbx n k =
  set_mbxcbs (mark_all (fun i => mk_MBXCB (noexs_id i) 0 0) n (mbxcbs k)) k.
Proof.
  unfold t_loop, mark_all. revert k. induction (seqZ 0 n) as [|j js IH]; intros k; simpl.
  - by destruct k.
  - by rewrite IH.
Qed.

Definition boot_tcbs : gmap Z TCB := mark_all
  (fun i => mk_TCB (i + 1) 0 TTS_NOEXS 0 0 0 None 0 0 E_OK 0 WInfoZero) CFN_MAX_TSKID
  (table CFN_MAX_TSKID zero_TCB).
Definition boot_semcbs : gmap Z SEMCB := mark_all (fun i => mk_SEMCB (noexs_id i) 0 0 0 0)
  CFN_MAX_SEMID (table CFN_MAX_SEMID (mk_SEMCB 0 0 0 0 0)).
Definition boot_flgcbs : gmap Z FLGCB := mark_all (fun i => mk_FLGCB (noexs_id i) 0 0 0)
  CFN_MAX_FLGID (table CFN_MAX_FLGID (mk_FLGCB 0 0 0 0)).
Definition boot_mbxcbs : gmap Z MBXCB := mark_all (fun i => mk_MBXCB (noexs_id i) 0 0)
  CFN_MAX_MBXID (table CFN_MAX_MBXID (mk_MBXCB 0 0 0)).

(** The lists, in the order of the initialisations. *)
Definition q_tcbs : queues :=
  q_loop q_ready_lists CFN_MAX_PRI (q_loop q_tcb CFN_MAX_TSKID (<[LFreeTcb := []]> ∅)).
Definition q_flgs : queues := q_loop q_flg CFN_MAX_FLGID (<[LFreeFlg := []]> q_tcbs).
Definition q_sems : queues := q_loop q_sem CFN_MAX_SEMID (<[LFreeSem := []]> q_flgs).
Definition q_timer : queues := <[LTimer := []]> q_sems.
Definition boot_queues : queues := q_loop q_mbx CFN_MAX_MBXID (<[LFreeMbx := []]> q_timer).

Definition boot_state (L : gmap link (link * link)) (h : gmap Z FP) (p : PLIC) k : kernel :=
  set_s_handlers h (set_plic p (set_links L (set_tcbs boot_tcbs (set_semcbs boot_semcbs
    (set_flgcbs boot_flgcbs (set_mbxcbs boot_mbxcbs k)))))).

Lemma rep_empty_queues (L : gmap link (link * link)) : rep L ∅.
Proof. by split; intros *; rewrite lookup_empty. Qed.

Lemma table_some {A} (n i : Z) (a : A) : 0 <= i < n -> is_Some (table n a !! i).
Proof.
  intros Hi. unfold table. apply elem_of_dom. rewrite dom_list_to_map, elem_of_list_to_set.
  apply list_elem_of_fmap. exists (i, a). split; [done|]. apply list_elem_of_fmap.
  exists i. split; [done|]. apply elem_of_seqZ. lia.
Qed.

Lemma bss_tables msgs clk0 mem0 csrs0 : tables_ok (bss_state msgs clk0 mem0 csrs0).
Proof. repeat split; intros i Hi; by apply table_some. Qed.

Lemma tables_links (L : gmap link (link * link)) k : tables_ok k -> tables_ok (set_links L k).
Proof. done. Qed.

Lemma bss_nodes msgs : nodes_ok (bss_links msgs).
Proof.
  intros n Hn. unfold bss_links. rewrite dom_list_to_map, elem_of_list_to_set.
  apply list_elem_of_fmap. exists (n, (LNull, LNull)). split; [done|].
  apply list_elem_of_fmap. exists n. split; [done|]. apply elem_of_app. left.
  by apply kernel_node_in.
Qed.

(** [ran]: a decidable statement on closed data. *)
Ltac ran := apply (bool_decide_unpack _); vm_compute; exact I.

Lemma wp_kernel_init msgs clk0 mem0 csrs0 (Phi : unit -> kernel -> Prop) :
  (forall L hd p, rep L boot_queues -> dom L = dom (bss_links msgs) ->
     (forall i, 0 <= i < CFN_MAX_INTNO -> hd !! i = Some None) ->
     (forall src, 1 <= src < PLIC_SOURCE_COUNT -> pl_priority p !! src = Some 0) ->
     (forall src, 0 <= src < PLIC_SOURCE_COUNT -> plic_enabled p src = false) ->
     pl_threshold p = 0 ->
     Phi tt (boot_state L hd p (bss_state msgs clk0 mem0 csrs0))) ->
  wp kernel_init Phi (bss_state msgs clk0 mem0 csrs0).
Proof.
  intros H. set (k0 := bss_state msgs clk0 mem0 csrs0) in *. unfold kernel_init.
  pose proof (bss_tables msgs clk0 mem0 csrs0) as Ht. pose proof (bss_nodes msgs) as Hn.
  apply wp_bind. eapply (wp_init_tcb k0 ∅); [apply rep_empty_queues|exact Hn|exact Ht|ran..|].
  intros L1 HL1 HD1. set (k1 := set_links L1 _).
  assert (Hn1 : nodes_ok (links k1)) by (by eapply nodes_ok_dom).
  assert (Ht1 : tables_ok k1).
  { apply tables_links, (t_loop_frame marked_tcb); [|done|exact Ht].
    intros i k Hk. by destruct (marked_tables i k Hk) as (? & _). }
  apply wp_bind. eapply (wp_init_flgcb k1 q_tcbs); [exact HL1|exact Hn1|exact Ht1|ran..|].
  intros L2 HL2 HD2. set (k2 := set_links L2 _).
  assert (Hn2 : nodes_ok (links k2)) by (by eapply nodes_ok_dom).
  assert (Ht2 : tables_ok k2).
  { apply tables_links, (t_loop_frame marked_flg); [|done|exact Ht1].
    intros i k Hk. by destruct (marked_tables i k Hk) as (_ & _ & ? & _). }
  apply wp_bind. eapply (wp_init_semcb k2 q_flgs); [exact HL2|exact Hn2|exact Ht2|ran..|].
  intros L3 HL3 HD3. set (k3 := set_links L3 _).
  assert (Hn3 : nodes_ok (links k3)) by (by eapply nodes_ok_dom).
  assert (Ht3 : tables_ok k3).
  { apply tables_links, (t_loop_frame marked_sem); [|done|exact Ht2].
    intros i k Hk. by destruct (marked_tables i k Hk) as (_ & ? & _). }
  apply wp_bind. eapply (wp_list_init (k := k3) (Q := q_sems)); [exact HL3| |by apply Hn3|].
  { apply nowhere_inq. ran. }
  intros L4 HL4 HD4. apply wp_bind.
  eapply (wp_init_mbxcb (set_links L4 k3) q_timer);
    [exact HL4|by eapply nodes_ok_dom|by apply tables_links|ran..|].
  intros L5 HL5 HD5. set (k5 := set_links L5 _).
  assert (HD : dom L5 = dom (bss_links msgs)).
  { etrans; [exact HD5|]. etrans; [exact HD4|]. etrans; [exact HD3|]. etrans; [exact HD2|].
    exact HD1. }
  assert (E5 : k5 = set_links L5 (set_tcbs boot_tcbs (set_semcbs boot_semcbs
    (set_flgcbs boot_flgcbs (set_mbxcbs boot_mbxcbs k0))))).
  { unfold k5. rewrite marked_mbxs. unfold k3. rewrite marked_sems. unfold k2.
    rewrite marked_flgs. unfold k1. rewrite marked_tcbs. reflexivity. }
  eapply wp_mono; [apply wp_init_intctl|]. intros [] k' (E & Hh & Hpri & Hp & Hth).
  rewrite E, E5. apply H; try done.
Qed.

(** A kernel with the tables of the boot: only they matter for the invariant. *)
Definition boot_kernel : kernel :=
  mk_kernel ∅ boot_tcbs boot_semcbs boot_flgcbs boot_mbxcbs None None 0 0 ∅
    (mk_panics (0, 0, 0) (0, 0) (0, 0)) false (mk_CSR false 0 0) 0 0 [] (fun _ => 0) 0%nat
    (mk_PLIC ∅ ∅ 0 0 [] 0) ∅ [].

Lemma booted_wf L hd p msgs clk0 mem0 csrs0 :
  rep L boot_queues -> dom L = dom (bss_links msgs) ->
  wf (boot_state L hd p (bss_state msgs clk0 mem0 csrs0)) boot_queues.
Proof.
  intros HL HD. split; [|split].
  - split; [exact HL|]. split; [eapply nodes_ok_dom; [exact HD|apply bss_nodes]|].
    apply (ainv_check_sound boot_kernel). ran.
  - assert (Hs : settled boot_kernel boot_queues); [|exact Hs].
    apply settled_check_sound. ran.
  - done.
Qed.

(** ** The two tasks *)

Definition stack_ok (a : Z) : Prop :=
  0 < a /\ a mod STACK_ALIGN = 0 /\ a + TASK_STACK_BYTES <= TKMC_UINTPTR_MAX.

(** [t] is created from [p] and started, before any task runs. *)
Definition first_started k t (p : T_CTSK) a0 (Q' : queues) (k' : kernel) : Prop :=
  exists L m, k' = set_mem m (with_lt L
      (<[t := started_tcb (created_tcb (t + 1) p)]> (tcbs k)) k) /\
    frame_of (sp (created_tcb (t + 1) p)) (ct_task p) a0 (ct_exinf p) m /\
    frame_only (sp (created_tcb (t + 1) p)) (mem k) m /\ wf k' Q'.

Lemma wp_start_one k Q p a0 st1 st2 t xs (Phi : unit -> kernel -> Prop) :
  wf k Q -> current k = None -> cre_tsk_error p = None -> Q !! LFreeTcb = Some (LHead t :: xs) ->
  (forall k', first_started k t p a0
     (qpush (LReady (ct_itskpri p - 1)) (LHead t) (<[LHead t := []]> (qrm (LHead t) Q))) k' ->
     Phi tt k') ->
  wp (start_one p a0 st1 st2) Phi k.
Proof.
  intros Hwf Hcur He Hq H.
  assert (Ht : task_idx t).
  { destruct (member_free_tcb (proj1 (proj1 Hwf)) (proj2 (proj2 (proj1 Hwf))) (LHead t))
      as (t' & c & E & Hi & _); [exists (LHead t :: xs); split; [done|by left]|].
    by injection E as ->. }
  unfold start_one. apply wp_bind. eapply wp_mono; [by apply wp_cre_tsk|].
  intros r k1 (Q1 & Hwf1 & Hp). rewrite He, Hq in Hp.
  destruct Hp as (-> & L1 & E1 & EQ1 & _). unfold task_idx in Ht.
  rewrite decide_False by lia. apply wp_bind. eapply wp_mono; [by apply (wp_sta_tsk k1 Q1)|].
  intros r k2 (Q2 & Hwf2 & Hp2).
  rewrite (proj2 (id_in_range_spec (t + 1) CFN_MAX_TSKID)) in Hp2 by lia.
  rewrite Z.add_simpl_r in Hp2. destruct Hp2 as (c & Hc & Hp2).
  assert (Ec : c = created_tcb (t + 1) p).
  { rewrite E1 in Hc. unfold with_lt in Hc. proj. rewrite lookup_insert_eq in Hc. by simplify_eq. }
  rewrite decide_True in Hp2 by (by rewrite Ec). destruct Hp2 as (-> & k3 & Hst & E2).
  rewrite decide_True in E2 by (rewrite E1; exact Hcur).
  rewrite decide_False by (intros Hx; by apply Hx). apply wp_ret, H.
  destruct Hst as (EQ2 & L & m & Hf & Ho & _ & _ & E3). exists L, m.
  rewrite E2, E3, Ec, E1 in *. unfold with_lt in *. proj. rewrite insert_insert_eq in *.
  split; [by destruct k|]. split; [exact Hf|]. split; [exact Ho|].
  rewrite EQ2, EQ1 in Hwf2. exact Hwf2.
Qed.

Section start_spec.
Context (ini idl a0 : Z) (msgs : list Z) (clk0 : nat -> Z) (mem0 : gmap Z cell).
Context (csrs0 : CSR).
Let k0 := bss_state msgs clk0 mem0 csrs0.
Let ini_tcb := started_tcb (created_tcb 1 (ini_ctsk ini)).
Let idl_tcb := started_tcb (created_tcb 2 (idl_ctsk idl)).

(** What the launch of the initial task finds. *)
Record start_post (r : Z) (k' : kernel) : Prop := {
  sp_result : r = ini + TASK_STACK_BYTES - FRAME_BYTES;
  sp_wf : exists Q, wf k' Q;
  sp_current : current k' = Some 0;
  sp_msip : msip k' = 0;
  sp_mie : mie k' = true;
  sp_depth : isr_depth k' = 0;
  sp_panics : panics k' = panics k0;
  sp_csrs : csrs k' = csrs0;
  sp_tcbs : tcbs k' = <[0 := set_tskstat TTS_RUN ini_tcb]> (<[1 := idl_tcb]> boot_tcbs);
  sp_semcbs : semcbs k' = boot_semcbs;
  sp_flgcbs : flgcbs k' = boot_flgcbs;
  sp_mbxcbs : mbxcbs k' = boot_mbxcbs;
  sp_ini_frame : frame_of (sp ini_tcb) (Some F_tkmc_ini_tsk) a0 0 (mem k');
  sp_idl_frame : frame_of (sp idl_tcb) (Some F_tkmc_idl_tsk) a0 0 (mem k');
  sp_mem a : ~ (sp ini_tcb <= a < ini + TASK_STACK_BYTES) ->
    ~ (sp idl_tcb <= a < idl + TASK_STACK_BYTES) -> mem k' !! a = mem0 !! a;
  sp_timer : exists m, mtimecmp k' = clk0 m + TICK_COUNTS /\ s_mtimecmp k' = mtimecmp k' /\
    (m < reads k')%nat;
  sp_handlers i : 0 <= i < CFN_MAX_INTNO -> s_handlers k' !! i = Some None;
  sp_priority src : 1 <= src < PLIC_SOURCE_COUNT -> pl_priority (plic k') !! src = Some 0;
  sp_enabled src : 0 <= src < PLIC_SOURCE_COUNT -> plic_enabled (plic k') src = false;
  sp_threshold : pl_threshold (plic k') = 0;
}.

Hypothesis Hini : stack_ok ini.
Hypothesis Hidl : stack_ok idl.
Hypothesis Happart : ini + TASK_STACK_BYTES <= idl \/ idl + TASK_STACK_BYTES <= ini.
Hypothesis Hclk : clock_ok clk0.

Lemma stack_error a (p : T_CTSK) : stack_ok a -> bufptr p = a -> stksz p = TASK_STACK_BYTES ->
  tskatr p = TA_USERBUF -> is_Some (ct_task p) -> 1 <= ct_itskpri p <= CFN_MAX_PRI ->
  cre_tsk_error p = None.
Proof.
  intros (H1 & H2 & H3) Eb Es Ea [f Ef] Hp. unfold cre_tsk_error.
  rewrite Eb, Es, Ea, Ef. change TASK_STACK_BYTES with 512 in *. change STACK_ALIGN with 16 in *.
  rewrite decide_False by (by vm_compute). rewrite decide_False by (by vm_compute).
  rewrite decide_False by (intros [?|?]; [done|lia]). rewrite decide_False by lia.
  rewrite decide_False by (by vm_compute). rewrite decide_False by lia.
  rewrite decide_False; [done|]. intros Hx. apply Hx. rewrite <- Z.add_mod_idemp_l, H2; done.
Qed.

(** The stacks do not overlap: the second frame leaves the first. *)
Lemma frame_of_kept s1 s2 task1 x1 m m' :
  frame_of s1 task1 a0 x1 m -> frame_only s2 m m' ->
  s1 + FRAME_BYTES <= s2 \/ s2 + FRAME_BYTES <= s1 -> frame_of s1 task1 a0 x1 m'.
Proof.
  unfold frame_of, frame_only. change FRAME_BYTES with 128.
  change REG_ra with 0. change REG_mepc with 28. change REG_a0 with 6. change REG_a1 with 7.
  intros (H1 & H2 & H3 & H4 & H5) Ho Hd. rewrite !Ho by lia. repeat (split; [done|]).
  intros i Hi. change FRAME_WORDS with 32 in Hi. rewrite Ho by lia. by apply H5.
Qed.

(** The timer, the interrupts, and the launch. *)
Lemma wp_launch k Q t c (Phi : Z -> kernel -> Prop) :
  wf k Q -> current k = None -> msip k = 0 -> highest Q = Some t -> tcbs k !! t = Some c ->
  (forall u cu, tcbs k !! u = Some cu -> tskstat cu <> TTS_RUN) ->
  clock_ok (clk k) -> mtimecmp k = 0 ->
  (forall m r log, (m < r)%nat -> let cmp := clk k m + TICK_COUNTS in
     let k1 := set_current (Some t) (set_tcbs (<[t := set_tskstat TTS_RUN c]> (tcbs k)) k) in
     wf k1 Q ->
     Phi (sp c) (set_mie true (set_cmp_log log (set_mtimecmp cmp (set_s_mtimecmp cmp
       (set_reads r k1)))))) ->
  wp (n <- tkmc_get_highest_priority_task ;;
      match n with
      | None => wild
      | Some t =>
        tcb_upd t (set_tskstat TTS_RUN) ;;; modify (set_current (Some t)) ;;;
        tkmc_start_timer ;;; EI 0 ;;; c <- tcb_get t ;; ret (sp c)
      end) Phi k.
Proof.
  intros (Hi & Hset & Hsch) Hcur Hm Hh Hc Hno Hclk' Hcmp H.
  apply wp_bind. eapply wp_get_highest; [exact Hi|]. rewrite Hh.
  destruct (highest_ready k Q t Hi Hh) as (c' & xs & Hc' & Hrs & _).
  assert (c' = c) as -> by congruence.
  pose proof (wf_run k Q t c Hi Hset Hm Hc Hrs Hh Hno) as Hwf1.
  apply wp_bind. eapply wp_tcb_upd; [exact Hc|]. apply wp_bind, wp_modify. proj.
  set (k1 := set_current (Some t) _) in *. apply wp_bind. unfold tkmc_start_timer. apply wp_bind.
  eapply (wp_read_mtime k1); [exact Hclk'|]. intros m r Hm1 _. change (clk k1) with (clk k).
  pose proof (ck_range _ Hclk' m) as Hr.
  assert (Eu : u64 (clk k m + TICK_COUNTS) = clk k m + TICK_COUNTS).
  { unfold u64, TICK_COUNTS. apply Z.mod_small. lia. }
  rewrite Eu. apply wp_bind, wp_modify. eapply wp_write_mtimecmp.
  - unfold TICK_COUNTS. lia.
  - change (0 <= mtimecmp k < 2 ^ 64). rewrite Hcmp. lia.
  - intros a b _ _. apply wp_bind. unfold EI. rewrite decide_True by done. apply wp_modify.
    apply wp_bind. eapply wp_tcb_get; [apply lookup_insert_eq|]. apply wp_ret.
    apply H; [lia|exact Hwf1].
Qed.

(** Both frames are there, and nothing else changed in RAM. *)
Lemma first_frames m1 m2 :
  frame_of (sp ini_tcb) (Some F_tkmc_ini_tsk) a0 0 m1 -> frame_only (sp ini_tcb) mem0 m1 ->
  frame_only (sp idl_tcb) m1 m2 ->
  frame_of (sp ini_tcb) (Some F_tkmc_ini_tsk) a0 0 m2 /\
  forall a, ~ (sp ini_tcb <= a < ini + TASK_STACK_BYTES) ->
    ~ (sp idl_tcb <= a < idl + TASK_STACK_BYTES) -> m2 !! a = mem0 !! a.
Proof using Happart.
  intros Hf1 Ho1 Ho2.
  assert (Es1 : sp ini_tcb + FRAME_BYTES = ini + TASK_STACK_BYTES)
    by (unfold ini_tcb, started_tcb, created_tcb; cbn; lia).
  assert (Es2 : sp idl_tcb + FRAME_BYTES = idl + TASK_STACK_BYTES)
    by (unfold idl_tcb, started_tcb, created_tcb; cbn; lia).
  change TASK_STACK_BYTES with 512 in *. change FRAME_BYTES with 128 in *. split.
  - eapply frame_of_kept; [exact Hf1|exact Ho2|]. change FRAME_BYTES with 128. lia.
  - intros a Ha1 Ha2. rewrite Ho2, Ho1; [done|..]; change FRAME_BYTES with 128; lia.
Qed.

(** No task but the two exists. *)
Lemma two_tasks_only u cu : (<[1 := idl_tcb]> (<[0 := ini_tcb]> boot_tcbs)) !! u = Some cu ->
  tskstat cu <> TTS_RUN.
Proof using.
  intros Hu. assert (Hb : map_Forall (fun _ c => tskstat c = TTS_NOEXS) boot_tcbs) by ran.
  apply lookup_insert_Some in Hu as [[_ <-]|[_ Hu]]; [done|].
  apply lookup_insert_Some in Hu as [[_ <-]|[_ Hu]]; [done|].
  by rewrite (Hb _ _ Hu).
Qed.

Lemma wp_tkmc_start : wp (tkmc_start ini idl a0) start_post k0.
Proof using Hini Hidl Happart Hclk.
  unfold tkmc_start. apply wp_bind, wp_kernel_init. intros L hd p HL HD Hhd Hpri Hpl Hth.
  pose proof (booted_wf L hd p msgs clk0 mem0 csrs0 HL HD) as Hwf0.
  set (kb := boot_state L hd p (bss_state msgs clk0 mem0 csrs0)) in *.
  apply wp_bind.
  eapply (wp_start_one kb boot_queues _ _ _ _ 0 (LHead <$> seqZ 1 (CFN_MAX_TSKID - 1)));
    [exact Hwf0|done|by apply (stack_error ini)|ran|].
  intros k1 (L1 & m1 & E1 & Hf1 & Ho1 & Hwf1). apply wp_bind.
  eapply (wp_start_one k1 _ _ _ _ _ 1 (LHead <$> seqZ 2 (CFN_MAX_TSKID - 2)));
    [exact Hwf1|by rewrite E1|by apply (stack_error idl)|ran|].
  intros k2 (L2 & m2 & E2 & Hf2 & Ho2 & Hwf2).
  assert (ET : tcbs k2 = <[1 := idl_tcb]> (<[0 := ini_tcb]> boot_tcbs)).
  { rewrite E2. unfold with_lt. proj. rewrite E1. unfold with_lt. proj. reflexivity. }
  assert (Em1 : mem k1 = m1) by (by rewrite E1). rewrite Em1 in Ho2.
  destruct (first_frames m1 m2 Hf1 Ho1 Ho2) as [Hf Ho].
  eapply (wp_launch k2 _ 0 ini_tcb); [exact Hwf2|by rewrite E2, E1..| | | | | |].
  - by vm_compute.
  - rewrite ET. by rewrite lookup_insert_ne, lookup_insert_eq.
  - intros u cu. rewrite ET. apply two_tasks_only.
  - by rewrite E2, E1.
  - by rewrite E2, E1.
  - assert (Ec : clk k2 = clk0) by (rewrite E2, E1; reflexivity).
    rewrite Ec. intros m r log Hm cmp kr Hwf.
    split; unfold kr; proj; try (by rewrite E2, E1); try reflexivity.
    + by eexists.
    + by exists m.
Qed.

(** C21: [tkmc_start], from memory that is all zero, with two stacks apart from each
    other and inside the address space, ends in a well-formed state: the initial
    task is current and running, the idle task is ready, both on their first frames,
    every other block is free, and the timer is set one tick ahead. *)
Theorem start_spec : wp (tkmc_start ini idl a0) start_post k0.
Proof using Hini Hidl Happart Hclk. apply wp_tkmc_start. Qed.
End start_spec.
