(* ===== verification/Trap.v ===== *)
(** * The reset and the traps: [src/kernel/asm/rv32/start.S]

    The reset code, the vector of the traps, and their entries, composed of what
    the hart does itself when it takes a trap and at [mret], of the counting of
    the traps, and of the C functions they call. The registers that a trap saves
    are in [Frame]; here a frame is its address, which [schedule] swaps.

    A trap is taken only with interrupts on and if its bit of the register mie is
    set. The outermost external interrupt clears the bits of the timer and
    software interrupts while its handler runs; [unmasked] and [masked] are what
    mie is outside and inside a handler, and [System] proves that it always is. *)

From S2P Require Import Prelude DList Tkernel Kernel Inv Moves Rules Wait Sched Timer TimerHandler.
From S2P Require Import IntCtl Start.

Open Scope Z_scope.
Implicit Types (k : kernel) (c : CSR).

(** ** The hart *)

(** The privilege modes, as mstatus.MPP encodes them. *)
Definition MPP_U := 0.
Definition MPP_M := 3.

(** The interrupts, by the number of their cause, which is that of their bit. *)
Definition MSI := 3.
Definition MTI := 7.
Definition MEI := 11.

Definition TASK_TRAPS : Z := Z.lor (Z.shiftl 1 MSI) (Z.shiftl 1 MTI).
Definition ALL_TRAPS : Z := Z.lor TASK_TRAPS (Z.shiftl 1 MEI).

(** The hart takes the interrupt [i] if it comes. *)
Definition taken k (i : Z) : Prop := mie k = true /\ Z.testbit (mie_bits (csrs k)) i = true.

Definition on_csrs (f : CSR -> CSR) : K unit := modify (fun k => set_csrs (f (csrs k)) k).

(** What the hart does by itself: it keeps the interrupt flag in MPIE and the mode
    in MPP, and turns interrupts off. *)
Definition take_trap : K unit :=
  modify (fun k => set_mie false (set_csrs (mk_CSR (mie k) MPP_M (mie_bits (csrs k))) k)).

(** It goes back to the mode in MPP, and the least privileged mode is the next one.
    In user mode the hart has no access to the memory of the kernel. *)
Definition mret : K unit :=
  c <- gets csrs ;;
  if decide (mpp c = MPP_M) then
    modify (fun k => set_mie (mpie c) (set_csrs (mk_CSR true MPP_U (mie_bits c)) k))
  else wild.

(** ** Reset *)

Definition _start (ini_tsk_stack idl_tsk_stack a0 : Z) : K Z :=
  on_csrs (fun c => set_mie_bits (Z.lor (mie_bits c) ALL_TRAPS) c) ;;;
  tkmc_start ini_tsk_stack idl_tsk_stack a0.

(** ** The vector *)

Inductive entry : Type :=
  | E_sync_exception | E_default | E_mtrap | E_timer | E_external.

Definition trap_handlers : list entry :=
  [E_sync_exception; E_default; E_default; E_mtrap;
   E_default; E_default; E_default; E_timer;
   E_default; E_default; E_default; E_external;
   E_default; E_default; E_default; E_default].

(** ** The entries *)

(** The count of [ENTER_ISR] and [LEAVE_ISR]. *)
Definition ENTER_ISR : K unit := modify (fun k => set_isr_depth (isr_depth k + 1) k).
Definition LEAVE_ISR : K unit := modify (fun k => set_isr_depth (isr_depth k - 1) k).

(** The end of the timer and external entries: a requested switch is made. The
    result is the frame that is restored. *)
Definition serve_switch (frame : Z) : K Z :=
  m <- gets msip ;;
  if decide (m = 0) then ret frame
  else modify (set_msip 0) ;;; schedule frame.

Definition mtrap_handler (frame : Z) : K Z :=
  take_trap ;;;
  ENTER_ISR ;;;
  modify (set_msip 0) ;;;
  r <- schedule frame ;;
  LEAVE_ISR ;;;
  mret ;;;
  ret r.

Definition timer_interrupt (frame : Z) : K Z :=
  take_trap ;;;
  ENTER_ISR ;;;
  tkmc_timer_handler ;;;
  r <- serve_switch frame ;;
  LEAVE_ISR ;;;
  mret ;;;
  ret r.

(** Word 29 of the frame keeps mie while the outermost handler runs. *)
Definition mie_slot (frame : Z) : Z := u32 (frame + 29 * 4).

Definition mask_traps (frame : Z) : K unit :=
  b <- gets (fun k => mie_bits (csrs k)) ;;
  on_csrs (set_mie_bits (Z.ldiff b TASK_TRAPS)) ;;;
  store_w (mie_slot frame) (CWord b).

Definition unmask_traps (frame : Z) : K unit :=
  v <- load_w (mie_slot frame) ;;
  match v with
  | CWord b => on_csrs (fun c => set_mie_bits (Z.lor (mie_bits c) (Z.land b TASK_TRAPS)) c)
  | CText _ => wild
  end.

(** Setting both bits of MPP makes it machine mode. *)
Definition external_interrupt (run_handler : text -> Z -> K unit) (frame : Z) : K Z :=
  take_trap ;;;
  ENTER_ISR ;;;
  depth <- gets isr_depth ;;
  (if decide (depth = 1) then mask_traps frame else ret tt) ;;;
  tkmc_external_interrupt run_handler ;;;
  depth <- gets isr_depth ;;
  r <- (if decide (depth = 1) then
          r <- serve_switch frame ;;
          unmask_traps frame ;;;
          ret r
        else ret frame) ;;
  on_csrs (set_mpp MPP_M) ;;;
  LEAVE_ISR ;;;
  mret ;;;
  ret r.

Definition sync_exception_handler (mcause mepc mtval : Z) : K Z :=
  take_trap ;;;
  tkmc_fatal_trap mcause mepc mtval.

Definition default_handler : K unit :=
  take_trap ;;;
  mret.

(** ** The register mie *)

(** Outside a handler all three kinds come; inside one, external interrupts only. *)
Definition unmasked c : Prop :=
  Z.testbit (mie_bits c) MSI = true /\ Z.testbit (mie_bits c) MTI = true /\
  Z.testbit (mie_bits c) MEI = true.
Definition masked c : Prop :=
  Z.testbit (mie_bits c) MSI = false /\ Z.testbit (mie_bits c) MTI = false.

Lemma reset_unmasked b : Z.testbit (Z.lor b ALL_TRAPS) MSI = true /\
  Z.testbit (Z.lor b ALL_TRAPS) MTI = true /\ Z.testbit (Z.lor b ALL_TRAPS) MEI = true.
Proof. rewrite !Z.lor_spec. by rewrite !(orb_comm (Z.testbit b _)). Qed.

Lemma ldiff_masked b : Z.testbit (Z.ldiff b TASK_TRAPS) MSI = false /\
  Z.testbit (Z.ldiff b TASK_TRAPS) MTI = false.
Proof. rewrite !Z.ldiff_spec. by rewrite !(andb_comm (Z.testbit b _)). Qed.

(** What was masked is unmasked: the register is what it was. *)
Lemma mask_unmask b : Z.lor (Z.ldiff b TASK_TRAPS) (Z.land b TASK_TRAPS) = b.
Proof.
  apply Z.bits_inj'. intros i _. rewrite Z.lor_spec, Z.ldiff_spec, Z.land_spec.
  by destruct (Z.testbit b i), (Z.testbit TASK_TRAPS i).
Qed.

(** Every interrupt the reset turns on has an entry of its own: none ends in
    [default_handler], which would leave it pending. *)
Lemma enabled_entries i : Z.testbit ALL_TRAPS i = true ->
  exists e, trap_handlers !! Z.to_nat i = Some e /\ (e = E_mtrap \/ e = E_timer \/ e = E_external).
Proof.
  intros H. assert (Hi : 0 <= i < 12).
  { destruct (decide (i < 0)) as [Hn|Hn]; [by rewrite Z.testbit_neg_r in H|].
    destruct (decide (12 <= i)) as [Hg|Hg]; [|lia].
    rewrite Z.bits_above_log2 in H; [done|done|]. change (Z.log2 ALL_TRAPS) with 11. lia. }
  assert (Ha : Forall (fun i => if Z.testbit ALL_TRAPS i then
    match trap_handlers !! Z.to_nat i with
    | Some (E_mtrap | E_timer | E_external) => True
    | _ => False
    end else True) (seqZ 0 12)) by (by vm_compute; repeat constructor).
  rewrite Forall_forall in Ha. specialize (Ha i ltac:(apply elem_of_seqZ; lia)). simpl in Ha.
  rewrite H in Ha. destruct (trap_handlers !! Z.to_nat i) as [[]|]; try done; eexists; eauto.
Qed.

(** ** The states on the way *)

(** The entry of a trap, and what an outermost external one does more. *)
Definition entered k : kernel :=
  set_isr_depth (isr_depth k + 1)
    (set_mie false (set_csrs (mk_CSR (mie k) MPP_M (mie_bits (csrs k))) k)).
Definition ext_entered (frame : Z) k : kernel :=
  if decide (isr_depth k = 0) then
    set_mem (<[mie_slot frame := CWord (mie_bits (csrs k))]> (mem k))
      (set_csrs (mk_CSR (mie k) MPP_M (Z.ldiff (mie_bits (csrs k)) TASK_TRAPS)) (entered k))
  else entered k.

Lemma wp_entered {A} (m : K A) k (Phi : A -> kernel -> Prop) :
  wp m Phi (entered k) -> wp (take_trap ;;; ENTER_ISR ;;; m) Phi k.
Proof. intros H. apply wp_bind, wp_modify, wp_bind, wp_modify. exact H. Qed.

Lemma wp_ext_entered {A} (m : K A) frame k (Phi : A -> kernel -> Prop) :
  wp m Phi (ext_entered frame k) ->
  wp (take_trap ;;; ENTER_ISR ;;; depth <- gets isr_depth ;;
      (if decide (depth = 1) then mask_traps frame else ret tt) ;;; m) Phi k.
Proof.
  intros H. apply wp_entered, wp_bind, wp_gets, wp_bind. unfold ext_entered in H.
  change (isr_depth (entered k)) with (isr_depth k + 1).
  destruct (decide (isr_depth k = 0)) as [E|E].
  - rewrite decide_True by lia. unfold mask_traps.
    apply wp_bind, wp_gets, wp_bind, wp_modify, wp_modify. exact H.
  - rewrite decide_False by lia. by apply wp_ret.
Qed.

(** The return from a trap. *)
Definition returned k : kernel :=
  set_mie (mpie (csrs k)) (set_csrs (mk_CSR true MPP_U (mie_bits (csrs k)))
    (set_isr_depth (isr_depth k - 1) k)).

Lemma wp_trap_leave k (r : Z) (Phi : Z -> kernel -> Prop) : mpp (csrs k) = MPP_M ->
  Phi r (returned k) -> wp (LEAVE_ISR ;;; mret ;;; ret r) Phi k.
Proof.
  intros Hm H. apply wp_bind, wp_modify, wp_bind. unfold mret. apply wp_bind, wp_gets. proj.
  rewrite decide_True by done. apply wp_modify, wp_ret. exact H.
Qed.

Lemma wp_unmask frame k b (Phi : unit -> kernel -> Prop) :
  mem k !! mie_slot frame = Some (CWord b) ->
  Phi tt (set_csrs (set_mie_bits (Z.lor (mie_bits (csrs k)) (Z.land b TASK_TRAPS)) (csrs k)) k) ->
  wp (unmask_traps frame) Phi k.
Proof.
  intros E H. unfold unmask_traps, load_w. apply wp_bind. eapply wp_gets_opt; [exact E|].
  by apply wp_modify.
Qed.

(** An exception stops the system with its causes recorded and interrupts off. *)
Lemma sync_exception_halts mcause mepc mtval k : exists k',
  sync_exception_handler mcause mepc mtval k = Halt k' /\ mie k' = false /\
  last_trap (panics k') = (mcause, mepc, mtval).
Proof. by eexists. Qed.
