(* ===== verification/Types.v ===== *)
(** * Values in the ranges of their C types

    The model has the integers of the control blocks as mathematical ones.
    [typed k] says that every field is a value of its type in [src/kernel/task.h],
    [semaphore.h], [event_flag.h] and [mailbox.h]; [Ty P m] says that a run of [m]
    that returns keeps it, and returns a value of which [P] holds. The rules follow
    the text of a function; [ty] applies them. *)

From S2P Require Import Prelude DList Tkernel Kernel Inv Moves Rules Wait Sched Timer Block.
From S2P Require Import TimerHandler Task Semaphore EventFlag Mailbox IntCtl Start.

Open Scope Z_scope.
Implicit Types (k : kernel) (c : TCB).

(** ** The types of the fields *)

Definition ty_winfo (w : WaitInfo) : Prop :=
  match w with
  | WInfoZero => True
  | WEventFlag waiptn wfmode ptn => is_u32 waiptn /\ is_u32 wfmode /\ is_u32 ptn
  | WSemaphore cnt s => is_i32 cnt /\ 0 <= s < CFN_MAX_SEMID
  | WMailbox msg => is_u32 msg
  end.

Record ty_tcb (c : TCB) : Prop := {
  tt_tskid : is_i32 (tskid c);
  tt_itskpri : is_i32 (itskpri c);
  tt_tskstat : is_u32 (tskstat c);
  tt_tskwait : is_u32 (tskwait c);
  tt_sp : is_u32 (sp c);
  tt_initial_sp : is_u32 (initial_sp c);
  tt_exinf : is_u32 (exinf c);
  tt_delay_ticks : is_u32 (delay_ticks c);
  tt_wupcause : is_i32 (wupcause c);
  tt_wupcnt : 0 <= wupcnt c <= TK_WAKEUP_MAXCNT;
  tt_winfo : ty_winfo (winfo c);
}.

Record ty_sem (sc : SEMCB) : Prop := {
  ts_semid : is_i32 (semid sc);
  ts_exinf : is_u32 (sem_exinf sc);
  ts_sematr : is_u32 (sematr sc);
  ts_semcnt : is_i32 (semcnt sc);
  ts_maxsem : is_i32 (maxsem sc);
}.

Record ty_flg (fc : FLGCB) : Prop := {
  tf_flgid : is_i32 (flgid fc);
  tf_exinf : is_u32 (flg_exinf fc);
  tf_flgatr : is_u32 (flgatr fc);
  tf_flgptn : is_u32 (flgptn fc);
}.

Record ty_mbx (mc : MBXCB) : Prop := {
  tm_mbxid : is_i32 (mbxid mc);
  tm_exinf : is_u32 (mbx_exinf mc);
  tm_mbxatr : is_u32 (mbxatr mc);
}.

Record typed (k : kernel) : Prop := {
  ty_tcbs t c : tcbs k !! t = Some c -> ty_tcb c;
  ty_sems s sc : semcbs k !! s = Some sc -> ty_sem sc;
  ty_flgs f fc : flgcbs k !! f = Some fc -> ty_flg fc;
  ty_mbxs m mc : mbxcbs k !! m = Some mc -> ty_mbx mc;
  ty_s_mtimecmp : 0 <= s_mtimecmp k < 2 ^ 64;
}.

(** What [typed] looks at. *)
Definition same_blocks k k' : Prop :=
  tcbs k' = tcbs k /\ semcbs k' = semcbs k /\ flgcbs k' = flgcbs k /\ mbxcbs k' = mbxcbs k /\
  s_mtimecmp k' = s_mtimecmp k.

Lemma typed_same k k' : same_blocks k k' -> typed k -> typed k'.
Proof. intros (E1 & E2 & E3 & E4 & E5) []. split; by rewrite ?E1, ?E2, ?E3, ?E4, ?E5. Qed.

(** ** Ranges *)

Lemma ty_u32 x : is_u32 (u32 x).
Proof. unfold is_u32, u32. by apply Z.mod_pos_bound. Qed.
Lemma ty_i32 x : is_i32 (i32 x).
Proof.
  unfold is_i32, i32. pose proof (ty_u32 x) as H. unfold is_u32 in H.
  case_decide; lia.
Qed.
Lemma ty_u64 x : 0 <= u64 x < 2 ^ 64.
Proof. unfold u64. by apply Z.mod_pos_bound. Qed.

(** [range]: a number is in range, as a constant or by what is known of it. *)
Ltac range :=
  first
  [ assumption
  | lazymatch goal with
    | |- True => exact I
    | |- is_u32 (u32 _) => apply ty_u32
    | |- is_i32 (i32 _) => apply ty_i32
    | |- _ <= u64 _ < _ => apply ty_u64
    | |- is_u32 (Z.land _ _) => apply u32_land; range
    | |- is_u32 (Z.lor _ _) => apply u32_lor; range
    | |- is_u32 (clear_ptn _ _ _) => apply u32_clear; range
    | |- _ /\ _ => split; range
    | |- _ <= _ => unfold CFN_MAX_SEMID, TK_WAKEUP_MAXCNT in *; lia
    | |- _ < _ => unfold CFN_MAX_SEMID, TK_WAKEUP_MAXCNT in *; lia
    | |- is_i32 (_ + 1) => unfold is_i32, CFN_MAX_TSKID in *; lia
    | |- is_u32 _ => split; [vm_compute; discriminate|vm_compute; reflexivity]
    | |- is_i32 _ => split; [vm_compute; discriminate|vm_compute; reflexivity]
    end ].

(** [ty_field]: an update of a block writes a value of the type of the field. *)
Ltac ty_field :=
  intros ?blk ?Hblk; pose proof Hblk as [];
  split; cbn; try range.

(** ** The triples *)

Definition Ty {A} (P : A -> Prop) (m : K A) : Prop :=
  forall k a k', typed k -> m k = Ret a k' -> typed k' /\ P a.

Abbreviation Keep := (Ty (fun _ => True)).

Lemma ty_ret {A} (P : A -> Prop) a : P a -> Ty P (ret a).
Proof. intros H k b k' Hk [= <- <-]. done. Qed.

Lemma ty_bind {A B} (P : A -> Prop) (R : B -> Prop) (m : K A) (f : A -> K B) :
  Ty P m -> (forall a, P a -> Ty R (f a)) -> Ty R (bind m f).
Proof.
  intros Hm Hf k b k' Hk E. unfold bind in E. destruct (m k) as [a k1| | |] eqn:Em; try done.
  destruct (Hm k a k1 Hk Em) as [Hk1 Ha]. by apply (Hf a Ha k1).
Qed.

Lemma ty_weaken {A} (P R : A -> Prop) (m : K A) : Ty P m -> (forall a, P a -> R a) -> Ty R m.
Proof. intros Hm H k a k' Hk E. destruct (Hm k a k' Hk E). auto. Qed.

Lemma ty_any {A} (P : A -> Prop) (m : K A) : Ty P m -> Keep m.
Proof. intros Hm. by eapply ty_weaken. Qed.

Lemma ty_gets {A} (P : A -> Prop) (f : kernel -> A) : (forall k, typed k -> P (f k)) ->
  Ty P (gets f).
Proof. intros H k a k' Hk [= <- <-]. auto. Qed.
Lemma ty_gets_opt {A} (P : A -> Prop) (f : kernel -> option A) :
  (forall k a, typed k -> f k = Some a -> P a) -> Ty P (gets_opt f).
Proof.
  intros H k a k' Hk E. unfold gets_opt in E. destruct (f k) as [b|] eqn:Ef; [|done].
  simplify_eq. split; [done|by eapply H].
Qed.
Lemma ty_modify f : (forall k, typed k -> typed (f k)) -> Keep (modify f).
Proof. intros H k a k' Hk [= _ <-]. auto. Qed.
Lemma ty_modify_opt f : (forall k k', typed k -> f k = Some k' -> typed k') -> Keep (modify_opt f).
Proof.
  intros H k a k' Hk E. unfold modify_opt in E. destruct (f k) eqn:Ef; simplify_eq. split; [|done].
  by eapply H.
Qed.

Lemma ty_int_op x : Ty is_i32 (int_op x).
Proof. intros k a k' Hk E. unfold int_op in E. case_decide; [|done]. by injection E as <- <-. Qed.

(** A run that [wp] describes. *)
Lemma wp_ty {A} (P : A -> Prop) (m : K A) k (Phi : A -> kernel -> Prop) :
  Ty P m -> typed k -> wp m Phi k -> wp m (fun a k' => Phi a k' /\ typed k' /\ P a) k.
Proof.
  unfold wp. intros Hm Hk H. destruct (m k) as [a k'| | |] eqn:E; try done.
  split; [done|by eapply Hm].
Qed.

(** ** The blocks *)

Lemma ty_tcb_get t : Ty ty_tcb (tcb_get t).
Proof. apply ty_gets_opt. intros k c []. eauto. Qed.
Lemma ty_sem_get s : Ty ty_sem (sem_get s).
Proof. apply ty_gets_opt. intros k c []. eauto. Qed.
Lemma ty_flg_get f : Ty ty_flg (flg_get f).
Proof. apply ty_gets_opt. intros k c []. eauto. Qed.
Lemma ty_mbx_get m : Ty ty_mbx (mbx_get m).
Proof. apply ty_gets_opt. intros k c []. eauto. Qed.

(** One entry of a table changes. *)
Lemma ty_insert {A} (P : A -> Prop) (T : gmap Z A) i a :
  (forall j b, T !! j = Some b -> P b) -> P a ->
  forall j b, <[i := a]> T !! j = Some b -> P b.
Proof. intros HT Ha j b [[_ <-]|[_ H]]%lookup_insert_Some; [done|by eapply HT]. Qed.

Lemma ty_tcb_upd t f : (forall c, ty_tcb c -> ty_tcb (f c)) -> Keep (tcb_upd t f).
Proof.
  intros H. apply ty_modify_opt. intros k k' [] E. simpl in E.
  destruct (tcbs k !! t) as [c|] eqn:Ec; simplify_eq/=. split; try done. simpl.
  eapply ty_insert; eauto.
Qed.
Lemma ty_sem_upd s f : (forall b, ty_sem b -> ty_sem (f b)) -> Keep (sem_upd s f).
Proof.
  intros H. apply ty_modify_opt. intros k k' [] E. simpl in E.
  destruct (semcbs k !! s) as [c|] eqn:Ec; simplify_eq/=. split; try done. simpl.
  eapply ty_insert; eauto.
Qed.
Lemma ty_flg_upd s f : (forall b, ty_flg b -> ty_flg (f b)) -> Keep (flg_upd s f).
Proof.
  intros H. apply ty_modify_opt. intros k k' [] E. simpl in E.
  destruct (flgcbs k !! s) as [c|] eqn:Ec; simplify_eq/=. split; try done. simpl.
  eapply ty_insert; eauto.
Qed.
Lemma ty_mbx_upd s f : (forall b, ty_mbx b -> ty_mbx (f b)) -> Keep (mbx_upd s f).
Proof.
  intros H. apply ty_modify_opt. intros k k' [] E. simpl in E.
  destruct (mbxcbs k !! s) as [c|] eqn:Ec; simplify_eq/=. split; try done. simpl.
  eapply ty_insert; eauto.
Qed.
Lemma ty_on_links f : Keep (on_links f).
Proof.
  apply ty_modify_opt. intros k k' Hk E. simpl in E. destruct (f (links k)); simplify_eq/=.
  by apply (typed_same k).
Qed.

(** ** [ty]: the rules, by the text *)

Create HintDb ty discriminated.
Ltac ty_step :=
  lazymatch goal with
  | |- Ty _ (bind (tcb_get _) _) => apply (ty_bind ty_tcb); [apply ty_tcb_get|intros ?c []]
  | |- Ty _ (bind (sem_get _) _) => apply (ty_bind ty_sem); [apply ty_sem_get|intros ?c []]
  | |- Ty _ (bind (flg_get _) _) => apply (ty_bind ty_flg); [apply ty_flg_get|intros ?c []]
  | |- Ty _ (bind (mbx_get _) _) => apply (ty_bind ty_mbx); [apply ty_mbx_get|intros ?c []]
  | |- Ty _ (bind (int_op _) _) => apply (ty_bind is_i32); [apply ty_int_op|intros ?z ?Hz]
  | |- Ty _ (bind (gets s_mtimecmp) _) =>
      apply (ty_bind (fun z => 0 <= z < 2 ^ 64));
        [apply ty_gets; intros ? []; assumption|intros ?z ?Hz]
  | |- Ty _ (bind _ _) => apply (ty_bind (fun _ => True)); [|intros ? _]
  | |- Ty _ (ret _) => apply ty_ret; try exact I
  | |- Ty _ (tcb_upd _ _) => apply ty_tcb_upd; ty_field
  | |- Ty _ (sem_upd _ _) => apply ty_sem_upd; ty_field
  | |- Ty _ (flg_upd _ _) => apply ty_flg_upd; ty_field
  | |- Ty _ (mbx_upd _ _) => apply ty_mbx_upd; ty_field
  | |- Ty _ (on_links _) => apply ty_on_links
  | |- Ty _ wild => by intros ? ? ? ?
  | |- Ty _ hang => by intros ? ? ? ?
  | |- Ty _ halt => by intros ? ? ? ?
  | |- Ty _ (let _ := _ in _) => cbv zeta
  | |- Ty _ (match ?x with _ => _ end) => destruct x eqn:?; cbn [ty_winfo] in *; destruct_and?
  | |- Ty _ (modify _) => apply ty_modify; intros ?k ?Hk; by apply (typed_same k)
  | |- Ty _ (gets _) => apply ty_gets; done
  | |- Ty _ (gets_opt _) => apply ty_gets_opt; done
  | |- Ty _ _ => solve [auto with ty | eapply ty_any; auto with ty]
  end.
Ltac ty := repeat ty_step.

(** The small functions the others are made of. *)
Ltac ty_unfold :=
  unfold tkmc_fatal_context, tkmc_fatal_startup, current_tcb, load_w, store_w, list_init,
    list_empty, list_next, list_prev, list_del, list_add, list_add_tail, tcb_of_head,
    tcb_of_wait, semcb_of, flgcb_of, mbxcb_of, msg_from_link, DI, EI,
    tkmc_can_block, tkmc_in_isr, winfo_semcnt.
Ltac ty_fun := ty_unfold; ty.

(** ** The machine *)

Lemma ty_plic_out port data : Keep (modify_opt (fun k => p ← plic_out port data (plic k);
  Some (set_plic p k))).
Proof.
  apply ty_modify_opt. intros k k' Hk E. destruct (plic_out port data (plic k)); simplify_eq/=.
  by apply (typed_same k).
Qed.
#[export] Hint Resolve ty_plic_out : ty.

Lemma ty_out_w port data : Keep (out_w port data).
Proof. unfold out_w. ty. Qed.
Lemma ty_in_w port : Keep (in_w port).
Proof. unfold in_w. ty. Qed.
#[export] Hint Resolve ty_out_w ty_in_w : ty.

Lemma ty_dispatch : Keep dispatch.
Proof. unfold dispatch. ty. Qed.
#[export] Hint Resolve ty_dispatch : ty.

(** ** Loops *)

Lemma ty_for_range n i body : (forall j, i <= j < i + Z.of_nat n -> Keep (body j)) ->
  Keep (for_range n i body).
Proof.
  revert i. induction n as [|n IH]; intros i H; simpl; ty; [apply H; lia|].
  apply IH. intros j Hj. apply H. lia.
Qed.

Lemma ty_for_each hd body : (forall n, Keep (body n)) -> Keep (list_for_each_entry hd body).
Proof.
  intros H. unfold list_for_each_entry, list_next.
  assert (Hl : forall fuel pos, Keep (for_each_from fuel hd pos body)).
  { induction fuel as [|fuel IH]; intros pos; simpl; unfold list_next; ty. }
  ty.
Qed.

Lemma ty_for_each_safe hd body : (forall n, Keep (body n)) ->
  Keep (list_for_each_entry_safe hd body).
Proof.
  intros H. unfold list_for_each_entry_safe, list_next.
  assert (Hl : forall fuel pos n, Keep (for_each_safe_from fuel hd pos n body)).
  { induction fuel as [|fuel IH]; intros pos n; simpl; unfold list_next; ty. }
  ty.
Qed.

(** ** Waits and the choice of the task *)

Lemma ty_highest : Keep tkmc_get_highest_priority_task.
Proof.
  unfold tkmc_get_highest_priority_task. generalize (Z.to_nat CFN_MAX_PRI) 0.
  intros n. induction n as [|n IH]; intros i; simpl; ty_fun.
Qed.
#[export] Hint Resolve ty_highest : ty.

Lemma ty_reschedule : Keep reschedule.
Proof. unfold reschedule. ty_fun. Qed.
Lemma ty_yield : Keep tkmc_yield.
Proof. unfold tkmc_yield. ty_fun. Qed.
#[export] Hint Resolve ty_reschedule ty_yield : ty.

Lemma ty_complete_with serve t cause : is_i32 cause -> (forall s, Keep (serve s)) ->
  Keep (complete_wait_with serve t cause).
Proof. intros Hc Hs. unfold complete_wait_with, winfo_semcb. ty_fun. Qed.

Lemma ty_serve s : Keep (tkmc_sem_serve_waiters s).
Proof.
  unfold tkmc_sem_serve_waiters, sem_serve_with, serve_body, complete_wait_inner.
  apply (ty_bind (fun _ => True)); [|intros; ty]. apply ty_for_each_safe. intros n. ty_fun.
  apply ty_complete_with; [range|intros; ty].
Qed.
#[export] Hint Resolve ty_serve : ty.

Lemma ty_complete t cause : is_i32 cause -> Keep (tkmc_complete_wait t cause).
Proof. intros H. apply ty_complete_with; [done|apply ty_serve]. Qed.
#[export] Hint Extern 1 (Ty _ (tkmc_complete_wait _ _)) => apply ty_complete; range : ty.

Lemma ty_wait_forever t w : is_u32 w -> Keep (wait_forever t w).
Proof. intros H. unfold wait_forever. ty_fun. Qed.
#[export] Hint Extern 1 (Ty _ (wait_forever _ _)) => apply ty_wait_forever; range : ty.

(** ** The timer *)

Lemma ty_read_mtime : Keep read_mtime.
Proof. unfold read_mtime. generalize 2%nat. intros n. induction n; simpl; ty_fun. Qed.
Lemma ty_write_mtimecmp v : Keep (write_mtimecmp v).
Proof. unfold write_mtimecmp. ty_fun. Qed.
#[export] Hint Resolve ty_read_mtime ty_write_mtimecmp : ty.

Lemma ty_pass_elapsed cmp : 0 <= cmp < 2 ^ 64 ->
  Ty (fun r => 0 <= fst r < 2 ^ 64) (pass_elapsed_periods cmp).
Proof.
  intros Hc. unfold pass_elapsed_periods. generalize EDGE_FUEL. intros n.
  cut (forall p, Ty (fun r => 0 <= fst r < 2 ^ 64) (pass_elapsed_loop n cmp p)); [auto|].
  revert cmp Hc. induction n as [|n IH]; intros cmp Hc p; simpl; ty_fun; [apply IH, ty_u64|done].
Qed.

Lemma ty_first_deadline : Keep first_deadline.
Proof.
  unfold first_deadline.
  assert (H : forall fuel pos first, Keep (first_deadline_from fuel pos first)).
  { induction fuel as [|fuel IH]; intros pos first; simpl; ty_fun. }
  ty_fun.
Qed.
#[export] Hint Resolve ty_first_deadline : ty.

Lemma ty_expire_loop fuel periods ended : Keep (expire_loop fuel periods ended).
Proof.
  revert periods ended. induction fuel as [|fuel IH]; intros periods ended; simpl; ty_fun.
  apply ty_for_each. intros n. unfold sub_ticks. ty_fun.
Qed.
#[export] Hint Resolve ty_expire_loop : ty.

(** The use of the edges passed. *)
Lemma ty_pass_bind {B} (R : B -> Prop) cmp (f : Z * Z -> K B) : 0 <= cmp < 2 ^ 64 ->
  (forall v p, 0 <= v < 2 ^ 64 -> Ty R (f (v, p))) -> Ty R (bind (pass_elapsed_periods cmp) f).
Proof.
  intros Hc H. eapply ty_bind; [by apply ty_pass_elapsed|]. intros [v p] Hr. by apply H.
Qed.

Lemma ty_set_s_mtimecmp v : 0 <= v < 2 ^ 64 -> Keep (modify (set_s_mtimecmp v)).
Proof. intros H. apply ty_modify. intros k []. by split. Qed.

Lemma ty_start_timer : Keep tkmc_start_timer.
Proof.
  unfold tkmc_start_timer. eapply ty_bind; [apply ty_read_mtime|]. intros now _. cbv zeta.
  apply (ty_bind (fun _ => True)); [apply ty_set_s_mtimecmp, ty_u64|intros; ty].
Qed.
#[export] Hint Resolve ty_start_timer : ty.

Lemma ty_timer_handler : Keep tkmc_timer_handler.
Proof.
  unfold tkmc_timer_handler. ty_step. apply ty_pass_bind; [done|]. intros v p Hv. ty_step; [ty|].
  apply (ty_bind (fun _ => True)); [by apply ty_set_s_mtimecmp|intros; ty].
Qed.

Lemma ty_schedule_timer t d w : is_u32 w -> Keep (tkmc_schedule_timer t d w).
Proof.
  intros Hw. unfold tkmc_schedule_timer. ty_step. do 2 (ty_step; [ty_step|]).
  apply ty_pass_bind; [done|]. intros v p _. ty_fun.
Qed.
#[export] Hint Extern 1 (Ty _ (tkmc_schedule_timer _ _ _)) => apply ty_schedule_timer; range : ty.

Lemma ty_take_wupcause : Keep take_wupcause.
Proof. unfold take_wupcause. ty_fun. Qed.
#[export] Hint Resolve ty_take_wupcause : ty.

Lemma ty_dly_tsk d : Keep (tk_dly_tsk d).
Proof. unfold tk_dly_tsk. ty_fun. Qed.
Lemma ty_slp_tsk d : Keep (tk_slp_tsk d).
Proof. unfold tk_slp_tsk. ty_fun. Qed.

(** ** Tasks *)

Definition ty_ctsk (p : T_CTSK) : Prop :=
  is_u32 (ct_exinf p) /\ is_i32 (ct_itskpri p) /\ is_i32 (stksz p) /\ is_u32 (bufptr p) /\
  is_u32 (tskatr p).

(** The checks of [tk_cre_tsk] keep the stack inside the address space. *)
Lemma stack_end_range p : ty_ctsk p -> cre_tsk_error p = None ->
  is_u32 (bufptr p + stksz p - FRAME_BYTES).
Proof.
  intros (_ & _ & _ & Hb & _) E. unfold cre_tsk_error in E. repeat case_decide; try done.
  unfold is_u32, TKMC_UINTPTR_MAX, FRAME_BYTES, FRAME_WORDS in *. lia.
Qed.

Lemma ty_cre_tsk p : (forall q, p = Some q -> ty_ctsk q) -> Keep (tk_cre_tsk p).
Proof.
  intros H. unfold tk_cre_tsk. destruct p as [p|]; [|ty]. specialize (H p eq_refl).
  destruct (cre_tsk_error p) eqn:E; [ty|]. pose proof (stack_end_range p H E) as Hs.
  destruct H as (H1 & H2 & H3 & H4 & _). unfold reset_tcb, clear_winfo. ty_fun.
Qed.

Lemma ty_build_frame sp0 f x e : Keep (build_frame sp0 f x e).
Proof.
  unfold build_frame, store_w. apply (ty_bind (fun _ => True)); [|intros; ty].
  apply ty_for_range. intros j _. ty.
Qed.
#[export] Hint Resolve ty_build_frame : ty.

Lemma ty_sta_tsk t x : Keep (tk_sta_tsk t x).
Proof. unfold tk_sta_tsk, start_body, clear_winfo. ty_fun. Qed.
Lemma ty_ext_tsk : Keep tk_ext_tsk.
Proof. unfold tk_ext_tsk. ty_fun. Qed.
Lemma ty_exd_tsk : Keep tk_exd_tsk.
Proof. unfold tk_exd_tsk. ty_fun. Qed.
Lemma ty_rel_wai t : Keep (tk_rel_wai t).
Proof. unfold tk_rel_wai. ty_fun. Qed.
Lemma ty_wup_tsk t : Keep (tk_wup_tsk t).
Proof. unfold tk_wup_tsk, queue_wakeup. ty_fun. Qed.

(** ** Semaphores, event flags and mailboxes *)

Lemma ty_enqueue loop t atr h :
  (forall hd body, (forall n, Keep (body n)) -> Keep (loop hd body)) -> Keep (enqueue loop t atr h).
Proof. intros H. unfold enqueue, insert_pri_body. ty_fun; apply H; intros ?; ty_fun. Qed.

Definition ty_csem (p : T_CSEM) : Prop :=
  is_u32 (cs_exinf p) /\ is_u32 (cs_sematr p) /\ is_i32 (cs_isemcnt p) /\ is_i32 (cs_maxsem p).

Lemma ty_cre_sem p : (forall q, p = Some q -> ty_csem q) -> Keep (tk_cre_sem p).
Proof.
  intros H. unfold tk_cre_sem. destruct p as [p|]; [|ty].
  destruct (H p eq_refl) as (H1 & H2 & H3 & H4). ty_fun.
Qed.

Lemma ty_enqueue_safe t atr h : Keep (enqueue list_for_each_entry_safe t atr h).
Proof. apply ty_enqueue, ty_for_each_safe. Qed.
Lemma ty_enqueue_plain t atr h : Keep (enqueue list_for_each_entry t atr h).
Proof. apply ty_enqueue, ty_for_each. Qed.
#[export] Hint Resolve ty_enqueue_safe ty_enqueue_plain : ty.

(** What the conditions of a call say of its arguments. *)
Lemma in_range_index id max : negb (tkmc_id_in_range id max) = false -> 0 <= id - 1 < max.
Proof. intros H%negb_false_iff%id_in_range_spec. lia. Qed.

Lemma ty_wai_sem id n tmout : is_i32 n -> Keep (tk_wai_sem id n tmout).
Proof.
  intros Hn. unfold tk_wai_sem, sem_may_take, sem_enqueue.
  destruct (negb (tkmc_id_in_range id CFN_MAX_SEMID)) eqn:Eid; [ty|].
  apply in_range_index in Eid. ty_fun.
Qed.
Lemma ty_sig_sem id n : Keep (tk_sig_sem id n).
Proof. unfold tk_sig_sem. ty_fun. Qed.

Lemma ty_release_all fuel h b : Keep (release_all fuel h b).
Proof. revert b. induction fuel as [|fuel IH]; intros b; simpl; ty_fun. Qed.
#[export] Hint Resolve ty_release_all : ty.

Lemma ty_del_sem id : Keep (tk_del_sem id).
Proof. unfold tk_del_sem. ty_fun. Qed.

Definition ty_cflg (p : T_CFLG) : Prop :=
  is_u32 (cf_exinf p) /\ is_u32 (cf_flgatr p) /\ is_u32 (iflgptn p).

Lemma ty_cre_flg p : (forall q, p = Some q -> ty_cflg q) -> Keep (tk_cre_flg p).
Proof.
  intros H. unfold tk_cre_flg. destruct p as [p|]; [|ty].
  destruct (H p eq_refl) as (H1 & H2 & H3). ty_fun.
Qed.
Lemma ty_wai_flg id w m p tmout : is_u32 w -> is_u32 m -> Keep (tk_wai_flg id w m p tmout).
Proof. intros Hw Hm. unfold tk_wai_flg, flg_enqueue. ty_fun. Qed.

Lemma ty_set_flg id p : is_u32 p -> Keep (tk_set_flg id p).
Proof.
  intros Hp. unfold tk_set_flg. ty_fun. apply ty_for_each_safe. intros n.
  unfold set_flg_body. ty_fun.
Qed.
Lemma ty_clr_flg id p : Keep (tk_clr_flg id p).
Proof. unfold tk_clr_flg. ty_fun. Qed.

Definition ty_cmbx (p : T_CMBX) : Prop := is_u32 (cm_exinf p) /\ is_u32 (cm_mbxatr p).

Lemma ty_cre_mbx p : (forall q, p = Some q -> ty_cmbx q) -> Keep (tk_cre_mbx p).
Proof.
  intros H. unfold tk_cre_mbx. destruct p as [p|]; [|ty]. destruct (H p eq_refl) as (H1 & H2).
  ty_fun.
Qed.

Lemma ty_insert_msg m msg : Keep (insert_msg_pri m msg).
Proof.
  unfold insert_msg_pri, msg_goes_last, msg_pri.
  assert (H : forall fuel pos, Keep (insert_msg_scan fuel m msg pos)).
  { induction fuel as [|fuel IH]; intros pos; simpl; unfold msg_pri; ty_fun. }
  ty_fun.
Qed.
Lemma ty_insert_waiter m t : Keep (insert_waiter m t).
Proof.
  unfold insert_waiter. assert (H : forall fuel pos, Keep (insert_waiter_scan fuel m t pos)).
  { induction fuel as [|fuel IH]; intros pos; simpl; ty_fun. }
  ty_fun.
Qed.
Lemma ty_pop m : Keep (pop_waiting_receiver m).
Proof.
  unfold pop_waiting_receiver. assert (H : forall fuel, Keep (pop_waiting_loop fuel m)).
  { induction fuel as [|fuel IH]; simpl; ty_fun. }
  ty_fun.
Qed.
#[export] Hint Resolve ty_insert_msg ty_insert_waiter ty_pop : ty.

Lemma ty_make_ready t e a : is_i32 e -> is_u32 a -> Keep (make_waiter_ready t e a).
Proof. intros He Ha. unfold make_waiter_ready. ty_fun. Qed.
#[export] Hint Extern 1 (Ty _ (make_waiter_ready _ _ _)) => apply ty_make_ready; range : ty.

Lemma ty_dispatch_if : Keep dispatch_if_needed.
Proof. unfold dispatch_if_needed. ty_fun. Qed.
Lemma ty_release_receivers fuel m : Keep (release_receivers fuel m).
Proof. induction fuel as [|fuel IH]; simpl; ty_fun. Qed.
#[export] Hint Resolve ty_dispatch_if ty_release_receivers : ty.

Lemma ty_del_mbx id : Keep (tk_del_mbx id).
Proof. unfold tk_del_mbx. ty_fun. Qed.
Lemma ty_snd_mbx id a : is_u32 a -> Keep (tk_snd_mbx id a).
Proof. intros Ha. unfold tk_snd_mbx, insert_msg_fifo, msg_pri. ty_fun. Qed.
Lemma ty_rcv_mbx id p tmout : Keep (tk_rcv_mbx id p tmout).
Proof. unfold tk_rcv_mbx. ty_fun. Qed.

(** ** The ends of the waits *)

Lemma ty_slp_resume : Keep tk_slp_tsk_resume.
Proof. unfold tk_slp_tsk_resume. ty_fun. Qed.
Lemma ty_dly_resume : Keep tk_dly_tsk_resume.
Proof. unfold tk_dly_tsk_resume. ty_fun. Qed.
Lemma ty_dly_yield : Keep tk_dly_tsk_yield.
Proof. unfold tk_dly_tsk_yield. ty_fun. Qed.
Lemma ty_sem_resume : Keep tk_wai_sem_resume.
Proof. unfold tk_wai_sem_resume. ty_fun. Qed.
Lemma ty_flg_resume p : Keep (tk_wai_flg_resume p).
Proof. unfold tk_wai_flg_resume. ty_fun. Qed.
Lemma ty_mbx_resume p : Keep (tk_rcv_mbx_resume p).
Proof. unfold tk_rcv_mbx_resume. ty_fun. Qed.

(** ** Interrupts *)

Lemma ty_set_handler i h : Keep (set_handler i h).
Proof. unfold set_handler. ty_fun. Qed.
Lemma ty_is_enabled i : Keep (is_enabled i).
Proof. unfold is_enabled. ty_fun. Qed.
Lemma ty_set_enabled i b : Keep (set_enabled i b).
Proof. unfold set_enabled. ty_fun. Qed.
#[export] Hint Resolve ty_set_handler ty_is_enabled ty_set_enabled : ty.

Lemma ty_def_int i p : Keep (tk_def_int i p).
Proof. unfold tk_def_int. ty_fun. Qed.
Lemma ty_enable_int i l : Keep (EnableInt i l).
Proof. unfold EnableInt. ty_fun. Qed.
Lemma ty_disable_int i : Keep (DisableInt i).
Proof. unfold DisableInt. ty_fun. Qed.

(** ** The switch and the boot *)

Lemma ty_schedule frame : is_u32 frame -> Ty is_u32 (schedule frame).
Proof. intros H. unfold schedule. ty_fun. assumption. Qed.

Lemma ty_kernel_init : Keep kernel_init.
Proof.
  unfold kernel_init, tkmc_init_tcb, tkmc_init_flgcb, tkmc_init_semcb, tkmc_init_timer,
    tkmc_init_mbxcb, tkmc_init_intctl, default_tcb, reset_tcb, clear_winfo.
  ty_fun; apply ty_for_range; cbn; intros ? ?; ty_fun.
Qed.

Lemma ty_start_one p x e1 e2 : ty_ctsk p -> Keep (start_one p x e1 e2).
Proof.
  intros Hp. unfold start_one. ty_fun; [apply ty_cre_tsk; by intros q [= <-]|..]; apply ty_sta_tsk.
Qed.

Lemma ty_start ini idl a0 : is_u32 ini -> is_u32 idl -> Keep (tkmc_start ini idl a0).
Proof.
  intros Hi Hl. unfold tkmc_start.
  assert (H1 : ty_ctsk (ini_ctsk ini)) by (unfold ty_ctsk; range).
  assert (H2 : ty_ctsk (idl_ctsk idl)) by (unfold ty_ctsk; range).
  apply (ty_bind (fun _ => True)); [apply ty_kernel_init|intros _ _].
  apply (ty_bind (fun _ => True)); [by apply ty_start_one|intros _ _].
  apply (ty_bind (fun _ => True)); [by apply ty_start_one|intros _ _]. ty_fun.
Qed.

Lemma ty_bss msgs clk0 mem0 csrs0 : typed (bss_state msgs clk0 mem0 csrs0).
Proof.
  assert (H : forall A (P : A -> Prop) n (a : A), P a -> forall i b, table n a !! i = Some b -> P b).
  { intros A P n a Ha i b Hb. unfold table in Hb. apply elem_of_list_to_map_2 in Hb.
    apply list_elem_of_fmap in Hb as (j & [= _ ->] & _). exact Ha. }
  split; cbn [tcbs semcbs flgcbs mbxcbs s_mtimecmp bss_state];
    try (apply H; split; cbn; try range; by vm_compute). range.
Qed.
