(* ===== verification/Globals.v ===== *)
(** * What the calls leave alone: the running task, the depth of the traps, the
      table of handlers, the clock and the registers of the PLIC

    [Keeps m]: a run of [m] that returns leaves these as they are. The class is
    closed under the constructs of the monad, so the instance of a function is
    found from its text; only [schedule] and [tkmc_start] write [current], only
    the entries of the traps write [tkmc_isr_depth], only [tk_def_int] and
    [tkmc_init_intctl] the table, and only intctl.c the registers of the PLIC. *)

From S2P Require Import Prelude DList Tkernel Kernel Inv Moves Rules Wait Sched Timer Block.
From S2P Require Import TimerHandler Task Semaphore EventFlag Mailbox IntCtl.

Open Scope Z_scope.

Record same_globals (k k' : kernel) : Prop := {
  sg_current : current k' = current k;
  sg_depth : isr_depth k' = isr_depth k;
  sg_handlers : s_handlers k' = s_handlers k;
  sg_clk : clk k' = clk k;
  sg_csrs : csrs k' = csrs k;
  sg_plic : plic k' = plic k;
}.

#[export] Instance same_globals_preorder : PreOrder same_globals.
Proof.
  split; [by intros k|]. intros k1 k2 k3 [A1 A2 A3 A4 A5 A6] [B1 B2 B3 B4 B5 B6]. split; congruence.
Qed.

Class Keeps {A} (m : K A) : Prop := keeps_run k a k' : m k = Ret a k' -> same_globals k k'.
#[export] Hint Mode Keeps - ! : typeclass_instances.

(** ** The constructs of the monad *)

#[export] Instance keeps_ret {A} (a : A) : Keeps (ret a).
Proof. intros k b k' [= _ <-]. done. Qed.
#[export] Instance keeps_bind {A B} (m : K A) (f : A -> K B) :
  Keeps m -> (forall a, Keeps (f a)) -> Keeps (bind m f).
Proof.
  intros Hm Hf k b k' E. unfold bind in E. destruct (m k) as [a k1| | |] eqn:Em; try done.
  etrans; [by eapply Hm|by eapply Hf].
Qed.
#[export] Instance keeps_gets {A} (f : kernel -> A) : Keeps (gets f).
Proof. intros k b k' [= _ <-]. done. Qed.
#[export] Instance keeps_gets_opt {A} (f : kernel -> option A) : Keeps (gets_opt f).
Proof. intros k b k' E. unfold gets_opt in E. by destruct (f k); simplify_eq. Qed.
#[export] Instance keeps_wild {A} : Keeps (wild (A := A)).
Proof. done. Qed.
#[export] Instance keeps_hang {A} : Keeps (hang (A := A)).
Proof. done. Qed.
#[export] Instance keeps_halt {A} : Keeps (halt (A := A)).
Proof. done. Qed.

Lemma keeps_modify f : (forall k, same_globals k (f k)) -> Keeps (modify f).
Proof. intros H k b k' [= _ <-]. apply H. Qed.
Lemma keeps_modify_opt f :
  (forall k k', f k = Some k' -> same_globals k k') -> Keeps (modify_opt f).
Proof.
  intros H k b k' E. unfold modify_opt in E. destruct (f k) eqn:Ef; simplify_eq. by apply H.
Qed.

(** [keeps]: one case of a function's text after the other. *)
#[export] Hint Extern 2 (Keeps (modify _)) =>
  apply keeps_modify; intros ?; split; reflexivity : typeclass_instances.
#[export] Hint Extern 2 (Keeps (match ?x with _ => _ end)) => destruct x : typeclass_instances.
#[export] Hint Extern 1 (Keeps (let _ := _ in _)) => cbv zeta : typeclass_instances.

Ltac keeps := try (intros *); cbv zeta; typeclasses eauto.

(** An update of one field that is not a global. *)
Lemma keeps_upd {A} (g : kernel -> option A) (s : A -> kernel -> kernel) :
  (forall a k, same_globals k (s a k)) ->
  Keeps (modify_opt (fun k => a ← g k; Some (s a k))).
Proof.
  intros H. apply keeps_modify_opt. intros k k' E. destruct (g k) as [a|]; simpl in E;
    simplify_eq. apply H.
Qed.
Ltac keeps_upd := apply keeps_upd; intros ? ?; split; reflexivity.

#[export] Instance keeps_tcb_upd t f : Keeps (tcb_upd t f).
Proof. keeps_upd. Qed.
#[export] Instance keeps_sem_upd t f : Keeps (sem_upd t f).
Proof. keeps_upd. Qed.
#[export] Instance keeps_flg_upd t f : Keeps (flg_upd t f).
Proof. keeps_upd. Qed.
#[export] Instance keeps_mbx_upd t f : Keeps (mbx_upd t f).
Proof. keeps_upd. Qed.
#[export] Instance keeps_on_links f : Keeps (on_links f).
Proof. keeps_upd. Qed.

(** The ports of the CLINT. *)
Ltac clint_port := unfold out_w, in_w; repeat first
  [ rewrite decide_True by reflexivity | rewrite decide_False by (ports; lia) ]; keeps.

#[export] Instance keeps_out_msip data :
  Keeps (out_w (CLINT_BASE_ADDRESS + CLINT_MSIP_OFFSET) data).
Proof. clint_port. Qed.
#[export] Instance keeps_out_cmp data : Keeps (out_w CLINT_MTIMECMP_ADDRESS data).
Proof. clint_port. Qed.
#[export] Instance keeps_out_cmp_high data : Keeps (out_w (CLINT_MTIMECMP_ADDRESS + 4) data).
Proof. clint_port. Qed.
#[export] Instance keeps_in_time : Keeps (in_w CLINT_MTIME_ADDRESS).
Proof. clint_port. Qed.
#[export] Instance keeps_in_time_high : Keeps (in_w (CLINT_MTIME_ADDRESS + 4)).
Proof. clint_port. Qed.

(** ** Loops *)

#[export] Instance keeps_for_range count i body : (forall j, Keeps (body j)) ->
  Keeps (for_range count i body).
Proof. intros H. revert i. induction count as [|count IH]; intros i; simpl; keeps. Qed.

#[export] Instance keeps_for_each hd body : (forall n, Keeps (body n)) ->
  Keeps (list_for_each_entry hd body).
Proof.
  intros H. unfold list_for_each_entry.
  assert (Hl : forall fuel pos, Keeps (for_each_from fuel hd pos body)).
  { induction fuel as [|fuel IH]; intros pos; simpl; unfold list_next; keeps. }
  unfold list_next. keeps.
Qed.

#[export] Instance keeps_for_each_safe hd body : (forall n, Keeps (body n)) ->
  Keeps (list_for_each_entry_safe hd body).
Proof.
  intros H. unfold list_for_each_entry_safe.
  assert (Hl : forall fuel pos n, Keeps (for_each_safe_from fuel hd pos n body)).
  { induction fuel as [|fuel IH]; intros pos n; simpl; unfold list_next; keeps. }
  unfold list_next. keeps.
Qed.

(** ** The functions, from the bottom up *)

(** The search looks at the text that is written, and unfolds nothing. *)
#[local] Hint Constants Opaque : typeclass_instances.

#[export] Instance keeps_highest entries i : Keeps (highest_from entries i).
Proof.
  revert i. induction entries as [|entries IH]; intros i; simpl; [keeps|].
  unfold list_empty, list_next, tcb_of_head. keeps.
Qed.
#[export] Instance keeps_get_highest : Keeps tkmc_get_highest_priority_task.
Proof. apply keeps_highest. Qed.

(** [keeps_fun]: the instance of a function, from its text. *)
Ltac keeps_fun :=
  unfold tkmc_fatal_context, int_op, tcb_get, sem_get, flg_get, mbx_get, current_tcb, load_w, store_w, list_init,
    list_empty, list_next, list_prev, list_del, list_add, list_add_tail, tcb_of_head,
    tcb_of_wait, semcb_of, flgcb_of, mbxcb_of, msg_from_link, dispatch, DI, EI,
    tkmc_can_block, tkmc_in_isr, winfo_semcnt, winfo_semcb; keeps.

#[export] Instance keeps_complete_wait_with serve t cause : (forall s, Keeps (serve s)) ->
  Keeps (complete_wait_with serve t cause).
Proof. intros H. unfold complete_wait_with. keeps_fun. Qed.
#[export] Instance keeps_serve s : Keeps (tkmc_sem_serve_waiters s).
Proof.
  unfold tkmc_sem_serve_waiters, sem_serve_with, serve_body, complete_wait_inner. keeps_fun.
Qed.
#[export] Instance keeps_complete_wait t cause : Keeps (tkmc_complete_wait t cause).
Proof. unfold tkmc_complete_wait. keeps_fun. Qed.
#[export] Instance keeps_reschedule : Keeps reschedule.
Proof. unfold reschedule. keeps_fun. Qed.
#[export] Instance keeps_yield : Keeps tkmc_yield.
Proof. unfold tkmc_yield. keeps_fun. Qed.
#[export] Instance keeps_wait_forever t w : Keeps (wait_forever t w).
Proof. unfold wait_forever. keeps_fun. Qed.

#[export] Instance keeps_read_mtime : Keeps read_mtime.
Proof. unfold read_mtime. generalize 2%nat. intros n. induction n; simpl; keeps_fun. Qed.
#[export] Instance keeps_write_mtimecmp v : Keeps (write_mtimecmp v).
Proof. unfold write_mtimecmp. keeps_fun. Qed.
#[export] Instance keeps_pass_elapsed c : Keeps (pass_elapsed_periods c).
Proof.
  unfold pass_elapsed_periods. generalize EDGE_FUEL 0. intros n. revert c.
  induction n as [|n IH]; intros c p; simpl; keeps_fun.
Qed.
#[export] Instance keeps_first_deadline : Keeps first_deadline.
Proof.
  unfold first_deadline.
  assert (H : forall fuel pos first, Keeps (first_deadline_from fuel pos first)).
  { induction fuel as [|fuel IH]; intros pos first; simpl; keeps_fun. }
  keeps_fun.
Qed.
#[export] Instance keeps_expire_loop fuel periods ended : Keeps (expire_loop fuel periods ended).
Proof.
  revert periods ended. induction fuel as [|fuel IH]; intros periods ended; simpl;
    unfold sub_ticks; keeps_fun.
Qed.
#[export] Instance keeps_timer_handler : Keeps tkmc_timer_handler.
Proof. unfold tkmc_timer_handler. keeps_fun. Qed.
#[export] Instance keeps_schedule_timer t d w : Keeps (tkmc_schedule_timer t d w).
Proof. unfold tkmc_schedule_timer. keeps_fun. Qed.
#[export] Instance keeps_take_wupcause : Keeps take_wupcause.
Proof. unfold take_wupcause. keeps_fun. Qed.

(** *** Tasks *)

#[export] Instance keeps_dly_tsk d : Keeps (tk_dly_tsk d).
Proof. unfold tk_dly_tsk. keeps_fun. Qed.
#[export] Instance keeps_slp_tsk d : Keeps (tk_slp_tsk d).
Proof. unfold tk_slp_tsk. keeps_fun. Qed.
#[export] Instance keeps_cre_tsk p : Keeps (tk_cre_tsk p).
Proof. unfold tk_cre_tsk, reset_tcb, clear_winfo. keeps_fun. Qed.
#[export] Instance keeps_sta_tsk t x : Keeps (tk_sta_tsk t x).
Proof. unfold tk_sta_tsk, start_body, build_frame, clear_winfo. keeps_fun. Qed.
#[export] Instance keeps_ext_tsk : Keeps tk_ext_tsk.
Proof. unfold tk_ext_tsk. keeps_fun. Qed.
#[export] Instance keeps_exd_tsk : Keeps tk_exd_tsk.
Proof. unfold tk_exd_tsk. keeps_fun. Qed.
#[export] Instance keeps_rel_wai t : Keeps (tk_rel_wai t).
Proof. unfold tk_rel_wai. keeps_fun. Qed.
#[export] Instance keeps_wup_tsk t : Keeps (tk_wup_tsk t).
Proof. unfold tk_wup_tsk, queue_wakeup. keeps_fun. Qed.

(** *** Semaphores, event flags and mailboxes *)

#[export] Instance keeps_enqueue loop t atr h :
  (forall hd body, (forall n, Keeps (body n)) -> Keeps (loop hd body)) ->
  Keeps (enqueue loop t atr h).
Proof. intros H. unfold enqueue, insert_pri_body. keeps_fun. Qed.
#[export] Instance keeps_cre_sem p : Keeps (tk_cre_sem p).
Proof. unfold tk_cre_sem. keeps_fun. Qed.
#[export] Instance keeps_wai_sem s n tmo : Keeps (tk_wai_sem s n tmo).
Proof. unfold tk_wai_sem, sem_may_take, sem_enqueue. keeps_fun. Qed.
#[export] Instance keeps_sig_sem s n : Keeps (tk_sig_sem s n).
Proof. unfold tk_sig_sem. keeps_fun. Qed.
#[export] Instance keeps_del_sem s : Keeps (tk_del_sem s).
Proof.
  unfold tk_del_sem. assert (H : forall fuel b, Keeps (release_all fuel (LSem (s - 1)) b)).
  { induction fuel as [|fuel IH]; intros b; simpl; keeps_fun. }
  keeps_fun.
Qed.
#[export] Instance keeps_cre_flg p : Keeps (tk_cre_flg p).
Proof. unfold tk_cre_flg. keeps_fun. Qed.
#[export] Instance keeps_wai_flg f w m p tmo : Keeps (tk_wai_flg f w m p tmo).
Proof. unfold tk_wai_flg, flg_enqueue. keeps_fun. Qed.
#[export] Instance keeps_set_flg f p : Keeps (tk_set_flg f p).
Proof. unfold tk_set_flg, set_flg_body. keeps_fun. Qed.
#[export] Instance keeps_clr_flg f p : Keeps (tk_clr_flg f p).
Proof. unfold tk_clr_flg. keeps_fun. Qed.

#[export] Instance keeps_insert_msg m msg : Keeps (insert_msg_pri m msg).
Proof.
  unfold insert_msg_pri, msg_goes_last, msg_pri.
  assert (H : forall fuel pos, Keeps (insert_msg_scan fuel m msg pos)).
  { induction fuel as [|fuel IH]; intros pos; simpl; unfold msg_pri; keeps_fun. }
  keeps_fun.
Qed.
#[export] Instance keeps_insert_waiter m t : Keeps (insert_waiter m t).
Proof.
  unfold insert_waiter. assert (H : forall fuel pos, Keeps (insert_waiter_scan fuel m t pos)).
  { induction fuel as [|fuel IH]; intros pos; simpl; keeps_fun. }
  keeps_fun.
Qed.
#[export] Instance keeps_pop m : Keeps (pop_waiting_receiver m).
Proof.
  unfold pop_waiting_receiver. assert (H : forall fuel, Keeps (pop_waiting_loop fuel m)).
  { induction fuel as [|fuel IH]; simpl; keeps_fun. }
  keeps_fun.
Qed.
#[export] Instance keeps_make_ready t e a : Keeps (make_waiter_ready t e a).
Proof. unfold make_waiter_ready. keeps_fun. Qed.
#[export] Instance keeps_dispatch_if : Keeps dispatch_if_needed.
Proof. unfold dispatch_if_needed. keeps_fun. Qed.
#[export] Instance keeps_cre_mbx p : Keeps (tk_cre_mbx p).
Proof. unfold tk_cre_mbx. keeps_fun. Qed.
#[export] Instance keeps_del_mbx m : Keeps (tk_del_mbx m).
Proof.
  unfold tk_del_mbx. assert (H : forall fuel, Keeps (release_receivers fuel (m - 1))).
  { induction fuel as [|fuel IH]; simpl; keeps_fun. }
  keeps_fun.
Qed.
#[export] Instance keeps_snd_mbx m a : Keeps (tk_snd_mbx m a).
Proof. unfold tk_snd_mbx, insert_msg_fifo, msg_pri. keeps_fun. Qed.
#[export] Instance keeps_rcv_mbx m a tmo : Keeps (tk_rcv_mbx m a tmo).
Proof. unfold tk_rcv_mbx. keeps_fun. Qed.

(** *** The ends of the waits *)

#[export] Instance keeps_slp_resume : Keeps tk_slp_tsk_resume.
Proof. unfold tk_slp_tsk_resume. keeps_fun. Qed.
#[export] Instance keeps_dly_resume : Keeps tk_dly_tsk_resume.
Proof. unfold tk_dly_tsk_resume. keeps_fun. Qed.
#[export] Instance keeps_dly_yield : Keeps tk_dly_tsk_yield.
Proof. unfold tk_dly_tsk_yield. keeps_fun. Qed.
#[export] Instance keeps_sem_resume : Keeps tk_wai_sem_resume.
Proof. unfold tk_wai_sem_resume. keeps_fun. Qed.
#[export] Instance keeps_flg_resume p : Keeps (tk_wai_flg_resume p).
Proof. unfold tk_wai_flg_resume. keeps_fun. Qed.
#[export] Instance keeps_mbx_resume p : Keeps (tk_rcv_mbx_resume p).
Proof. unfold tk_rcv_mbx_resume. keeps_fun. Qed.
