(* ===== verification/Calls.v ===== *)
(** * Every call, as one operation

    [api] lists the calls of [src/include/tk/tkernel.h] and [invoke] runs one.
    [call_post] is what the rest of the system may rely on, whichever call it
    was: the state stays well formed, no task but the caller loses its readiness
    or the kind of its wait, the tasks move in their lives as [moves] says, and a
    call suspends only a task. The theorems of the
    components discharge it call by call ([wp_invoke]). *)

From S2P Require Import Prelude DList Tkernel Kernel Inv Moves Rules Wait Sched Timer Block.
From S2P Require Import TimerHandler Task Semaphore EventFlag Mailbox IntCtl Types Globals.

Open Scope Z_scope.
Implicit Types (k : kernel) (Q : queues) (t : Z) (c : TCB) (T : gmap Z TCB).

(** ** The calls *)

Inductive api : Type :=
  | A_cre_tsk (p : option T_CTSK)
  | A_sta_tsk (id stacd : Z)
  | A_ext_tsk
  | A_exd_tsk
  | A_rel_wai (id : Z)
  | A_wup_tsk (id : Z)
  | A_slp_tsk (tmout : Z)
  | A_dly_tsk (dlytm : Z)
  | A_cre_sem (p : option T_CSEM)
  | A_del_sem (id : Z)
  | A_sig_sem (id cnt : Z)
  | A_wai_sem (id cnt tmout : Z)
  | A_cre_flg (p : option T_CFLG)
  | A_set_flg (id ptn : Z)
  | A_clr_flg (id ptn : Z)
  | A_wai_flg (id waiptn wfmode p_flgptn tmout : Z)
  | A_cre_mbx (p : option T_CMBX)
  | A_del_mbx (id : Z)
  | A_snd_mbx (id msg : Z)
  | A_rcv_mbx (id ppk_msg tmout : Z)
  | A_def_int (intno : Z) (p : option T_DINT)
  | A_enable_int (intno level : Z)
  | A_disable_int (intno : Z).

Definition returns (m : K Z) : K call := r <- m ;; ret (Return r).

Definition invoke (a : api) : K call :=
  match a with
  | A_cre_tsk p => returns (tk_cre_tsk p)
  | A_sta_tsk id x => returns (tk_sta_tsk id x)
  | A_ext_tsk => tk_ext_tsk
  | A_exd_tsk => tk_exd_tsk
  | A_rel_wai id => returns (tk_rel_wai id)
  | A_wup_tsk id => returns (tk_wup_tsk id)
  | A_slp_tsk tmout => tk_slp_tsk tmout
  | A_dly_tsk d => tk_dly_tsk d
  | A_cre_sem p => returns (tk_cre_sem p)
  | A_del_sem id => returns (tk_del_sem id)
  | A_sig_sem id n => returns (tk_sig_sem id n)
  | A_wai_sem id n tmout => tk_wai_sem id n tmout
  | A_cre_flg p => returns (tk_cre_flg p)
  | A_set_flg id p => returns (tk_set_flg id p)
  | A_clr_flg id p => returns (tk_clr_flg id p)
  | A_wai_flg id w m p tmout => tk_wai_flg id w m p tmout
  | A_cre_mbx p => returns (tk_cre_mbx p)
  | A_del_mbx id => returns (tk_del_mbx id)
  | A_snd_mbx id msg => returns (tk_snd_mbx id msg)
  | A_rcv_mbx id p tmout => tk_rcv_mbx id p tmout
  | A_def_int i p => returns (tk_def_int i p)
  | A_enable_int i l => EnableInt i l ;;; ret (Return E_OK)
  | A_disable_int i => DisableInt i ;;; ret (Return E_OK)
  end.

(** The arguments have the types of the parameters. *)
Definition arg_types (a : api) : Prop :=
  match a with
  | A_cre_tsk p => forall q, p = Some q -> ty_ctsk q
  | A_sta_tsk id stacd => is_i32 id /\ is_i32 stacd
  | A_ext_tsk | A_exd_tsk => True
  | A_rel_wai id | A_wup_tsk id | A_del_sem id | A_del_mbx id => is_i32 id
  | A_slp_tsk tmout => is_i32 tmout
  | A_dly_tsk dlytm => is_u32 dlytm
  | A_cre_sem p => forall q, p = Some q -> ty_csem q
  | A_sig_sem id cnt => is_i32 id /\ is_i32 cnt
  | A_wai_sem id cnt tmout => is_i32 id /\ is_i32 cnt /\ is_i32 tmout
  | A_cre_flg p => forall q, p = Some q -> ty_cflg q
  | A_set_flg id ptn | A_clr_flg id ptn => is_i32 id /\ is_u32 ptn
  | A_wai_flg id waiptn wfmode p_flgptn tmout =>
      is_i32 id /\ is_u32 waiptn /\ is_u32 wfmode /\ is_u32 p_flgptn /\ is_i32 tmout
  | A_cre_mbx p => forall q, p = Some q -> ty_cmbx q
  | A_snd_mbx id msg => is_i32 id /\ is_u32 msg
  | A_rcv_mbx id ppk_msg tmout => is_i32 id /\ is_u32 ppk_msg /\ is_i32 tmout
  | A_def_int intno p => is_u32 intno /\ forall q, p = Some q -> is_u32 (intatr q)
  | A_enable_int intno level => is_u32 intno /\ is_i32 level
  | A_disable_int intno => is_u32 intno
  end.

(** What the manual asks of the caller: arguments of their types; for a call that
    gets as far as a message, one that is in no queue; and, where the clock is read,
    a timer whose interrupts were not held off for long. *)
Definition owed (a : api) (k : kernel) : Prop :=
  arg_types a /\
  match a with
  | A_slp_tsk _ | A_dly_tsk _ | A_wai_sem _ _ _ | A_wai_flg _ _ _ _ _ | A_rcv_mbx _ _ _ =>
      timer_in_reach k
  | A_snd_mbx id msg => exists Q, wf k Q /\ may_send k Q id msg
  | _ => True
  end.

(** The calls that never return, which stop the system unless a task makes them. *)
Definition exits (a : api) : bool :=
  match a with A_ext_tsk | A_exd_tsk => true | _ => false end.

Definition admissible (a : api) (k : kernel) : Prop :=
  owed a k /\ (exits a = true -> may_block k = true).

Lemma owed_admissible a k : owed a k -> exits a = false -> admissible a k.
Proof. intros H E. split; [exact H|]. by rewrite E. Qed.

(** ** What a task keeps while others act *)

Definition alive (c : TCB) : Prop := tskstat c = TTS_WAI \/ ready_stat c.

Inductive wait_kind : Type := NoWait | SemWait | FlgWait | MbxWait.
Definition wkind (w : WaitInfo) : wait_kind :=
  match w with
  | WInfoZero => NoWait
  | WSemaphore _ _ => SemWait
  | WEventFlag _ _ _ => FlgWait
  | WMailbox _ => MbxWait
  end.

Record task_kept (c c' : TCB) : Prop := {
  kept_alive : alive c';
  kept_kind : wkind (winfo c') = wkind (winfo c);
  kept_ready : ready_stat c -> ready_stat c';
  kept_pri : itskpri c' = itskpri c;
}.

(** Every task that is alive keeps this, but for [u]. *)
Definition tasks_kept (u : option Z) (T T' : gmap Z TCB) : Prop :=
  forall t c, T !! t = Some c -> Some t <> u -> alive c ->
    exists c', T' !! t = Some c' /\ task_kept c c'.

Lemma task_kept_refl c : alive c -> task_kept c c.
Proof. by split. Qed.
Lemma task_kept_trans c1 c2 c3 : task_kept c1 c2 -> task_kept c2 c3 -> task_kept c1 c3.
Proof. intros [] []. split; [done|congruence|auto|congruence]. Qed.

Lemma tasks_kept_refl u T : tasks_kept u T T.
Proof. intros t c Hc _ Ha. exists c. split; [done|by apply task_kept_refl]. Qed.

Lemma tasks_kept_trans u T1 T2 T3 : tasks_kept u T1 T2 -> tasks_kept u T2 T3 -> tasks_kept u T1 T3.
Proof.
  intros H1 H2 t c Hc Hu Ha. destruct (H1 t c Hc Hu Ha) as (c2 & Hc2 & K2).
  destruct (H2 t c2 Hc2 Hu (kept_alive _ _ K2)) as (c3 & Hc3 & K3).
  exists c3. split; [done|by eapply task_kept_trans].
Qed.

Lemma tasks_kept_weaken u T T' : tasks_kept None T T' -> tasks_kept u T T'.
Proof. intros H t c Hc _. by apply H. Qed.

Lemma tasks_kept_insert u T t c' :
  (forall c, T !! t = Some c -> Some t <> u -> alive c -> task_kept c c') ->
  tasks_kept u T (<[t := c']> T).
Proof.
  intros H v c Hc Hu Ha. destruct (decide (v = t)) as [->|Hne].
  - exists c'. split; [apply lookup_insert_eq|by apply H].
  - exists c. split; [by rewrite lookup_insert_ne|by apply task_kept_refl].
Qed.

(** Updates of one control block that keep what matters. *)
Lemma readied_kept cause c : task_kept c (readied cause c).
Proof. split; [by right; left|done|by left|done]. Qed.

Lemma readied_give_kept cause c wi : wkind (winfo c) = wkind wi ->
  task_kept c (readied cause (set_winfo wi c)).
Proof. intros E. split; [by right; left|done|by left|done]. Qed.

Lemma touched_kept u T t c c' : T !! t = Some c -> tskstat c' = tskstat c ->
  wkind (winfo c') = wkind (winfo c) -> itskpri c' = itskpri c ->
  tasks_kept u T (<[t := c']> T).
Proof.
  intros Hc Es Ew Ep. apply tasks_kept_insert. intros c0 Hc0 _ Ha. simplify_eq.
  split; [unfold alive, ready_stat in *; by rewrite Es|done|unfold ready_stat; by rewrite Es|done].
Qed.

Lemma woken_kept u cause ts T Q : tasks_kept u T (fst (a_wakes cause ts (T, Q))).
Proof.
  revert T Q. induction ts as [|t ts IH]; intros T Q; simpl; [apply tasks_kept_refl|].
  unfold a_wakes in *. simpl. unfold a_wake at 2. cbn [fst snd]. destruct (T !! t) as [c|] eqn:Hc; [|apply IH].
  eapply tasks_kept_trans; [|apply IH]. apply tasks_kept_insert. intros c0 Hc0 _ _.
  simplify_eq. apply readied_kept.
Qed.

(** What is given fits the wait of the task it is given to. *)
Definition gives_fit (T : gmap Z TCB) (gs : list (Z * WaitInfo)) : Prop :=
  Forall (fun g => exists c, T !! fst g = Some c /\ alive c /\
    wkind (winfo c) = wkind (snd g)) gs.

Lemma gives_kept u cause gs T Q : gives_fit T gs ->
  tasks_kept u T (fst (a_gives cause gs (T, Q))).
Proof.
  revert T Q. induction gs as [|[t wi] gs IH]; intros T Q Hg; simpl; [apply tasks_kept_refl|].
  apply Forall_cons in Hg as [(c & Hc & Ha & Ek) Hg]. simpl in Hc, Ek.
  rewrite (a_give_eq _ _ _ _ _ c) by done.
  assert (Hk : tasks_kept None T (<[t := readied cause (set_winfo wi c)]> T)).
  { apply tasks_kept_insert. intros c0 Hc0 _ _. simplify_eq. by apply readied_give_kept. }
  eapply tasks_kept_trans; [by apply tasks_kept_weaken|]. apply IH.
  eapply Forall_impl; [exact Hg|]. intros [v wv] (cv & Hcv & Hav & Ev). simpl in *.
  destruct (Hk v cv Hcv ltac:(done) Hav) as (c' & Hc' & [K1 K2 _ _]). exists c'.
  split; [done|]. split; [done|]. congruence.
Qed.

(** ** The life of a task

    The specification of the states of a task: [phase] reads the one a control
    block is in, and [moves a k Q t] says where the call [a], made in the state [k]
    with the lists [Q], may take the task [t]. *)

Inductive phase : Type := Absent | Dormant | Ready | Waiting.

#[export] Instance phase_eq_dec : EqDecision phase.
Proof. solve_decision. Defined.

Definition phase_of (c : TCB) : phase :=
  if decide (tskstat c = TTS_NOEXS) then Absent
  else if decide (tskstat c = TTS_DMT) then Dormant
  else if decide (tskstat c = TTS_WAI) then Waiting
  else Ready.

(** The calls that may put their caller to wait. *)
Definition blocks (a : api) : bool :=
  match a with
  | A_slp_tsk _ | A_dly_tsk _ | A_wai_sem _ _ _ | A_wai_flg _ _ _ _ _ | A_rcv_mbx _ _ _ => true
  | _ => false
  end.

(** The two tasks wait for the same semaphore. *)
Definition same_sem Q (u t : Z) : Prop :=
  exists s, inq Q (LSem s) (LWait u) /\ inq Q (LSem s) (LWait t).

(** The calls that may end the wait of [t]: a wake-up the sleep of its task; a
    release the wait of its task, and those of waiters for the same semaphore, which
    get the units that task leaves; the other calls the waits in the queue of their
    object, a sent message the first of them. *)
Definition releases (a : api) k Q (t : Z) : Prop :=
  match a with
  | A_wup_tsk id => t = id - 1 /\ (tskwait <$> tcbs k !! t) = Some TTW_SLP
  | A_rel_wai id => t = id - 1 \/ same_sem Q (id - 1) t
  | A_sig_sem id _ | A_del_sem id => inq Q (LSem (id - 1)) (LWait t)
  | A_set_flg id _ => inq Q (LFlg (id - 1)) (LWait t)
  | A_del_mbx id => inq Q (LMbx (id - 1)) (LWait t)
  | A_snd_mbx id _ => exists rest, Q !! LMbx (id - 1) = Some (LWait t :: rest)
  | _ => False
  end.

Inductive moves (a : api) k Q (t : Z) : phase -> phase -> Prop :=
  | m_stay p : moves a k Q t p p
  | m_create pk : a = A_cre_tsk pk -> moves a k Q t Absent Dormant
  | m_start x : a = A_sta_tsk (t + 1) x -> moves a k Q t Dormant Ready
  | m_exit : a = A_ext_tsk -> current k = Some t -> moves a k Q t Ready Dormant
  | m_exit_delete : a = A_exd_tsk -> current k = Some t -> moves a k Q t Ready Absent
  | m_wait : blocks a = true -> current k = Some t -> moves a k Q t Ready Waiting
  | m_release : releases a k Q t -> moves a k Q t Waiting Ready.

(** What may happen to a task without its doing: its wait may end, if [P]. *)
Definition woken (P : Prop) (p p' : phase) : Prop := p' = p \/ P /\ p = Waiting /\ p' = Ready.

(** The frame a task goes on from stays where it is. *)
Definition has_frame (c : TCB) : Prop := phase_of c = Waiting \/ phase_of c = Ready.
Definition frame_kept (c c' : TCB) : Prop := has_frame c -> has_frame c' -> sp c' = sp c.

Lemma frame_same c c' : sp c' = sp c -> frame_kept c c'.
Proof. by intros E _ _. Qed.

Lemma frame_gone c c' : phase_of c = Absent \/ phase_of c = Dormant \/ phase_of c' = Absent \/
  phase_of c' = Dormant -> frame_kept c c'.
Proof. intros H [?|?] [?|?]; naive_solver congruence. Qed.

(** Every task moves as [m] allows. *)
Definition tasks_move (m : Z -> TCB -> TCB -> Prop) (T T' : gmap Z TCB) : Prop :=
  forall t c, T !! t = Some c -> exists c', T' !! t = Some c' /\ m t c c'.

(** What a call may do, what happens to the tasks of [P] without their doing, and
    what leaves the phase of a task alone, with its frame or not. *)
Definition by_call (a : api) k Q (t : Z) (c c' : TCB) : Prop :=
  moves a k Q t (phase_of c) (phase_of c') /\ frame_kept c c'.
Definition by_waking (P : Z -> Prop) (t : Z) (c c' : TCB) : Prop :=
  woken (P t) (phase_of c) (phase_of c') /\ frame_kept c c'.
Definition by_running (_ : Z) (c c' : TCB) : Prop :=
  phase_of c' = phase_of c /\ frame_kept c c'.
Definition by_switching (_ : Z) (c c' : TCB) : Prop := phase_of c' = phase_of c.

Definition only_woken (P : Z -> Prop) : gmap Z TCB -> gmap Z TCB -> Prop :=
  tasks_move (by_waking P).
Definition tasks_still : gmap Z TCB -> gmap Z TCB -> Prop := tasks_move by_running.
Definition tasks_stay : gmap Z TCB -> gmap Z TCB -> Prop := tasks_move by_switching.

Lemma phase_alive c : alive c -> has_frame c.
Proof. unfold has_frame, phase_of, alive. intros [H|[H|H]]; rewrite H; by auto. Qed.

Lemma phase_ready c : ready_stat c -> phase_of c = Ready.
Proof. unfold phase_of. by intros [H|H]; rewrite H. Qed.

Lemma phase_same c c' : tskstat c' = tskstat c -> phase_of c' = phase_of c.
Proof. unfold phase_of. by intros ->. Qed.

Section moves.
Context (m : Z -> TCB -> TCB -> Prop).
Hypothesis m_refl : forall t c, m t c c.

Lemma moves_refl T : tasks_move m T T.
Proof using m_refl. intros t c Hc. exists c. by split. Qed.

Lemma moves_insert T t c' : (forall c, T !! t = Some c -> m t c c') -> tasks_move m T (<[t := c']> T).
Proof using m_refl.
  intros H v c Hc. destruct (decide (v = t)) as [->|Hne].
  - exists c'. split; [apply lookup_insert_eq|by apply H].
  - exists c. split; [by rewrite lookup_insert_ne|apply m_refl].
Qed.
End moves.

Lemma moves_weaken (m m' : Z -> TCB -> TCB -> Prop) T T' :
  (forall t c c', m t c c' -> m' t c c') -> tasks_move m T T' -> tasks_move m' T T'.
Proof. intros H Hm t c Hc. destruct (Hm t c Hc) as (c' & ? & ?). exists c'. auto. Qed.

Lemma by_call_refl a k Q t c : by_call a k Q t c c.
Proof. split; [apply m_stay|by apply frame_same]. Qed.
Lemma by_waking_refl P t c : by_waking P t c c.
Proof. split; [by left|by apply frame_same]. Qed.
Lemma by_running_refl t c : by_running t c c.
Proof. split; [done|by apply frame_same]. Qed.

(** No task moves. *)
Lemma tasks_stay_refl T : tasks_stay T T.
Proof. by apply moves_refl. Qed.

Lemma tasks_stay_trans T1 T2 T3 : tasks_stay T1 T2 -> tasks_stay T2 T3 -> tasks_stay T1 T3.
Proof.
  intros H1 H2 t c Hc. destruct (H1 t c Hc) as (c2 & Hc2 & E1).
  destruct (H2 t c2 Hc2) as (c3 & Hc3 & E2). exists c3. split; [done|].
  unfold by_switching in *. congruence.
Qed.

Lemma stay_insert T t c c' : T !! t = Some c -> phase_of c' = phase_of c ->
  tasks_stay T (<[t := c']> T).
Proof. intros Hc E. apply moves_insert; [done|]. intros c0 Hc0. by simplify_eq. Qed.

Lemma tasks_still_refl T : tasks_still T T.
Proof. apply moves_refl, by_running_refl. Qed.

Lemma still_insert T t c c' : T !! t = Some c -> tskstat c' = tskstat c -> sp c' = sp c ->
  tasks_still T (<[t := c']> T).
Proof.
  intros Hc Es Ep. apply moves_insert; [apply by_running_refl|]. intros c0 Hc0. simplify_eq.
  split; [by apply phase_same|by apply frame_same].
Qed.

Lemma still_stay T T' : tasks_still T T' -> tasks_stay T T'.
Proof. apply moves_weaken. by intros t c c' []. Qed.

(** Only waits end. *)
Lemma only_woken_refl P T : only_woken P T T.
Proof. apply moves_refl, by_waking_refl. Qed.

Lemma woken_trans P p1 p2 p3 : woken P p1 p2 -> woken P p2 p3 -> woken P p1 p3.
Proof.
  intros [<-|(HP & -> & ->)] W; [done|]. right. split; [done|]. by destruct W as [->|(_ & ? & _)].
Qed.

Lemma only_woken_trans P T1 T2 T3 : only_woken P T1 T2 -> only_woken P T2 T3 ->
  only_woken P T1 T3.
Proof.
  intros H1 H2 t c Hc. destruct (H1 t c Hc) as (c2 & Hc2 & W1 & F1).
  destruct (H2 t c2 Hc2) as (c3 & Hc3 & W2 & F2). exists c3. split; [done|].
  split; [by eapply woken_trans|]. intros Hf Hf3.
  assert (Hf2 : has_frame c2).
  { unfold has_frame in *. destruct W1 as [->|(_ & _ & ->)]; [done|by right]. }
  rewrite (F2 Hf2 Hf3). by apply F1.
Qed.

Lemma only_woken_weaken (P P' : Z -> Prop) T T' : (forall t, P t -> P' t) ->
  only_woken P T T' -> only_woken P' T T'.
Proof.
  intros H. apply moves_weaken. intros t c c' [W F]. split; [|done].
  destruct W as [?|(? & ?)]; [by left|right]. auto.
Qed.

Lemma still_woken P T T' : tasks_still T T' -> only_woken P T T'.
Proof. apply moves_weaken. intros t c c' [E F]. split; [by left|done]. Qed.

(** Tasks only come nearer to running: no ready one is stopped, no waiting or dormant
    one goes anywhere but to ready. *)
Definition risen (p p' : phase) : Prop := p' = p \/ p' = Ready \/ p = Absent /\ p' = Dormant.
Definition by_rising (_ : Z) (c c' : TCB) : Prop := risen (phase_of c) (phase_of c').
Definition tasks_rise : gmap Z TCB -> gmap Z TCB -> Prop := tasks_move by_rising.

Lemma tasks_rise_refl T : tasks_rise T T.
Proof. apply moves_refl. by left. Qed.

Lemma risen_trans p1 p2 p3 : risen p1 p2 -> risen p2 p3 -> risen p1 p3.
Proof. unfold risen. naive_solver congruence. Qed.

Lemma tasks_rise_trans T1 T2 T3 : tasks_rise T1 T2 -> tasks_rise T2 T3 -> tasks_rise T1 T3.
Proof.
  intros H1 H2 t c Hc. destruct (H1 t c Hc) as (c2 & Hc2 & R1).
  destruct (H2 t c2 Hc2) as (c3 & Hc3 & R2). exists c3. split; [done|].
  by eapply risen_trans.
Qed.

Lemma stay_rise T T' : tasks_stay T T' -> tasks_rise T T'.
Proof. apply moves_weaken. intros t c c' E. by left. Qed.

Lemma woken_rise P T T' : only_woken P T T' -> tasks_rise T T'.
Proof. apply moves_weaken. intros t c c' [[E|(_ & _ & E)] _]; [by left|by right; left]. Qed.

(** Every task that is alive, but for [u], stays so and goes on from the frame it has. *)
Definition frames_kept (u : option Z) (T T' : gmap Z TCB) : Prop :=
  forall t c, T !! t = Some c -> Some t <> u -> alive c ->
    exists c', T' !! t = Some c' /\ alive c' /\ sp c' = sp c.

Lemma frames_kept_refl u T : frames_kept u T T.
Proof. intros t c Hc _ Ha. by exists c. Qed.

Lemma frames_kept_trans u T1 T2 T3 : frames_kept u T1 T2 -> frames_kept u T2 T3 ->
  frames_kept u T1 T3.
Proof.
  intros H1 H2 t c Hc Hu Ha. destruct (H1 t c Hc Hu Ha) as (c2 & Hc2 & Ha2 & <-).
  by apply (H2 t c2).
Qed.

Lemma frames_kept_weaken u T T' : frames_kept None T T' -> frames_kept u T T'.
Proof. intros H t c Hc _. by apply H. Qed.

Lemma kept_frames (m : Z -> TCB -> TCB -> Prop) u T T' :
  (forall t c c', m t c c' -> frame_kept c c') -> tasks_kept u T T' -> tasks_move m T T' ->
  frames_kept u T T'.
Proof.
  intros Hm Hk Hmv t c Hc Hu Ha. destruct (Hk t c Hc Hu Ha) as (c' & Hc' & K).
  destruct (Hmv t c Hc) as (c2 & Hc2 & F). simplify_eq. exists c'. split; [done|].
  split; [by apply K|]. by apply (Hm _ _ _ F); apply phase_alive; [|apply K].
Qed.

Lemma only_woken_moves a k Q T T' : only_woken (releases a k Q) T T' ->
  tasks_move (by_call a k Q) T T'.
Proof.
  apply moves_weaken. intros t c c' [W F]. split; [|done].
  destruct W as [->|(Hr & -> & ->)]; [apply m_stay|by apply m_release].
Qed.

Lemma woken_alive (P : Z -> Prop) T t c c' : P t -> T !! t = Some c -> alive c ->
  tskstat c' = TTS_RDY -> sp c' = sp c -> only_woken P T (<[t := c']> T).
Proof.
  intros HP Hc Ha E Ep. apply moves_insert; [apply by_waking_refl|]. intros c0 Hc0. simplify_eq.
  split; [|by apply frame_same]. rewrite (phase_ready c') by (by left).
  destruct (phase_alive c Ha) as [->| ->]; [by right|by left].
Qed.

(** What is given to tasks that are alive, with a wake-up, only ends waits. *)
Definition all_alive (T : gmap Z TCB) (ts : list Z) : Prop :=
  Forall (fun t => forall c, T !! t = Some c -> alive c) ts.

Lemma all_alive_insert T t c ts : alive c -> all_alive T ts -> all_alive (<[t := c]> T) ts.
Proof.
  intros Ha H. eapply Forall_impl; [exact H|]. intros v Hv c' Hc'. simpl in Hv.
  destruct (decide (v = t)) as [->|]; [rewrite lookup_insert_eq in Hc'; by simplify_eq|].
  rewrite lookup_insert_ne in Hc' by done. by apply Hv.
Qed.

Lemma wakes_woken P cause ts T Q : Forall P ts -> all_alive T ts ->
  only_woken P T (fst (a_wakes cause ts (T, Q))).
Proof.
  intros HP. revert T Q. induction HP as [|t ts Pt HP IH]; intros T Q H; [apply only_woken_refl|].
  apply Forall_cons in H as [Ht H]. unfold a_wakes in *. cbn [foldl].
  unfold a_wake at 2. cbn [fst snd]. destruct (T !! t) as [c|] eqn:Hc; [|by apply IH].
  eapply only_woken_trans; [by apply (woken_alive P T t c (readied cause c)); [| |apply Ht|..]|].
  apply IH. apply all_alive_insert; [by right; left|done].
Qed.

Lemma gives_woken P cause gs T Q : Forall P gs.*1 -> gives_fit T gs ->
  only_woken P T (fst (a_gives cause gs (T, Q))).
Proof.
  revert T Q. induction gs as [|[t wi] gs IH]; intros T Q HP Hg; [apply only_woken_refl|].
  apply Forall_cons in HP as [Pt HP].
  apply Forall_cons in Hg as [(c & Hc & Ha & Ek) Hg]. simpl in Hc, Ek.
  unfold a_gives in *. cbn [foldl]. fold (a_gives cause gs) in *.
  change (only_woken P T (fst (a_gives cause gs (a_give cause (t, wi) (T, Q))))).
  rewrite (a_give_eq _ _ _ _ _ c) by done.
  eapply only_woken_trans; [by apply (woken_alive P T t c (readied cause (set_winfo wi c)))|].
  apply IH; [exact HP|]. eapply Forall_impl; [exact Hg|]. intros [v wv] (cv & Hcv & Hav & Ev). simpl in *.
  destruct (decide (v = t)) as [->|Hne].
  - rewrite lookup_insert_eq. eexists. split; [done|]. split; [by right; left|]. simpl. congruence.
  - rewrite lookup_insert_ne by done. by exists cv.
Qed.

(** ** What every call gives *)

(** The control block of a task fits the rest of the call it is in. *)
Definition cont_fits (co : cont) (c : TCB) : Prop :=
  match co with
  | K_flg _ => alive c /\ wkind (winfo c) = FlgWait
  | K_mbx _ => alive c /\ wkind (winfo c) = MbxWait
  | K_ext => True
  | _ => alive c
  end.

Definition call_post (a : api) k Q (r : call) (k' : kernel) : Prop :=
  (exists Q', wf k' Q') /\ tasks_move (by_call a k Q) (tcbs k) (tcbs k') /\
  match r with
  | Return z => (z < 0 -> k' = k) /\ tasks_kept None (tcbs k) (tcbs k')
  | Suspend co => may_block k = true /\ exists t c', current k = Some t /\
      tcbs k' !! t = Some c' /\ cont_fits co c' /\ tasks_kept (Some t) (tcbs k) (tcbs k')
  end.

(** A call that returns stops nobody. *)
Lemma phase_ready_stat k Q t c : wf k Q -> tcbs k !! t = Some c -> phase_of c = Ready ->
  ready_stat c.
Proof.
  intros ((_ & _ & Ha) & _) Hc Hp. destruct (ai_task _ _ _ _ _ _ Ha t c Hc) as [_ Ht].
  destruct Ht as [?|E|E|E]; [done|..]; unfold phase_of in Hp; by rewrite E in Hp.
Qed.

Lemma call_rises a k Q z k' : wf k Q -> call_post a k Q (Return z) k' ->
  tasks_rise (tcbs k) (tcbs k').
Proof.
  intros Hwf (_ & Hm & _ & Hk) t c Hc. destruct (Hm t c Hc) as (c' & Hc' & Hmv & _).
  exists c'. split; [done|]. unfold by_rising. destruct (decide (phase_of c = Ready)) as [E|E].
  - pose proof (phase_ready_stat k Q t c Hwf Hc E) as Hr.
    destruct (Hk t c Hc ltac:(done) ltac:(by right)) as (c2 & Hc2 & K).
    assert (c2 = c') as -> by congruence. right; left. apply phase_ready, K, Hr.
  - unfold risen. destruct Hmv; auto; done.
Qed.

Section post.
Context {a : api} {k : kernel} {Q0 : queues}.

Lemma post_same Q r : wf k Q -> call_post a k Q0 (Return r) k.
Proof.
  intros H. split; [by exists Q|]. split; [apply moves_refl, by_call_refl|]. split; [done|].
  apply tasks_kept_refl.
Qed.

(** A call that changes no control block of a task. *)
Lemma post_tcbs k' Q r : wf k' Q -> 0 <= r -> tcbs k' = tcbs k -> call_post a k Q0 (Return r) k'.
Proof.
  intros H Hr E. split; [by exists Q|]. rewrite E. split; [apply moves_refl, by_call_refl|].
  split; [lia|apply tasks_kept_refl].
Qed.

Lemma post_kept k' Q r : wf k' Q -> 0 <= r -> tasks_kept None (tcbs k) (tcbs k') ->
  tasks_move (by_call a k Q0) (tcbs k) (tcbs k') -> call_post a k Q0 (Return r) k'.
Proof. intros H Hr E Hm. split; [by exists Q|]. split; [done|]. split; [lia|done]. Qed.

(** A block changes but for what matters here. *)
Lemma post_touched k' Q t c c' r : wf k' Q -> 0 <= r -> tcbs k !! t = Some c ->
  tcbs k' = <[t := c']> (tcbs k) -> tskstat c' = tskstat c ->
  wkind (winfo c') = wkind (winfo c) -> itskpri c' = itskpri c -> sp c' = sp c ->
  call_post a k Q0 (Return r) k'.
Proof.
  intros Hwf Hr Hc E Es Ew Ep Esp. eapply post_kept; [exact Hwf|done| |]; rewrite E.
  - by eapply touched_kept.
  - apply moves_insert; [apply by_call_refl|]. intros c0 Hc0. simplify_eq.
    split; [rewrite (phase_same c c' Es); apply m_stay|by apply frame_same].
Qed.

(** Waits end. *)
Lemma post_woken k' Q r : wf k' Q -> 0 <= r ->
  tasks_kept None (tcbs k) (tcbs k') -> only_woken (releases a k Q0) (tcbs k) (tcbs k') ->
  call_post a k Q0 (Return r) k'.
Proof. intros H Hr Hk Hw. eapply post_kept; [done..|]. by apply only_woken_moves. Qed.

(** The caller, which runs, blocked or ended. *)
Lemma post_blocked Q k' Q' t c' co : wf k Q -> quiet k -> wf k' Q' -> may_block k = true ->
  current k = Some t -> tcbs k' = <[t := c']> (tcbs k) -> cont_fits co c' ->
  moves a k Q0 t Ready (phase_of c') ->
  (forall c, tcbs k !! t = Some c -> frame_kept c c') -> call_post a k Q0 (Suspend co) k'.
Proof.
  intros Hwf Hq Hwf' Hm Hc E Hf Hmv Hfr. split; [by exists Q'|]. rewrite E. split.
  - apply moves_insert; [apply by_call_refl|]. intros c Htc. split; [|by apply Hfr].
    destruct (may_block_task k Hm) as [t' Ht]. pose proof Ht as (_ & Hc' & _).
    assert (t' = t) as -> by congruence.
    destruct (task_running k Q t Hwf Hq Ht) as (_ & c0 & [Hc0 Hs _ _ _ _ _ _]).
    assert (c0 = c) as -> by congruence. by rewrite (phase_ready c (or_intror Hs)).
  - split; [done|]. exists t, c'. split; [done|]. split; [apply lookup_insert_eq|].
    split; [done|]. apply tasks_kept_insert. by intros c _ [].
Qed.

Lemma wp_returns_call (m : K Z) (Phi : Z -> kernel -> Prop) : wp m Phi k ->
  (forall r k', Phi r k' -> call_post a k Q0 (Return r) k') -> wp (returns m) (call_post a k Q0) k.
Proof.
  intros H HP. apply wp_bind. eapply wp_mono; [exact H|]. intros r k' Hr.
  apply wp_ret. by apply HP.
Qed.
End post.

(** [same]: the branches of a call that change nothing. *)
Ltac same := first
  [ match goal with H : _ /\ ?k' = ?k |- call_post _ ?k _ _ ?k' =>
      destruct H as [-> ->]; by eapply post_same end
  | match goal with H : ?r = _ /\ ?k' = ?k |- call_post _ ?k _ (Return ?r) ?k' =>
      destruct H as [_ ->]; by eapply post_same end ].

(** The control block of the caller changes, but not its frame. *)
Ltac kept_frame := intros ? ?; simplify_eq; by apply frame_same.

Section posts.
Context {k : kernel} {Q : queues}.
Hypothesis Hwf : wf k Q.

Lemma free_kind h n xs : Q !! h = Some (n :: xs) -> kind_ok h n.
Proof using Hwf.
  destruct Hwf as ((_ & _ & Ha) & _). intros Hq. apply (ai_kind _ _ _ _ _ _ Ha).
  exists (n :: xs). split; [done|by left].
Qed.

(** *** Tasks *)

(** A task on the list of free blocks. *)
Lemma free_absent t xs c : Q !! LFreeTcb = Some (LHead t :: xs) -> tcbs k !! t = Some c ->
  tskstat c = TTS_NOEXS.
Proof using Hwf.
  intros Hq Hc. destruct Hwf as ((Hr & _ & Hai) & _).
  destruct (member_free_tcb Hr Hai (LHead t)) as (t' & c' & E & _ & Hc' & Hs);
    [exists (LHead t :: xs); split; [done|by left]|]. simplify_eq. done.
Qed.

Lemma cre_tsk_ok p : wp (returns (tk_cre_tsk p)) (call_post (A_cre_tsk p) k Q) k.
Proof using Hwf.
  eapply wp_returns_call; [by apply (wp_cre_tsk k Q)|]. intros r k' (Q' & Hwf' & H).
  destruct p as [p|]; [|same]. destruct (cre_tsk_error p); [same|].
  destruct (Q !! LFreeTcb) as [[|n xs]|] eqn:Hq; [same| |same].
  destruct n; try same. destruct H as (-> & L & -> & _).
  eapply post_kept; [exact Hwf'| | |].
  - pose proof (free_kind _ _ _ Hq) as Hk. simpl in Hk. unfold task_idx in Hk. lia.
  - unfold with_lt. proj. apply tasks_kept_insert. intros c Hc _ Ha. exfalso.
    pose proof (free_absent _ _ _ Hq Hc). destruct Ha as [?|[?|?]]; stats; lia.
  - unfold with_lt. proj. apply moves_insert; [apply by_call_refl|]. intros c Hc.
    assert (E0 : phase_of c = Absent) by (unfold phase_of; by rewrite (free_absent _ _ _ Hq Hc)).
    split; [rewrite E0; by eapply m_create|apply frame_gone; by left].
Qed.

Lemma sta_tsk_ok id x : wp (returns (tk_sta_tsk id x)) (call_post (A_sta_tsk id x) k Q) k.
Proof using Hwf.
  eapply wp_returns_call; [by apply (wp_sta_tsk k Q)|]. intros r k' (Q' & Hwf' & H).
  destruct (tkmc_id_in_range id CFN_MAX_TSKID); [|same]. destruct H as (c & Hc & H).
  destruct (decide (tskstat c = TTS_DMT)) as [Es|_]; [|same].
  destruct H as (-> & k1 & (_ & L & m & _ & _ & _ & _ & E1) & E).
  assert (ET : tcbs k' = <[id - 1 := started_tcb c]> (tcbs k)).
  { rewrite E, E1. unfold resched, with_lt. repeat case_decide; by proj. }
  eapply post_kept; [exact Hwf'|done| |]; rewrite ET.
  - apply tasks_kept_insert. intros c0 Hc0 _ Ha. simplify_eq.
    destruct Ha as [?|[?|?]]; exfalso; stats; lia.
  - apply moves_insert; [apply by_call_refl|]. intros c0 Hc0. simplify_eq.
    assert (E0 : phase_of c = Dormant) by (unfold phase_of; by rewrite Es).
    split; [|apply frame_gone; by right; left]. rewrite E0.
    apply (m_start _ _ _ _ x). f_equal. lia.
Qed.

Lemma ext_tsk_ok : quiet k -> may_block k = true -> wp tk_ext_tsk (call_post A_ext_tsk k Q) k.
Proof using Hwf.
  intros Hq Hm. eapply wp_mono; [by apply (wp_ext_tsk k Q)|].
  intros r k' (-> & t & c & Hcur & _ & Hwf' & ET & _).
  eapply (post_blocked Q); try done; [by apply m_exit|].
  intros ? ?. apply frame_gone. by right; right; right.
Qed.

Lemma exd_tsk_ok : quiet k -> may_block k = true -> wp tk_exd_tsk (call_post A_exd_tsk k Q) k.
Proof using Hwf.
  intros Hq Hm. eapply wp_mono; [by apply (wp_exd_tsk k Q)|].
  intros r k' (-> & t & c & Hcur & _ & Hwf' & ET & _).
  eapply (post_blocked Q); try done; [by apply m_exit_delete|].
  intros ? ?. apply frame_gone. by right; right; left.
Qed.

(** The waiters of a semaphore that are served wait. *)
Lemma served_alive k0 Q0 s first n ws gs kept rem : inv k0 Q0 -> Q0 !! LSem s = Some ws ->
  grant (tcbs k0) first n ws = (gs, kept, rem) -> all_alive (tcbs k0) (task_of <$> gs).
Proof using.
  intros (Hr & _ & Ha) Hq Hg. apply Forall_fmap, Forall_forall. intros n' Hn c Hc.
  destruct (waiter_sem Hr Ha s n') as (t & c' & m & -> & _ & Hc' & Hs & _).
  { exists ws. split; [exact Hq|]. destruct (grant_perm _ _ _ _ _ _ _ Hg) as (_ & _ & ->).
    apply elem_of_app. by left. }
  simpl in Hc. simplify_eq. by left.
Qed.

Lemma served_sem k0 Q0 s first n ws gs kept rem : inv k0 Q0 -> Q0 !! LSem s = Some ws ->
  grant (tcbs k0) first n ws = (gs, kept, rem) ->
  Forall (fun t => inq Q0 (LSem s) (LWait t)) (task_of <$> gs).
Proof using.
  intros (Hr & _ & Ha) Hq Hg. apply Forall_fmap, Forall_forall. intros n' Hn.
  assert (Hin : inq Q0 (LSem s) n').
  { exists ws. split; [exact Hq|]. destruct (grant_perm _ _ _ _ _ _ _ Hg) as (_ & _ & ->).
    apply elem_of_app. by left. }
  by destruct (waiter_sem Hr Ha s n' Hin) as (t & c' & m & -> & _).
Qed.

(** The semaphore whose waiters are served is the one the task waited for. *)
Lemma serves_sem k0 Q0 t c cause cnt s : inv k0 Q0 -> tcbs k0 !! t = Some c ->
  tskstat c = TTS_WAI -> serves c cause = true -> winfo c = WSemaphore cnt s ->
  inq Q0 (LSem s) (LWait t).
Proof using.
  intros Hi Hc Hs Hsv Hw. unfold serves in Hsv.
  apply andb_prop in Hsv as [E%bool_decide_eq_true _].
  destruct (waits_sem_inv k0 Q0 t c Hi Hc Hs E) as (cnt' & s' & _ & ws & Ew & _ & _ & _ & Hq & Hin).
  assert (s' = s) as -> by congruence. by exists ws.
Qed.

Lemma inq_q_ready_sem t p s u : inq (q_ready t p Q) (LSem s) (LWait u) ->
  inq Q (LSem s) (LWait u).
Proof using.
  intros (xs & Hq & Hin). rewrite lookup_q_ready, 3!decide_False in Hq by done.
  destruct (Q !! LSem s) as [ys|] eqn:E; [|done]. injection Hq as <-. exists ys. split; [done|].
  unfold without in Hin. rewrite !list_elem_of_filter in Hin. tauto.
Qed.

Lemma completed_tasks k0 t c cause k1 Q' : completed k0 Q t c cause k1 Q' ->
  inv k0 Q -> tcbs k0 !! t = Some c -> tskstat c = TTS_WAI ->
  tasks_kept None (tcbs k0) (tcbs k1) /\
  only_woken (fun u => u = t \/ serves c cause = true /\ same_sem Q t u) (tcbs k0) (tcbs k1).
Proof using.
  intros (L & Hi1 & H) Hi Hc Hst. set (P := fun u => _). assert (Hal : alive c) by by left.
  assert (H1 : tasks_kept None (tcbs k0) (<[t := readied cause c]> (tcbs k0))).
  { apply tasks_kept_insert. intros c0 Hc0 _ _. simplify_eq. apply readied_kept. }
  assert (H2 : only_woken P (tcbs k0) (<[t := readied cause c]> (tcbs k0)))
    by (by eapply woken_alive; [left|..]).
  destruct (serves c cause) eqn:Es; [|by destruct H as [-> _]].
  destruct H as (s & cnt & sc & ws & gs & kept & rem & Hwi & _ & _ & _ & Hq & Hg & Hs & _).
  pose proof (served_alive _ _ _ _ _ _ _ _ _ Hi1 Hq Hg) as Hall.
  assert (HP : Forall P (task_of <$> gs)).
  { eapply Forall_impl; [by eapply (served_sem _ (q_ready t (itskpri c) Q))|]. intros u Hu. right.
    split; [done|]. exists s. split; [by eapply serves_sem|exact (inq_q_ready_sem _ _ _ _ Hu)]. }
  destruct Hs as (L2 & T & -> & HA & _). unfold with_lt in HA, Hall. proj.
  split; [eapply tasks_kept_trans; [exact H1|]|eapply only_woken_trans; [exact H2|]].
  - pose proof (woken_kept None E_OK (task_of <$> gs) (<[t := readied cause c]> (tcbs k0))
      (q_ready t (itskpri c) Q)) as Hk. by rewrite HA in Hk.
  - pose proof (wakes_woken P E_OK _ _ (q_ready t (itskpri c) Q) HP Hall) as Hk. by rewrite HA in Hk.
Qed.

Lemma woke_post a t c cause k' Q' r : woke k Q t c cause k' Q' -> tcbs k !! t = Some c ->
  tskstat c = TTS_WAI ->
  (forall u, u = t \/ serves c cause = true /\ same_sem Q t u -> releases a k Q u) ->
  wf k' Q' -> 0 <= r -> call_post a k Q (Return r) k'.
Proof using Hwf.
  intros (k1 & Hd & E) Hc Hs Ha Hwf' Hr0. pose proof Hwf as (Hi & _).
  destruct (completed_tasks _ _ _ _ _ _ Hd Hi Hc Hs) as [Hk Hm].
  assert (ET : tcbs k' = tcbs k1) by (subst k'; unfold resched; by case_decide).
  eapply post_woken; [exact Hwf'|done|by rewrite ET|]. rewrite ET.
  exact (only_woken_weaken _ _ _ _ Ha Hm).
Qed.

Lemma rel_wai_ok id : wp (returns (tk_rel_wai id)) (call_post (A_rel_wai id) k Q) k.
Proof using Hwf.
  eapply wp_returns_call; [by apply (wp_rel_wai k Q)|]. intros r k' (Q' & Hwf' & H).
  destruct (tkmc_id_in_range id CFN_MAX_TSKID); [|same]. destruct H as (c & Hc & H).
  destruct (decide (tskstat c = TTS_NOEXS)) as [_|_]; [same|].
  destruct (decide (Some (id - 1) = current k \/ tskstat c <> TTS_WAI)) as [_|Hn]; [same|].
  destruct H as (-> & Hw & _). eapply woke_post; try done; [apply dec_stable; tauto|].
  intros u [->|[_ ?]]; [by left|by right].
Qed.

Lemma wup_tsk_ok id : wp (returns (tk_wup_tsk id)) (call_post (A_wup_tsk id) k Q) k.
Proof using Hwf.
  eapply wp_returns_call; [by apply (wp_wup_tsk k Q)|]. intros r k' (Q' & Hwf' & H).
  destruct (tkmc_id_in_range id CFN_MAX_TSKID); [|same]. destruct H as (c & Hc & H).
  destruct (decide (Some (id - 1) = current k /\ isr_depth k = 0)) as [_|_]; [same|].
  destruct (decide (tskstat c = TTS_WAI /\ tskwait c = TTW_SLP)) as [[Es Ew]|_].
  { destruct H as (-> & Hw & _). eapply woke_post; try done. intros u [->|[Hsv _]].
    - split; [done|]. rewrite Hc. simpl. by rewrite Ew.
    - unfold serves in Hsv. by rewrite Ew in Hsv. }
  destruct (decide (tskstat c = TTS_WAI \/ ready_stat c)) as [_|_]; [|same].
  unfold wakeup_queued in H. destruct (decide (wupcnt c < TK_WAKEUP_MAXCNT)) as [_|_]; [|same].
  destruct H as [-> ->]. by eapply post_touched.
Qed.

Lemma slp_tsk_ok tmout : quiet k -> timer_in_reach k -> is_i32 tmout ->
  wp (tk_slp_tsk tmout) (call_post (A_slp_tsk tmout) k Q) k.
Proof using Hwf.
  intros Hq Ht Hi. eapply wp_mono; [by apply (wp_slp_tsk k Q)|].
  intros r k' (Q' & Hwf' & _ & H). destruct (decide (tmout < TMO_FEVR)) as [_|_]; [same|].
  destruct (may_block k) eqn:Em; [|same]. destruct H as (t & c & Hcur & Hc & H).
  destruct (decide (0 < wupcnt c)) as [_|_].
  { destruct H as (-> & _ & ->). by eapply post_touched. }
  destruct (decide (tmout = TMO_POL)) as [_|_]; [same|].
  destruct H as (-> & _ & _ & _ & d & ET & _). eapply (post_blocked Q); try done; [by left|by apply m_wait|kept_frame].
Qed.

Lemma dly_tsk_ok d : quiet k -> timer_in_reach k -> is_u32 d ->
  wp (tk_dly_tsk d) (call_post (A_dly_tsk d) k Q) k.
Proof using Hwf.
  intros Hq Ht Hi. eapply wp_mono; [by apply (wp_dly_tsk k Q)|].
  intros r k' (Q' & Hwf' & _ & H). destruct (may_block k) eqn:Em; [|same].
  destruct (decide (d = 0)) as [_|_].
  { destruct H as [-> ->]. split; [by exists Q|]. split; [apply moves_refl, by_call_refl|]. split; [done|].
    destruct (may_block_task k Em) as [t Htask].
    destruct (task_running k Q t Hwf Hq Htask) as (_ & c & Hrun).
    exists t, c. split; [apply Htask|]. split; [apply (run_tcb _ _ _ _ Hrun)|].
    split; [|apply tasks_kept_refl]. right. right. apply (run_stat _ _ _ _ Hrun). }
  destruct H as (t & c & Hcur & Hc & -> & _ & _ & _ & e & ET & _).
  eapply (post_blocked Q); try done; [by left|by apply m_wait|kept_frame].
Qed.

(** *** Semaphores *)

Lemma wakes_post a cause ts k' Q1 Q' r : all_alive (tcbs k) ts ->
  a_wakes cause ts (tcbs k, Q) = (tcbs k', Q1) -> Forall (releases a k Q) ts ->
  wf k' Q' -> 0 <= r -> call_post a k Q (Return r) k'.
Proof using.
  intros Hall HA Ha Hwf' Hr. pose proof (wakes_woken _ cause ts (tcbs k) Q Ha Hall) as Hm.
  pose proof (woken_kept None cause ts (tcbs k) Q) as Hk. rewrite HA in Hm, Hk.
  by eapply post_woken.
Qed.

Lemma gives_post a cause gs k' Q1 Q' r : gives_fit (tcbs k) gs ->
  a_gives cause gs (tcbs k, Q) = (tcbs k', Q1) -> Forall (releases a k Q) gs.*1 ->
  wf k' Q' -> 0 <= r -> call_post a k Q (Return r) k'.
Proof using.
  intros Hg HA Ha Hwf' Hr. pose proof (gives_woken _ cause gs (tcbs k) Q Ha Hg) as Hm.
  pose proof (gives_kept None cause gs (tcbs k) Q Hg) as Hk. rewrite HA in Hm, Hk.
  by eapply post_woken.
Qed.

Lemma cre_sem_ok p : wp (returns (tk_cre_sem p)) (call_post (A_cre_sem p) k Q) k.
Proof using Hwf.
  eapply wp_returns_call; [by apply (wp_cre_sem k Q)|]. intros r k' (Q' & Hwf' & H).
  destruct p as [p|]; [|same]. destruct (cre_sem_error p); [same|].
  destruct (Q !! LFreeSem) as [[|n xs]|] eqn:Hfree; [same| |same]. destruct n; try same.
  destruct H as (-> & L & -> & _). eapply post_tcbs; [exact Hwf'| |done].
  pose proof (free_kind _ _ _ Hfree) as Hk. simpl in Hk. lia.
Qed.

Lemma wai_sem_ok id n tmout : quiet k -> timer_in_reach k -> is_i32 n -> is_i32 tmout ->
  wp (tk_wai_sem id n tmout) (call_post (A_wai_sem id n tmout) k Q) k.
Proof using Hwf.
  intros Hq Ht Hn Hi. eapply wp_mono; [by apply (wp_wai_sem k Q)|].
  intros r k' (Q' & Hwf' & _ & H).
  destruct (negb (tkmc_id_in_range id CFN_MAX_SEMID)); [same|].
  destruct (decide (n <= 0 \/ tmout < TMO_FEVR)) as [_|_]; [same|].
  destruct (may_block k) eqn:Em; cbn [negb] in H; [|same].
  destruct H as (t & c & sc & Hcur & Hc & Hs & H).
  destruct (no_exist (semid sc)); [same|]. destruct (decide (maxsem sc < n)) as [_|_]; [same|].
  destruct H as (ws & _ & H). destruct (may_take (tcbs k) sc ws c n).
  { destruct H as (-> & _ & ->). by eapply post_tcbs. }
  destruct (decide (tmout = TMO_POL)) as [_|_]; [same|].
  destruct H as (-> & xs & ys & _ & _ & (_ & _ & _ & _ & d & ET & _)).
  eapply (post_blocked Q); try done; [by left|by apply m_wait|kept_frame].
Qed.

Lemma sig_sem_ok id n : is_i32 n -> wp (returns (tk_sig_sem id n)) (call_post (A_sig_sem id n) k Q) k.
Proof using Hwf.
  intros Hn. eapply wp_returns_call; [by apply (wp_sig_sem k Q)|]. intros r k' (Q' & Hwf' & H).
  destruct (negb (tkmc_id_in_range id CFN_MAX_SEMID)); [same|].
  destruct (decide (n <= 0)) as [_|_]; [same|]. destruct H as (sc & _ & H).
  destruct (no_exist (semid sc)); [same|].
  destruct (decide (maxsem sc - semcnt sc < n)) as [_|_]; [same|].
  destruct H as (-> & ws & gs & kept & rem & Hq & Hg & HA & _). eapply wakes_post; try done.
  - by eapply served_alive; [apply Hwf|..].
  - by eapply (served_sem k Q); [apply Hwf|..].
Qed.

Lemma del_sem_ok id : wp (returns (tk_del_sem id)) (call_post (A_del_sem id) k Q) k.
Proof using Hwf.
  eapply wp_returns_call; [by apply (wp_del_sem k Q)|]. intros r k' (Q' & Hwf' & H).
  destruct (negb (tkmc_id_in_range id CFN_MAX_SEMID)); [same|]. destruct H as (sc & _ & H).
  destruct (no_exist (semid sc)); [same|]. destruct H as (-> & ws & Q1 & Hq & HA & _).
  destruct Hwf as ((Hr & _ & Ha) & _).
  eapply wakes_post; try done; apply Forall_fmap, Forall_forall; intros n Hn;
    (destruct (waiter_sem Hr Ha (id - 1) n) as (t & c' & m & -> & _ & Hc' & Hs & _);
      [by exists ws|]); [|by exists ws].
  intros c Hc. simpl in Hc. simplify_eq. by left.
Qed.

(** *** Event flags *)

Lemma cre_flg_ok p : (forall q, p = Some q -> is_u32 (iflgptn q)) ->
  wp (returns (tk_cre_flg p)) (call_post (A_cre_flg p) k Q) k.
Proof using Hwf.
  intros Hp. eapply wp_returns_call; [by apply (wp_cre_flg k Q)|]. intros r k' (Q' & Hwf' & H).
  destruct p as [p|]; [|same].
  destruct (decide (Z.land (cf_flgatr p) (not32 VALID_FLGATR) <> 0)) as [_|_]; [same|].
  destruct (Q !! LFreeFlg) as [[|n xs]|] eqn:Hfree; [same| |same]. destruct n; try same.
  destruct H as (-> & L & -> & _). eapply post_tcbs; [exact Hwf'| |done].
  pose proof (free_kind _ _ _ Hfree) as Hk. simpl in Hk. lia.
Qed.

Lemma clr_flg_ok id p : wp (returns (tk_clr_flg id p)) (call_post (A_clr_flg id p) k Q) k.
Proof using Hwf.
  eapply wp_returns_call; [by apply (wp_clr_flg k Q)|]. intros r k' (Hwf' & H).
  destruct (negb (tkmc_id_in_range id CFN_MAX_FLGID)); [same|]. destruct H as (fc & _ & H).
  destruct (no_exist (flgid fc)); [same|]. destruct H as [-> ->]. by eapply post_tcbs.
Qed.

(** What the reference delivers fits the waiters. *)
Lemma deliver_fits f ws : (forall n, n ∈ ws -> inq Q (LFlg f) n) -> forall ptn gs kept p,
  deliver (tcbs k) ptn ws = (gs, kept, p) ->
  gives_fit (tcbs k) gs /\ Forall (fun t => inq Q (LFlg f) (LWait t)) gs.*1.
Proof using Hwf.
  destruct Hwf as ((Hr & _ & Ha) & _).
  induction ws as [|n ws IH]; intros Hin ptn gs kept p; simpl; [intros; simplify_eq; split; constructor|].
  pose proof (Hin n ltac:(by left)) as Hf.
  destruct (waiter_flg Hr Ha f n Hf) as (t & c & w & m & x & -> & _ & Hc & Hs & _ & Ew).
  cbn [waiter task_of]. rewrite Hc. cbn [fmap option_fmap option_map]. rewrite Ew.
  assert (IH' := IH (fun n Hn => Hin n ltac:(by right))).
  destruct (check_ptn ptn w m).
  - destruct (deliver (tcbs k) (clear_ptn ptn w m) ws) as [[g kk] pp] eqn:E. intros. simplify_eq.
    destruct (IH' _ _ _ _ E) as [H1 H2]. split; constructor; try done.
    exists c. split; [done|]. split; [by left|]. by rewrite Ew.
  - destruct (deliver (tcbs k) ptn ws) as [[g kk] pp] eqn:E. intros. simplify_eq. by eapply IH'.
Qed.

Lemma set_flg_ok id p : is_u32 p -> wp (returns (tk_set_flg id p)) (call_post (A_set_flg id p) k Q) k.
Proof using Hwf.
  intros Hp. eapply wp_returns_call; [by apply (wp_set_flg k Q)|]. intros r k' (Q' & Hwf' & H).
  destruct (negb (tkmc_id_in_range id CFN_MAX_FLGID)); [same|]. destruct H as (fc & _ & H).
  destruct (no_exist (flgid fc)); [same|].
  destruct H as (-> & ws & gs & kept & q & Hq & Hd & HA & _). 
  destruct (deliver_fits (id - 1) ws) with (ptn := Z.lor (flgptn fc) p) (gs := gs) (kept := kept) (p := q) as [Hfit Hin];
    [intros n Hn; by exists ws|exact Hd|]. by eapply gives_post.
Qed.

Lemma wai_flg_ok id w m p tmout : quiet k -> timer_in_reach k -> is_i32 tmout ->
  wp (tk_wai_flg id w m p tmout) (call_post (A_wai_flg id w m p tmout) k Q) k.
Proof using Hwf.
  intros Hq Ht Hi. eapply wp_mono; [by apply (wp_wai_flg k Q)|].
  intros r k' (Q' & Hwf' & _ & H).
  destruct (negb (tkmc_id_in_range id CFN_MAX_FLGID)); [same|].
  destruct (wai_flg_error p w m tmout); [same|].
  destruct (may_block k) eqn:Em; cbn [negb] in H; [|same].
  destruct H as (t & c & fc & Hcur & Hc & Hs & H).
  destruct (no_exist (flgid fc)); [same|]. destruct H as (ws & _ & H). unfold wai_flg_case in H.
  destruct (decide (Z.land (flgatr fc) TA_WMUL = 0 /\ ws <> [])) as [_|_]; [same|].
  destruct (check_ptn (flgptn fc) w m).
  { destruct H as (-> & _ & ->). by eapply post_tcbs. }
  destruct (decide (tmout = TMO_POL)) as [_|_]; [same|].
  destruct H as (-> & xs & ys & _ & _ & (_ & _ & _ & _ & d & ET & _)).
  eapply (post_blocked Q); try done; [split; [by left|done]|by apply m_wait|kept_frame].
Qed.

(** *** Mailboxes *)

Lemma cre_mbx_ok p : wp (returns (tk_cre_mbx p)) (call_post (A_cre_mbx p) k Q) k.
Proof using Hwf.
  eapply wp_returns_call; [by apply (wp_cre_mbx k Q)|]. intros r k' (Q' & Hwf' & H).
  destruct p as [p|]; [|same].
  destruct (decide (Z.land (cm_mbxatr p) (not32 VALID_MBXATR) <> 0)) as [_|_]; [same|].
  destruct (Q !! LFreeMbx) as [[|n xs]|] eqn:Hfree; [same| |same]. destruct n; try same.
  destruct H as (-> & L & -> & _). eapply post_tcbs; [exact Hwf'| |done].
  pose proof (free_kind _ _ _ Hfree) as Hk. simpl in Hk. lia.
Qed.

Lemma receivers_fit m ws a : Q !! LMbx m = Some ws ->
  gives_fit (tcbs k) ((fun n => (task_of n, WMailbox a)) <$> ws).
Proof using Hwf.
  intros Hq. destruct Hwf as ((Hr & _ & Ha) & _). apply Forall_fmap, Forall_forall. intros n Hn.
  destruct (waiter_mbx Hr Ha m n) as (t & c & x & -> & _ & Hc & Hs & _ & Ew); [by exists ws|].
  exists c. split; [exact Hc|]. split; [by left|]. simpl. by rewrite Ew.
Qed.

Lemma del_mbx_ok id : wp (returns (tk_del_mbx id)) (call_post (A_del_mbx id) k Q) k.
Proof using Hwf.
  eapply wp_returns_call; [by apply (wp_del_mbx k Q)|]. intros r k' (Q' & Hwf' & H).
  destruct (negb (tkmc_id_in_range id CFN_MAX_MBXID)); [same|]. destruct H as (mc & _ & H).
  destruct (no_exist (mbxid mc)); [same|]. destruct H as (-> & ws & Q1 & Hq & HA & _).
  eapply gives_post; try done; [by eapply receivers_fit|].
  destruct Hwf as ((Hr & _ & Ha) & _). rewrite <- list_fmap_compose. apply Forall_fmap, Forall_forall.
  intros n Hn. destruct (waiter_mbx Hr Ha (id - 1) n) as (t & c & x & -> & _); by exists ws.
Qed.

Lemma snd_mbx_ok id msg : may_send k Q id msg ->
  wp (returns (tk_snd_mbx id msg)) (call_post (A_snd_mbx id msg) k Q) k.
Proof using Hwf.
  intros Hsend. eapply wp_returns_call; [by apply (wp_snd_mbx k Q)|]. intros r k' (Q' & Hwf' & H).
  destruct (negb (tkmc_id_in_range id CFN_MAX_MBXID)); [same|].
  destruct (decide (msg = 0)) as [_|_]; [same|]. destruct H as (mc & _ & H).
  destruct (no_exist (mbxid mc)); [same|].
  destruct (decide (Z.land (mbxatr mc) TA_MPRI <> 0 /\ pri_of k (LMsg msg) <= 0)) as [_|_]; [same|].
  destruct H as (-> & ws & msgs & Hq & _ & _ & H). destruct ws as [|n rest].
  { destruct H as ((L & _ & ->) & _). by eapply post_tcbs. }
  destruct H as (t & c & -> & Hc & ET & _). pose proof Hwf as ((Hr & _ & Ha) & _).
  destruct (waiter_mbx Hr Ha (id - 1) (LWait t)) as (t' & c' & x & E & _ & Hc' & Hs & _ & Ew);
    [exists (LWait t :: rest); split; [done|by left]|]. simplify_eq.
  eapply post_woken; [exact Hwf'|done| |]; rewrite ET.
  - apply tasks_kept_insert. intros c0 Hc0 _ _. simplify_eq. apply readied_give_kept.
    by rewrite Ew.
  - by eapply woken_alive; [exists rest| |left|..].
Qed.

Lemma rcv_mbx_ok id p tmout : quiet k -> timer_in_reach k -> is_i32 tmout ->
  wp (tk_rcv_mbx id p tmout) (call_post (A_rcv_mbx id p tmout) k Q) k.
Proof using Hwf.
  intros Hq Ht Hi. eapply wp_mono; [by apply (wp_rcv_mbx k Q)|].
  intros r k' (Q' & Hwf' & _ & H).
  destruct (negb (tkmc_id_in_range id CFN_MAX_MBXID)); [same|].
  destruct (decide (p = 0 \/ tmout < TMO_FEVR)) as [_|_]; [same|].
  destruct (may_block k) eqn:Em; cbn [negb] in H; [|same].
  destruct H as (t & c & mc & Hcur & Hc & Hs & H).
  destruct (no_exist (mbxid mc)); [same|]. destruct H as (ws & msgs & _ & _ & H).
  unfold rcv_mbx_case in H. destruct msgs as [|n msgs].
  2:{ destruct H as (-> & a & L & _ & _ & _ & ->). by eapply post_tcbs. }
  destruct (decide (tmout = TMO_POL)) as [_|_]; [same|].
  destruct H as (-> & xs & ys & _ & _ & (_ & _ & _ & _ & d & ET & _)).
  eapply (post_blocked Q); try done; [split; [by left|done]|by apply m_wait|kept_frame].
Qed.

(** *** Interrupts *)

Lemma def_int_ok i p : wp (returns (tk_def_int i p)) (call_post (A_def_int i p) k Q) k.
Proof using Hwf.
  eapply wp_returns_call; [apply wp_def_int|]. intros r k' (-> & H & ->).
  case_decide as E; [|by eapply post_same]. rewrite E. by eapply post_tcbs; [apply H| |].
Qed.

Lemma plic_only_tcbs k' : plic_only k k' -> tcbs k' = tcbs k.
Proof using. by intros ->. Qed.

Lemma enable_int_ok i l : wp (EnableInt i l ;;; ret (Return E_OK)) (call_post (A_enable_int i l) k Q) k.
Proof using Hwf.
  apply wp_bind. eapply wp_mono; [apply wp_enable_int|]. intros r k' (Hp & H & _). apply wp_ret.
  eapply post_tcbs; [by apply H|done|by apply plic_only_tcbs].
Qed.

Lemma disable_int_ok i : wp (DisableInt i ;;; ret (Return E_OK)) (call_post (A_disable_int i) k Q) k.
Proof using Hwf.
  apply wp_bind. eapply wp_mono; [apply wp_disable_int|]. intros r k' (Hp & H & _). apply wp_ret.
  eapply post_tcbs; [by apply H|done|by apply plic_only_tcbs].
Qed.
End posts.

#[export] Hint Resolve cre_tsk_ok sta_tsk_ok ext_tsk_ok exd_tsk_ok rel_wai_ok wup_tsk_ok
  slp_tsk_ok dly_tsk_ok cre_sem_ok wai_sem_ok sig_sem_ok del_sem_ok cre_flg_ok clr_flg_ok
  set_flg_ok wai_flg_ok cre_mbx_ok del_mbx_ok rcv_mbx_ok def_int_ok enable_int_ok
  disable_int_ok : tk.

(** The queue of a mailbox is the same in all the lists that fit a state. *)
Lemma snd_mbx_lists k Q Q' id msg r k' : wf k Q -> wf k Q' ->
  call_post (A_snd_mbx id msg) k Q' r k' -> call_post (A_snd_mbx id msg) k Q r k'.
Proof.
  intros Hwf Hwf' (H1 & H2 & H3). split; [exact H1|]. split; [|exact H3].
  eapply moves_weaken; [|exact H2]. intros t c c' [Hm Hf]. split; [|exact Hf].
  destruct Hm as [p|pk E|x E|E|E|E|Hrel]; try done; [apply m_stay|]. apply m_release.
  destruct Hrel as [rest Hq']. exists rest.
  destruct Hwf as ((Hr & _ & Ha) & _), Hwf' as ((Hr' & _ & Ha') & _).
  assert (Hi : inq Q' (LMbx (id - 1)) (LWait t)) by (eexists; split; [exact Hq'|by left]).
  pose proof (ai_kind _ _ _ _ _ _ Ha' _ _ Hi) as [_ Hrange].
  destruct (ai_mbx _ _ _ _ _ _ Ha _ Hrange) as (mc & Hmc & [(_ & ws & _ & Hq & _)|(Hid & _)]).
  - rewrite Hq, (ring_unique (links k) (LMbx (id - 1)) ws (LWait t :: rest));
      [done|exact (rep_ring _ _ _ _ Hr Hq)|exact (rep_ring _ _ _ _ Hr' Hq')].
  - destruct (ai_mbx _ _ _ _ _ _ Ha' _ Hrange) as (mc' & Hmc' & [(Hid' & _)|(_ & Hf' & _)]).
    + assert (mc' = mc) as -> by congruence. destruct (id_bits_ok (id - 1)) as (E & _); [unfold CFN_MAX_MBXID in *; lia|].
      rewrite Hid in Hid'. lia.
    + pose proof (rep_inq_no_head _ _ _ _ Hr' Hf') as Hno. congruence.
Qed.

(** Every call the caller may make returns or suspends the caller, and the state it
    leaves is well formed. *)
Lemma wp_invoke k Q a : wf k Q -> quiet k -> admissible a k -> wp (invoke a) (call_post a k Q) k.
Proof.
  intros Hwf Hq [[Ht Ha] Hx]. destruct a; simpl in Ht, Ha, Hx |- *; destruct_and?; eauto with tk.
  - apply (cre_flg_ok Hwf). intros q E. by destruct (Ht q E) as (_ & _ & ?).
  - destruct Ha as (Q' & Hwf' & Hs). eapply wp_mono; [by apply (snd_mbx_ok Hwf')|].
    intros r k'. by eapply snd_mbx_lists.
Qed.

(** A call that never returns, from anywhere but a task, stops the system. *)
Lemma exits_halt k Q a : wf k Q -> quiet k -> exits a = true -> may_block k = false ->
  exists k', invoke a k = Halt k' /\ mie k' = false.
Proof.
  intros Hwf Hq He Hm. destruct a; try discriminate He.
  - pose proof (ext_tsk_cases k Q Hwf Hq) as H. rewrite Hm in H.
    destruct H as (k' & E & _ & ?). by exists k'.
  - pose proof (exd_tsk_cases k Q Hwf Hq) as H. rewrite Hm in H.
    destruct H as (k' & E & _ & ?). by exists k'.
Qed.

(** C19: Every call of the interface comes to an end: tk_ext_tsk and tk_exd_tsk from
    anywhere but a task stop the system with interrupts off, and every other call
    returns or suspends the caller, the state stays well formed, no other task loses
    its readiness or the kind of its wait, and only a task is suspended. It is asked
    of the caller that the state is well formed, that a task that calls has no
    switch pending with interrupts on, that the arguments have their types, that the
    clock is in reach where a call reads it, and that a message that gets as far as
    a mailbox is in no queue. *)
Theorem calls_return k Q a : wf k Q -> quiet k -> owed a k ->
  if exits a && negb (may_block k) then exists k', invoke a k = Halt k' /\ mie k' = false
  else wp (invoke a) (call_post a k Q) k.
Proof.
  intros Hwf Hq Ho. destruct (exits a) eqn:He, (may_block k) eqn:Hm; cbn [andb negb];
    first [by eapply exits_halt | apply wp_invoke; [done..|]; split; [done|congruence]].
Qed.

(** C20: A call that returns an error code at once, without having waited, leaves
    the whole state of the kernel as it was: every list, control block, register and
    the interrupt flag. It is asked of the caller what calls_return asks: a
    well-formed state, no switch pending in a task with interrupts on, arguments of
    their types, the clock in reach, and a loose message only where the call gets as
    far as it. What a call returns after it waited is the matter of resume_returns. *)
Theorem errors_change_nothing k Q a z k' : wf k Q -> quiet k -> owed a k ->
  invoke a k = Ret (Return z) k' -> z < 0 -> k' = k.
Proof.
  intros Hwf Hq Ho E Hz. destruct (exits a && negb (may_block k)) eqn:Hx.
  - apply andb_prop in Hx as [He Hm%negb_true_iff].
    destruct (exits_halt k Q a Hwf Hq He Hm) as (k1 & E1 & _). congruence.
  - assert (Ha : admissible a k).
    { split; [exact Ho|]. intros He. rewrite He in Hx. by destruct (may_block k). }
    pose proof (wp_invoke k Q a Hwf Hq Ha) as W. unfold wp in W. rewrite E in W. by apply W.
Qed.

(** *** What a call keeps of the globals *)

#[export] Instance keeps_returns (m : K Z) : Keeps m -> Keeps (returns m).
Proof. intros H. unfold returns. keeps. Qed.

(** [tk_def_int] alone writes the table of handlers, [EnableInt] and [DisableInt] the
    registers of the PLIC. *)
Record invoke_globals (k k' : kernel) : Prop := {
  ig_current : current k' = current k;
  ig_depth : isr_depth k' = isr_depth k;
  ig_clk : clk k' = clk k;
  ig_csrs : csrs k' = csrs k;
  ig_handlers : forall i, is_Some (s_handlers k !! i) -> is_Some (s_handlers k' !! i);
  ig_plic : plic_step (plic k) (plic k');
}.

Lemma same_invoke_globals k k' : same_globals k k' -> invoke_globals k k'.
Proof. intros [????? E]. split; try congruence. rewrite E. apply plic_step_refl. Qed.

Lemma plic_invoke_globals k k' : plic_only k k' -> plic_step (plic k) (plic k') ->
  invoke_globals k k'.
Proof. intros E H. rewrite E. by split. Qed.

Lemma def_int_keeps k intno p r k' : returns (tk_def_int intno p) k = Ret r k' ->
  invoke_globals k k'.
Proof.
  intros E. pose proof (wp_def_int k intno p) as H. unfold returns, bind, wp in *.
  destruct (tk_def_int intno p k) as [e k1| | |]; try done. injection E as _ <-.
  destruct H as (_ & _ & ->). case_decide; [|by apply same_invoke_globals].
  split; try done. intros i Hi. proj. destruct (decide (i = intno)) as [->|].
  - rewrite lookup_insert_eq. by eexists.
  - by rewrite lookup_insert_ne.
Qed.

Lemma int_call_keeps (m : K unit) k (Phi : unit -> kernel -> Prop) (r : call) k' : wp m Phi k ->
  (forall u k', Phi u k' -> plic_only k k' /\ plic_step (plic k) (plic k')) ->
  (m ;;; ret (Return E_OK)) k = Ret r k' -> invoke_globals k k'.
Proof.
  unfold wp, bind. intros H HP E. destruct (m k) as [u k1| | |]; try done. injection E as _ <-.
  destruct (HP u k1 H). by apply plic_invoke_globals.
Qed.

Lemma invoke_keeps a k r k' : invoke a k = Ret r k' -> invoke_globals k k'.
Proof.
  intros E. destruct a; try (apply same_invoke_globals; revert E; by apply keeps_run).
  - by apply def_int_keeps in E.
  - apply (int_call_keeps _ _ _ _ _ (wp_enable_int k intno level)) in E; [done|].
    intros u k1 H. split; [apply H|by eapply enable_int_plic].
  - apply (int_call_keeps _ _ _ _ _ (wp_disable_int k intno)) in E; [done|].
    intros u k1 H. split; [apply H|by eapply disable_int_plic].
Qed.

(** *** The types of the blocks *)

Lemma ty_returns (m : K Z) : Keep m -> Keep (returns m).
Proof. intros H. unfold returns. ty. Qed.

Lemma invoke_typed a : arg_types a -> Keep (invoke a).
Proof.
  intros Ht. destruct a; simpl in Ht |- *; destruct_and?; try (apply ty_returns);
    first
    [ by apply ty_cre_tsk | apply ty_sta_tsk | apply ty_ext_tsk | apply ty_exd_tsk
    | apply ty_rel_wai | apply ty_wup_tsk | apply ty_slp_tsk | apply ty_dly_tsk
    | by apply ty_cre_sem | apply ty_del_sem | apply ty_sig_sem | by apply ty_wai_sem
    | by apply ty_cre_flg | by apply ty_set_flg | apply ty_clr_flg | by apply ty_wai_flg
    | by apply ty_cre_mbx | apply ty_del_mbx | by apply ty_snd_mbx | apply ty_rcv_mbx
    | apply ty_def_int | idtac ].
  - apply (ty_bind (fun _ => True)); [apply ty_enable_int|intros; ty].
  - apply (ty_bind (fun _ => True)); [apply ty_disable_int|intros; ty].
Qed.
