(* ===== verification/System.v ===== *)
(** * The kernel at work: tasks, traps and interrupt handlers

    A step relation on the whole system: the running task makes a call, takes the
    rest of a call it slept in, or gives way; interrupts come when the flag and
    their bit of mie let them, and nest; the requested switch is taken; time
    passes and the RAM of the application changes. A task that waits or was
    switched out inside a call has the rest of the call as its continuation.
    [top_ok] holds in every state that can be reached from the reset. *)

From S2P Require Import Prelude DList Tkernel Kernel Inv Moves Rules Wait Sched Check Timer.
From S2P Require Import Block TimerHandler Task Semaphore EventFlag Mailbox IntCtl Start Boot.
From S2P Require Import Trap KernelTasks Types Globals Calls.

Open Scope Z_scope.
Implicit Types (k : kernel) (Q : queues) (t : Z) (c : TCB).

(** ** The rest of a call *)

Definition resume (co : cont) : K Z :=
  match co with
  | K_slp => tk_slp_tsk_resume
  | K_dly => tk_dly_tsk_resume
  | K_dly_yield => tk_dly_tsk_yield
  | K_sem => tk_wai_sem_resume
  | K_flg p => tk_wai_flg_resume p
  | K_mbx p => tk_rcv_mbx_resume p
  | K_ext => ret E_OK
  end.

(** ** States and steps *)

Definition sys : Type := kernel * gmap Z cont.

(** The control block of the idle task, whose code makes no calls but
    [tkmc_idle_can_halt] and [tkmc_yield]. *)
Definition IDLE : Z := 1.

(** A task that is started begins at its first frame, unless it is still
    [current]: then [schedule] will store its old one. *)
Definition conts_after (a : api) (z : Z) k (C : gmap Z cont) : gmap Z cont :=
  match a with
  | A_sta_tsk id _ =>
    if decide (z = E_OK /\ Some (id - 1) <> current k) then delete (id - 1) C else C
  | _ => C
  end.

Inductive invoked : sys -> api -> sys -> Prop :=
  | invoked_returns k C a z k' :
      admissible a k -> invoke a k = Ret (Return z) k' ->
      invoked (k, C) a (k', conts_after a z k C)
  | invoked_suspends k C a co t k' :
      admissible a k -> invoke a k = Ret (Suspend co) k' -> current k = Some t ->
      invoked (k, C) a (k', <[t := co]> C).

(** The state in which the source [src] is claimed. *)
Definition claims (src : Z) k : kernel := set_plic (set_pl_claim src (plic k)) k.

(** A run of an interrupt handler: it calls, turns interrupts on and off, changes
    RAM, and is interrupted; and a whole external interrupt, entered with a frame
    and left with one, whose handler leaves the word of mie in the frame alone and
    ends with interrupts off. *)
Inductive handler_run : sys -> sys -> Prop :=
  | handler_done s : handler_run s s
  | handler_call k C a s1 s2 :
      invoked (k, C) a s1 -> handler_run s1 s2 -> handler_run (k, C) s2
  | handler_mask k C b s2 : handler_run (set_mie b k, C) s2 -> handler_run (k, C) s2
  | handler_ram k C M r s2 :
      handler_run (set_reads r (set_mem M k), C) s2 -> handler_run (k, C) s2
  | handler_switch k C frame r k' s2 :
      taken k MSI -> is_u32 frame -> mtrap_handler frame k = Ret r k' -> handler_run (k', C) s2 ->
      handler_run (k, C) s2
  | handler_timer k C frame r k' s2 :
      taken k MTI -> is_u32 frame -> timer_interrupt frame k = Ret r k' -> handler_run (k', C) s2 ->
      handler_run (k, C) s2
  | handler_nest k C frame r s1 s2 :
      external frame r (k, C) s1 -> handler_run s1 s2 -> handler_run (k, C) s2
with external : Z -> Z -> sys -> sys -> Prop :=
  | external_handled k C run_handler h src frame k1 C1 r k' :
      taken k MEI -> is_u32 frame -> 0 <= src < PLIC_SOURCE_COUNT ->
      let k0 := ext_entered frame (claims src k) in
      handler_of k0 src = Some h ->
      run_handler h src (handler_entry k0 src) = Ret tt k1 ->
      handler_run (handler_entry k0 src, C) (k1, C1) -> mie k1 = false ->
      mem k1 !! mie_slot frame = mem k0 !! mie_slot frame ->
      external_interrupt run_handler frame (claims src k) = Ret r k' ->
      external frame r (k, C) (k', C1)
  | external_ignored k C run_handler src frame r k' :
      taken k MEI -> is_u32 frame -> 0 <= src < PLIC_SOURCE_COUNT ->
      handler_of k src = None ->
      external_interrupt run_handler frame (claims src k) = Ret r k' ->
      external frame r (k, C) (k', C).

(** [t] runs, and nothing holds it up. *)
Definition runs k t : Prop :=
  mie k = true /\ isr_depth k = 0 /\ msip k = 0 /\ current k = Some t.

Inductive step : sys -> sys -> Prop :=
  | step_call k C t a s :
      quiet k -> current k = Some t -> t <> IDLE -> C !! t = None ->
      invoked (k, C) a s -> step (k, C) s
  | step_mask k C b : quiet k -> step (k, C) (set_mie b k, C)
  | step_yield k C t k' :
      runs k t -> C !! t = None -> tkmc_yield k = Ret tt k' -> step (k, C) (k', C)
  | step_idle k C k' : runs k IDLE -> tkmc_idl_tsk k = Ret tt k' -> step (k, C) (k', C)
  | step_resume k C t co z k' :
      runs k t -> C !! t = Some co -> resume co k = Ret z k' -> step (k, C) (k', delete t C)
  | step_switch k C frame r k' :
      taken k MSI -> msip k <> 0 -> is_u32 frame -> mtrap_handler frame k = Ret r k' ->
      step (k, C) (k', C)
  | step_timer k C frame r k' :
      taken k MTI -> timer_in_reach k -> 0 <= mtimecmp k < 2 ^ 64 -> is_u32 frame ->
      timer_interrupt frame k = Ret r k' -> step (k, C) (k', C)
  | step_external k C frame r s : external frame r (k, C) s -> step (k, C) s
  | step_outside k C M r :
      step (k, C) (set_reads r (set_mem M k), C).

(** The state after the reset code and the boot. *)
Definition initial (s : sys) : Prop :=
  exists ini idl a0 msgs clk0 mem0 csrs0 r, stack_ok ini /\ stack_ok idl /\
    (ini + TASK_STACK_BYTES <= idl \/ idl + TASK_STACK_BYTES <= ini) /\ clock_ok clk0 /\
    _start ini idl a0 (bss_state msgs clk0 mem0 csrs0) = Ret r (fst s) /\ snd s = ∅.

Definition reachable (s : sys) : Prop := exists s0, initial s0 /\ rtc step s0 s.

(** ** The invariant *)

Record sys_ok (s : sys) : Prop := {
  so_wf : exists Q, wf (fst s) Q;
  so_typed : typed (fst s);
  so_current : exists t, current (fst s) = Some t;
  so_idle : exists c, tcbs (fst s) !! IDLE = Some c /\ ready_stat c /\ itskpri c = CFN_MAX_PRI;
  so_handlers i : 0 <= i < CFN_MAX_INTNO -> is_Some (s_handlers (fst s) !! i);
  so_conts t co : snd s !! t = Some co ->
    t <> IDLE /\ exists c, tcbs (fst s) !! t = Some c /\ cont_fits co c;
  so_plic : plic_ok (plic (fst s));
}.

Lemma cont_kept co c c' : (alive c -> task_kept c c') -> cont_fits co c -> cont_fits co c'.
Proof.
  intros H. destruct co; simpl; try done; try (intros Ha; by apply H);
    intros [Ha E]; destruct (H Ha) as [? Ek _ _]; split; congruence.
Qed.

Lemma wf_tcb k Q k' Q' t c : wf k Q -> wf k' Q' -> tcbs k !! t = Some c ->
  exists c', tcbs k' !! t = Some c'.
Proof.
  intros ((_ & _ & Ha) & _) ((_ & _ & Ha') & _) Hc.
  apply (ai_tcbs _ _ _ _ _ _ Ha'), (ai_tcbs _ _ _ _ _ _ Ha). by eexists.
Qed.

(** The tasks but [u] keep what they need; [u] is neither idle nor inside a call. *)
Lemma sys_ok_moves u k C k' : sys_ok (k, C) -> (exists Q, wf k' Q) -> typed k' ->
  is_Some (current k') -> (forall i, is_Some (s_handlers k !! i) -> is_Some (s_handlers k' !! i)) ->
  (plic_ok (plic k) -> plic_ok (plic k')) ->
  tasks_kept u (tcbs k) (tcbs k') -> Some IDLE <> u -> (forall t, Some t = u -> C !! t = None) ->
  sys_ok (k', C).
Proof.
  intros [[Q Hwf] _ _ (ci & Hci & Hri & Hpi) Hh Hco Hp] [Q' Hwf'] Hty [t Hc] Hh' Hp' Hk Hu Hcu.
  split; [by exists Q'|exact Hty|by exists t| | | |by apply Hp'].
  - destruct (Hk IDLE ci Hci Hu) as (c' & Hc' & K); [by right|].
    exists c'. split; [done|]. split; [by apply (kept_ready _ _ K)|]. by rewrite (kept_pri _ _ K).
  - intros i Hi. by apply Hh', Hh.
  - intros v co Hv. destruct (Hco v co Hv) as (Hvi & c & Hcv & Hf). split; [done|].
    assert (Hvu : Some v <> u) by (intros E; simpl in Hv; rewrite (Hcu v E) in Hv; done).
    destruct (wf_tcb k Q k' Q' v c Hwf Hwf' Hcv) as [c' Hc']. exists c'. split; [done|].
    eapply cont_kept; [|exact Hf]. intros Hal.
    destruct (Hk v c Hcv Hvu Hal) as (c2 & Hc2 & K). simpl in Hc'. congruence.
Qed.

Lemma sys_ok_kept k C k' : sys_ok (k, C) -> (exists Q, wf k' Q) -> typed k' ->
  is_Some (current k') -> (forall i, is_Some (s_handlers k !! i) -> is_Some (s_handlers k' !! i)) ->
  (plic_ok (plic k) -> plic_ok (plic k')) ->
  tasks_kept None (tcbs k) (tcbs k') -> sys_ok (k', C).
Proof. intros. by eapply (sys_ok_moves None). Qed.

(** Changes that the invariant does not see. *)
Lemma sys_ok_same k C k' : sys_ok (k, C) -> (forall Q, wf k Q -> wf k' Q) ->
  same_blocks k k' -> current k' = current k -> s_handlers k' = s_handlers k ->
  (plic_ok (plic k) -> plic_ok (plic k')) -> sys_ok (k', C).
Proof.
  intros Hs Hw Hb Ec Eh Hp. pose proof Hs as [[Q Hwf] Hty [t Hc] _ _ _ _].
  eapply sys_ok_kept; [exact Hs|exists Q; by apply Hw|by apply (typed_same k)|rewrite Ec; by exists t| |exact Hp|].
  - intros i. by rewrite Eh.
  - destruct Hb as [-> _]. apply tasks_kept_refl.
Qed.

Lemma sys_ok_delete k C t : sys_ok (k, C) -> sys_ok (k, delete t C).
Proof.
  intros [H1 H2 H3 H4 H5 H6 H7]. split; try done. intros v co Hv. simpl in Hv.
  apply lookup_delete_Some in Hv as [_ Hv]. by apply H6.
Qed.

Lemma sys_ok_conts a z k C k' : sys_ok (k', C) -> sys_ok (k', conts_after a z k C).
Proof.
  intros H. destruct a; try done. simpl. case_decide; [by apply sys_ok_delete|done].
Qed.

(** ** Calls *)

(** The caller of a call that may suspend: a task, not the idle one, that is in no
    other call. *)
Definition caller_ok k (C : gmap Z cont) : Prop :=
  may_block k = true -> forall t, current k = Some t -> t <> IDLE /\ C !! t = None.

Lemma invoked_ok k C a s : sys_ok (k, C) -> quiet k -> caller_ok k C ->
  invoked (k, C) a s ->
  sys_ok s /\ isr_depth (fst s) = isr_depth k /\ csrs (fst s) = csrs k /\
  current (fst s) = current k /\ pl_threshold (plic (fst s)) = pl_threshold (plic k) /\
  frames_kept (if may_block k then current k else None) (tcbs k) (tcbs (fst s)) /\
  (may_block k = false -> tasks_rise (tcbs k) (tcbs (fst s))).
Proof.
  intros Hs Hq Hcal Hi. pose proof Hs as [[Q Hwf] Hty [t0 Hc0] _ _ _ _]. simpl in Hc0, Hty.
  inversion Hi as [? ? ? z k' Had Hrun|? ? ? co t k' Had Hrun Hcur]; subst;
    pose proof (wp_invoke k Q a Hwf Hq Had) as W; unfold wp in W; rewrite Hrun in W;
    destruct (invoke_keeps a k _ k' Hrun) as [Ec Ed _ Er Eh [Et Hp]]; destruct W as (Hwf' & Hmv & W);
    destruct (invoke_typed a (proj1 (proj1 Had)) k _ k' Hty Hrun) as [Hty' _];
    (split; [|refine (conj Ed (conj Er (conj Ec (conj Et _))))]).
  - apply sys_ok_conts. eapply sys_ok_kept; [exact Hs|exact Hwf'|exact Hty'|rewrite Ec; by exists t0|done|exact Hp|apply W].
  - split; [|intros _; by eapply (call_rises a k Q z)].
    destruct W as [_ W]. eapply kept_frames; [|by apply tasks_kept_weaken|exact Hmv]. by intros ? ? ? [].
  - destruct W as (Hmb & t' & c' & Hcur' & Hc' & Hf & Hk).
    assert (t' = t) as -> by congruence. destruct (Hcal Hmb t Hcur) as [Hid HC].
    assert (Hs' : sys_ok (k', C)).
    { eapply (sys_ok_moves (Some t)); [exact Hs|exact Hwf'|exact Hty'|rewrite Ec; by exists t|done|exact Hp|exact Hk|
        congruence|]. intros v [= ->]. done. }
    destruct Hs' as [H1 H2 H3 H4 H5 H6 H7]. split; try done. intros v co' Hv. simpl in Hv.
    destruct (decide (v = t)) as [->|Hne].
    + rewrite lookup_insert_eq in Hv. simplify_eq. split; [done|]. by exists c'.
    + rewrite lookup_insert_ne in Hv by done. by apply H6.
  - destruct W as (Hmb & t' & c' & Et' & _ & _ & Hk). cbn [fst]. rewrite Hmb, Et'. split; [|done].
    eapply kept_frames; [|exact Hk|exact Hmv]. by intros ? ? ? [].
Qed.

(** ** The rest of a call *)

Lemma runs_tcb k Q t : wf k Q -> runs k t -> exists c, tcbs k !! t = Some c /\
  tskstat c = TTS_RUN /\ highest Q = Some t.
Proof.
  intros (_ & _ & Hsch) (_ & _ & Hm & Hc). destruct (proj1 (Hsch t Hc) Hm) as (Hh & c & Hc' & Hs).
  by exists c.
Qed.

Lemma wp_tail_yield k Q t c : wf k Q -> current k = Some t -> tcbs k !! t = Some c ->
  ready_stat c ->
  wp tkmc_yield (fun _ k' => (exists Q', wf k' Q') /\ tcbs k' = tcbs k /\ mem k' = mem k) k.
Proof.
  intros (Hi & Hset & Hsch) Hc Htc Hrs.
  eapply wp_yield; [done|done|by eapply sched_cur_ok|done|done|done|].
  intros L Q' k1 Hwf. split; [by exists Q'|].
  unfold k1, resched. by case_decide.
Qed.

(** What the rest of a call returns, in a task whose control block is [c], and
    what it stores for the caller. *)
Definition resumed_with (co : cont) (c : TCB) : Z :=
  match co with
  | K_dly => if decide (wupcause c = E_TMOUT) then E_OK else wupcause c
  | K_dly_yield | K_ext => E_OK
  | _ => wupcause c
  end.
Definition stored_by (co : cont) (c : TCB) (m : gmap Z cell) : gmap Z cell :=
  match co, winfo c with
  | K_flg p, WEventFlag _ _ ptn => if decide (wupcause c = E_OK) then <[p := CWord ptn]> m else m
  | K_mbx p, WMailbox msg => if decide (wupcause c = E_OK) then <[p := CWord msg]> m else m
  | _, _ => m
  end.

(** Whether it is the end of a wait, which takes the cause of the wake-up. *)
Definition waited (co : cont) : bool :=
  match co with K_dly_yield | K_ext => false | _ => true end.

Record resume_post k t c (co : cont) (r : Z) (k' : kernel) : Prop := {
  rp_result : r = resumed_with co c;
  rp_wf : exists Q', wf k' Q';
  rp_kept : tasks_kept None (tcbs k) (tcbs k');
  rp_still : tasks_still (tcbs k) (tcbs k');
  rp_mem : mem k' = stored_by co c (mem k);
  rp_cause : waited co = true -> (wupcause <$> tcbs k' !! t) = Some E_OK;
}.

Lemma cause_taken_still k t c : tcbs k !! t = Some c ->
  tasks_still (tcbs k) (tcbs (cause_taken k t c)).
Proof. intros Hc. unfold cause_taken. proj. by eapply still_insert. Qed.

Lemma cause_taken_post k Q t c co r : wf k Q -> tcbs k !! t = Some c ->
  r = resumed_with co c -> stored_by co c (mem k) = mem k ->
  resume_post k t c co r (cause_taken k t c).
Proof.
  intros Hwf Hc Er Em. split; [done| | | |done|].
  - exists Q. by apply cause_taken_wf.
  - by eapply touched_kept.
  - by apply cause_taken_still.
  - intros _. unfold cause_taken. proj. by rewrite lookup_insert_eq.
Qed.

(** The rest of every call comes to its end. *)
Lemma wp_resume k C t co c : sys_ok (k, C) -> runs k t -> C !! t = Some co ->
  tcbs k !! t = Some c -> wp (resume co) (resume_post k t c co) k.
Proof.
  intros Hs Hr HC Hc. pose proof Hs as [[Q Hwf] _ _ _ _ Hco]. simpl in *.
  destruct (runs_tcb k Q t Hwf Hr) as (c' & Hc' & Est & _). assert (c' = c) as -> by congruence.
  destruct (Hco t co HC) as (_ & c' & Hc'' & Hf). assert (c' = c) as -> by congruence.
  destruct Hr as (_ & _ & _ & Hcur). pose proof (cause_taken_post k Q t c) as Hct.
  destruct co as [| | | |p|p|]; simpl.
  - by eapply wp_mono; [by eapply wp_slp_resume|intros r k' [-> ->]; apply Hct].
  - by eapply wp_mono; [by eapply wp_dly_resume|intros r k' [-> ->]; apply Hct].
  - unfold tk_dly_tsk_yield. apply wp_bind.
    eapply wp_mono; [eapply wp_tail_yield; try done; by right|].
    intros u k' (H1 & H2 & H3). apply wp_ret.
    split; rewrite ?H2; try done; [apply tasks_kept_refl|apply tasks_still_refl].
  - by eapply wp_mono; [by eapply wp_sem_resume|intros r k' [-> ->]; apply Hct].
  - destruct Hf as [_ Ek]. eapply wp_mono; [eapply (wp_wai_flg_resume k Q t c); try done|].
    { intros _. destruct (winfo c); try done. by eexists _, _, _. }
    intros r k' (Er & Hwf' & M & -> & HM). destruct (winfo c) as [|w m x| |] eqn:Ew; try done.
    split; [done|by exists Q|by eapply touched_kept|by apply cause_taken_still| |].
    + simpl. rewrite Ew. by apply (HM w m).
    + intros _. unfold cause_taken. proj. by rewrite lookup_insert_eq.
  - destruct Hf as [_ Ek]. eapply wp_mono; [eapply (wp_rcv_mbx_resume k Q t c); try done|].
    { by right. } { intros _. destruct (winfo c); try done. by eexists. }
    intros r k' (Er & Hwf' & ET & _ & HM). destruct (winfo c) as [| | |x] eqn:Ew; try done.
    split; [done|by exists Q|rewrite ET; eapply touched_kept; by rewrite ?Ew| | |].
    + rewrite ET. by eapply still_insert.
    + simpl. rewrite Ew. by apply HM.
    + intros _. by rewrite ET, lookup_insert_eq.
  - apply wp_ret. split; [done|by exists Q|apply tasks_kept_refl|apply tasks_still_refl|done|done].
Qed.

(** ** The traps *)

Lemma wp_keeps {A} (m : K A) k (Phi : A -> kernel -> Prop) : Keeps m -> wp m Phi k ->
  wp m (fun a k' => Phi a k' /\ same_globals k k') k.
Proof.
  intros Hm H. unfold wp in *. destruct (m k) as [a k'| | |] eqn:E; try done.
  split; [done|by eapply Hm].
Qed.

(** No task is switched in or out for another reason than it had. *)
Definition same_causes k k' : Prop := forall t c, tcbs k !! t = Some c ->
  exists c', tcbs k' !! t = Some c' /\ wupcause c' = wupcause c.

(** The end of a trap that was entered with [frame] in [k] and returns with [r]: the
    task that is switched out goes on from [frame], the one switched in from what it
    was given, and every other task keeps its frame. *)
Record switched (frame : Z) k (r : Z) k' : Prop := {
  sw_frames : frames_kept (current k) (tcbs k) (tcbs k');
  sw_out u c : current k = Some u -> current k' <> Some u -> tcbs k !! u = Some c -> alive c ->
    exists c', tcbs k' !! u = Some c' /\ alive c' /\ sp c' = frame;
  sw_in v : current k' = Some v -> current k <> Some v ->
    exists c', tcbs k' !! v = Some c' /\ sp c' = r;
  sw_same : current k' = current k -> r = frame;
}.

Lemma switched_refl frame k : switched frame k frame k.
Proof. split; [apply frames_kept_refl|done..]. Qed.

(** What switches no task, and stops none. *)
Record calm k k' : Prop := {
  cm_current : current k' = current k;
  cm_frames : frames_kept None (tcbs k) (tcbs k');
  cm_rise : tasks_rise (tcbs k) (tcbs k');
}.

Lemma calm_same k k' : current k' = current k -> tcbs k' = tcbs k -> calm k k'.
Proof.
  intros E1 E2. split; [done|..]; rewrite E2; [apply frames_kept_refl|apply tasks_rise_refl].
Qed.

Lemma calm_refl k : calm k k.
Proof. by apply calm_same. Qed.

Lemma calm_trans k1 k2 k3 : calm k1 k2 -> calm k2 k3 -> calm k1 k3.
Proof.
  intros [E1 F1 R1] [E2 F2 R2].
  split; [congruence|by eapply frames_kept_trans|by eapply tasks_rise_trans].
Qed.

(** What came before the switch switched no task. *)
Lemma switched_after frame k k1 r k' : calm k k1 -> switched frame k1 r k' ->
  switched frame k r k'.
Proof.
  intros [Ec Hk _] [H1 H2 H3 H4]. rewrite Ec in *. split; [|intros u c Hu Hn Hc Ha|done..].
  - eapply frames_kept_trans; [by apply frames_kept_weaken|exact H1].
  - destruct (Hk u c Hc ltac:(done) Ha) as (c1 & Hc1 & Ha1 & _). by apply (H2 u c1).
Qed.

Lemma saved_kept frame c : alive c -> task_kept c (saved_tcb frame c).
Proof.
  intros Ha. unfold saved_tcb. case_decide as E.
  - split; [by right; left|done|by left|done].
  - split; [exact Ha|done| |done]. intros [?|?]; [by left|done].
Qed.

Lemma saved_sp frame c : sp (saved_tcb frame c) = frame.
Proof. unfold saved_tcb. by case_decide. Qed.

Lemma schedule_switched k Q u frame r k' : current k = Some u ->
  schedule_post k Q u frame r k' -> switched frame k r k'.
Proof.
  intros Hu (c & t & ct & Hc & _ & Hct & Hrs & -> & -> & _). split; proj; rewrite Hu.
  - intros v cv Hv Hne Ha.
    assert (Hvu : v <> u) by congruence.
    destruct (decide (v = t)) as [->|Hvt].
    + rewrite lookup_insert_eq. eexists. split; [done|].
      rewrite lookup_insert_ne in Hct by done. assert (ct = cv) as -> by congruence.
      split; [by right; right|done].
    + rewrite !lookup_insert_ne by done. by exists cv.
  - intros w cw [= ->] Hn Hw Ha. simplify_eq. rewrite lookup_insert_ne by congruence.
    rewrite lookup_insert_eq. eexists. split; [done|]. split; [by apply saved_kept|apply saved_sp].
  - intros v [= ->] _. rewrite lookup_insert_eq. by eexists.
  - intros [= ->]. rewrite lookup_insert_eq in Hct. simplify_eq. apply saved_sp.
Qed.

(** [k'] is as good as [k], at the same depth. *)
Record good_next k C k' : Prop := {
  gn_ok : sys_ok (k', C);
  gn_depth : isr_depth k' = isr_depth k;
  gn_csrs : csrs k' = csrs k;
  gn_mem : mem k' = mem k;
  gn_plic : plic k' = plic k;
  gn_causes : same_causes k k';
  gn_kept : tasks_kept None (tcbs k) (tcbs k');
  gn_stay : tasks_stay (tcbs k) (tcbs k');
  gn_sems : semcbs k' = semcbs k;
}.

Lemma same_causes_refl k : same_causes k k.
Proof. intros t c Hc. by exists c. Qed.

Lemma sys_ok_highest k C Q : sys_ok (k, C) -> wf k Q -> is_Some (highest Q).
Proof.
  intros [_ _ _ (c & Hc & Hr & _) _ _] (Hi & _). apply (highest_some_ready k Q Hi). by exists IDLE, c.
Qed.

Lemma switch_causes k k' u frame c t ct : tcbs k !! u = Some c ->
  <[u := saved_tcb frame c]> (tcbs k) !! t = Some ct ->
  tcbs k' = <[t := set_tskstat TTS_RUN ct]> (<[u := saved_tcb frame c]> (tcbs k)) ->
  same_causes k k'.
Proof.
  intros Hc Hct ET v cv Hv. rewrite ET.
  assert (H1 : exists c1, <[u := saved_tcb frame c]> (tcbs k) !! v = Some c1 /\
    wupcause c1 = wupcause cv).
  { destruct (decide (v = u)) as [->|]; [|rewrite lookup_insert_ne by done; by exists cv].
    rewrite lookup_insert_eq. eexists. split; [done|]. simplify_eq. unfold saved_tcb.
    by case_decide. }
  destruct H1 as (c1 & Hc1 & E1). destruct (decide (v = t)) as [->|].
  - rewrite lookup_insert_eq. eexists. split; [done|]. simpl. congruence.
  - rewrite lookup_insert_ne by done. by exists c1.
Qed.

Lemma saved_phase frame c : phase_of (saved_tcb frame c) = phase_of c.
Proof.
  unfold saved_tcb. case_decide as E; [|by apply phase_same].
  rewrite (phase_ready c (or_intror E)). apply phase_ready. by left.
Qed.

(** The requested switch: [schedule] gives the task that should run. *)
Lemma wp_switch k C frame : sys_ok (k, C) -> is_u32 frame -> msip k <> 0 ->
  wp (schedule frame) (fun r k' => good_next k C k' /\ msip k' = 0 /\ switched frame k r k')
    (set_msip 0 k).
Proof.
  intros Hs Hf Hm. pose proof Hs as [[Q Hwf] Hty [u Hu] _ _ _]. simpl in *.
  eapply wp_mono.
  { eapply wp_ty; [by apply ty_schedule|by apply (typed_same k)|].
    eapply (wp_schedule k Q u frame); try done; by eapply sys_ok_highest. }
  intros r k' [Hpost [Hty' _]]. pose proof (schedule_switched k Q u frame r k' Hu Hpost) as Hsw.
  destruct Hpost as (c & t & ct & Hc & _ & Hct & Hrs & _ & -> & Hwf' & _).
  assert (Hk : tasks_kept None (tcbs k)
    (<[t := set_tskstat TTS_RUN ct]> (<[u := saved_tcb frame c]> (tcbs k)))).
  { eapply tasks_kept_trans.
    - apply (tasks_kept_insert None _ u). intros c0 Hc0 _ Ha.
      assert (c0 = c) as -> by congruence. by apply saved_kept.
    - apply tasks_kept_insert. intros c0 Hc0 _ _. assert (c0 = ct) as -> by congruence.
      split; [by right; right|done|by right|done]. }
  split; [|exact (conj eq_refl Hsw)]. split; try done.
  - eapply sys_ok_kept; [exact Hs|by exists Q|exact Hty'|by exists t|done|done|exact Hk].
  - eapply switch_causes; [exact Hc|exact Hct|done].
  - eapply tasks_stay_trans; [by apply (stay_insert _ u c); [|apply saved_phase]|].
    eapply stay_insert; [exact Hct|]. rewrite (phase_ready ct Hrs). apply phase_ready. by right.
Qed.

Lemma wp_serve_switch k C frame : sys_ok (k, C) -> is_u32 frame ->
  wp (serve_switch frame) (fun r k' => good_next k C k' /\ msip k' = 0 /\ switched frame k r k') k.
Proof.
  intros Hs Hf. unfold serve_switch. apply wp_bind, wp_gets. case_decide as E.
  - apply wp_ret. split; [|exact (conj E (switched_refl frame k))]. split; try done;
      [apply same_causes_refl|apply tasks_kept_refl|apply tasks_stay_refl].
  - apply wp_bind, wp_modify. by apply wp_switch.
Qed.

Lemma entered_ok k C : sys_ok (k, C) -> sys_ok (entered k, C).
Proof. intros H. by eapply sys_ok_same. Qed.
Lemma claims_ok src k C : sys_ok (k, C) -> sys_ok (claims src k, C).
Proof. intros H. eapply sys_ok_same; [exact H|done..|by apply plic_ok_same]. Qed.
Lemma ext_entered_ok frame k C : sys_ok (k, C) -> sys_ok (ext_entered frame k, C).
Proof. intros H. unfold ext_entered. case_decide; by eapply sys_ok_same. Qed.

(** What each trap of a task leaves, with [b] in mie. *)
Record trapped (b : Z) C (k' : kernel) : Prop := {
  td_ok : sys_ok (k', C);
  td_depth : isr_depth k' = 0;
  td_msip : msip k' = 0;
  td_mie : mie k' = true;
  td_bits : mie_bits (csrs k') = b;
}.

(** The end of the timer and software entries, after the switch. *)
Lemma returned_trapped k C k1 k2 : good_next k1 C k2 -> msip k2 = 0 ->
  isr_depth k1 = 1 -> csrs k1 = csrs (entered k) -> mie k = true ->
  trapped (mie_bits (csrs k)) C (returned k2).
Proof.
  intros [H1 H2 H3 _ _ _ _ _ _] Hm Hd Ec Hi. unfold returned. split; proj.
  - by eapply sys_ok_same.
  - lia.
  - exact Hm.
  - by rewrite H3, Ec.
  - by rewrite H3, Ec.
Qed.

Lemma wp_mtrap k C frame : sys_ok (k, C) -> is_u32 frame -> isr_depth k = 0 -> mie k = true -> msip k <> 0 ->
  wp (mtrap_handler frame) (fun r k' => trapped (mie_bits (csrs k)) C k' /\
    tasks_stay (tcbs k) (tcbs k') /\ switched frame k r k') k.
Proof.
  intros Hs Hf Hd Hi Hm. unfold mtrap_handler. apply wp_entered, wp_bind, wp_modify, wp_bind.
  eapply wp_mono; [apply (wp_switch (entered k)); [by apply entered_ok|done|done]|].
  intros r k1 (Hg & Hm1 & Hsw). apply wp_trap_leave; [by rewrite (gn_csrs _ _ _ Hg)|].
  split; [|split; [exact (gn_stay _ _ _ Hg)|by destruct Hsw; split]].
  eapply returned_trapped; [exact Hg|exact Hm1| |done|exact Hi]. unfold entered. proj. lia.
Qed.

Lemma aged_woken k Q e k' Q' : aged k Q e k' Q' ->
  only_woken (fun _ => True) (tcbs k) (tcbs k').
Proof.
  intros H t c Hc. destruct (H t c Hc) as (c' & Hc' & Hcase). exists c'. split; [done|].
  destruct Hcase as [(_ & _ & _ & ->)|[(_ & _ & ->)|(_ & Hs & Hr)]];
    [split; [by left|by apply frame_same]..|].
  split; [|destruct Hr as [[_ ->]|[_ ->]]; by apply frame_same].
  right. unfold phase_of at 1. rewrite Hs. split; [done|]. split; [done|]. apply phase_ready.
  destruct Hr as [[_ ->]|[_ ->]]; by left.
Qed.

Lemma aged_kept k Q e k' Q' : aged k Q e k' Q' -> tasks_kept None (tcbs k) (tcbs k').
Proof.
  intros H t c Hc _ Ha. destruct (H t c Hc) as (c' & Hc' & Hcase). exists c'. split; [done|].
  destruct Hcase as [(_ & _ & _ & ->)|[(_ & _ & ->)|(_ & _ & [[_ ->]|[_ ->]])]].
  - by split.
  - by apply task_kept_refl.
  - apply readied_kept.
  - apply readied_kept.
Qed.

(** The handler ages the waits, and then a switch is made if it is requested. *)
(** The switch at the end of the trap leaves the account of the waits right. *)
Lemma ledger_switch e T0 S0 log given k C k' :
  ledger e T0 S0 log given (tcbs k) (semcbs k) -> good_next k C k' ->
  ledger e T0 S0 log given (tcbs k') (semcbs k').
Proof.
  intros Hled [_ _ _ _ _ Hca Hk Hst ->]. eapply ledger_keep; [exact Hled|done|].
  intros t c Hc. destruct (Hca t c Hc) as (c' & Hc' & Ew). exists c'. split; [done|].
  split; [|split; [|done]]; intros Hs.
  - destruct (Hk t c Hc ltac:(done) ltac:(by right)) as (c2 & Hc2 & K).
    assert (c2 = c') as -> by congruence. by apply K.
  - destruct (Hk t c Hc ltac:(done) ltac:(by left)) as (c2 & Hc2 & K).
    assert (c2 = c') as -> by congruence.
    destruct (Hst t c Hc) as (c2 & Hc2' & Ep). assert (c2 = c') as -> by congruence.
    destruct (kept_alive _ _ K) as [?|Hr]; [done|]. unfold by_switching in Ep.
    rewrite (phase_ready c' Hr) in Ep. unfold phase_of in Ep. by rewrite Hs in Ep.
Qed.

(** What the timer interrupt does to the waits of [k]: [n] ticks pass, and the
    account of the waits that end is in [log] and [given]. *)
Definition timer_passed k (n : Z) (log : list (Z * Z)) (given : list Z) k' : Prop :=
  ledger n (tcbs k) (semcbs k) log given (tcbs k') (semcbs k') /\
  forall t c, tcbs k !! t = Some c -> tskstat c = TTS_WAI -> 0 < delay_ticks c <= n ->
    t ∈ log.*1 ++ given.

Lemma wp_timer_trap k C frame : sys_ok (k, C) -> is_u32 frame -> isr_depth k = 0 -> mie k = true ->
  timer_in_reach k -> 0 <= mtimecmp k < 2 ^ 64 ->
  wp (timer_interrupt frame) (fun r k' => trapped (mie_bits (csrs k)) C k' /\
    switched frame k r k' /\ exists Q Q' k1 rd cmp' n,
    wf k Q /\ edges k (s_mtimecmp k) rd cmp' n /\ aged k Q n k1 Q' /\
    tasks_stay (tcbs k1) (tcbs k') /\ exists log given, timer_passed k n log given k') k.
Proof.
  intros Hs Hf Hd Hi Hreach Hcmp. unfold timer_interrupt. apply wp_entered.
  pose proof (entered_ok k C Hs) as He. pose proof He as [[Q Hwf] Hty [u Hu] _ _ _].
  apply wp_bind. eapply wp_mono.
  { eapply wp_ty; [apply ty_timer_handler|exact Hty|].
    apply wp_keeps; [apply keeps_timer_handler|by apply (wp_timer_handler (entered k) Q)]. }
  intros [] k1 [((Q' & rd & cmp' & n & Hed & Hwf1 & Hag & _ & _ & _ & k0 & log & given & Ek0 & Hto) & [G1 G2 G3 _ G5 G6]) [Hty1 _]].
  assert (Hs1 : sys_ok (k1, C)).
  { eapply sys_ok_kept; [exact He|by exists Q'|exact Hty1|rewrite G1; by exists u|by rewrite G3|by rewrite G6|].
    by eapply aged_kept. }
  apply wp_bind. eapply wp_mono; [by apply wp_serve_switch|].
  intros r2 k2 (Hg & Hm2 & Hsw). apply wp_trap_leave; [by rewrite (gn_csrs _ _ _ Hg), G5|].
  split; [|split].
  - eapply returned_trapped; [exact Hg|exact Hm2| |exact G5|exact Hi].
    rewrite G2. unfold entered. proj. lia.
  - eapply (switched_after frame k k1); [|by destruct Hsw; split]. split; [exact G1| |].
    + apply (kept_frames (by_waking (fun _ => True))); [by intros ? ? ? []|by eapply aged_kept|by eapply aged_woken].
    + eapply woken_rise. by eapply aged_woken.
  - exists Q, Q', k1, rd, cmp', n. do 3 (split; [done|]). split; [exact (gn_stay _ _ _ Hg)|].
    destruct Hto as [_ Hled Hdue]. rewrite Ek0 in Hled, Hdue. exists log, given.
    split; [exact (ledger_switch _ _ _ _ _ k1 C k2 Hled Hg)|exact Hdue].
Qed.

(** A run that [wp] describes. *)
Lemma run_wp {A} (m : K A) k a k' (Phi : A -> kernel -> Prop) :
  m k = Ret a k' -> wp m Phi k -> Phi a k'.
Proof. unfold wp. by intros ->. Qed.

(** *** External interrupts, nested as deep as they come *)

Scheme handler_run_mut := Minimality for handler_run Sort Prop
  with external_mut := Minimality for external Sort Prop.
Combined Scheme handler_external_ind from handler_run_mut, external_mut.

(** What an external interrupt leaves, taken at the depth [d] with [b] in mie. *)
Record external_good (d b : Z) (s : sys) : Prop := {
  eg_ok : sys_ok s;
  eg_depth : isr_depth (fst s) = d;
  eg_mie : mie (fst s) = true;
  eg_mpie : mpie (csrs (fst s)) = true;
  eg_bits : mie_bits (csrs (fst s)) = b;
  eg_msip : d = 0 -> msip (fst s) = 0;
}.

(** None stops a task; a nested one, at a depth [d] that is not zero, switches none. *)
Definition ext_moves (d frame : Z) k (r : Z) k' : Prop :=
  switched frame k r k' /\ tasks_rise (tcbs k) (tcbs k') /\ (d <> 0 -> calm k k').

Lemma ext_moves_after d frame k k1 r k' : calm k k1 -> ext_moves d frame k1 r k' ->
  ext_moves d frame k r k'.
Proof.
  intros Hc (H1 & H2 & H3). split; [by eapply switched_after|]. split.
  - eapply tasks_rise_trans; [exact (cm_rise _ _ Hc)|exact H2].
  - intros Hd. eapply calm_trans; [exact Hc|by apply H3].
Qed.

(** What a whole external interrupt, taken in [s] with [frame], leaves. *)
Definition external_ok (s : sys) (frame r : Z) (s' : sys) : Prop :=
  external_good (isr_depth (fst s)) (mie_bits (csrs (fst s))) s' /\
  pl_threshold (plic (fst s')) = pl_threshold (plic (fst s)) /\
  ext_moves (isr_depth (fst s)) frame (fst s) r (fst s').

(** The state inside it, before the handler and after. *)
Record inside (d b frame : Z) (k : kernel) : Prop := {
  in_depth : isr_depth k = d + 1;
  in_mpie : mpie (csrs k) = true;
  in_bits : mie_bits (csrs k) = if decide (d = 0) then Z.ldiff b TASK_TRAPS else b;
  in_slot : d = 0 -> mem k !! mie_slot frame = Some (CWord b);
  in_frame : is_u32 frame;
}.

Lemma ext_entered_inside frame k : mie k = true -> is_u32 frame ->
  inside (isr_depth k) (mie_bits (csrs k)) frame (ext_entered frame k).
Proof.
  intros Hm Hf. unfold ext_entered. case_decide as E; split; proj; try done.
  - by rewrite decide_True.
  - intros _. apply lookup_insert_eq.
  - by rewrite decide_False.
Qed.

Lemma plic_only_ok k C k' : sys_ok (k, C) -> plic_only k k' -> plic_ok (plic k') ->
  sys_ok (k', C).
Proof. intros Hs E Hp. eapply sys_ok_same; [exact Hs|rewrite E; done..|done]. Qed.

(** The end of the handling of a source puts the threshold of [k] back. *)
Lemma finished_plic k k1 k' src on : finished k1 k' src on (pl_threshold (plic k)) ->
  plic_ok (plic k) -> plic_ok (plic k1) -> plic_ok (plic k').
Proof.
  intros (_ & Et & _ & _ & _ & Ep & _) [_ Ht] [Hp _]. split; [|by rewrite Et]. by rewrite Ep.
Qed.

(** A handler runs at the priority of its source. *)
Lemma entry_plic k src : 1 <= src < PLIC_SOURCE_COUNT -> plic_ok (plic k) ->
  plic_ok (plic (handler_entry k src)).
Proof. intros Hs [H1 H2]. split; [exact H1|]. apply (H1 src Hs). Qed.

Lemma handler_of_range k src h : handler_of k src = Some h -> 1 <= src < PLIC_SOURCE_COUNT.
Proof.
  unfold handler_of. destruct (is_intno src) eqn:E; [|done]. apply is_intno_spec in E.
  unfold CFN_MAX_INTNO, PLIC_SOURCE_COUNT in *. lia.
Qed.
Lemma plic_only_inside d b frame k k' : inside d b frame k -> plic_only k k' ->
  inside d b frame k'.
Proof. intros [] ->. by split. Qed.

Lemma claimed_calm frame src k : calm k (ext_entered frame (claims src k)).
Proof. apply calm_same; unfold ext_entered; by case_decide. Qed.
Lemma claimed_threshold frame src k :
  pl_threshold (plic (ext_entered frame (claims src k))) = pl_threshold (plic k).
Proof. unfold ext_entered. by case_decide. Qed.
Lemma plic_only_calm k k0 k' : calm k k0 -> plic_only k0 k' -> calm k k'.
Proof. intros [] ->. by split. Qed.

Lemma wp_external_tail k C frame d b : sys_ok (k, C) -> inside d b frame k ->
  wp (depth <- gets isr_depth ;;
      r <- (if decide (depth = 1) then
              r <- serve_switch frame ;; unmask_traps frame ;;; ret r
            else ret frame) ;;
      on_csrs (set_mpp MPP_M) ;;; LEAVE_ISR ;;; mret ;;; ret r)
    (fun r k' => (external_good d b (k', C) /\ plic k' = plic k) /\ ext_moves d frame k r k') k.
Proof.
  intros Hs [H1 H2 H3 H4 Hf]. apply wp_bind, wp_gets, wp_bind.
  destruct (decide (isr_depth k = 1)) as [E1|E1].
  - assert (Hd : d = 0) by lia. rewrite decide_True in H3 by done.
    apply wp_bind. eapply wp_mono; [by apply wp_serve_switch|]. intros r k1 (Hg & Hm1 & Hsw).
    pose proof (gn_csrs _ _ _ Hg) as Ec. apply wp_bind. eapply wp_unmask.
    { rewrite (gn_mem _ _ _ Hg). by apply H4. }
    apply wp_ret. apply wp_bind, wp_modify, wp_trap_leave; [done|].
    split; [|split; [by destruct Hsw; split|split; [exact (stay_rise _ _ (gn_stay _ _ _ Hg))|done]]].
    split; [|exact (gn_plic _ _ _ Hg)].
    unfold returned. split; proj.
    + eapply sys_ok_same; [exact (gn_ok _ _ _ Hg)|done..].
    + rewrite (gn_depth _ _ _ Hg). lia.
    + simpl. by rewrite Ec.
    + done.
    + simpl. rewrite Ec, H3. apply mask_unmask.
    + intros _. exact Hm1.
  - rewrite decide_False in H3 by lia. apply wp_ret, wp_bind, wp_modify, wp_trap_leave; [done|].
    split; [|split; [by split; [apply frames_kept_refl|..]|split; [apply tasks_rise_refl|]]];
      [|intros _; by apply calm_same].
    split; [|done]. unfold returned. split; proj; try done.
    + by eapply sys_ok_same.
    + lia.
    + lia.
Qed.

Lemma wp_external_trap k C C1 run_handler src frame k1 : sys_ok (k, C) -> mie k = true ->
  is_u32 frame ->
  0 <= src < PLIC_SOURCE_COUNT ->
  let k0 := ext_entered frame (claims src k) in
  let d := isr_depth k in
  let b := mie_bits (csrs k) in
  (forall h, handler_of k0 src = Some h -> run_handler h src (handler_entry k0 src) = Ret tt k1) ->
  (handler_of k0 src <> None -> (sys_ok (k1, C1) /\ inside d b frame k1) /\ calm k k1) ->
  (handler_of k0 src = None -> C1 = C) ->
  wp (external_interrupt run_handler frame)
    (fun r k' => external_ok (k, C) frame r (k', C1)) (claims src k).
Proof.
  intros Hs Hmie Hf Hsrc k0 d b Hrun Hgood Hnone. unfold external_interrupt.
  apply wp_ext_entered. fold k0.
  assert (H0 : sys_ok (k0, C)) by (by apply ext_entered_ok, claims_ok).
  pose proof (claimed_calm frame src k : calm k k0) as Hc0.
  assert (Hin : inside d b frame k0) by (by apply (ext_entered_inside frame (claims src k))).
  assert (Hcl : pl_claim (plic k0) = src) by (unfold k0, ext_entered; by case_decide).
  apply wp_bind. eapply wp_mono.
  { apply (wp_external_interrupt run_handler k0 (fun k => k = k1)); [apply H0|by rewrite Hcl|].
    rewrite Hcl. intros h Hh. eapply wp_run; [by apply Hrun|done]. }
  intros [] k2 Hpost. unfold external_interrupt_post in Hpost. rewrite Hcl in Hpost.
  assert (Hp0 : plic_ok (plic k0)) by apply H0.
  cut ((sys_ok (k2, C1) /\ inside d b frame k2) /\ calm k k2 /\
    pl_threshold (plic k2) = pl_threshold (plic k0)).
  { intros [[H1 H2] [H3 H4]]. eapply wp_mono; [by apply wp_external_tail|].
    intros r k' [[Hg Ep] Hmv]. split; [exact Hg|]. cbn [fst]. rewrite Ep, H4.
    split; [exact (claimed_threshold frame src k)|exact (ext_moves_after _ _ _ _ _ _ H3 Hmv)]. }
  case_decide as E0.
  - assert (EC : C1 = C) by (apply Hnone; by rewrite E0). destruct Hpost as [Hp Ep]. rewrite EC.
    split; [split; [eapply plic_only_ok; [done..|by rewrite Ep]|by eapply plic_only_inside]|].
    split; [exact (plic_only_calm _ _ _ Hc0 Hp)|by rewrite Ep].
  - destruct (handler_of k0 src) as [h|].
    + destruct Hpost as (? & -> & Hfin). destruct (Hgood ltac:(done)) as [[Ha Hb] Hc].
      pose proof Hfin as (Hp & Et & _).
      pose proof (finished_plic _ _ _ _ _ Hfin Hp0 (so_plic _ Ha)) as Hok.
      split; [|split; [by eapply (plic_only_calm k k1)|exact Et]].
      split; [by eapply plic_only_ok|by eapply plic_only_inside].
    + rewrite (Hnone eq_refl). destruct Hpost as (k3 & Hp3 & Ep3 & Hfin).
      pose proof Hfin as (Hp & Et & _). pose proof (plic_only_trans _ _ _ Hp3 Hp) as Hp'.
      assert (Hok3 : plic_ok (plic k3)) by (rewrite Ep3; by apply (plic_ok_same (plic k0))).
      pose proof (finished_plic _ _ _ _ _ Hfin Hp0 Hok3) as Hok.
      split; [split; [by eapply plic_only_ok|by eapply plic_only_inside]|].
      split; [exact (plic_only_calm _ _ _ Hc0 Hp')|exact Et].
Qed.

(** What a handler keeps. *)
Record handler_good (s s' : sys) : Prop := {
  hg_ok : sys_ok s';
  hg_depth : isr_depth (fst s') = isr_depth (fst s);
  hg_mpie : mpie (csrs (fst s')) = true;
  hg_bits : mie_bits (csrs (fst s')) = mie_bits (csrs (fst s));
  hg_calm : calm (fst s) (fst s');
  hg_threshold : pl_threshold (plic (fst s')) = pl_threshold (plic (fst s));
}.

Lemma handler_good_trans s1 s2 s3 : handler_good s1 s2 -> handler_good s2 s3 ->
  handler_good s1 s3.
Proof. intros [] []. split; [done|congruence|done|congruence|by eapply calm_trans|congruence]. Qed.

Lemma handler_good_same k C k' : sys_ok (k', C) -> isr_depth k' = isr_depth k ->
  csrs k' = csrs k -> mpie (csrs k) = true -> calm k k' -> plic k' = plic k ->
  handler_good (k, C) (k', C).
Proof. intros Hs Hd Ec Hp Hc Ep. split; cbn [fst]; by rewrite ?Ec, ?Ep. Qed.

(** The traps that would switch tasks do not come in a handler. *)
Lemma masked_taken k i : masked (csrs k) -> taken k i -> i <> MSI /\ i <> MTI.
Proof. intros [H1 H2] [_ Hi]. split; intros ->; congruence. Qed.

Lemma inside_entry d b frame k k1 : inside d b frame k -> isr_depth k1 = isr_depth k ->
  mpie (csrs k1) = true -> mie_bits (csrs k1) = mie_bits (csrs k) ->
  mem k1 !! mie_slot frame = mem k !! mie_slot frame -> inside d b frame k1.
Proof.
  intros [H1 H2 H3 H4 Hf] E1 E2 E3 E4.
  split; [by rewrite E1|done|by rewrite E3|by rewrite E4|done].
Qed.

(** A handler starts with the traps masked. *)
Lemma inside_masked d b frame k : 0 <= d -> inside d b frame k ->
  (1 <= d -> Z.testbit b MSI = false /\ Z.testbit b MTI = false) -> masked (csrs k).
Proof.
  intros Hd [_ _ H3 _ _] Hm. unfold masked. rewrite H3.
  case_decide; [apply ldiff_masked|apply Hm; lia].
Qed.

(** The state in which a handler starts. *)
Section begins.
Context (k : kernel) (C : gmap Z cont) (frame src : Z).
Let k0 := ext_entered frame (claims src k).
Hypothesis Hs : sys_ok (k, C).
Hypothesis Hmie : mie k = true.
Hypothesis Hf : is_u32 frame.
Hypothesis Hd : 0 <= isr_depth k.
Hypothesis Hmk : 1 <= isr_depth k -> masked (csrs k).

Lemma handler_start : inside (isr_depth k) (mie_bits (csrs k)) frame k0.
Proof using Hmie Hf. by apply (ext_entered_inside frame (claims src k)). Qed.

Lemma handler_begins : 1 <= src < PLIC_SOURCE_COUNT -> sys_ok (handler_entry k0 src, C) /\
  1 <= isr_depth (handler_entry k0 src) /\ masked (csrs (handler_entry k0 src)) /\
  mpie (csrs (handler_entry k0 src)) = true.
Proof using Hs Hmie Hf Hd Hmk.
  intros Hsrc. split; [|split; [|split]].
  - eapply (sys_ok_same k0); [|done..|by apply entry_plic]. by apply ext_entered_ok, claims_ok.
  - pose proof (in_depth _ _ _ _ handler_start) as E. simpl. lia.
  - by apply (inside_masked _ _ _ k0 Hd handler_start).
  - exact (in_mpie _ _ _ _ handler_start).
Qed.

Lemma wp_ext_handled rh h k1 C1 : 0 <= src < PLIC_SOURCE_COUNT -> handler_of k0 src = Some h ->
  rh h src (handler_entry k0 src) = Ret tt k1 ->
  handler_good (handler_entry k0 src, C) (k1, C1) ->
  mem k1 !! mie_slot frame = mem k0 !! mie_slot frame ->
  wp (external_interrupt rh frame) (fun r k' => external_ok (k, C) frame r (k', C1))
    (claims src k).
Proof using Hs Hmie Hf.
  intros Hsrc Hh Hrh [Hs1 Hd1 Hp1 Hb1 Hc1 _] Hmem.
  apply (wp_external_trap k C C1 rh src frame k1); try done.
  - intros h' Hh'. change (handler_of k0 src = Some h') in Hh'.
    assert (h' = h) as -> by congruence. done.
  - intros _. split; [split; [exact Hs1|]|].
    + by apply (inside_entry _ _ _ k0 k1 handler_start).
    + destruct Hc1. eapply calm_trans; [exact (claimed_calm frame src k)|by split].
  - intros Hn. change (handler_of k0 src = None) in Hn. congruence.
Qed.

Lemma wp_ext_ignored rh : 0 <= src < PLIC_SOURCE_COUNT -> handler_of k src = None ->
  wp (external_interrupt rh frame) (fun r k' => external_ok (k, C) frame r (k', C))
    (claims src k).
Proof using Hs Hmie Hf.
  intros Hsrc Hh. assert (Hno : handler_of k0 src = None)
    by (unfold k0, ext_entered; by case_decide).
  apply (wp_external_trap k C C rh src frame k); try done.
  intros h' Hh'. assert (None = Some h') by (rewrite <- Hno; exact Hh'). done.
Qed.
End begins.

(** A handler leaves the system as good as it found it, however its calls and the
    interrupts of it are mixed; and so does the whole interrupt. *)
Lemma handler_external_ok :
  (forall s s', handler_run s s' -> sys_ok s -> 1 <= isr_depth (fst s) ->
     masked (csrs (fst s)) -> mpie (csrs (fst s)) = true -> handler_good s s') /\
  (forall frame r s s', external frame r s s' -> sys_ok s -> 0 <= isr_depth (fst s) ->
     (1 <= isr_depth (fst s) -> masked (csrs (fst s))) ->
     external_ok s frame r s').
Proof.
  apply handler_external_ind; cbn [fst snd].
  - intros [k C] Hs _ _ Hp. by apply handler_good_same; [done..|apply calm_refl|].
  - intros k C a s1 s2 Hi _ IH Hs Hd Hmk Hp.
    assert (Hmb : may_block k = false).
    { destruct (may_block k) eqn:E; [|done]. apply may_block_task in E as (u & _ & _ & E). lia. }
    destruct (invoked_ok k C a s1 Hs) as (Hs1 & Hd1 & Hc1 & Hcur & Ht & Hfr & Hri);
      [intros _ ?; lia| |done|].
    { intros E. by rewrite E in Hmb. }
    rewrite Hmb in Hfr.
    eapply handler_good_trans; [|apply IH; by rewrite ?Hc1, ?Hd1].
    split; cbn [fst]; rewrite ?Hc1; try done. by split; [| |apply Hri].
  - intros k C b s2 _ IH Hs Hd Hmk Hp.
    eapply handler_good_trans; [|by apply IH; [eapply sys_ok_same|..]].
    by apply handler_good_same; [eapply sys_ok_same|..|apply calm_same|].
  - intros k C m r s2 _ IH Hs Hd Hmk Hp.
    eapply handler_good_trans; [|by apply IH; [eapply sys_ok_same|..]].
    by apply handler_good_same; [eapply sys_ok_same|..|apply calm_same|].
  - intros k C frame r k' s2 Ht _ _ _ _ _ _ Hmk _. by destruct (masked_taken k MSI Hmk Ht).
  - intros k C frame r k' s2 Ht _ _ _ _ _ _ Hmk _. by destruct (masked_taken k MTI Hmk Ht).
  - intros k C f r s1 s2 _ IH1 _ IH2 Hs Hd Hmk Hp.
    destruct (IH1 Hs ltac:(lia) (fun _ => Hmk)) as ([Hs1 Hd1 _ Hp1 Hb1 _] & Et & _ & _ & Hcm). cbn [fst] in *.
    eapply handler_good_trans.
    { split; [exact Hs1|exact Hd1|exact Hp1|exact Hb1|apply Hcm; lia|exact Et]. }
    apply IH2; [exact Hs1|lia| |exact Hp1]. unfold masked. by rewrite Hb1.
  - intros k C rh h src frame k1 C1 r k' [Hmie _] Hf Hsrc Hh Hrh _ IH _ Hmem Hrun Hs Hd Hmk.
    refine (run_wp _ _ _ _ (fun r k' => external_ok (k, C) frame r (k', C1)) Hrun _).
    eapply wp_ext_handled; [done..| |exact Hmem].
    apply IH; by eapply (handler_begins k C frame src), handler_of_range.
  - intros k C rh src frame r k' [Hmie _] Hf Hsrc Hh Hrun Hs Hd Hmk.
    refine (run_wp _ _ _ _ (fun r k' => external_ok (k, C) frame r (k', C)) Hrun _).
    by apply wp_ext_ignored.
Qed.

(** While the handler of an interrupt taken in [k] runs. *)
Lemma handler_run_good k C frame src h s1 : sys_ok (k, C) -> mie k = true -> is_u32 frame ->
  0 <= isr_depth k -> (1 <= isr_depth k -> masked (csrs k)) ->
  let k0 := ext_entered frame (claims src k) in
  handler_of k0 src = Some h -> handler_run (handler_entry k0 src, C) s1 ->
  handler_good (handler_entry k0 src, C) s1.
Proof.
  intros Hs Hmie Hf Hd Hmk k0 Hh Hr. apply (proj1 handler_external_ok _ _ Hr);
    apply (handler_begins k C frame src Hs Hmie Hf Hd Hmk); by eapply handler_of_range.
Qed.

(** ** The theorems of the system *)

#[export] Instance keeps_resume co : Keeps (resume co).
Proof. destruct co; simpl; apply _. Qed.

Lemma ty_resume co : Keep (resume co).
Proof.
  destruct co; simpl; [apply ty_slp_resume|apply ty_dly_resume|apply ty_dly_yield|apply ty_sem_resume
    |apply ty_flg_resume|apply ty_mbx_resume|by apply ty_ret].
Qed.

Definition top_ok (s : sys) : Prop :=
  sys_ok s /\ isr_depth (fst s) = 0 /\ unmasked (csrs (fst s)).

Lemma quiet_runs k t : runs k t -> quiet k.
Proof. intros (_ & _ & Hm & _) _ _. exact Hm. Qed.

Lemma kept_step k C k' : sys_ok (k, C) -> same_globals k k' -> typed k' ->
  (exists Q, wf k' Q) /\ tasks_kept None (tcbs k) (tcbs k') ->
  sys_ok (k', C) /\ isr_depth k' = isr_depth k /\ csrs k' = csrs k.
Proof.
  intros Hs [G1 G2 G3 _ G5 G6] Hty [Hwf Hk]. split; [|done]. pose proof Hs as [_ _ [t Ht] _ _ _].
  eapply sys_ok_kept; [exact Hs|exact Hwf|exact Hty|rewrite G1; by exists t|by rewrite G3|by rewrite G6|exact Hk].
Qed.

Lemma top_same k k' C : top_ok (k, C) -> sys_ok (k', C) ->
  isr_depth k' = isr_depth k /\ csrs k' = csrs k -> top_ok (k', C).
Proof. intros (_ & Hd & Hu) Hs [E1 E2]. split; [done|]. simpl in *. by rewrite E1, E2. Qed.

Lemma trapped_top k k' C : unmasked (csrs k) -> trapped (mie_bits (csrs k)) C k' ->
  top_ok (k', C).
Proof.
  intros Hu [H1 H2 _ _ H5]. split; [done|]. split; [done|]. unfold unmasked in *. simpl.
  by rewrite H5.
Qed.

(** The idle task between two of its calls. *)
Lemma idle_task_round k C : sys_ok (k, C) -> runs k IDLE ->
  exists b, tkmc_idle_can_halt (set_mie false k) = Ret b (set_mie false k) /\
    tkmc_idl_tsk k = Ret tt (set_wfi_log (if b then false :: wfi_log k else wfi_log k) k) /\
    (b = true <-> forall u cu, tcbs k !! u = Some cu -> ready_stat cu -> u = IDLE).
Proof.
  intros [[Q Hwf] _ _ (c & Hc & Hr & Hp) _ _] (_ & _ & _ & Hcur). by eapply idle_round.
Qed.

(** What a step establishes: the invariant, and that nothing moves the frame of a
    task that does not run. *)
Definition next_ok (s s' : sys) : Prop :=
  top_ok s' /\ frames_kept (current (fst s)) (tcbs (fst s)) (tcbs (fst s')).

Lemma next_same k C k' : top_ok (k, C) -> (forall Q, wf k Q -> wf k' Q) -> same_blocks k k' ->
  current k' = current k -> s_handlers k' = s_handlers k -> plic k' = plic k ->
  isr_depth k' = isr_depth k /\ csrs k' = csrs k -> next_ok (k, C) (k', C).
Proof.
  intros Ht Hw Hb Ec Eh Ep Ek. split.
  - eapply top_same; [exact Ht| |exact Ek]. eapply sys_ok_same; [apply Ht|done..|by rewrite Ep].
  - destruct Hb as [E _]. cbn [fst]. rewrite E. apply frames_kept_refl.
Qed.

(** The running task gives way, or takes the rest of a call. *)
Lemma yield_next k C t k' : top_ok (k, C) -> runs k t -> tkmc_yield k = Ret tt k' ->
  next_ok (k, C) (k', C).
Proof.
  intros Htop Hr E. pose proof Htop as (Hs & _). pose proof Hs as [[Q Hwf] Hty _ _ _ _].
  destruct (runs_tcb k Q t Hwf Hr) as (c & Hc & Es & _). destruct Hr as (_ & _ & _ & Hcur).
  destruct (run_wp _ _ _ _ _ E (wp_tail_yield k Q t c Hwf Hcur Hc (or_intror Es)))
    as (Hwf' & ET & _).
  destruct (kept_step k C k' Hs) as [H1 H2]; [by eapply keeps_yield|by eapply ty_yield| |].
  { rewrite ET. split; [done|apply tasks_kept_refl]. }
  split; [by eapply top_same|]. cbn [fst]. rewrite ET. apply frames_kept_refl.
Qed.

Lemma resume_next k C t co z k' : top_ok (k, C) -> runs k t -> C !! t = Some co ->
  resume co k = Ret z k' -> next_ok (k, C) (k', delete t C).
Proof.
  intros Htop Hr HC E. pose proof Htop as (Hs & _). pose proof Hs as [[Q Hwf] Hty _ _ _ _].
  destruct (runs_tcb k Q t Hwf Hr) as (c & Hc & _).
  destruct (run_wp _ _ _ _ _ E (wp_resume k C t co c Hs Hr HC Hc)) as [_ Hwf' Hk Hst _ _].
  destruct (kept_step k C k' Hs) as [H1 H2];
    [by eapply keeps_resume|by eapply (ty_resume co)|done|]. split.
  - destruct (top_same k k' C Htop H1 H2) as (? & ?). split; [by apply sys_ok_delete|done].
  - apply frames_kept_weaken, (kept_frames by_running); [by intros ? ? ? []|exact Hk|exact Hst].
Qed.

Lemma external_next frame r s s' : top_ok s -> external frame r s s' ->
  next_ok s s' /\ switched frame (fst s) r (fst s').
Proof.
  intros (Hs & Hd & Hu) He.
  destruct (proj2 handler_external_ok _ _ _ _ He Hs) as ([H1 H2 _ _ H5 _] & _ & [Hsw _]); [lia..|].
  split; [|exact Hsw]. split; [|apply Hsw]. split; [done|]. split; [congruence|]. unfold unmasked. rewrite H5. exact Hu.
Qed.

Lemma step_next s s' : top_ok s -> step s s' -> next_ok s s'.
Proof.
  intros Htop Hst. pose proof Htop as (Hs & Hd & Hu).
  destruct Hst as [k C t a s Hq Hc Hid HC Hi|k C b _|k C t k' Hr _ E|k C k' Hr E|
    k C t co z k' Hr HC E|k C frame r k' [Hmie _] Hm Hf E|k C frame r k' [Hmie _] H1 H2 Hf E|
    k C frame r s He|k C M r]; cbn [fst snd] in *.
  - destruct (invoked_ok k C a s Hs Hq) as (Hs' & Hd' & Hc' & _ & _ & Hfr & _); [|done|].
    { intros _ t' Ht'. by assert (t' = t) as -> by congruence. }
    split; [split; [done|by rewrite Hd', Hc']|].
    cbn [fst]. destruct (may_block k); [done|by apply frames_kept_weaken].
  - by apply next_same.
  - by eapply yield_next.
  - destruct (idle_task_round k C Hs Hr) as (b' & _ & E' & _). rewrite E' in E.
    injection E as <-. by apply next_same.
  - by eapply resume_next.
  - destruct (run_wp _ _ _ _ _ E (wp_mtrap k C frame Hs Hf Hd Hmie Hm)) as (Htd & _ & Hsw).
    split; [by eapply trapped_top|apply Hsw].
  - destruct (run_wp _ _ _ _ _ E (wp_timer_trap k C frame Hs Hf Hd Hmie H1 H2)) as (Htd & Hsw & _).
    split; [by eapply trapped_top|apply Hsw].
  - by apply (external_next frame r).
  - by apply next_same.
Qed.

Lemma stack_u32 a : stack_ok a -> is_u32 a.
Proof. unfold stack_ok, is_u32, TKMC_UINTPTR_MAX, TASK_STACK_BYTES. lia. Qed.

Lemma initial_ok s : initial s -> top_ok s.
Proof.
  destruct s as [k C]. intros (ini & idl & a0 & msgs & clk0 & mem0 & csrs0 & r & H1 & H2 & H3 & H4 & E & EC).
  cbn [fst snd] in *. subst C.
  destruct (run_wp _ _ _ _ _ E (wp_tkmc_start ini idl a0 msgs clk0 mem0 _ H1 H2 H3 H4))
    as [_ Hwf Hcur _ _ Hd _ Er ET _ _ _ _ _ _ _ Hh Hpri _ Hth].
  split; [|split; [exact Hd|simpl; rewrite Er; apply reset_unmasked]]. split; cbn [fst snd].
  - exact Hwf.
  - eapply (ty_start ini idl a0); [by apply stack_u32|by apply stack_u32| |exact E]. apply ty_bss.
  - by exists 0.
  - rewrite ET. unfold IDLE. rewrite lookup_insert_ne, lookup_insert_eq by done.
    eexists. split; [done|]. split; [by left|done].
  - intros i Hi. rewrite Hh by done. by eexists.
  - intros t co Ht. by rewrite lookup_empty in Ht.
  - split; [|by rewrite Hth]. intros src Hsrc. by rewrite (Hpri src Hsrc).
Qed.

Lemma reachable_top s : reachable s -> top_ok s.
Proof.
  intros (s0 & Hi & Hr). apply initial_ok in Hi.
  induction Hr as [|s1 s2 s3 Hst _ IH]; [done|]. apply IH. by eapply step_next.
Qed.

(** C1: Every state the system can reach from the boot, by calls of tasks, handlers
    that nest, timer interrupts, task switches and the rests of calls, in any order,
    satisfies the whole invariant: lists, control blocks and waits agree, nobody
    waits for what is there, a task runs, the idle task is ready, every task inside
    a call waits in the way its call needs. *)
Theorem reachable_ok s : reachable s ->
  sys_ok s /\ isr_depth (fst s) = 0 /\ unmasked (csrs (fst s)).
Proof. apply reachable_top. Qed.

(** C10: In every state that can be reached, every field of every control block of a
    task, semaphore, event flag and mailbox is a value of its C type, and the
    semaphore a wait names is one of the table. *)
Theorem reachable_typed s : reachable s -> typed (fst s).
Proof. intros Hs%reachable_top. apply Hs. Qed.

(** C3: In every state that can be reached and in which no switch is requested, the
    current task is the one running, no ready task has a higher priority, and no
    other task is in the state RUN. *)
Theorem runs_the_highest k C t : reachable (k, C) -> current k = Some t -> msip k = 0 ->
  exists c, tcbs k !! t = Some c /\ tskstat c = TTS_RUN /\
    forall u cu, tcbs k !! u = Some cu -> ready_stat cu ->
      itskpri c <= itskpri cu /\ (tskstat cu = TTS_RUN -> u = t).
Proof.
  intros Hre Hc Hm. destruct (reachable_top _ Hre) as [[[Q Hwf] _ _ _ _ _] _]. cbn [fst] in Hwf.
  pose proof Hwf as (Hi & _ & Hsch). destruct (proj1 (Hsch t Hc) Hm) as (Hh & c & Htc & Hs).
  exists c. split; [done|]. split; [done|]. intros u cu Hu Hru. split.
  - destruct (highest_ready k Q t Hi Hh) as (c' & xs & Hc' & _ & Hq).
    assert (c' = c) as -> by congruence. by eapply highest_least.
  - intros Hru'. destruct Hi as (_ & _ & Ha). pose proof (ai_run _ _ _ _ _ _ Ha u cu Hu Hru').
    congruence.
Qed.

(** C2: In every state that can be reached with interrupts on, the three interrupts
    are let in, and whatever comes next comes to an end: every call the running task
    may make, the rest of the call it slept in, the requested task switch, the timer
    interrupt, and an external interrupt whose handler ends; no list walk runs out,
    nothing undefined happens. *)
Theorem always_goes_on k C : reachable (k, C) -> mie k = true ->
  (taken k MSI /\ taken k MTI /\ taken k MEI) /\
  (forall a, msip k = 0 -> admissible a k -> exists r k', invoke a k = Ret r k') /\
  (forall t co, msip k = 0 -> current k = Some t -> C !! t = Some co ->
     exists z k', resume co k = Ret z k') /\
  (forall frame, is_u32 frame -> msip k <> 0 -> exists r k', mtrap_handler frame k = Ret r k') /\
  (forall frame, is_u32 frame -> timer_in_reach k -> 0 <= mtimecmp k < 2 ^ 64 ->
     exists r k', timer_interrupt frame k = Ret r k') /\
  (forall run_handler frame src, is_u32 frame -> 0 <= src < PLIC_SOURCE_COUNT ->
     let k0 := ext_entered frame (claims src k) in
     (forall h, handler_of k0 src = Some h -> exists k1 C1,
        run_handler h src (handler_entry k0 src) = Ret tt k1 /\
        handler_run (handler_entry k0 src, C) (k1, C1) /\
        mem k1 !! mie_slot frame = mem k0 !! mie_slot frame) ->
     exists r k', external_interrupt run_handler frame (claims src k) = Ret r k').
Proof.
  intros Hre Hmie. destruct (reachable_top _ Hre) as (Hs & Hd & Hu). cbn [fst] in Hd, Hu.
  pose proof Hs as [[Q Hwf] Hty _ _ _ _].
  assert (Hret : forall {A} (m : K A) Phi k0, wp m Phi k0 -> exists a k', m k0 = Ret a k').
  { intros A m Phi k0 (a & k' & E & _)%wp_returns. by exists a, k'. }
  split; [split; [|split]; (split; [exact Hmie|apply Hu])|]. split; [|split; [|split; [|split]]].
  - intros a Hm Ha. eapply Hret, (wp_invoke k Q); [exact Hwf| |exact Ha]. by intros _ _.
  - intros t co Hm Hc HC. assert (Hr : runs k t) by (by repeat split).
    destruct (runs_tcb k Q t Hwf Hr) as (c & Htc & _). by eapply Hret, (wp_resume k C t co c).
  - intros frame Hf Hm. by eapply Hret, (wp_mtrap k C).
  - intros frame Hf H1 H2. by eapply Hret, (wp_timer_trap k C).
  - intros rh frame src Hf Hsrc k0 Hrun.
    destruct (handler_of k0 src) as [h|] eqn:Eh.
    + destruct (Hrun h eq_refl) as (k1 & C1 & E & Hr & Hmem).
      eapply Hret, (wp_ext_handled k C frame src Hs Hmie Hf rh h k1 C1); try done.
      eapply handler_run_good; [done..|by rewrite Hd| |exact Eh|exact Hr].
      rewrite Hd. intros; lia.
    + eapply Hret, (wp_ext_ignored k C frame src Hs Hmie Hf); [done|].
      by rewrite <- Eh; unfold k0, ext_entered; case_decide.
Qed.

(** C8: The rest of every call that waited, taken by its task once it runs again,
    returns the cause of the wake-up (E_OK for a delay that ran its time) and takes
    it, and stores the pattern of the flag or the message for the caller exactly if
    the cause is E_OK. *)
Theorem resume_returns k C t co c : reachable (k, C) -> runs k t -> C !! t = Some co ->
  tcbs k !! t = Some c ->
  exists k', resume co k = Ret (resumed_with co c) k' /\ mem k' = stored_by co c (mem k) /\
    (waited co = true -> (wupcause <$> tcbs k' !! t) = Some E_OK) /\ exists Q', wf k' Q'.
Proof.
  intros Hre Hr HC Hc. destruct (reachable_top _ Hre) as (Hs & _).
  destruct (proj1 (wp_returns _ _ _) (wp_resume k C t co c Hs Hr HC Hc))
    as (r & k' & E & [-> H2 _ _ H4 H5]). by exists k'.
Qed.


(** C5: A task that waits with a time limit is ready again after the first timer
    interrupt taken once its ticks are over: with E_TMOUT, or with E_OK if the
    interrupt gave it the units it waited for. The account of the interrupt says
    which: the waits that timed out, in order of deadline; the tasks that were given
    units, each by one that timed out on the same semaphore no later than its own
    deadline; the semaphores have exactly the units less that were given; and every
    other wait goes on. *)
Theorem timeout_delivered k C frame r k' t c : reachable (k, C) ->
  taken k MTI -> timer_in_reach k -> 0 <= mtimecmp k < 2 ^ 64 -> is_u32 frame ->
  timer_interrupt frame k = Ret r k' ->
  tcbs k !! t = Some c -> tskstat c = TTS_WAI -> 0 < delay_ticks c ->
  s_mtimecmp k + (delay_ticks c - 1) * TICK_COUNTS <= clk k (reads k) ->
  exists n log given, delay_ticks c <= n /\
    ledger n (tcbs k) (semcbs k) log given (tcbs k') (semcbs k') /\
    exists c', tcbs k' !! t = Some c' /\ ready_stat c' /\
      (wupcause c' = E_TMOUT /\ (t, delay_ticks c) ∈ log \/ wupcause c' = E_OK /\ t ∈ given).
Proof.
  intros Hre [Hmie _] H1 H2 Hf E Hc Hs Hd Hover. destruct (reachable_top _ Hre) as (Hok & Hdep & _).
  destruct (run_wp _ _ _ _ _ E (wp_timer_trap k C frame Hok Hf Hdep Hmie H1 H2))
    as (_ & _ & Q & Q' & k1 & rd & cmp' & n & Hwf & Hed & _ & _ & log & given & Hled & Hdue).
  assert (Hn : delay_ticks c <= n).
  { destruct Hed as (Ecmp & _ & _ & (m & Hm & Hlt) & _). destruct H1 as (Hclk & _).
    pose proof (clock_le (clk k) (reads k) m Hclk ltac:(lia)). unfold TICK_COUNTS in *. nia. }
  exists n, log, given. split; [exact Hn|]. split; [exact Hled|].
  destruct (proj1 (elem_of_app _ _ _) (Hdue t c Hc Hs (conj Hd Hn))) as [Hin|Hin].
  - apply list_elem_of_fmap in Hin as ([t' x] & Et & Hin). simpl in Et. subst t'.
    destruct (lg_timeout _ _ _ _ _ _ _ Hled t x Hin) as (_ & c0 & c' & Hc0 & _ & <- & Hc' & Hr & Hw).
    assert (c0 = c) as -> by congruence. exists c'. split; [done|]. split; [done|]. by left.
  - destruct (lg_given _ _ _ _ _ _ _ Hled t Hin)
      as (s & v & x & c0 & c' & _ & _ & _ & _ & _ & Hc' & Hr & Hw).
    exists c'. split; [done|]. split; [done|]. by right.
Qed.

(** C6: In every state that can be reached, a task that waits is queued on the
    object it waits for, and that object cannot serve it: a semaphore has fewer
    units than it asks for (under TA_FIRST, fewer than the first waiter asks for),
    the pattern of a flag does not satisfy it, a mailbox is empty. *)
Theorem no_idle_wait k C t c : reachable (k, C) -> tcbs k !! t = Some c -> tskstat c = TTS_WAI ->
  exists Q, wf k Q /\
  match winfo c with
  | WSemaphore cnt s => tskwait c = TTW_SEM -> inq Q (LSem s) (LWait t) /\
      exists sc, semcbs k !! s = Some sc /\
      if decide (Z.land (sematr sc) TA_CNT = 0)
      then exists u cu n ws, Q !! LSem s = Some (LWait u :: ws) /\
        tcbs k !! u = Some cu /\ winfo cu = WSemaphore n s /\ semcnt sc < n
      else semcnt sc < cnt
  | WEventFlag waiptn wfmode _ => tskwait c = TTW_FLG ->
      exists f fc, inq Q (LFlg f) (LWait t) /\ flgcbs k !! f = Some fc /\
        check_ptn (flgptn fc) waiptn wfmode = false
  | WMailbox _ => tskwait c = TTW_MBX ->
      exists m, inq Q (LMbx m) (LWait t) /\ Q !! LMbxq m = Some []
  | WInfoZero => True
  end.
Proof.
  intros Hre Hc Hs. destruct (reachable_top _ Hre) as [[[Q Hwf] _ _ _ _ _] _]. cbn [fst] in Hwf.
  exists Q. split; [done|]. destruct Hwf as ((Hr & _ & Ha) & [[HS HF] _] & _).
  destruct (waiting_in Ha t c Hc Hs) as (_ & _ & Hw). destruct (winfo c) as [|w m x|cnt s|x] eqn:Ew;
    [done|..]; intros Hk; destruct Hw as [[?|?] ?|? s' Hk' Ew' Hi|f ? ? ? Hk' Ew' Hi|m' ? Hk' Ew' Hi];
    try (exfalso; stats; lia); try congruence.
  - destruct Hi as (ws & Hq & Hin). pose proof (ai_kind _ _ _ _ _ _ Ha (LFlg f) (LWait t)) as [_ Hf].
    { by exists ws. }
    destruct (ai_flg _ _ _ _ _ _ Ha f Hf) as (fc & Efc & [(Hid & _)|(_ & Hfree)]).
    2:{ exfalso. apply (rep_inq_no_head _ _ _ _ Hr) in Hfree. congruence. }
    exists f, fc. split; [by exists ws|]. split; [done|]. pose proof (HF f fc Efc ws Hid Hq) as Hm.
    rewrite Forall_forall in Hm. specialize (Hm _ Hin). unfold wmatch, waiter in Hm.
    by rewrite Hc, Ew in Hm.
  - assert (s' = s) as -> by congruence. destruct Hi as (ws & Hq & Hin).
    pose proof (ai_kind _ _ _ _ _ _ Ha (LSem s) (LWait t)) as [_ Hf]; [by exists ws|].
    destruct (ai_sem _ _ _ _ _ _ Ha s Hf) as (sc & Esc & [(Hid & _)|(_ & Hfree)]).
    2:{ exfalso. apply (rep_inq_no_head _ _ _ _ Hr) in Hfree. congruence. }
    split; [by exists ws|]. exists sc. split; [done|]. pose proof (HS s sc Esc ws Hid Hq) as Hm. case_decide as Hcnt.
    + destruct ws as [|n ws]; [by apply elem_of_nil in Hin|]. specialize (Hm n eq_refl).
      destruct (waiter_sem Hr Ha s n) as (u & cu & d & -> & _ & Hcu & _ & _ & Ewu);
        [exists (n :: ws); split; [done|by left]|].
      exists u, cu, d, ws. split; [done|].
      unfold wreq, waiter in Hm. by rewrite Hcu, Ewu in Hm.
    + rewrite Forall_forall in Hm. specialize (Hm _ Hin).
      unfold wreq, waiter in Hm. by rewrite Hc, Ew in Hm.
  - destruct Hi as (ws & Hq & Hin).
    pose proof (ai_kind _ _ _ _ _ _ Ha (LMbx m') (LWait t)) as [_ Hf]; [by exists ws|].
    destruct (ai_mbx _ _ _ _ _ _ Ha m' Hf) as (mc & _ & [(_ & ws' & ms & Hq' & Hqm & _ & Hor)|(_ & Hfree & _)]).
    2:{ exfalso. apply (rep_inq_no_head _ _ _ _ Hr) in Hfree. congruence. }
    exists m'. split; [by exists ws|]. destruct Hor as [->| ->]; [|done]. simplify_eq. by apply elem_of_nil in Hin.
Qed.

(** ** A task restarted before it was switched out *)

Lemma sta_started k Q id stacd c k' (H : sta_tsk_post k Q id stacd E_OK k') :
  tcbs k !! (id - 1) = Some c -> tskstat c = TTS_DMT ->
  (exists Q', wf k' Q') /\ current k' = current k /\
  tcbs k' !! (id - 1) = Some (started_tcb c).
Proof.
  intros Hc Hs. destruct H as (Q' & Hwf' & H).
  destruct (tkmc_id_in_range id CFN_MAX_TSKID); [|by destruct H].
  destruct H as (c' & Hc' & H). assert (c' = c) as -> by congruence.
  rewrite decide_True in H by done.
  destruct H as (_ & k1 & (_ & L & m & _ & _ & _ & _ & ->) & ->). split; [by exists Q'|].
  unfold resched, with_lt. repeat case_decide; proj; (split; [done|apply lookup_insert_eq]).
Qed.

(** C35: If a task has ended but is still current, as long as the switch is pending,
    [tk_sta_tsk] starts it with success on a fresh first frame, and the switch that
    follows then replaces its stack pointer by the frame of the old run: the task
    goes on there instead. *)
Theorem restart_keeps_old_frame k Q t c stacd frame : wf k Q -> 0 <= t < CFN_MAX_TSKID ->
  current k = Some t -> tcbs k !! t = Some c -> tskstat c = TTS_DMT ->
  exists k1 r k2 c2, tk_sta_tsk (t + 1) stacd k = Ret E_OK k1 /\
    (sp <$> tcbs k1 !! t) = Some (initial_sp c) /\ msip k1 <> 0 /\
    schedule frame (set_msip 0 k1) = Ret r k2 /\
    tcbs k2 !! t = Some c2 /\ sp c2 = frame /\ initial_sp c2 = initial_sp c.
Proof.
  intros Hwf Ht Hcur Hc Hs. assert (Et : t + 1 - 1 = t) by lia.
  destruct (proj1 (wp_returns _ _ _) (wp_sta_tsk k Q (t + 1) stacd Hwf)) as (r1 & k1 & E1 & H1).
  assert (r1 = E_OK) as ->.
  { destruct H1 as (Q' & _ & H). rewrite (proj2 (id_in_range_spec _ _)) in H by lia.
    destruct H as (c' & Hc' & H). rewrite Et in Hc'. simplify_eq.
    rewrite decide_True in H by done. by destruct H. }
  destruct (sta_started _ _ _ _ c _ H1) as ((Q1 & Hwf1) & Ec1 & Hc1); [by rewrite Et|done|].
  rewrite Et in Hc1. assert (Hcur1 : current k1 = Some t) by congruence.
  assert (Hm1 : msip k1 <> 0).
  { intros Hm. destruct Hwf1 as (_ & _ & Hsch). destruct (proj1 (Hsch t Hcur1) Hm) as (_ & c' & Hc' & Hr).
    simplify_eq. }
  assert (Hh : is_Some (highest Q1)).
  { apply (highest_some_ready k1); [apply Hwf1|]. exists t, (started_tcb c). split; [done|]. by left. }
  destruct (proj1 (wp_returns _ _ _) (wp_schedule k1 Q1 t frame Hwf1 Hm1 Hcur1 Hh))
    as (r & k2 & E2 & c' & u & ct & Hc' & _ & Hct & _ & _ & Ek & _).
  assert (c' = started_tcb c) as -> by congruence.
  assert (Hr2 : exists c2, tcbs k2 !! t = Some c2 /\ sp c2 = frame /\ initial_sp c2 = initial_sp c).
  { rewrite Ek. proj. assert (Hsv : saved_tcb frame (started_tcb c) = set_sp frame (started_tcb c)) by done.
    rewrite Hsv in Hct |- *. destruct (decide (u = t)) as [->|Hne].
    - rewrite lookup_insert_eq in Hct. simplify_eq. rewrite lookup_insert_eq. by eexists.
    - rewrite lookup_insert_ne, lookup_insert_eq by done. by eexists. }
  destruct Hr2 as (c2 & Hc2 & Hsp & Hi2). exists k1, r, k2, c2. rewrite Hc1. by repeat split.
Qed.
