(* ===== verification/Nesting.v ===== *)
(** * How deep interrupts nest

    The PLIC interrupts only for a source whose priority is above the threshold, and
    the handler of a source runs with the priority of the source as threshold. So
    each level of nesting has a higher threshold than the one it interrupts, and
    there are no more levels than priorities. *)

From S2P Require Import Prelude DList Tkernel Kernel Inv Moves Rules Wait Sched Check Timer.
From S2P Require Import Block TimerHandler Task Semaphore EventFlag Mailbox IntCtl Start Boot.
From S2P Require Import Trap KernelTasks Types Globals Calls System.

Open Scope Z_scope.
Implicit Types (k : kernel) (C : gmap Z cont) (s : sys) (frame src : Z).

(** The sources that the PLIC lets interrupt: those that are on, with a priority
    above the threshold. *)
Definition deliverable (p : PLIC) src : Prop :=
  plic_enabled p src = true /\ pl_threshold p < default 0 (pl_priority p !! src).

(** In [k] an external interrupt of [src] is taken, and the handler [h] is called. *)
Definition interrupts k frame src (h : text) : Prop :=
  taken k MEI /\ is_u32 frame /\ deliverable (plic k) src /\ handler_of k src = Some h.

(** The state in which the handler starts, and one while it runs. *)
Definition handler_at k frame src : kernel := handler_entry (ext_entered frame (claims src k)) src.

(** The states inside handlers, of an interrupt of a task and of one of a handler;
    [k0] is the state in which the task was interrupted. *)
Inductive in_handler : kernel -> sys -> Prop :=
  | in_first k C frame src h s :
      reachable (k, C) -> interrupts k frame src h ->
      handler_run (handler_at k frame src, C) s -> in_handler k s
  | in_nested k0 k C frame src h s :
      in_handler k0 (k, C) -> interrupts k frame src h ->
      handler_run (handler_at k frame src, C) s -> in_handler k0 s.

(** What holds there, and that no task was switched since [k0]. *)
Record handler_ok k0 s : Prop := {
  ho_ok : sys_ok s;
  ho_masked : masked (csrs (fst s));
  ho_low : 1 <= isr_depth (fst s) <= pl_threshold (plic (fst s));
  ho_high : pl_threshold (plic (fst s)) <= PLIC_MAX_PRIORITY;
  ho_calm : calm k0 (fst s);
}.

Lemma handler_of_claimed k frame src :
  handler_of (ext_entered frame (claims src k)) src = handler_of k src.
Proof. unfold ext_entered. by case_decide. Qed.

Lemma claimed_priority k frame src :
  pl_threshold (plic (handler_at k frame src)) = default 0 (pl_priority (plic k) !! src).
Proof. unfold handler_at, ext_entered. by case_decide. Qed.

Lemma claimed_depth k frame src : isr_depth (handler_at k frame src) = isr_depth k + 1.
Proof. unfold handler_at, ext_entered. by case_decide. Qed.

Lemma claimed_at k frame src : calm k (handler_at k frame src).
Proof. apply calm_same; unfold handler_at, ext_entered; by case_decide. Qed.

(** One more level. *)
Lemma interrupts_ok k C frame src h s : sys_ok (k, C) ->
  0 <= isr_depth k <= pl_threshold (plic k) -> (1 <= isr_depth k -> masked (csrs k)) ->
  interrupts k frame src h -> handler_run (handler_at k frame src, C) s -> handler_ok k s.
Proof.
  intros Hs [Hd Hle] Hmk ([Hmie _] & Hf & [_ Hth] & Hh) Hr.
  pose proof (handler_of_range _ _ _ Hh) as Hsrc.
  rewrite <- (handler_of_claimed k frame) in Hh.
  destruct (handler_run_good k C frame src h s Hs Hmie Hf Hd Hmk Hh Hr) as [H1 H2 _ H4 H5 H6].
  destruct (handler_begins k C frame src Hs Hmie Hf Hd Hmk Hsrc) as (_ & _ & Hm & _).
  change (handler_entry (ext_entered frame (claims src k)) src) with (handler_at k frame src) in *.
  cbn [fst] in H2, H4, H5, H6. pose proof (claimed_depth k frame src) as Ed.
  pose proof (claimed_priority k frame src) as Ep.
  pose proof (po_priority _ (so_plic _ Hs) src Hsrc) as Hpri. cbn [fst] in Hpri.
  split; [exact H1| |lia|lia|]; [unfold masked in *; by rewrite H4|].
  eapply calm_trans; [exact (claimed_at k frame src)|exact H5].
Qed.

Lemma in_handler_ok k0 s : in_handler k0 s -> handler_ok k0 s.
Proof.
  induction 1 as [k C frame src h s Hre Hi Hr|k0 k C frame src h s _ [H1 H2 H3 H4 H5] Hi Hr].
  - destruct (reachable_top _ Hre) as (Hs & Hd & _). cbn [fst] in Hd.
    eapply interrupts_ok; [exact Hs| |rewrite Hd; lia|exact Hi|exact Hr].
    rewrite Hd. split; [lia|]. apply (po_threshold _ (so_plic _ Hs)).
  - cbn [fst] in *. destruct (interrupts_ok k C frame src h s H1 ltac:(lia) (fun _ => H2) Hi Hr).
    split; try done. by eapply calm_trans.
Qed.

(** A whole interrupt of a handler gives back the frame it was entered with. *)
Lemma nested_external k0 k C frame r s' : in_handler k0 (k, C) -> external frame r (k, C) s' ->
  r = frame /\ calm k (fst s').
Proof.
  intros [H1 H2 H3 _ _]%in_handler_ok He. cbn [fst] in *.
  destruct (proj2 handler_external_ok _ _ _ _ He H1 ltac:(simpl; lia) (fun _ => H2))
    as (_ & _ & Hsw & _ & Hc). cbn [fst] in *. assert (Hcm : calm k (fst s')) by (apply Hc; lia).
  split; [|exact Hcm]. apply (sw_same _ _ _ _ Hsw), Hcm.
Qed.

(** C7: While the handler of an external interrupt runs, whatever it does and
    however deep further interrupts nest in it, no task is switched: the current
    task is the one that was interrupted, no task loses its frame or its readiness,
    the software and timer interrupts stay masked in mie, also with interrupts on
    again, and every interrupt that nests in it returns the frame it was entered
    with and the same current task. The nesting is at most as deep as the PLIC has
    priorities, and the state stays well formed. *)
Theorem handlers_are_not_switched k0 k C : in_handler k0 (k, C) ->
  current k = current k0 /\ frames_kept None (tcbs k0) (tcbs k) /\
  tasks_rise (tcbs k0) (tcbs k) /\ ~ taken k MSI /\ ~ taken k MTI /\
  (forall frame r s', external frame r (k, C) s' -> r = frame /\
     current (fst s') = current k /\ frames_kept None (tcbs k) (tcbs (fst s'))) /\
  1 <= isr_depth k <= PLIC_MAX_PRIORITY /\ sys_ok (k, C).
Proof.
  intros Hin. destruct (in_handler_ok _ _ Hin) as [H1 H2 H3 H4 [H5 H6 H7]]. cbn [fst] in *.
  do 3 (split; [done|]). split; [|split; [|split; [|split; [lia|done]]]].
  - intros Ht. by destruct (masked_taken _ _ H2 Ht).
  - intros Ht. by destruct (masked_taken _ _ H2 Ht).
  - intros frame r s' He. destruct (nested_external k0 k C frame r s' Hin He) as [? []]. done.
Qed.
