(* ===== verification/LifeCycle.v ===== *)
(** * The life of a task

    Every operation of the kernel, against the specification [moves] of the states
    of a task: absent, dormant, ready (running or not) and waiting. *)

From S2P Require Import Prelude DList Tkernel Kernel Inv Moves Rules Wait Sched Check Timer.
From S2P Require Import Block TimerHandler Task Semaphore EventFlag Mailbox IntCtl Start Boot.
From S2P Require Import Trap KernelTasks Types Globals Calls System.

Open Scope Z_scope.

(** The tasks whose waits time may end: those with a limit, and the waiters for the
    semaphore of one with a limit. *)
Definition limited (T : gmap Z TCB) (t : Z) : Prop :=
  (exists c, T !! t = Some c /\ 0 < delay_ticks c) \/
  exists u s c, on_sem T u s /\ on_sem T t s /\ T !! u = Some c /\ 0 < delay_ticks c.

(** The timer interrupt, which may switch tasks at its end. *)
Definition by_timer (T : gmap Z TCB) (t : Z) (c c' : TCB) : Prop :=
  woken (limited T t) (phase_of c) (phase_of c').

Lemma ledger_limited e T0 S0 log given T S t : ledger e T0 S0 log given T S ->
  t ∈ log.*1 ++ given -> limited T0 t.
Proof.
  intros Hled [Hin|Hin]%elem_of_app.
  - apply list_elem_of_fmap in Hin as ([t' x] & -> & Hin).
    destruct (lg_timeout _ _ _ _ _ _ _ Hled t' x Hin) as (Hx & c & c' & Hc & _ & Hd & _).
    left. exists c. split; [done|lia].
  - destruct (lg_given _ _ _ _ _ _ _ Hled t Hin) as (s & v & x & c & c' & Hv & Hvs & Hts & _).
    destruct (lg_timeout _ _ _ _ _ _ _ Hled v x Hv) as (Hx & cv & cv' & Hcv & _ & Hd & _).
    right. exists v, s, cv. do 3 (split; [done|]). lia.
Qed.

(** Each of the other operations. *)
Lemma switch_stays k C frame r k' : sys_ok (k, C) -> is_u32 frame -> isr_depth k = 0 ->
  taken k MSI -> msip k <> 0 -> mtrap_handler frame k = Ret r k' ->
  tasks_stay (tcbs k) (tcbs k').
Proof.
  intros Hs Hf Hd [Hm _] Hr E. apply (run_wp _ _ _ _ _ E (wp_mtrap k C frame Hs Hf Hd Hm Hr)).
Qed.

Lemma timer_wakes k C frame r k' : sys_ok (k, C) -> is_u32 frame -> isr_depth k = 0 ->
  taken k MTI -> timer_in_reach k -> 0 <= mtimecmp k < 2 ^ 64 ->
  timer_interrupt frame k = Ret r k' -> tasks_move (by_timer (tcbs k)) (tcbs k) (tcbs k').
Proof.
  intros Hs Hf Hd [Hm _] H1 H2 E.
  destruct (run_wp _ _ _ _ _ E (wp_timer_trap k C frame Hs Hf Hd Hm H1 H2))
    as (_ & _ & Q & Q' & k1 & rd & cmp' & n & _ & _ & Hag & Hst & log & given & Hled & _).
  intros t c Hc. destruct (aged_woken _ _ _ _ _ Hag t c Hc) as (c1 & Hc1 & W & _).
  destruct (Hst t c1 Hc1) as (c' & Hc' & Ep). unfold by_switching in Ep. exists c'.
  split; [done|]. unfold by_timer. rewrite Ep. destruct W as [?|(_ & Hw & Hr)]; [by left|right].
  split; [|done]. destruct (decide (t ∈ log.*1 ++ given)) as [Hin|Hn]; [by eapply ledger_limited|].
  exfalso. assert (Hsw : tskstat c = TTS_WAI).
  { apply dec_stable. intros Hne. unfold phase_of in Hw. by repeat case_decide. }
  destruct (lg_waits _ _ _ _ _ _ _ Hled t c Hc Hsw Hn) as (c2 & Hc2 & Es).
  assert (c2 = c') as -> by congruence. rewrite Hr in Ep. unfold phase_of in Ep.
  by rewrite Es in Ep.
Qed.

Lemma rest_stays k C t co z k' : sys_ok (k, C) -> runs k t -> C !! t = Some co ->
  resume co k = Ret z k' -> tasks_still (tcbs k) (tcbs k').
Proof.
  intros Hs Hr HC E. pose proof Hs as [[Q Hwf] _ _ _ _ _].
  destruct (runs_tcb k Q t Hwf Hr) as (c & Hc & _).
  exact (rp_still _ _ _ _ _ _ (run_wp _ _ _ _ _ E (wp_resume k C t co c Hs Hr HC Hc))).
Qed.

Lemma yield_stays k C t k' : sys_ok (k, C) -> runs k t -> tkmc_yield k = Ret tt k' ->
  tasks_still (tcbs k) (tcbs k').
Proof.
  intros Hs Hr E. pose proof Hs as [[Q Hwf] _ _ _ _ _].
  destruct (runs_tcb k Q t Hwf Hr) as (c & Hc & Es & _). destruct Hr as (_ & _ & _ & Hcur).
  destruct (run_wp _ _ _ _ _ E (wp_tail_yield k Q t c Hwf Hcur Hc (or_intror Es))) as (_ & -> & _).
  apply tasks_still_refl.
Qed.

Lemma call_moves k Q a r k' : wf k Q -> quiet k -> admissible a k ->
  invoke a k = Ret r k' -> tasks_move (by_call a k Q) (tcbs k) (tcbs k').
Proof.
  intros Hwf Hq Ha E.
  by destruct (run_wp _ _ _ _ _ E (wp_invoke k Q a Hwf Hq Ha)) as (_ & H & _).
Qed.

Lemma external_rises k C frame r s' : sys_ok (k, C) -> 0 <= isr_depth k ->
  (1 <= isr_depth k -> masked (csrs k)) -> external frame r (k, C) s' ->
  tasks_rise (tcbs k) (tcbs (fst s')).
Proof.
  intros Hs Hd Hm He. destruct (proj2 handler_external_ok _ _ _ _ He Hs Hd Hm)
    as (_ & _ & _ & Hr & _). exact Hr.
Qed.

(** C9: Every operation of the kernel moves the tasks only as the life-cycle
    specification says: a call creates an absent task, starts a dormant one, ends or
    deletes or suspends its caller, or ends waits, each only if it is the call for
    that; it ends the wait of no task but the sleeper that is woken up, the task
    that is released and the waiters for the semaphore it waited for, or those in
    the wait queue of the object of the call, a sent message only the first of them.
    The timer interrupt only ends waits with a limit and waits for the semaphore of
    one with a limit; an external interrupt, whatever its handler and those that
    nest in it do, stops no ready task and puts none to wait; the switch, the yield
    and the rest of a call move no task. *)
Theorem life_cycle k C Q : sys_ok (k, C) -> wf k Q ->
  (forall a r k', quiet k -> admissible a k -> invoke a k = Ret r k' ->
     tasks_move (by_call a k Q) (tcbs k) (tcbs k')) /\
  (forall frame r k', is_u32 frame -> isr_depth k = 0 -> taken k MTI -> timer_in_reach k ->
     0 <= mtimecmp k < 2 ^ 64 -> timer_interrupt frame k = Ret r k' ->
     tasks_move (by_timer (tcbs k)) (tcbs k) (tcbs k')) /\
  (forall frame r k', is_u32 frame -> isr_depth k = 0 -> taken k MSI -> msip k <> 0 ->
     mtrap_handler frame k = Ret r k' -> tasks_stay (tcbs k) (tcbs k')) /\
  (forall frame r s', 0 <= isr_depth k -> (1 <= isr_depth k -> masked (csrs k)) ->
     external frame r (k, C) s' -> tasks_rise (tcbs k) (tcbs (fst s'))) /\
  (forall t co z k', runs k t -> C !! t = Some co -> resume co k = Ret z k' ->
     tasks_still (tcbs k) (tcbs k')) /\
  (forall t k', runs k t -> tkmc_yield k = Ret tt k' -> tasks_still (tcbs k) (tcbs k')).
Proof.
  intros Hs Hwf. split; [intros a r k'; by apply call_moves|].
  split; [|split; [|split; [|split]]]; intros.
  - by eapply timer_wakes.
  - by eapply switch_stays.
  - by eapply external_rises.
  - by eapply rest_stays.
  - by eapply yield_stays.
Qed.
