(* ===== verification/Delivery.v ===== *)
(** * The order in which messages are received

    Messages sent to a mailbox and received afterwards: those of a [TA_MFIFO]
    mailbox come in the order they were sent, those of a [TA_MPRI] mailbox in the
    order of their priorities, and in the order they were sent where these are
    equal. The calls are those of [src/kernel/mailbox.c], made one after another
    ([snd_all], [rcv_all]). *)

From S2P Require Import Prelude DList Tkernel Kernel Inv Moves Rules Wait Sched Timer Block Mailbox.

Open Scope Z_scope.
Implicit Types (k : kernel) (Q : queues) (mc : MBXCB).

(** ** Sending and receiving one after another *)

(** A call that does not succeed is not in the run. *)
Fixpoint snd_all (id : Z) (ms : list Z) : K unit :=
  match ms with
  | [] => ret tt
  | a :: ms => r <- tk_snd_mbx id a ;; if decide (r = E_OK) then snd_all id ms else wild
  end.

Fixpoint rcv_all (id p : Z) (n : nat) : K (list Z) :=
  match n with
  | O => ret []
  | S n =>
    r <- tk_rcv_mbx id p TMO_POL ;;
    match r with
    | Return z =>
      if decide (z = E_OK) then
        v <- load_w p ;;
        match v with
        | CWord a => l <- rcv_all id p n ;; ret (a :: l)
        | _ => wild
        end
      else wild
    | _ => wild
    end
  end.

(** ** The order *)

Definition by_pri (mc : MBXCB) : Prop := Z.land (mbxatr mc) TA_MPRI <> 0.

(** The queue after the messages [ms] joined it. *)
Definition joined_by mc k (msgs : list link) (a : Z) : list link :=
  if decide (Z.land (mbxatr mc) TA_MPRI = 0) then msgs ++ [LMsg a]
  else insert_stable (pri_of k) (LMsg a) msgs.
Definition joined_all mc k (msgs : list link) (ms : list Z) : list link :=
  foldl (joined_by mc k) msgs ms.

(** [ms] may be sent, one after another. *)
Record messages k Q mc (ms : list Z) : Prop := {
  me_nodup : NoDup ms;
  me_each a : a ∈ ms -> a <> 0 /\ LMsg a ∈ dom (links k) /\ loose Q (LMsg a);
  me_pri a : a ∈ ms -> by_pri mc -> exists v, mpri (mem k) (LMsg a) = Some v /\ 0 < v;
}.

Lemma insert_stable_perm pri n ns : insert_stable pri n ns ≡ₚ n :: ns.
Proof.
  destruct (insert_stable_split pri n ns) as (xs & ys & -> & -> & _).
  by rewrite Permutation_middle.
Qed.

Lemma joined_perm mc k ms : forall msgs, joined_all mc k msgs ms ≡ₚ msgs ++ (LMsg <$> ms).
Proof.
  induction ms as [|a ms IH]; intros msgs; simpl; [by rewrite app_nil_r|].
  unfold joined_all in *. rewrite IH. unfold joined_by. case_decide.
  - by rewrite <- app_assoc.
  - rewrite insert_stable_perm. by rewrite <- Permutation_middle.
Qed.

Lemma joined_fifo mc k ms : ~ by_pri mc -> forall msgs,
  joined_all mc k msgs ms = msgs ++ (LMsg <$> ms).
Proof.
  intros Hp. induction ms as [|a ms IH]; intros msgs; simpl; [by rewrite app_nil_r|].
  unfold joined_all in *. rewrite IH. unfold joined_by.
  case_decide; [by rewrite <- app_assoc|done].
Qed.

Lemma joined_sorted mc k ms : by_pri mc -> forall msgs, msgs_sorted (mem k) msgs ->
  (forall a, a ∈ ms -> is_Some (mpri (mem k) (LMsg a))) ->
  msgs_sorted (mem k) (joined_all mc k msgs ms).
Proof.
  intros Hp. induction ms as [|a ms IH]; intros msgs Hs Hm; simpl; [done|].
  apply IH; [|intros b Hb; apply Hm; by right].
  unfold joined_by. rewrite decide_False by done.
  apply insert_stable_sorted; [apply Hm; by left|done].
Qed.

(** *** The messages of one priority stay in order *)

Definition of_pri k (v : Z) (ns : list link) : list link := filter (fun n => pri_of k n = v) ns.

Lemma insert_stable_of_pri k v n ns : msgs_sorted (mem k) ns ->
  of_pri k v (insert_stable (pri_of k) n ns) = of_pri k v (ns ++ [n]).
Proof.
  intros [_ Hs]. destruct (insert_stable_split (pri_of k) n ns) as (xs & ys & -> & -> & _ & Hy).
  unfold of_pri. rewrite !filter_app. change (n :: ys) with ([n] ++ ys).
  rewrite filter_app, <- app_assoc. f_equal. destruct (decide (pri_of k n = v)) as [E|E].
  2:{ rewrite (filter_cons_False _ n) by done. by rewrite filter_nil, app_nil_r. }
  assert (Hys : filter (fun n => pri_of k n = v) ys = []).
  { destruct ys as [|y ys]; [done|]. specialize (Hy y eq_refl).
    assert (Hs' : StronglySorted (fun a b => pri_of k a <= pri_of k b) (y :: ys)).
    { clear -Hs. induction xs; [done|]. inversion Hs; subst. auto. }
    inversion Hs' as [|? ? _ Ha]; subst. rewrite Forall_forall in Ha.
    destruct (filter _ (y :: ys)) as [|z zs] eqn:E'; [done|exfalso].
    assert (Hz : z ∈ filter (fun x => pri_of k x = pri_of k n) (y :: ys)) by (rewrite E'; by left).
    apply list_elem_of_filter in Hz as [Ez Hz].
    apply elem_of_cons in Hz as [->|Hz]; [lia|]. specialize (Ha z Hz). simpl in Ha. lia. }
  by rewrite Hys, app_nil_r.
Qed.

Lemma joined_stable mc k v ms : by_pri mc -> forall msgs, msgs_sorted (mem k) msgs ->
  (forall a, a ∈ ms -> is_Some (mpri (mem k) (LMsg a))) ->
  of_pri k v (joined_all mc k msgs ms) = of_pri k v (msgs ++ (LMsg <$> ms)).
Proof.
  intros Hp. induction ms as [|a ms IH]; intros msgs Hs Hm; simpl; [by rewrite app_nil_r|].
  assert (Hj : joined_by mc k msgs a = insert_stable (pri_of k) (LMsg a) msgs).
  { unfold joined_by. by rewrite decide_False. }
  change (joined_all mc k msgs (a :: ms)) with (joined_all mc k (joined_by mc k msgs a) ms).
  rewrite IH, Hj.
  - unfold of_pri. rewrite filter_app. fold (of_pri k v (insert_stable (pri_of k) (LMsg a) msgs)).
    rewrite insert_stable_of_pri by done. unfold of_pri.
    rewrite <- filter_app, <- app_assoc. done.
  - rewrite Hj. apply insert_stable_sorted; [apply Hm; by left|done].
  - intros b Hb. apply Hm. by right.
Qed.

(** The addresses of queued messages. *)
Definition addr_of (n : link) : Z := match n with LMsg a => a | _ => 0 end.

Lemma addrs_of (l : list Z) : addr_of <$> (LMsg <$> l) = l.
Proof. induction l as [|a l IH]; [done|]. cbn. by f_equal. Qed.

Lemma addrs_sorted k l :
  StronglySorted (fun a b => pri_of k a <= pri_of k b) (LMsg <$> l) ->
  StronglySorted (fun a b => pri_of k (LMsg a) <= pri_of k (LMsg b)) l.
Proof.
  induction l as [|a l IH]; intros H; [constructor|]. rewrite fmap_cons in H.
  apply StronglySorted_inv in H as [Hs Ha]. constructor; [by apply IH|].
  rewrite Forall_fmap in Ha. exact Ha.
Qed.

(** ** The calls *)

Section mailbox.
Context {id : Z} {mc : MBXCB}.
Hypothesis Hid : tkmc_id_in_range id CFN_MAX_MBXID = true.
Hypothesis Hex : no_exist (mbxid mc) = false.

(** Nobody waits for a message, and [msgs] are queued. *)
Record mailbox_with k Q (msgs : list link) : Prop := {
  mw_wf : wf k Q;
  mw_mc : mbxcbs k !! (id - 1) = Some mc;
  mw_waiters : Q !! LMbx (id - 1) = Some [];
  mw_msgs : Q !! LMbxq (id - 1) = Some msgs;
}.

Lemma messages_sent k Q msgs' a ms L : messages k Q mc (a :: ms) ->
  dom L = dom (links k) ->
  (forall b, LMsg b ∈ msgs' -> b = a \/ inq Q (LMbxq (id - 1)) (LMsg b)) ->
  messages (set_links L k) (qset (LMbxq (id - 1)) msgs' (LMsg a) Q) mc ms.
Proof using.
  intros [[Hna Hnd]%NoDup_cons He Hp] HD Hin. split; [done| |].
  - intros b Hb. destruct (He b ltac:(by right)) as (H0 & Hd & Hnone & Hno).
    assert (Hba : LMsg b <> LMsg a) by congruence.
    split; [done|]. split; [proj; by rewrite HD|]. split.
    + rewrite lookup_qset, 2!decide_False by done. destruct Hnone as [->| ->]; [by left|by right].
    + intros h [[-> Hi]|(_ & _ & _ & Hi)]%inq_qset; [|by eapply Hno].
      destruct (Hin b Hi) as [->|Hi']; [done|by eapply Hno].
  - intros b Hb Hbp. apply Hp; [by right|done].
Qed.

Lemma wp_snd_all ms (Phi : unit -> kernel -> Prop) : forall k Q msgs,
  mailbox_with k Q msgs -> messages k Q mc ms -> (by_pri mc -> msgs_sorted (mem k) msgs) ->
  (forall L Q', mailbox_with (set_links L k) Q' (joined_all mc k msgs ms) ->
     Phi tt (set_links L k)) ->
  wp (snd_all id ms) Phi k.
Proof using Hid Hex.
  induction ms as [|a ms IH]; intros k Q msgs Hw Hm Hs H; cbn [snd_all].
  - apply wp_ret. assert (E : k = set_links (links k) k) by by destruct k.
    rewrite E. apply (H _ Q). by rewrite <- E.
  - pose proof Hw as [Hwf Hmc Hws Hq]. pose proof Hm as [Hnd He Hp].
    destruct (He a ltac:(by left)) as (H0 & Hd & Hl).
    assert (Hsend : sendable k Q (id - 1) a).
    { split; [done|done|]. intros mc' msgs0 Hmc' Ha Hq'. assert (mc' = mc) as -> by congruence.
      assert (msgs0 = msgs) as -> by congruence.
      destruct (Hp a ltac:(by left) Ha) as (v & Ev & _). split; [by exists v|by apply Hs]. }
    apply wp_bind. eapply wp_mono; [by apply (wp_snd_mbx k Q); [|intros _ _ _]|].
    intros r k' (Q' & Hwf' & Hr). rewrite Hid in Hr. cbn [negb] in Hr.
    rewrite decide_False in Hr by done. destruct Hr as (mc' & Hmc' & Hr).
    assert (mc' = mc) as -> by congruence. rewrite Hex in Hr. rewrite decide_False in Hr.
    2:{ intros [Ha Hle]. destruct (Hp a ltac:(by left) Ha) as (v & Ev & Hv).
        unfold pri_of in Hle. rewrite Ev in Hle. simpl in Hle. lia. }
    destruct Hr as (-> & ws & msgs0 & Hws' & Hq' & EM & Hc).
    assert (ws = []) as -> by congruence. assert (msgs0 = msgs) as -> by congruence.
    destruct Hc as ((L & HD & ->) & msgs' & -> & Hc). rewrite decide_True by done.
    assert (Ej : msgs' = joined_by mc k msgs a /\ (by_pri mc -> msgs_sorted (mem k) msgs')).
    { unfold joined_by, by_pri. case_decide; [by split|]. by destruct Hc as [-> ?]. }
    destruct Ej as [Ej Hs']. apply (IH (set_links L k) (qset (LMbxq (id - 1)) msgs' (LMsg a) Q) msgs').
    + split; [done|done| |].
      * rewrite lookup_qset, 2!decide_False, Hws by done. done.
      * by rewrite lookup_qset, decide_True.
    + apply messages_sent; [done|done|]. intros b Hb. rewrite Ej in Hb.
      assert (Hb' : LMsg b ∈ msgs ++ [LMsg a]).
      { unfold joined_by in Hb. case_decide; [done|]. rewrite insert_stable_perm in Hb.
        by rewrite <- Permutation_cons_append. }
      apply elem_of_app in Hb' as [Hb'|Hb']; [right; by exists msgs|].
      left. apply list_elem_of_singleton in Hb'. congruence.
    + exact Hs'.
    + intros L2 Q2 Hw2. apply (H L2 Q2). rewrite Ej in Hw2. exact Hw2.
Qed.

Lemma wp_rcv_all p ns (Phi : list Z -> kernel -> Prop) : p <> 0 -> forall k Q,
  mailbox_with k Q ns -> may_block k = true -> quiet k -> timer_in_reach k ->
  (forall l k' Q', LMsg <$> l = ns -> mailbox_with k' Q' [] -> Phi l k') ->
  wp (rcv_all id p (length ns)) Phi k.
Proof using Hid Hex.
  intros Hp. revert Phi. induction ns as [|n ns IH]; intros Phi k Q Hw Hb Hqt Ht H; simpl.
  - apply wp_ret. by apply (H [] k Q).
  - pose proof Hw as [Hwf Hmc Hws Hq].
    apply wp_bind. eapply wp_mono; [apply (wp_rcv_mbx k Q); try done; unfold is_i32, TMO_POL; lia|].
    intros r k' (Q' & Hwf' & Em & Hr). rewrite Hid, Hb in Hr. cbn [negb] in Hr.
    rewrite decide_False in Hr by (unfold TMO_POL, TMO_FEVR; intros [?|?]; [done|lia]).
    destruct Hr as (t & c & mc' & _ & _ & Hmc' & Hr).
    assert (mc' = mc) as -> by congruence. rewrite Hex in Hr.
    destruct Hr as (ws & msgs & Hws' & Hq' & Hr). assert (msgs = n :: ns) as -> by congruence.
    destruct Hr as (-> & a & L & -> & -> & Hq2 & ->). rewrite decide_True by done.
    apply wp_bind. eapply wp_gets_opt; [proj; apply lookup_insert_eq|]. apply wp_bind.
    eapply (IH _ _ (<[LMsg a := []]> (qrm (LMsg a) Q))); [|done|done|done|].
    + split; [done|done| |done].
      rewrite lookup_insert_ne, lookup_qrm, decide_False, Hws by done. done.
    + intros l k' Q' <- Hw'. apply wp_ret. by apply (H (a :: l) k' Q').
Qed.

(** C18: Messages sent to a mailbox one after another and then received are the
    messages sent: in the order of sending under TA_MFIFO, and under TA_MPRI sorted
    by priority with those of one priority in the order of sending. *)
Theorem messages_in_order k Q p ms :
  mailbox_with k Q [] -> messages k Q mc ms -> p <> 0 ->
  may_block k = true -> quiet k -> timer_in_reach k ->
  exists l k', (snd_all id ms ;;; rcv_all id p (length ms)) k = Ret l k' /\ l ≡ₚ ms /\
    (~ by_pri mc -> l = ms) /\
    (by_pri mc ->
       StronglySorted (fun a b => pri_of k (LMsg a) <= pri_of k (LMsg b)) l /\
       forall v, of_pri k v (LMsg <$> l) = of_pri k v (LMsg <$> ms)).
Proof using Hid Hex.
  intros Hw Hm Hp Hb Hqt Ht.
  assert (W : wp (snd_all id ms ;;; rcv_all id p (length ms))
    (fun l _ => LMsg <$> l = joined_all mc k [] ms) k).
  { apply wp_bind. eapply wp_snd_all; [exact Hw|exact Hm|by split; constructor|].
    intros L Q' Hw'. set (ns := joined_all mc k [] ms) in *.
    assert (El : length ms = length ns).
    { unfold ns. rewrite joined_perm, app_nil_l. by rewrite length_fmap. }
    rewrite El. by eapply wp_rcv_all. }
  apply wp_returns in W as (l & k' & E & El). exists l, k'. split; [exact E|].
  split; [|split].
  - rewrite <- (addrs_of l), <- (addrs_of ms), El. by rewrite joined_perm.
  - intros Hf. by rewrite <- (addrs_of l), <- (addrs_of ms), El, joined_fifo.
  - intros Hpri. assert (Hall : forall a, a ∈ ms -> is_Some (mpri (mem k) (LMsg a))).
    { intros a Ha. destruct (me_pri _ _ _ _ Hm a Ha Hpri) as (v & Ev & _). by exists v. }
    assert (Hnil : msgs_sorted (mem k) []) by (split; constructor).
    pose proof (joined_sorted mc k ms Hpri [] Hnil Hall) as [_ Hsort]. rewrite <- El in Hsort.
    split; [by apply addrs_sorted|].
    intros v. rewrite El. exact (joined_stable mc k v ms Hpri [] Hnil Hall).
Qed.
End mailbox.
