(* ===== verification/Memory.v ===== *)
(** * [tkmc_memset] and [tkmc_memcpy]: [src/kernel/memset.c], [memcpy.c]

    The RAM is a map from addresses to bytes; an access to an address that is
    not mapped, or of a word that is not aligned, is wild. The loops over words
    are proved equal to the loop over bytes the two functions stand for
    ([written]): only the bytes of the block change, each to its value.
    [clear_bss] of [src/kernel/start.c] is a call of the first. *)

From S2P Require Import Prelude.

Open Scope Z_scope.

Abbreviation ram := (gmap Z Z).
Abbreviation R := (M ram).
Implicit Types (m : ram) (a d s n v w : Z).

(** ** Bytes and words *)

Definition byte_of (w i : Z) : Z := Z.shiftr w (8 * i) mod 2 ^ 8.
Definition word_of (b0 b1 b2 b3 : Z) : Z :=
  b0 + Z.shiftl b1 8 + Z.shiftl b2 16 + Z.shiftl b3 24.

Definition is_byte (b : Z) : Prop := 0 <= b < 2 ^ 8.

Lemma word_split b0 b1 b2 b3 : is_byte b0 -> is_byte b1 -> is_byte b2 -> is_byte b3 ->
  let w := word_of b0 b1 b2 b3 in is_u32 w /\
  byte_of w 0 = b0 /\ byte_of w 1 = b1 /\ byte_of w 2 = b2 /\ byte_of w 3 = b3.
Proof.
  unfold is_byte, byte_of, word_of, is_u32. intros H0 H1 H2 H3.
  rewrite !Z.shiftl_mul_pow2, !Z.shiftr_div_pow2 by lia.
  change (2 ^ (8 * 0)) with 1. change (2 ^ (8 * 1)) with (2 ^ 8).
  change (2 ^ (8 * 2)) with (2 ^ 16). change (2 ^ (8 * 3)) with (2 ^ 24).
  repeat split; try lia; Z.to_euclidean_division_equations; lia.
Qed.

(** ** Accesses *)

Definition load8 (a : Z) : R Z := gets_opt (fun m => m !! a).
Definition store8 (a v : Z) : R unit :=
  modify_opt (fun m => _ ← m !! a; Some (<[a := v]> m)).

Definition aligned (a : Z) : bool := bool_decide (Z.land a 3 = 0).

Definition load32 (a : Z) : R Z :=
  if aligned a then
    b0 <- load8 a ;; b1 <- load8 (a + 1) ;; b2 <- load8 (a + 2) ;; b3 <- load8 (a + 3) ;;
    ret (word_of b0 b1 b2 b3)
  else wild.
Definition store32 (a w : Z) : R unit :=
  if aligned a then
    store8 a (byte_of w 0) ;;; store8 (a + 1) (byte_of w 1) ;;;
    store8 (a + 2) (byte_of w 2) ;;; store8 (a + 3) (byte_of w 3)
  else wild.

(** ** memset.c *)

(** [while (n--) *d8++ = value] *)
Fixpoint set_bytes (fuel : nat) (d8 value n : Z) : R unit :=
  match fuel with
  | O => hang
  | S fuel =>
    if decide (n = 0) then ret tt
    else store8 d8 value ;;; set_bytes fuel (d8 + 1) value (n - 1)
  end.

(** [while (((UINT)d8 & 0x3) && n)]: the pointer and the count after it. *)
Fixpoint set_head (fuel : nat) (d8 value n : Z) : R (Z * Z) :=
  match fuel with
  | O => hang
  | S fuel =>
    if aligned d8 || bool_decide (n = 0) then ret (d8, n)
    else store8 d8 value ;;; set_head fuel (d8 + 1) value (n - 1)
  end.

(** [while (n >= 32)]: eight words a round. *)
Fixpoint set_blocks (fuel : nat) (dw w n : Z) : R (Z * Z) :=
  match fuel with
  | O => hang
  | S fuel =>
    if decide (32 <= n) then
      store32 dw w ;;; store32 (dw + 4) w ;;; store32 (dw + 8) w ;;; store32 (dw + 12) w ;;;
      store32 (dw + 16) w ;;; store32 (dw + 20) w ;;; store32 (dw + 24) w ;;;
      store32 (dw + 28) w ;;;
      set_blocks fuel (dw + 32) w (n - 32)
    else ret (dw, n)
  end.

Fixpoint set_words (fuel : nat) (dw w n : Z) : R (Z * Z) :=
  match fuel with
  | O => hang
  | S fuel =>
    if decide (4 <= n) then store32 dw w ;;; set_words fuel (dw + 4) w (n - 4)
    else ret (dw, n)
  end.

Definition loop_fuel (n : Z) : nat := S (Z.to_nat n).

Definition tkmc_memset (dest c n : Z) : R Z :=
  let value := u8 c in
  let fuel := loop_fuel n in
  if decide (n < 32) then set_bytes fuel dest value n ;;; ret dest
  else
    p <- set_head fuel dest value n ;;
    p <- (if decide (4 <= snd p) then
            let word_value := u32 (value * 0x01010101) in
            p <- set_blocks fuel (fst p) word_value (snd p) ;;
            set_words fuel (fst p) word_value (snd p)
          else ret p) ;;
    set_bytes fuel (fst p) value (snd p) ;;;
    ret dest.

(** ** memcpy.c *)

Fixpoint copy_bytes (fuel : nat) (d8 s8 n : Z) : R unit :=
  match fuel with
  | O => hang
  | S fuel =>
    if decide (n = 0) then ret tt
    else b <- load8 s8 ;; store8 d8 b ;;; copy_bytes fuel (d8 + 1) (s8 + 1) (n - 1)
  end.

Fixpoint copy_head (fuel : nat) (d8 s8 n : Z) : R (Z * Z * Z) :=
  match fuel with
  | O => hang
  | S fuel =>
    if aligned d8 || bool_decide (n = 0) then ret (d8, s8, n)
    else b <- load8 s8 ;; store8 d8 b ;;; copy_head fuel (d8 + 1) (s8 + 1) (n - 1)
  end.

Definition copy_word (dw sw : Z) : R unit := w <- load32 sw ;; store32 dw w.

Fixpoint copy_blocks (fuel : nat) (dw sw n : Z) : R (Z * Z * Z) :=
  match fuel with
  | O => hang
  | S fuel =>
    if decide (32 <= n) then
      copy_word dw sw ;;; copy_word (dw + 4) (sw + 4) ;;; copy_word (dw + 8) (sw + 8) ;;;
      copy_word (dw + 12) (sw + 12) ;;; copy_word (dw + 16) (sw + 16) ;;;
      copy_word (dw + 20) (sw + 20) ;;; copy_word (dw + 24) (sw + 24) ;;;
      copy_word (dw + 28) (sw + 28) ;;;
      copy_blocks fuel (dw + 32) (sw + 32) (n - 32)
    else ret (dw, sw, n)
  end.

Fixpoint copy_words (fuel : nat) (dw sw n : Z) : R (Z * Z * Z) :=
  match fuel with
  | O => hang
  | S fuel =>
    if decide (4 <= n) then copy_word dw sw ;;; copy_words fuel (dw + 4) (sw + 4) (n - 4)
    else ret (dw, sw, n)
  end.

Definition tkmc_memcpy (dest src n : Z) : R Z :=
  let fuel := loop_fuel n in
  if decide (n < 32) then copy_bytes fuel dest src n ;;; ret dest
  else if negb (aligned (Z.lxor dest src)) then copy_bytes fuel dest src n ;;; ret dest
  else
    p <- copy_head fuel dest src n ;;
    let '(d8, s8, n) := p in
    p <- copy_blocks fuel d8 s8 n ;;
    let '(dw, sw, n) := p in
    p <- copy_words fuel dw sw n ;;
    let '(d8, s8, n) := p in
    copy_bytes fuel d8 s8 n ;;;
    ret dest.

(** ** clear_bss of start.c *)

Section clear_bss.
Variables bss_start bss_end : Z.
Definition clear_bss : R unit := tkmc_memset bss_start 0 (bss_end - bss_start) ;;; ret tt.
End clear_bss.

(** ** What a loop over a block writes *)

Definition mapped m a n : Prop := forall i, a <= i < a + n -> is_Some (m !! i).

(** The block at [a] holds the bytes of [f], and nothing else changed. *)
Definition written (f : Z -> Z) a n m m' : Prop :=
  forall i, m' !! i = if decide (a <= i < a + n) then Some (f i) else m !! i.

(** The pointer and the count after some of the block was written. *)
Definition advanced (f : Z -> Z) a n m (p : Z * Z) m' : Prop :=
  exists k, 0 <= k <= n /\ p = (a + k, n - k) /\ written f a k m m'.

Lemma written_none f a m : written f a 0 m m.
Proof. intros i. rewrite decide_False by lia. done. Qed.

Lemma written_one f a v m : f a = v -> written f a 1 m (<[a := v]> m).
Proof.
  intros <- i. destruct (decide (i = a)) as [->|].
  - by rewrite lookup_insert_eq, decide_True by lia.
  - by rewrite lookup_insert_ne, decide_False by lia.
Qed.

Lemma written_app f a n1 n2 m m1 m2 : 0 <= n1 -> 0 <= n2 ->
  written f a n1 m m1 -> written f (a + n1) n2 m1 m2 -> written f a (n1 + n2) m m2.
Proof.
  intros H1 H2 Hw1 Hw2 i. rewrite Hw2, Hw1. repeat case_decide; try done; lia.
Qed.

Lemma written_mapped f a n m m' b k : written f a n m m' -> mapped m b k -> mapped m' b k.
Proof. intros Hw Hm i Hi. rewrite Hw. case_decide; [by eexists|by apply Hm]. Qed.

Lemma mapped_sub m a n b k : mapped m a n -> a <= b -> b + k <= a + n -> mapped m b k.
Proof. intros H H1 H2 i Hi. apply H. lia. Qed.

(** The rest of the block, after the first [k] bytes. *)
Lemma advanced_app f a n k m m1 p m' : 0 <= k <= n -> written f a k m m1 ->
  advanced f (a + k) (n - k) m1 p m' -> advanced f a n m p m'.
Proof.
  intros Hk Hw (j & Hj & -> & Hw'). exists (k + j). split; [lia|].
  split; [f_equal; lia|]. eapply written_app; [lia|lia|exact Hw|exact Hw'].
Qed.

Lemma advanced_stop f a n m : 0 <= n -> advanced f a n m (a, n) m.
Proof. intros Hn. exists 0. split; [lia|]. split; [f_equal; lia|apply written_none]. Qed.

Lemma wp_store8 a v m (Phi : unit -> ram -> Prop) : is_Some (m !! a) ->
  Phi tt (<[a := v]> m) -> wp (store8 a v) Phi m.
Proof. intros [x E] H. eapply wp_modify_opt; [by rewrite E|done]. Qed.

Lemma aligned_mod a : aligned a = true <-> a mod 4 = 0.
Proof.
  unfold aligned. rewrite bool_decide_eq_true. change 3 with (Z.ones 2).
  by rewrite Z.land_ones by lia.
Qed.

Lemma aligned_next a k : aligned a = true -> k mod 4 = 0 -> aligned (a + k) = true.
Proof. rewrite !aligned_mod. intros. Z.to_euclidean_division_equations. lia. Qed.

Lemma same_aligned d s k : (d - s) mod 4 = 0 -> aligned (d + k) = true -> aligned (s + k) = true.
Proof. rewrite !aligned_mod. intros. Z.to_euclidean_division_equations. lia. Qed.

Lemma lxor_aligned d s : aligned (Z.lxor d s) = true -> (d - s) mod 4 = 0.
Proof.
  unfold aligned. rewrite bool_decide_eq_true. intros H.
  assert (E : Z.land d 3 = Z.land s 3).
  { apply Z.bits_inj'. intros j Hj. pose proof (f_equal (fun x => Z.testbit x j) H) as Hb.
    cbv beta in Hb. rewrite Z.land_spec, Z.lxor_spec, Z.bits_0 in Hb. rewrite !Z.land_spec.
    by destruct (Z.testbit d j), (Z.testbit s j), (Z.testbit 3 j). }
  change 3 with (Z.ones 2) in E. rewrite !Z.land_ones in E by lia.
  change (2 ^ 2) with 4 in E. Z.to_euclidean_division_equations. lia.
Qed.

(** A word whose bytes are those of [f]. *)
Definition bytes_are (f : Z -> Z) a w : Prop :=
  byte_of w 0 = f a /\ byte_of w 1 = f (a + 1) /\ byte_of w 2 = f (a + 2) /\
  byte_of w 3 = f (a + 3).

Lemma wp_store32 f a w m (Phi : unit -> ram -> Prop) :
  aligned a = true -> mapped m a 4 -> bytes_are f a w ->
  (forall m', written f a 4 m m' -> Phi tt m') -> wp (store32 a w) Phi m.
Proof.
  intros Ha Hm (E0 & E1 & E2 & E3) H. unfold store32. rewrite Ha.
  assert (H1 : forall k m1, 0 <= k < 4 -> written f a k m m1 -> is_Some (m1 !! (a + k))).
  { intros k m1 Hk Hw. eapply (written_mapped _ _ _ _ _ _ _ Hw Hm). lia. }
  assert (Hn : forall k m1, 0 <= k < 4 -> written f a k m m1 ->
    written f a (k + 1) m (<[a + k := f (a + k)]> m1)).
  { intros k m1 Hk Hw. eapply written_app; [lia|lia|exact Hw|by apply written_one]. }
  pose proof (written_none f a m) as W0.
  rewrite E0, E1, E2, E3. apply wp_bind, wp_store8; [apply Hm; lia|].
  pose proof (Hn 0 m ltac:(lia) W0) as W1. rewrite Z.add_0_r in W1.
  apply wp_bind, wp_store8; [by apply (H1 1); [lia|]|].
  pose proof (Hn 1 _ ltac:(lia) W1) as W2.
  apply wp_bind, wp_store8; [by apply (H1 2); [lia|]|].
  pose proof (Hn 2 _ ltac:(lia) W2) as W3.
  apply wp_store8; [by apply (H1 3); [lia|]|]. apply H. exact (Hn 3 _ ltac:(lia) W3).
Qed.

(** ** [tkmc_memset] *)

Section memset.
Context (v : Z).
Hypothesis Hv : is_byte v.
Let f : Z -> Z := fun _ => v.
Let w : Z := u32 (v * 0x01010101).

Lemma fill_word a : bytes_are f a w.
Proof using Hv.
  unfold bytes_are, f, byte_of, w, u32. unfold is_byte in Hv.
  rewrite (Z.mod_small (v * 0x01010101)) by lia. rewrite !Z.shiftr_div_pow2 by lia.
  change (2 ^ (8 * 0)) with 1. change (2 ^ (8 * 1)) with (2 ^ 8).
  change (2 ^ (8 * 2)) with (2 ^ 16). change (2 ^ (8 * 3)) with (2 ^ 24).
  repeat split; Z.to_euclidean_division_equations; lia.
Qed.

Lemma wp_set_bytes fuel : forall d n m (Phi : unit -> ram -> Prop),
  mapped m d n -> 0 <= n < Z.of_nat fuel ->
  (forall m', written f d n m m' -> Phi tt m') -> wp (set_bytes fuel d v n) Phi m.
Proof using.
  induction fuel as [|fuel IH]; intros d n m Phi Hm Hn H; [lia|]. simpl.
  case_decide as E0; [apply wp_ret, H; rewrite E0; apply written_none|].
  apply wp_bind, wp_store8; [apply Hm; lia|].
  pose proof (written_one f d v m eq_refl) as W1. apply IH; [|lia|].
  - eapply written_mapped; [exact W1|]. eapply mapped_sub; [exact Hm|lia|lia].
  - intros m' W2. apply H. replace n with (1 + (n - 1)) by lia.
    eapply written_app; [lia|lia|exact W1|exact W2].
Qed.

Lemma wp_set_head fuel : forall d n m (Phi : Z * Z -> ram -> Prop),
  mapped m d n -> 0 <= n < Z.of_nat fuel ->
  (forall p m', advanced f d n m p m' -> aligned (fst p) = true \/ snd p = 0 -> Phi p m') ->
  wp (set_head fuel d v n) Phi m.
Proof using.
  induction fuel as [|fuel IH]; intros d n m Phi Hm Hn H; [lia|]. simpl.
  destruct (aligned d || bool_decide (n = 0)) eqn:E.
  { apply wp_ret, H; [apply advanced_stop; lia|]. apply orb_prop in E as [?|E]; [by left|right].
    by apply bool_decide_eq_true in E. }
  apply orb_false_elim in E as [_ E]. apply bool_decide_eq_false in E.
  apply wp_bind, wp_store8; [apply Hm; lia|].
  pose proof (written_one f d v m eq_refl) as W1. apply IH; [|lia|].
  - eapply written_mapped; [exact W1|]. eapply mapped_sub; [exact Hm|lia|lia].
  - intros p m' Had. apply H. eapply advanced_app; [|exact W1|exact Had]. lia.
Qed.

(** One word more, [k] bytes from [d]. *)
Lemma wp_set_word d k m m1 (Phi : unit -> ram -> Prop) : aligned d = true -> k mod 4 = 0 ->
  0 <= k -> mapped m d (k + 4) -> written f d k m m1 ->
  (forall m', written f d (k + 4) m m' -> Phi tt m') -> wp (store32 (d + k) w) Phi m1.
Proof using Hv.
  intros Ha Hk Hk0 Hm Hw H. eapply wp_store32; [by apply aligned_next| |apply fill_word|].
  - eapply written_mapped; [exact Hw|]. eapply mapped_sub; [exact Hm|lia|lia].
  - intros m' Hw'. apply H. eapply written_app; [lia|lia|exact Hw|exact Hw'].
Qed.

Lemma wp_set_blocks fuel : forall d n m (Phi : Z * Z -> ram -> Prop),
  mapped m d n -> 0 <= n < Z.of_nat fuel -> aligned d = true ->
  (forall p m', advanced f d n m p m' -> aligned (fst p) = true -> Phi p m') ->
  wp (set_blocks fuel d w n) Phi m.
Proof using Hv.
  induction fuel as [|fuel IH]; intros d n m Phi Hm Hn Ha H; [lia|]. simpl.
  case_decide as E; [|by apply wp_ret, H; [apply advanced_stop; lia|]].
  assert (Hs : forall k, k <= 32 -> mapped m d k) by (intros k Hk; eapply mapped_sub; [exact Hm|lia|lia]).
  pose proof (written_none f d m) as W0. apply wp_bind.
  rewrite <- (Z.add_0_r d) at 1. eapply wp_set_word; [done|done|done|by apply Hs|exact W0|].
  intros m1 W1. apply wp_bind. eapply wp_set_word; [done|done|done|by apply Hs|exact W1|].
  intros m2 W2. apply wp_bind. eapply wp_set_word; [done|done|done|by apply Hs|exact W2|].
  intros m3 W3. apply wp_bind. eapply wp_set_word; [done|done|done|by apply Hs|exact W3|].
  intros m4 W4. apply wp_bind. eapply wp_set_word; [done|done|done|by apply Hs|exact W4|].
  intros m5 W5. apply wp_bind. eapply wp_set_word; [done|done|done|by apply Hs|exact W5|].
  intros m6 W6. apply wp_bind. eapply wp_set_word; [done|done|done|by apply Hs|exact W6|].
  intros m7 W7. apply wp_bind. eapply wp_set_word; [done|done|done|by apply Hs|exact W7|].
  intros m8 W8. apply IH; [|lia|by apply aligned_next|].
  - eapply written_mapped; [exact W8|]. eapply mapped_sub; [exact Hm|lia|lia].
  - intros p m' Had. apply H. eapply advanced_app; [|exact W8|exact Had]. lia.
Qed.

Lemma wp_set_words fuel : forall d n m (Phi : Z * Z -> ram -> Prop),
  mapped m d n -> 0 <= n < Z.of_nat fuel -> aligned d = true ->
  (forall p m', advanced f d n m p m' -> Phi p m') ->
  wp (set_words fuel d w n) Phi m.
Proof using Hv.
  induction fuel as [|fuel IH]; intros d n m Phi Hm Hn Ha H; [lia|]. simpl.
  case_decide as E; [|by apply wp_ret, H, advanced_stop; lia].
  apply wp_bind. eapply (wp_store32 f); [done|by eapply mapped_sub; [exact Hm|lia|lia]|apply fill_word|].
  intros m1 W1. apply IH; [|lia|by apply aligned_next|].
  - eapply written_mapped; [exact W1|]. eapply mapped_sub; [exact Hm|lia|lia].
  - intros p m' Had. apply H. eapply advanced_app; [|exact W1|exact Had]. lia.
Qed.
End memset.

(** The loop runs are bounded by the count. *)
Lemma fuel_enough n k : 0 <= n -> 0 <= k <= n -> 0 <= n - k < Z.of_nat (loop_fuel n).
Proof. unfold loop_fuel. lia. Qed.

Lemma wp_memset d c n m (Phi : Z -> ram -> Prop) : 0 <= n -> mapped m d n ->
  (forall m', written (fun _ => u8 c) d n m m' -> Phi d m') -> wp (tkmc_memset d c n) Phi m.
Proof.
  intros Hn Hm H. unfold tkmc_memset.
  assert (Hb : is_byte (u8 c)) by (unfold is_byte, u8; apply Z.mod_pos_bound; lia).
  set (f := fun _ : Z => u8 c) in *.
  pose proof (fun k => fuel_enough n k Hn) as Hf.
  case_decide as E.
  { apply wp_bind, wp_set_bytes; [done|unfold loop_fuel; lia|]. intros m' W. by apply wp_ret, H. }
  (* what is left after some of the block is there and is set in the end *)
  assert (Hrest : forall p m1, advanced f d n m p m1 ->
    wp (set_bytes (loop_fuel n) (fst p) (u8 c) (snd p) ;;; ret d) Phi m1).
  { intros p m1 (k & Hk & -> & W1). apply wp_bind, wp_set_bytes.
    - eapply written_mapped; [exact W1|]. eapply mapped_sub; [exact Hm|simpl; lia|simpl; lia].
    - apply Hf. lia.
    - intros m2 W2. apply wp_ret, H. replace n with (k + (n - k)) by lia.
      eapply written_app; [lia|lia|exact W1|exact W2]. }
  assert (Hadv : forall p q m1 m2, advanced f d n m p m1 ->
    advanced f (fst p) (snd p) m1 q m2 -> advanced f d n m q m2).
  { intros p q m1 m2 (k & Hk & -> & W1) Had. by eapply advanced_app. }
  assert (Hmap : forall p m1, advanced f d n m p m1 ->
    mapped m1 (fst p) (snd p) /\ 0 <= snd p < Z.of_nat (loop_fuel n)).
  { intros p m1 (k & Hk & -> & W1). split; [|apply Hf; lia].
    eapply written_mapped; [exact W1|]. eapply mapped_sub; [exact Hm|simpl; lia|simpl; lia]. }
  apply wp_bind, wp_set_head; [done|unfold loop_fuel; lia|]. intros p1 m1 A1 Hal. apply wp_bind.
  destruct (Hmap _ _ A1) as [M1 F1]. case_decide as E4; [|by apply wp_ret, Hrest].
  apply wp_bind, wp_set_blocks; [done|done|done|destruct Hal; [done|lia]|].
  intros p2 m2 A2 Hal2. specialize (Hadv _ _ _ _ A1 A2) as A2'.
  destruct (Hmap _ _ A2') as [M2 F2]. apply wp_set_words; [done|done|done|done|].
  intros p3 m3 A3. eapply Hrest, Hadv; [exact A2'|exact A3].
Qed.

(** C38: [tkmc_memset], with its loops over bytes, words and blocks of eight words,
    does what the loop over bytes does: every byte of the block is the low byte of
    the value and no other byte changes. *)
Theorem memset_fills d c n m : 0 <= n -> mapped m d n ->
  exists m', tkmc_memset d c n m = Ret d m' /\
    forall i, m' !! i = if decide (d <= i < d + n) then Some (u8 c) else m !! i.
Proof.
  intros Hn Hm.
  assert (W : wp (tkmc_memset d c n) (fun r m' => r = d /\ written (fun _ => u8 c) d n m m') m)
    by (by apply wp_memset).
  apply wp_returns in W as (r & m' & E & -> & Hw). by exists m'.
Qed.

(** [clear_bss]: every byte of the section is zero, and no other changes. *)
Lemma wp_clear_bss bss_start bss_end m (Phi : unit -> ram -> Prop) :
  bss_start <= bss_end -> mapped m bss_start (bss_end - bss_start) ->
  (forall m', written (fun _ => 0) bss_start (bss_end - bss_start) m m' -> Phi tt m') ->
  wp (clear_bss bss_start bss_end) Phi m.
Proof.
  intros Hle Hm H. unfold clear_bss. apply wp_bind, wp_memset; [lia|done|].
  intros m' W. by apply wp_ret, H.
Qed.

(** ** [tkmc_memcpy] *)

Section memcpy.
(** The block at [src] is copied to [dest], which is elsewhere ([restrict]). *)
Context (m0 : ram) (dest src n0 : Z).
Hypothesis Hsrc : forall i, src <= i < src + n0 -> exists b, m0 !! i = Some b /\ is_byte b.
Hypothesis Hapart : dest + n0 <= src \/ src + n0 <= dest.

(** The byte that goes to the address [i]. *)
Let f : Z -> Z := fun i => default 0 (m0 !! (src + (i - dest))).

(** What the loops keep: [k] bytes are copied. *)
Definition copied (k : Z) (m : ram) : Prop := written f dest k m0 m.

Lemma copied_src k m i : copied k m -> k <= n0 -> src <= i < src + n0 -> m !! i = m0 !! i.
Proof using Hapart. intros Hc Hk Hi. rewrite Hc, decide_False by lia. done. Qed.

Lemma wp_load_src k m j (Phi : Z -> ram -> Prop) : copied k m -> k <= n0 -> 0 <= j < n0 ->
  (is_byte (f (dest + j)) -> Phi (f (dest + j)) m) -> wp (load8 (src + j)) Phi m.
Proof using Hsrc Hapart.
  intros Hc Hk Hj H. destruct (Hsrc (src + j) ltac:(lia)) as (b & Hb & Hbyte).
  assert (Ef : f (dest + j) = b).
  { unfold f. replace (src + (dest + j - dest)) with (src + j) by lia. by rewrite Hb. }
  rewrite Ef in H. eapply wp_gets_opt; [|by apply H].
  rewrite (copied_src k m (src + j)) by (done || lia). done.
Qed.

Hypothesis Hdest : mapped m0 dest n0.

Lemma copied_mapped k m j l : copied k m -> 0 <= j -> j + l <= n0 -> mapped m (dest + j) l.
Proof using Hdest.
  intros Hc Hj Hl. eapply written_mapped; [exact Hc|].
  eapply mapped_sub; [exact Hdest|lia|lia].
Qed.

(** One byte more. *)
Lemma wp_copy_byte {A} k m (rest : R A) (Phi : A -> ram -> Prop) : copied k m -> 0 <= k < n0 ->
  (forall m', copied (k + 1) m' -> wp rest Phi m') ->
  wp (b <- load8 (src + k) ;; store8 (dest + k) b ;;; rest) Phi m.
Proof using Hsrc Hapart Hdest.
  intros Hc Hk H. apply wp_bind. eapply wp_load_src; [exact Hc|lia|lia|]. intros _.
  apply wp_bind, wp_store8; [eapply (copied_mapped k m k 1); [exact Hc|lia|lia|lia]|].
  apply H. eapply written_app; [lia|lia|exact Hc|by apply written_one].
Qed.

Lemma wp_copy_bytes fuel : forall k n m (Phi : unit -> ram -> Prop), copied k m ->
  0 <= k -> n = n0 - k -> 0 <= n < Z.of_nat fuel ->
  (forall m', copied n0 m' -> Phi tt m') -> wp (copy_bytes fuel (dest + k) (src + k) n) Phi m.
Proof using Hsrc Hapart Hdest.
  induction fuel as [|fuel IH]; intros k n m Phi Hc Hk En Hn H; [lia|]. simpl.
  case_decide as E0; [apply wp_ret, H; by replace n0 with k by lia|].
  apply (wp_copy_byte k); [done|lia|]. intros m' Hc'. rewrite <- !Z.add_assoc.
  apply IH; [done|lia|lia|lia|done].
Qed.

(** Where a loop stops: [k] bytes are copied, [n0 - k] are left. *)
Definition copy_at (k : Z) (p : Z * Z * Z) : Prop :=
  0 <= k <= n0 /\ p = (dest + k, src + k, n0 - k).

Lemma wp_copy_head fuel : forall k n m (Phi : Z * Z * Z -> ram -> Prop), copied k m ->
  0 <= k -> n = n0 - k -> 0 <= n < Z.of_nat fuel ->
  (forall k' p m', copy_at k' p -> copied k' m' ->
     aligned (dest + k') = true \/ k' = n0 -> Phi p m') ->
  wp (copy_head fuel (dest + k) (src + k) n) Phi m.
Proof using Hsrc Hapart Hdest.
  induction fuel as [|fuel IH]; intros k n m Phi Hc Hk En Hn H; [lia|]. simpl.
  destruct (aligned (dest + k) || bool_decide (n = 0)) eqn:E.
  { apply wp_ret, (H k); [split; [lia|by rewrite En]|done|].
    apply orb_prop in E as [?|E]; [by left|right]. apply bool_decide_eq_true in E. lia. }
  apply orb_false_elim in E as [_ E]. apply bool_decide_eq_false in E.
  apply (wp_copy_byte k); [done|lia|]. intros m' Hc'. rewrite <- !Z.add_assoc.
  apply IH; [done|lia|lia|lia|done].
Qed.

(** One word more: the loads take the bytes, and the stores put them back. *)
Lemma wp_copy_word k m (Phi : unit -> ram -> Prop) : copied k m -> 0 <= k -> k + 4 <= n0 ->
  aligned (dest + k) = true -> aligned (src + k) = true ->
  (forall m', copied (k + 4) m' -> Phi tt m') -> wp (copy_word (dest + k) (src + k)) Phi m.
Proof using Hsrc Hapart Hdest.
  intros Hc Hk Hk4 Hd Hs H. unfold copy_word, load32. rewrite Hs.
  assert (Hl : forall j, 0 <= j < 4 -> forall Psi : Z -> ram -> Prop,
    (is_byte (f (dest + k + j)) -> Psi (f (dest + k + j)) m) -> wp (load8 (src + k + j)) Psi m).
  { intros j Hj Psi HPsi. rewrite <- !Z.add_assoc in *. eapply wp_load_src; [exact Hc|lia|lia|done]. }
  apply wp_bind, wp_bind. pose proof (Hl 0 ltac:(lia)) as Hl0. rewrite !Z.add_0_r in Hl0.
  apply Hl0. intros B0. apply wp_bind, Hl; [lia|]. intros B1.
  apply wp_bind, Hl; [lia|]. intros B2. apply wp_bind, Hl; [lia|]. intros B3. apply wp_ret.
  eapply (wp_store32 f); [done|eapply copied_mapped; [exact Hc|lia|lia]| |].
  - destruct (word_split _ _ _ _ B0 B1 B2 B3) as (_ & H0 & H1 & H2 & H3). by repeat split.
  - intros m' W. apply H. eapply written_app; [lia|lia|exact Hc|exact W].
Qed.

Hypothesis Hsame : (dest - src) mod 4 = 0.

(** The next word of a block. *)
Lemma wp_copy_next k j m (Phi : unit -> ram -> Prop) : copied (k + j) m -> 0 <= k -> 0 <= j ->
  k + (j + 4) <= n0 -> aligned (dest + k) = true -> j mod 4 = 0 ->
  (forall m', copied (k + (j + 4)) m' -> Phi tt m') ->
  wp (copy_word (dest + k + j) (src + k + j)) Phi m.
Proof using Hsrc Hapart Hdest Hsame.
  intros Hc Hk Hj Hb Ha Hj4 H. rewrite <- !Z.add_assoc.
  apply wp_copy_word; [done|lia|lia| |apply (same_aligned dest); [done|]|];
    [..|by rewrite <- Z.add_assoc]; rewrite Z.add_assoc; by apply aligned_next.
Qed.

Lemma wp_copy_blocks fuel : forall k n m (Phi : Z * Z * Z -> ram -> Prop), copied k m ->
  0 <= k -> n = n0 - k -> 0 <= n < Z.of_nat fuel -> aligned (dest + k) = true ->
  (forall k' p m', copy_at k' p -> copied k' m' -> aligned (dest + k') = true -> Phi p m') ->
  wp (copy_blocks fuel (dest + k) (src + k) n) Phi m.
Proof using Hsrc Hapart Hdest Hsame.
  induction fuel as [|fuel IH]; intros k n m Phi Hc Hk En Hn Ha H; [lia|]. simpl.
  case_decide as E; [|by apply wp_ret, (H k); [split; [lia|by rewrite En]|..]].
  apply wp_bind. rewrite <- (Z.add_0_r (dest + k)) at 1. rewrite <- (Z.add_0_r (src + k)) at 1.
  apply wp_copy_next; [by rewrite Z.add_0_r|lia|lia|lia|done|done|]. intros m1 C1.
  apply wp_bind, wp_copy_next; [done|lia|lia|lia|done|done|]. intros m2 C2.
  apply wp_bind, wp_copy_next; [done|lia|lia|lia|done|done|]. intros m3 C3.
  apply wp_bind, wp_copy_next; [done|lia|lia|lia|done|done|]. intros m4 C4.
  apply wp_bind, wp_copy_next; [done|lia|lia|lia|done|done|]. intros m5 C5.
  apply wp_bind, wp_copy_next; [done|lia|lia|lia|done|done|]. intros m6 C6.
  apply wp_bind, wp_copy_next; [done|lia|lia|lia|done|done|]. intros m7 C7.
  apply wp_bind, wp_copy_next; [done|lia|lia|lia|done|done|]. intros m8 C8.
  rewrite <- !Z.add_assoc.
  apply IH; [exact C8|lia|lia|lia|rewrite Z.add_assoc; by apply aligned_next|done].
Qed.

Lemma wp_copy_words fuel : forall k n m (Phi : Z * Z * Z -> ram -> Prop), copied k m ->
  0 <= k -> n = n0 - k -> 0 <= n < Z.of_nat fuel -> aligned (dest + k) = true ->
  (forall k' p m', copy_at k' p -> copied k' m' -> Phi p m') ->
  wp (copy_words fuel (dest + k) (src + k) n) Phi m.
Proof using Hsrc Hapart Hdest Hsame.
  induction fuel as [|fuel IH]; intros k n m Phi Hc Hk En Hn Ha H; [lia|]. simpl.
  case_decide as E; [|by apply wp_ret, (H k); [split; [lia|by rewrite En]|..]].
  apply wp_bind, wp_copy_word; [done|lia|lia|done|by apply (same_aligned dest)|]. intros m1 C1.
  rewrite <- !Z.add_assoc.
  apply IH; [exact C1|lia|lia|lia|rewrite Z.add_assoc; by apply aligned_next|done].
Qed.
End memcpy.

(** What the caller owes: bytes at the source, room at the destination, and
    blocks that do not overlap ([restrict]). *)
Record copyable (m : ram) (dest src n : Z) : Prop := {
  cp_src i : src <= i < src + n -> exists b, m !! i = Some b /\ is_byte b;
  cp_dest : mapped m dest n;
  cp_apart : dest + n <= src \/ src + n <= dest;
}.

Lemma wp_memcpy dest src n m (Phi : Z -> ram -> Prop) : 0 <= n -> copyable m dest src n ->
  (forall m', copied m dest src n m' -> Phi dest m') -> wp (tkmc_memcpy dest src n) Phi m.
Proof.
  intros Hn [Hs Hd Ha] H. unfold tkmc_memcpy.
  pose proof (fun k => fuel_enough n k Hn) as Hf.
  assert (H0 : copied m dest src 0 m) by apply written_none.
  (* what is left after [k] bytes is copied in the end *)
  assert (Hrest : forall k m1, 0 <= k <= n -> copied m dest src k m1 ->
    wp (copy_bytes (loop_fuel n) (dest + k) (src + k) (n - k) ;;; ret dest) Phi m1).
  { intros k m1 Hk Hc. apply wp_bind.
    apply (wp_copy_bytes m dest src n Hs Ha Hd); [done|lia|lia|by apply Hf|].
    intros m' Hc'. by apply wp_ret, H. }
  pose proof (Hrest 0 m ltac:(lia) H0) as Hall. rewrite !Z.add_0_r, Z.sub_0_r in Hall.
  case_decide as E32; [exact Hall|].
  destruct (aligned (Z.lxor dest src)) eqn:Ex; cbn [negb]; [|exact Hall].
  apply lxor_aligned in Ex.
  apply wp_bind. rewrite <- (Z.add_0_r dest) at 1. rewrite <- (Z.add_0_r src) at 1.
  apply (wp_copy_head m dest src n Hs Ha Hd); [done|lia|lia|unfold loop_fuel; lia|].
  intros k1 p m1 [Hk1 ->] C1 Hal. apply wp_bind.
  assert (Hblocks : forall Psi : Z * Z * Z -> ram -> Prop,
    (forall k2 p m2, copy_at dest src n k2 p -> copied m dest src k2 m2 ->
       aligned (dest + k2) = true \/ k2 = n -> Psi p m2) ->
    wp (copy_blocks (loop_fuel n) (dest + k1) (src + k1) (n - k1)) Psi m1).
  { intros Psi HPsi. destruct Hal as [Hal|E].
    - apply (wp_copy_blocks m dest src n Hs Ha Hd Ex); [done|lia|lia|by apply Hf|done|].
      intros k2 p m2 Hp C2 Hal2. apply (HPsi k2); [done|done|by left].
    - rewrite E, Z.sub_diag. unfold loop_fuel. simpl. rewrite E in C1.
      apply wp_ret, (HPsi n); [split; [lia|by rewrite Z.sub_diag]|done|by right]. }
  apply Hblocks. intros k2 p m2 [Hk2 ->] C2 Hal2. apply wp_bind.
  destruct Hal2 as [Hal2|E].
  - apply (wp_copy_words m dest src n Hs Ha Hd Ex); [done|lia|lia|by apply Hf|done|].
    intros k3 p m3 [Hk3 ->] C3. by apply Hrest.
  - rewrite E, Z.sub_diag. unfold loop_fuel at 1. simpl. rewrite E in C2. apply wp_ret.
    pose proof (Hrest n m2 ltac:(lia) C2) as Hr. by rewrite Z.sub_diag in Hr.
Qed.

(** C39: [tkmc_memcpy] of blocks that do not overlap, whatever their alignment, does
    what the loop over bytes does: every byte of the destination is that of the
    source and no other byte changes. *)
Theorem memcpy_copies dest src n m : 0 <= n -> copyable m dest src n ->
  exists m', tkmc_memcpy dest src n m = Ret dest m' /\
    forall i, m' !! i = if decide (dest <= i < dest + n) then m !! (src + (i - dest)) else m !! i.
Proof.
  intros Hn Hcp.
  assert (W : wp (tkmc_memcpy dest src n) (fun r m' => r = dest /\ copied m dest src n m') m)
    by (by apply wp_memcpy).
  apply wp_returns in W as (r & m' & E & -> & Hw). exists m'. split; [done|]. intros i.
  rewrite Hw. case_decide as Hi; [|done].
  destruct (cp_src _ _ _ _ Hcp (src + (i - dest)) ltac:(lia)) as (b & Hb & _). by rewrite Hb.
Qed.
