(* ===== verification/Frame.v ===== *)
(** * The frames of tasks: the assembler that saves and restores registers

    [SAVE_FRAME] and [RESTORE_FRAME] of [src/kernel/asm/rv32/start.S] and
    [__launch_task] of [launch_task.S], as operations on the registers of the
    hart and the RAM, instruction by instruction. What is saved is restored, and
    the first frame that [tk_sta_tsk] builds starts a task at its entry with its
    two arguments, and returns to [tk_ext_tsk]. *)

From S2P Require Import Prelude DList Tkernel Kernel Inv Moves Rules Wait Sched Timer Task.

Open Scope Z_scope.

(** ** The registers *)

(** The registers a frame holds; [sp] and [mepc] are apart. *)
Inductive reg : Type :=
  | ra | t0 | t1 | t2 | s0 | s1 | a0 | a1 | a2 | a3 | a4 | a5 | a6 | a7
  | s2 | s3 | s4 | s5 | s6 | s7 | s8 | s9 | s10 | s11 | t3 | t4 | t5 | t6.

#[export] Instance reg_eq_dec : EqDecision reg.
Proof. solve_decision. Defined.

Record cpu : Type := mk_cpu {
  xreg : reg -> cell;
  xsp : Z;
  xmepc : cell;
  xram : gmap Z cell;
}.

Abbreviation C := (M cpu).

Definition set_reg (r : reg) (v : cell) (c : cpu) : cpu :=
  mk_cpu (fun r' => if decide (r' = r) then v else xreg c r') (xsp c) (xmepc c) (xram c).

(** The address of the word [i] above [sp]. *)
Definition slot (c : cpu) (i : Z) : Z := u32 (xsp c + 4 * i).

Definition addi_sp (d : Z) : C unit :=
  modify (fun c => mk_cpu (xreg c) (u32 (xsp c + d)) (xmepc c) (xram c)).
Definition sw (r : reg) (i : Z) : C unit :=
  modify (fun c => mk_cpu (xreg c) (xsp c) (xmepc c) (<[slot c i := xreg c r]> (xram c))).
Definition lw (r : reg) (i : Z) : C unit :=
  v <- gets_opt (fun c => xram c !! slot c i) ;; modify (set_reg r v).

(** The lines [sw ra, 0*4(sp)] to [sw t6, 27*4(sp)], and the lines [lw] that undo
    them in the opposite order. *)
Definition frame_regs : list (reg * Z) :=
  [(ra, 0); (t0, 1); (t1, 2); (t2, 3); (s0, 4); (s1, 5); (a0, 6); (a1, 7); (a2, 8); (a3, 9);
   (a4, 10); (a5, 11); (a6, 12); (a7, 13); (s2, 14); (s3, 15); (s4, 16); (s5, 17); (s6, 18);
   (s7, 19); (s8, 20); (s9, 21); (s10, 22); (s11, 23); (t3, 24); (t4, 25); (t5, 26); (t6, 27)].

Fixpoint sw_all (l : list (reg * Z)) : C unit :=
  match l with
  | [] => ret tt
  | (r, i) :: l => sw r i ;;; sw_all l
  end.
Fixpoint lw_all (l : list (reg * Z)) : C unit :=
  match l with
  | [] => ret tt
  | (r, i) :: l => lw r i ;;; lw_all l
  end.

Definition SAVE_FRAME : C unit :=
  addi_sp (- FRAME_BYTES) ;;;
  sw_all frame_regs ;;;
  modify (fun c => set_reg t0 (xmepc c) c) ;;;
  sw t0 28.

Definition RESTORE_FRAME : C unit :=
  lw t0 28 ;;;
  modify (fun c => mk_cpu (xreg c) (xsp c) (xreg c t0) (xram c)) ;;;
  lw_all (reverse frame_regs) ;;;
  addi_sp FRAME_BYTES.

(** The argument is what [lw sp, (a0)] loads; the result is the address jumped to. *)
Definition launch_task (sp0 : Z) : C cell :=
  modify (fun c => mk_cpu (xreg c) sp0 (xmepc c) (xram c)) ;;;
  lw_all (reverse frame_regs) ;;;
  lw a3 28 ;;;
  addi_sp FRAME_BYTES ;;;
  gets (fun c => xreg c a3).

(** ** Loads and stores of a frame *)

Definition frame_at (base : Z) : Prop := 0 <= base /\ base + FRAME_BYTES <= 2 ^ 32.

Lemma slot_in c i : frame_at (xsp c) -> 0 <= i < FRAME_WORDS -> slot c i = xsp c + 4 * i.
Proof.
  unfold frame_at, FRAME_BYTES, FRAME_WORDS, slot, u32. intros H Hi. apply Z.mod_small. lia.
Qed.

(** Every word of the frame has its register. *)
Lemma frame_regs_ok : NoDup (frame_regs.*1) /\ NoDup (frame_regs.*2) /\
  (forall r, r ∈ frame_regs.*1) /\ Forall (fun p => 0 <= p.2 < 28) frame_regs.
Proof.
  split; [apply (bool_decide_unpack _); by vm_compute|].
  split; [apply (bool_decide_unpack _); by vm_compute|].
  split; [|apply (bool_decide_unpack _); by vm_compute].
  intros r. destruct r; apply (bool_decide_unpack _); by vm_compute.
Qed.

Lemma frame_regs_range r i : (r, i) ∈ frame_regs -> 0 <= i < 28.
Proof.
  intros H. pose proof (proj2 (proj2 (proj2 frame_regs_ok))) as Hf.
  rewrite Forall_forall in Hf. by apply (Hf (r, i)).
Qed.

Lemma frame_regs_slot r : exists i, (r, i) ∈ frame_regs.
Proof.
  pose proof (proj1 (proj2 (proj2 frame_regs_ok)) r) as H.
  apply list_elem_of_fmap in H as ([r' i] & -> & H). by exists i.
Qed.

Lemma wp_lw r i v (Phi : unit -> cpu -> Prop) c :
  xram c !! slot c i = Some v -> Phi tt (set_reg r v c) -> wp (lw r i) Phi c.
Proof. intros E H. unfold lw. apply wp_bind. eapply wp_gets_opt; [exact E|]. by apply wp_modify. Qed.

(** [c'] is [c] with the registers of [l] loaded. *)
Record loaded (l : list (reg * Z)) (c c' : cpu) : Prop := {
  ld_sp : xsp c' = xsp c;
  ld_mepc : xmepc c' = xmepc c;
  ld_ram : xram c' = xram c;
  ld_reg r i : (r, i) ∈ l -> xram c !! slot c i = Some (xreg c' r);
  ld_rest r : r ∉ l.*1 -> xreg c' r = xreg c r;
}.

Lemma wp_lw_all l (Phi : unit -> cpu -> Prop) : forall c, NoDup (l.*1) ->
  (forall r i, (r, i) ∈ l -> is_Some (xram c !! slot c i)) ->
  (forall c', loaded l c c' -> Phi tt c') -> wp (lw_all l) Phi c.
Proof.
  induction l as [|[r i] l IH]; intros c Hnd Hm H; cbn [lw_all].
  - apply wp_ret, H. split; try done. intros r i Hr. by apply elem_of_nil in Hr.
  - apply NoDup_cons in Hnd as [Hn Hnd]. destruct (Hm r i ltac:(by left)) as [v Ev].
    apply wp_bind, (wp_lw r i v); [exact Ev|]. apply IH; [exact Hnd| |].
    { intros r' i' Hr. apply (Hm r' i'). by right. }
    intros c' [L1 L2 L3 L4 L5]. apply H. split; [exact L1|exact L2|exact L3| |].
    + intros r' i' [[= -> ->]|Hr]%elem_of_cons; [|by apply (L4 r' i')].
      rewrite L5 by done. simpl. by rewrite decide_True.
    + intros r' Hr. rewrite L5 by (intros Hr'; apply Hr; by right). simpl.
      rewrite decide_False; [done|]. intros ->. apply Hr. by left.
Qed.

(** [c'] is [c] with the registers of [l] stored. *)
Record stored (l : list (reg * Z)) (c c' : cpu) : Prop := {
  st_sp : xsp c' = xsp c;
  st_mepc : xmepc c' = xmepc c;
  st_reg r : xreg c' r = xreg c r;
  st_ram r i : (r, i) ∈ l -> xram c' !! slot c i = Some (xreg c r);
  st_rest a : (forall i, i ∈ l.*2 -> a <> slot c i) -> xram c' !! a = xram c !! a;
}.

Lemma wp_sw_all l (Phi : unit -> cpu -> Prop) : forall c, frame_at (xsp c) -> NoDup (l.*2) ->
  Forall (fun p => 0 <= p.2 < FRAME_WORDS) l ->
  (forall c', stored l c c' -> Phi tt c') -> wp (sw_all l) Phi c.
Proof.
  induction l as [|[r i] l IH]; intros c Hf Hnd Hr H; cbn [sw_all].
  - apply wp_ret, H. split; try done. intros r i Hi. by apply elem_of_nil in Hi.
  - apply NoDup_cons in Hnd as [Hn Hnd]. apply Forall_cons in Hr as [Hi Hr]. simpl in Hi.
    apply wp_bind, wp_modify, IH; [exact Hf|exact Hnd|exact Hr|].
    intros c' [S1 S2 S3 S4 S5]. apply H. split; [exact S1|exact S2|exact S3| |].
    + intros r' i' [[= -> ->]|Hx]%elem_of_cons; [|by apply (S4 r' i')].
      rewrite S5; [apply lookup_insert_eq|]. intros j Hj. change (slot c i <> slot c j).
      assert (Hj' : 0 <= j < FRAME_WORDS).
      { apply list_elem_of_fmap in Hj as (p & -> & Hp). rewrite Forall_forall in Hr. by apply Hr. }
      rewrite !slot_in by done. intros E. assert (i = j) as -> by lia. done.
    + intros a Ha. rewrite S5 by (intros j Hj; apply Ha; by right). simpl.
      apply lookup_insert_ne. intros E. by apply (Ha i ltac:(by left)).
Qed.

Lemma reversed_regs l c c' : loaded (reverse l) c c' -> loaded l c c'.
Proof.
  intros [L1 L2 L3 L4 L5]. split; [done|done|done| |].
  - intros r i Hr. apply L4. by apply elem_of_reverse.
  - intros r Hr. apply L5. by rewrite fmap_reverse, elem_of_reverse.
Qed.

Lemma wp_lw_frame (Phi : unit -> cpu -> Prop) c :
  (forall i, 0 <= i < 28 -> is_Some (xram c !! slot c i)) ->
  (forall c', loaded frame_regs c c' -> Phi tt c') -> wp (lw_all (reverse frame_regs)) Phi c.
Proof.
  intros Hm H. apply wp_lw_all.
  - rewrite reverse_Permutation. apply frame_regs_ok.
  - intros r i Hr. apply elem_of_reverse in Hr. by apply Hm, (frame_regs_range r).
  - intros c' Hl. by apply H, reversed_regs.
Qed.

(** ** What is saved is restored *)

(** The words of a frame at [sp]: one for each register, and [mepc]. *)
Definition frame_holds (base : Z) (regs : reg -> cell) (mepc : cell) (m : gmap Z cell) : Prop :=
  (forall r i, (r, i) ∈ frame_regs -> m !! (base + 4 * i) = Some (regs r)) /\
  m !! (base + 4 * 28) = Some mepc.

Lemma wp_save_frame c (Phi : unit -> cpu -> Prop) : frame_at (xsp c - FRAME_BYTES) ->
  (forall c', xsp c' = xsp c - FRAME_BYTES -> xmepc c' = xmepc c ->
     frame_holds (xsp c') (xreg c) (xmepc c) (xram c') ->
     (forall a, ~ (xsp c' <= a < xsp c) -> xram c' !! a = xram c !! a) -> Phi tt c') ->
  wp SAVE_FRAME Phi c.
Proof.
  intros Hf H. unfold SAVE_FRAME. apply wp_bind, wp_modify.
  assert (Esp : u32 (xsp c + - FRAME_BYTES) = xsp c - FRAME_BYTES).
  { unfold u32. apply Z.mod_small. unfold frame_at, FRAME_BYTES, FRAME_WORDS in *. lia. }
  rewrite Esp. set (c0 := mk_cpu _ _ _ _). assert (Hf0 : frame_at (xsp c0)) by exact Hf.
  destruct frame_regs_ok as (_ & Hnd & _ & Hr). apply wp_bind, wp_sw_all; [exact Hf0|exact Hnd| |].
  { eapply Forall_impl; [exact Hr|]. intros p Hp. cbv beta in *. unfold FRAME_WORDS. lia. }
  intros c1 [S1 S2 S3 S4 S5]. apply wp_bind, wp_modify, wp_modify.
  assert (E1 : xsp c1 = xsp c - FRAME_BYTES) by (by rewrite S1).
  assert (Hs : forall i, 0 <= i < FRAME_WORDS -> slot c1 i = xsp c1 + 4 * i).
  { intros i Hi. apply slot_in; [by rewrite S1|done]. }
  apply H; cbn [set_reg xsp xmepc xram xreg].
  - exact E1.
  - by rewrite S2.
  - change (slot _ 28) with (slot c1 28). rewrite Hs by (unfold FRAME_WORDS; lia). split.
    + intros r i Hri. pose proof (frame_regs_range r i Hri). rewrite lookup_insert_ne by lia.
      rewrite <- Hs by (unfold FRAME_WORDS; lia).
      assert (Es : slot c1 i = slot c0 i) by (unfold slot; by rewrite S1). rewrite Es. by apply S4.
    + rewrite lookup_insert_eq, decide_True, S2 by done. done.
  - intros a Ha. change (slot _ 28) with (slot c1 28). rewrite Hs by (unfold FRAME_WORDS; lia).
    unfold FRAME_BYTES, FRAME_WORDS in *. rewrite lookup_insert_ne by lia. rewrite S5; [done|].
    intros i Hi E. apply list_elem_of_fmap in Hi as ([r j] & -> & Hj). simpl in E.
    pose proof (frame_regs_range r j Hj). rewrite slot_in in E by (unfold FRAME_WORDS; first [done|lia]).
    change (xsp c0) with (xsp c - 4 * 32) in E. lia.
Qed.

Lemma frame_holds_mapped c regs mepc i : frame_at (xsp c) ->
  frame_holds (xsp c) regs mepc (xram c) -> 0 <= i < 28 -> is_Some (xram c !! slot c i).
Proof.
  intros Hf [Hr _] Hi. rewrite slot_in by (unfold FRAME_WORDS; first [done|lia]).
  assert (Hin : i ∈ frame_regs.*2).
  { assert (Hall : Forall (fun i => i ∈ frame_regs.*2) (seqZ 0 28)).
    { apply (bool_decide_unpack _). by vm_compute. }
    rewrite Forall_forall in Hall. apply Hall, elem_of_seqZ. lia. }
  apply list_elem_of_fmap in Hin as ([r j] & -> & Hj). exists (regs r). by apply Hr.
Qed.

Lemma wp_restore_frame c regs mepc (Phi : unit -> cpu -> Prop) : frame_at (xsp c) ->
  frame_holds (xsp c) regs mepc (xram c) ->
  (forall c', xsp c' = u32 (xsp c + FRAME_BYTES) -> xmepc c' = mepc -> xram c' = xram c ->
     (forall r, xreg c' r = regs r) -> Phi tt c') ->
  wp RESTORE_FRAME Phi c.
Proof.
  intros Hf Hh H. unfold RESTORE_FRAME. pose proof Hh as [Hr Hm].
  apply wp_bind, (wp_lw t0 28 mepc).
  { by rewrite slot_in by (unfold FRAME_WORDS; first [done|lia]). }
  apply wp_bind, wp_modify. cbn [set_reg xreg xsp xmepc xram]. rewrite decide_True by done.
  set (c0 := mk_cpu _ _ _ _). apply wp_bind, wp_lw_frame.
  { intros i Hi. exact (frame_holds_mapped c regs mepc i Hf Hh Hi). }
  intros c1 [L1 L2 L3 L4 _]. apply wp_modify, H; cbn [xsp xmepc xram xreg].
  - by rewrite L1.
  - by rewrite L2.
  - by rewrite L3.
  - intros r. destruct (frame_regs_slot r) as [i Hi]. specialize (L4 r i Hi).
    pose proof (frame_regs_range r i Hi).
    change (slot c0 i) with (slot c i) in L4. change (xram c0) with (xram c) in L4.
    rewrite slot_in in L4 by (unfold FRAME_WORDS; first [done|lia]).
    rewrite (Hr r i Hi) in L4. by injection L4.
Qed.

(** The words of a frame that are used for registers and [mepc]; word 29 is [mie_slot]. *)
Definition same_frame (base : Z) (m m' : gmap Z cell) : Prop :=
  forall i, 0 <= i <= 28 -> m' !! (base + 4 * i) = m !! (base + 4 * i).

(** SAVE_FRAME writes the 128 bytes below the stack pointer and nothing else, and
    RESTORE_FRAME, of a hart whose stack pointer is there and whatever else it holds,
    gives back every register, mepc and the stack pointer. *)
Lemma frame_roundtrip c : frame_at (xsp c - FRAME_BYTES) -> xsp c < 2 ^ 32 ->
  exists c1, SAVE_FRAME c = Ret tt c1 /\ xsp c1 = xsp c - FRAME_BYTES /\
    (forall a, ~ (xsp c1 <= a < xsp c) -> xram c1 !! a = xram c !! a) /\
    forall c2, xsp c2 = xsp c1 ->
      same_frame (xsp c1) (xram c1) (xram c2) ->
      exists c3, RESTORE_FRAME c2 = Ret tt c3 /\ xsp c3 = xsp c /\ xmepc c3 = xmepc c /\
        xram c3 = xram c2 /\ forall r, xreg c3 r = xreg c r.
Proof.
  intros Hf Hsp.
  assert (W : wp SAVE_FRAME (fun _ c' => xsp c' = xsp c - FRAME_BYTES /\
    frame_holds (xsp c') (xreg c) (xmepc c) (xram c') /\
    (forall a, ~ (xsp c' <= a < xsp c) -> xram c' !! a = xram c !! a)) c).
  { by apply wp_save_frame. }
  apply wp_returns in W as ([] & c1 & E1 & Es & [Hr Hm] & Ho). exists c1.
  split; [done|]. split; [done|]. split; [done|]. intros c2 Es2 Hram.
  assert (Hh2 : frame_holds (xsp c2) (xreg c) (xmepc c) (xram c2)).
  { rewrite Es2. split.
    - intros r i Hi. pose proof (frame_regs_range r i Hi). rewrite Hram by lia. by apply Hr.
    - by rewrite Hram by lia. }
  assert (Hf2 : frame_at (xsp c2)) by (by rewrite Es2, Es).
  pose proof (wp_restore_frame c2 _ _ (fun _ c' => xsp c' = u32 (xsp c2 + FRAME_BYTES) /\
    xmepc c' = xmepc c /\ xram c' = xram c2 /\ (forall r, xreg c' r = xreg c r)) Hf2 Hh2
    ltac:(by intros)) as W.
  apply wp_returns in W as ([] & c3 & E3 & Es3 & H). exists c3. split; [done|]. split; [|exact H].
  rewrite Es3, Es2, Es. unfold u32. rewrite Z.sub_add. apply Z.mod_small.
  unfold frame_at, FRAME_BYTES, FRAME_WORDS in *. lia.
Qed.

(** ** The first frame of a task *)

(** The word of the frame that holds [r]. *)
Definition frame_word (r : reg) : Z :=
  default 0 (snd <$> head (filter (fun p => p.1 = r) frame_regs)).

Lemma frame_word_is r i : (r, i) ∈ frame_regs -> i = frame_word r.
Proof.
  assert (Hf : Forall (fun p => p.2 = frame_word p.1) frame_regs).
  { apply (bool_decide_unpack _). by vm_compute. }
  rewrite Forall_forall in Hf. exact (Hf (r, i)).
Qed.

Definition entry (f : FP) : cell := match f with Some f => CText f | None => CWord 0 end.

(** The hart is at the start of a task: its arguments, where it returns to, and
    its whole stack. *)
Definition begins (base : Z) (stacd exinf0 : Z) (y : cpu) : Prop :=
  xreg y a0 = CWord (u32 stacd) /\ xreg y a1 = CWord exinf0 /\
  xreg y ra = CText F_tk_ext_tsk /\ xsp y = u32 (base + FRAME_BYTES).

Lemma frame_of_holds base f stacd exinf0 m : frame_of base f stacd exinf0 m ->
  exists regs, frame_holds base regs (entry f) m /\ regs a0 = CWord (u32 stacd) /\
    regs a1 = CWord exinf0 /\ regs ra = CText F_tk_ext_tsk.
Proof.
  intros (Hra & Hpc & H0 & H1 & Hm).
  exists (fun r => default (CWord 0) (m !! (base + 4 * frame_word r))). split; [split|].
  - intros r i Hi. pose proof (frame_regs_range r i Hi) as Hr.
    rewrite (frame_word_is r i Hi) in Hr |- *.
    destruct (Hm (frame_word r)) as [v Ev]; [unfold FRAME_WORDS; lia|]. by rewrite Ev.
  - exact Hpc.
  - change (frame_word a0) with REG_a0. change (frame_word a1) with REG_a1.
    change (frame_word ra) with REG_ra. by rewrite H0, H1, Hra.
Qed.

Lemma wp_launch_task base regs mepc x (Phi : cell -> cpu -> Prop) : frame_at base ->
  frame_holds base regs mepc (xram x) ->
  (forall y, xsp y = u32 (base + FRAME_BYTES) -> xram y = xram x ->
     (forall r, r <> a3 -> xreg y r = regs r) -> Phi mepc y) ->
  wp (launch_task base) Phi x.
Proof.
  intros Hf Hh H. unfold launch_task. apply wp_bind, wp_modify.
  set (c0 := mk_cpu _ _ _ _). pose proof Hh as [Hr Hm].
  apply wp_bind, wp_lw_frame.
  { intros i Hi. exact (frame_holds_mapped c0 regs mepc i Hf Hh Hi). }
  intros c1 [L1 L2 L3 L4 _]. apply wp_bind, (wp_lw a3 28 mepc).
  { rewrite slot_in by (rewrite ?L1; unfold FRAME_WORDS; first [done|lia]). by rewrite L1, L3. }
  apply wp_bind, wp_modify, wp_gets. cbn [set_reg xreg]. rewrite decide_True by done.
  apply H; cbn [set_reg xsp xram xreg].
  - by rewrite L1.
  - by rewrite L3.
  - intros r Hne. rewrite decide_False by done. destruct (frame_regs_slot r) as [i Hi].
    specialize (L4 r i Hi). pose proof (frame_regs_range r i Hi).
    rewrite slot_in in L4 by (unfold FRAME_WORDS; first [done|lia]).
    change (xram c0 !! (base + 4 * i) = Some (xreg c1 r)) in L4.
    change (xram c0) with (xram x) in L4. rewrite (Hr r i Hi) in L4. by injection L4.
Qed.

Lemma sta_tsk_frame k Q id stacd k1 c (H : sta_tsk_post k Q id stacd E_OK k1) :
  tcbs k !! (id - 1) = Some c -> exists c1, tcbs k1 !! (id - 1) = Some c1 /\
    sp c1 = initial_sp c /\ frame_of (initial_sp c) (task c) stacd (exinf c) (mem k1).
Proof.
  intros Hc. destruct H as (Q' & _ & H). destruct (tkmc_id_in_range id CFN_MAX_TSKID); [|by destruct H].
  destruct H as (c' & Hc' & H). assert (c' = c) as -> by congruence.
  case_decide as Es; [|by destruct H as [? _]; case_decide].
  destruct H as (_ & k2 & (_ & L & m & Hfr & _ & _ & _ & ->) & ->).
  exists (started_tcb c). unfold resched, with_lt. repeat case_decide; proj;
    (split; [apply lookup_insert_eq|]; split; [done|exact Hfr]).
Qed.

(** C37: After [tk_sta_tsk], the frame at the stack pointer of the task takes a hart
    to the entry of the task, by RESTORE_FRAME as by __launch_task, with the start
    code and exinf as arguments, tk_ext_tsk to return to and the stack empty. *)
Theorem started_task_begins k Q id stacd k1 c : wf k Q -> tcbs k !! (id - 1) = Some c ->
  tk_sta_tsk id stacd k = Ret E_OK k1 -> frame_at (initial_sp c) ->
  exists c1, tcbs k1 !! (id - 1) = Some c1 /\ sp c1 = initial_sp c /\
    forall x, xram x = mem k1 ->
    (xsp x = sp c1 -> exists y, RESTORE_FRAME x = Ret tt y /\ xmepc y = entry (task c) /\
       begins (initial_sp c) stacd (exinf c) y) /\
    (exists y, launch_task (sp c1) x = Ret (entry (task c)) y /\
       begins (initial_sp c) stacd (exinf c) y).
Proof.
  intros Hwf Hc E Hf. pose proof (wp_sta_tsk k Q id stacd Hwf) as W. unfold wp in W.
  rewrite E in W. destruct (sta_tsk_frame _ _ _ _ _ c W Hc) as (c1 & Hc1 & Es & Hfr).
  destruct (frame_of_holds _ _ _ _ _ Hfr) as (regs & Hh & H0 & H1 & H2).
  exists c1. split; [done|]. split; [done|]. rewrite Es. intros x Ex. rewrite <- Ex in Hh. split.
  - intros Esp. rewrite <- Esp in Hh, Hf |- *.
    assert (W' : wp RESTORE_FRAME (fun _ y => xmepc y = entry (task c) /\
      begins (xsp x) stacd (exinf c) y) x).
    { eapply wp_restore_frame; [exact Hf|exact Hh|]. intros y E1 E2 _ Er. split; [done|].
      unfold begins. by rewrite !Er. }
    apply wp_returns in W' as ([] & y & Ey & H). by exists y.
  - assert (W' : wp (launch_task (initial_sp c)) (fun r y => r = entry (task c) /\
      begins (initial_sp c) stacd (exinf c) y) x).
    { eapply wp_launch_task; [exact Hf|exact Hh|]. intros y E1 _ Er. split; [done|].
      unfold begins. by rewrite !Er. }
    apply wp_returns in W' as (r & y & Ey & -> & H). by exists y.
Qed.
