(* ===== verification/Context.v ===== *)
(** * What a trap does to a task: nothing

    A task is interrupted by a trap, which saves its registers with [SAVE_FRAME];
    other tasks run, in any order and for as long as they like; a trap of one of them
    gives the task back its frame, and [RESTORE_FRAME] its registers. Composed of
    the frames of [Frame] and the steps of [System]. *)

From S2P Require Import Prelude DList Tkernel Kernel Inv Moves Rules Wait Sched Check Timer.
From S2P Require Import Block TimerHandler Task Semaphore EventFlag Mailbox IntCtl Start Boot.
From S2P Require Import Trap KernelTasks Types Globals Calls System Frame.

Open Scope Z_scope.
Implicit Types (s : sys) (t frame r : Z).

(** A trap of the running task, entered with [frame] and left with [r]. *)
Inductive trap (frame r : Z) : sys -> sys -> Prop :=
  | trap_switch k C k' :
      taken k MSI -> msip k <> 0 -> is_u32 frame -> mtrap_handler frame k = Ret r k' ->
      trap frame r (k, C) (k', C)
  | trap_timer k C k' :
      taken k MTI -> timer_in_reach k -> 0 <= mtimecmp k < 2 ^ 64 -> is_u32 frame ->
      timer_interrupt frame k = Ret r k' -> trap frame r (k, C) (k', C)
  | trap_external s s' : external frame r s s' -> trap frame r s s'.

Lemma trap_step frame r s s' : trap frame r s s' -> step s s'.
Proof.
  intros [| |[k C] s2 He]; [by eapply step_switch|by eapply step_timer|by eapply step_external].
Qed.

Lemma trap_switched frame r s s' : top_ok s -> trap frame r s s' ->
  switched frame (fst s) r (fst s').
Proof.
  intros Htop Ht. pose proof Htop as (Hs & Hd & _).
  destruct Ht as [k C k' [Hm _] Hr Hf E|k C k' [Hm _] H1 H2 Hf E|s s' He]; cbn [fst] in *.
  - apply (run_wp _ _ _ _ _ E (wp_mtrap k C frame Hs Hf Hd Hm Hr)).
  - apply (run_wp _ _ _ _ _ E (wp_timer_trap k C frame Hs Hf Hd Hm H1 H2)).
  - by apply (external_next frame r s s').
Qed.

(** A step while [t] does not run. *)
Definition away (t : Z) s s' : Prop := current (fst s) <> Some t /\ step s s'.

(** [t] will go on from [base]. *)
Definition goes_on (t base : Z) s : Prop :=
  exists c, tcbs (fst s) !! t = Some c /\ alive c /\ sp c = base.

Lemma away_goes_on t base s s' : top_ok s -> goes_on t base s -> rtc (away t) s s' ->
  top_ok s' /\ goes_on t base s'.
Proof.
  intros Hs Hg Hr. induction Hr as [|s1 s2 s3 [Hn Hst] _ IH]; [done|].
  destruct (step_next _ _ Hs Hst) as [H2 Hfr]. apply IH; [exact H2|].
  destruct Hg as (c & Hc & Ha & <-). by apply (Hfr t c).
Qed.

Lemma switched_out t c frame r s s' : switched frame (fst s) r (fst s') ->
  current (fst s) = Some t -> tcbs (fst s) !! t = Some c -> alive c ->
  current (fst s') <> Some t -> goes_on t frame s'.
Proof. intros H Hc Ht Ha Hn. exact (sw_out _ _ _ _ H t c Hc Hn Ht Ha). Qed.

Lemma switched_in t base frame r s s' : switched frame (fst s) r (fst s') ->
  goes_on t base s -> current (fst s) <> Some t -> current (fst s') = Some t -> r = base.
Proof.
  intros H (c & Hc & Ha & <-) Hn Ht.
  destruct (sw_frames _ _ _ _ H t c Hc ltac:(congruence) Ha) as (c1 & Hc1 & _ & <-).
  destruct (sw_in _ _ _ _ H t Ht Hn) as (c2 & Hc2 & <-). by simplify_eq.
Qed.

(** [t], interrupted in [s] with [frame], runs again in [s'] with [r]: at once, or by
    a later trap of another task. *)
Inductive back_to (t frame : Z) s (r : Z) s' : Prop :=
  | back_at_once :
      trap frame r s s' -> current (fst s') = Some t -> back_to t frame s r s'
  | back_later r1 s1 s2 frame2 :
      trap frame r1 s s1 -> current (fst s1) <> Some t -> rtc (away t) s1 s2 ->
      current (fst s2) <> Some t -> trap frame2 r s2 s' -> current (fst s') = Some t ->
      back_to t frame s r s'.

(** The frame that a task gets back is its own. *)
Lemma frame_returns t c frame s r s' : reachable s -> current (fst s) = Some t ->
  tcbs (fst s) !! t = Some c -> alive c -> back_to t frame s r s' -> r = frame.
Proof.
  intros Hre Hc Ht Ha Hb. pose proof (reachable_top _ Hre) as Htop.
  destruct Hb as [T1 Hc1|r1 s1 s2 f2 T1 Hn1 Hw Hn2 T2 Hc3];
    pose proof (trap_switched _ _ _ _ Htop T1) as Hsw.
  - apply (sw_same _ _ _ _ Hsw). congruence.
  - destruct (step_next _ _ Htop (trap_step _ _ _ _ T1)) as [Htop1 _].
    assert (Hg1 : goes_on t frame s1) by (by eapply switched_out).
    destruct (away_goes_on t frame s1 s2 Htop1 Hg1 Hw) as [Htop2 Hg2].
    eapply (switched_in t frame); [by apply trap_switched|exact Hg2|exact Hn2|exact Hc3].
Qed.

(** C4: A task interrupted by any of its three traps goes on as if nothing had
    happened: its registers are saved below its stack pointer; if the trap does not
    switch, or a trap switches back after any steps of other tasks, the frame that
    is restored is the one it left; and, if nobody wrote to it, then every register,
    mepc and the stack pointer are what they were. *)
Theorem task_goes_on t c k C regs sp0 mepc : reachable (k, C) -> current k = Some t ->
  tcbs k !! t = Some c -> alive c -> frame_at (sp0 - FRAME_BYTES) -> sp0 < 2 ^ 32 ->
  exists x, SAVE_FRAME (mk_cpu regs sp0 mepc (mem k)) = Ret tt x /\
    forall r s', back_to t (xsp x) (set_mem (xram x) k, C) r s' ->
    r = xsp x /\
    (same_frame (xsp x) (xram x) (mem (fst s')) -> forall regs' mepc', exists y,
       RESTORE_FRAME (mk_cpu regs' r mepc' (mem (fst s'))) = Ret tt y /\
       xsp y = sp0 /\ xmepc y = mepc /\ forall v, xreg y v = regs v).
Proof.
  intros Hre Hc Ht Ha Hf Hsp.
  destruct (frame_roundtrip (mk_cpu regs sp0 mepc (mem k)) Hf Hsp) as (x & E1 & _ & _ & Hrt).
  exists x. split; [exact E1|]. intros r s' Hb.
  assert (Hre0 : reachable (set_mem (xram x) k, C)).
  { destruct Hre as (si & Hi & Hr). exists si. split; [done|]. eapply rtc_r; [exact Hr|].
    exact (step_outside k C (xram x) (reads k)). }
  assert (Er : r = xsp x) by (by eapply (frame_returns t c _ (set_mem (xram x) k, C))).
  split; [exact Er|]. intros Hsame regs' mepc'.
  destruct (Hrt (mk_cpu regs' r mepc' (mem (fst s'))) Er Hsame) as (y & Ey & H1 & H2 & _ & H4).
  by exists y.
Qed.
