(* ===== verification/Examples.v ===== *)
(** * Concrete runs

    A boot, two tasks of an application, and the objects they use; each general
    theorem applied to a state that is reached this way. *)

From S2P Require Import Prelude DList Tkernel Kernel Inv Moves Rules Wait Sched Check.
From S2P Require Import Timer Block TimerHandler Task Semaphore EventFlag Mailbox.
From S2P Require Import IntCtl Start Trap.

Open Scope Z_scope.

(** ** The states *)

(** The machine time, which stands still in these runs. *)
Definition clock0 (_ : nat) : Z := 1000.
Definition clock1 (_ : nat) : Z := 301000.

Definition booted : kernel :=
  after (tkmc_start 4096 8192 0) (bss_state [100; 200] clock0 ∅ (mk_CSR false 0 ALL_TRAPS)).

Definition worker (pri stack : Z) : T_CTSK :=
  mk_T_CTSK 7 TA_USERBUF (Some (F_user 5)) pri 1024 stack.

(** The initial task (ID 1) made two tasks (ID 3 and 4) and started the first. *)
Definition two_tasks : kernel :=
  after (tk_cre_tsk (Some (worker 6 131072)))
    (after (tk_sta_tsk 3 42) (after (tk_cre_tsk (Some (worker 5 65536))) booted)).

(** The pending switch is taken: [software_interrupt] of start.S clears the
    request and calls [schedule] with the stack pointer. *)
Definition switch (k : kernel) : kernel := after (schedule 5000) (set_msip 0 k).

(** The task with ID 3 runs, the initial task sleeps for 50 ms. *)
Definition slept : kernel := switch (after (tk_slp_tsk 50) two_tasks).

(** The worker sleeps too: the idle task runs. *)
Definition idle : kernel := switch (after (tk_slp_tsk TMO_FEVR) slept).

(** The initial task sleeps for 10 ms, and two ticks are past. *)
Definition late : kernel :=
  set_clk clock1 (switch (after (tk_slp_tsk 10) two_tasks)).

(** A semaphore with no unit, for which the initial task waits. *)
Definition with_sem : kernel :=
  after (tk_cre_sem (Some (mk_T_CSEM 0 TA_TPRI 0 4))) two_tasks.
Definition sem_waited : kernel := switch (after (tk_wai_sem 1 2 100) with_sem).

(** A flag with the bit 0 set; the initial task waits for bits 0 and 1. *)
Definition with_flg : kernel :=
  after (tk_cre_flg (Some (mk_T_CFLG 0 TA_WMUL 1))) two_tasks.
Definition flg_waited : kernel :=
  switch (after (tk_wai_flg 1 3 (Z.lor TWF_ANDW TWF_BITCLR) 300 TMO_FEVR) with_flg).

(** What a call gives. *)
Definition result {A} (m : K A) (k : kernel) : option A :=
  match m k with Ret a _ => Some a | _ => None end.

Lemma result_wp {A} (m : K A) k (a : A) (Phi : A -> kernel -> Prop) :
  result m k = Some a -> wp m Phi k -> Phi a (after m k).
Proof. unfold result, wp, after. destruct (m k); try done. intros. by simplify_eq. Qed.

Lemma still_clock (z : Z) : 0 <= z < 2 ^ 63 -> clock_ok (fun _ => z).
Proof. intros Hz. split; intros n; unfold READ_STEP; lia. Qed.

Lemma reach (k : kernel) (z : Z) : clk k = (fun _ => z) ->
  bool_decide (0 <= z < 2 ^ 63) && bool_decide (0 <= s_mtimecmp k < 2 ^ 63 + 2 ^ 62) &&
  bool_decide (z < s_mtimecmp k + MAX_LAG) = true -> timer_in_reach k.
Proof.
  intros E [[H0%bool_decide_eq_true H1%bool_decide_eq_true]%andb_prop
    H2%bool_decide_eq_true]%andb_prop.
  split; [rewrite E; by apply still_clock|]. split; [done|]. by rewrite E.
Qed.

(** [run]: discharge the hypotheses of a theorem at a concrete state. *)
Ltac run :=
  match goal with
  | |- wf _ _ => apply wf_now_sound; vm_compute; reflexivity
  | |- inv _ _ => apply inv_now_sound; vm_compute; reflexivity
  | |- timer_in_reach ?k => apply (reach k (clk k 0%nat)); vm_compute; reflexivity
  | |- is_i32 _ => unfold is_i32; lia
  | |- is_u32 _ => unfold is_u32; lia
  | |- quiet _ => intros _ _; vm_compute; reflexivity
  | |- _ = _ => vm_compute; reflexivity
  end.

(** ** The theorems at these states *)

Notation "'queues_now' k" := (queues_of (links k)) (at level 10, k at level 9, only parsing).

(** What the call gives here, and that the theorem holds of it: [thm] is the
    theorem at this input; its first conclusion is the state afterwards. *)
Definition shown {A} (m : K A) k (r : A) : Prop :=
  wf_now k = true /\ result m k = Some r /\ exists Q', wf (after m k) Q'.

Ltac show thm :=
  split; [run|split; [run|]];
  refine (_ (result_wp _ _ _ _ _ thm)); [|run];
  intros (Q' & Hwf & _); exists Q'; exact Hwf.

Lemma get_highest_correct_witness :
  inv_now two_tasks = true /\ exists r, tkmc_get_highest_priority_task two_tasks = Ret r two_tasks.
Proof.
  split; [run|].
  destruct (get_highest_correct two_tasks (queues_now two_tasks) ltac:(run)) as (r & E & _).
  exists r. exact E.
Defined.

Lemma yield_rotates_witness :
  wf_now slept = true /\ current slept = Some 2 /\
  exists k', tkmc_yield slept = Ret tt k' /\ mie k' = mie slept.
Proof.
  split; [run|]. split; [run|].
  destruct (yield_rotates slept (queues_now slept) 2 ltac:(run) ltac:(run) ltac:(run))
    as (c & k' & _ & E & _ & Hm & _). exists k'. exact (conj E Hm).
Defined.

Lemma ms_to_ticks_bounds_witness :
  is_u32 4294967295 /\ tkmc_ms_to_ticks 4294967295 = 429496731 /\
  is_u32 (tkmc_ms_to_ticks 4294967295).
Proof.
  split; [run|]. split; [run|]. apply (ms_to_ticks_bounds 4294967295). run.
Defined.

Lemma slp_tsk_spec_witness : shown (tk_slp_tsk 50) two_tasks (Suspend K_slp).
Proof. show (slp_tsk_spec two_tasks (queues_now two_tasks) 50 ltac:(run) ltac:(run) ltac:(run) ltac:(run)). Defined.

Lemma dly_tsk_spec_witness : shown (tk_dly_tsk 4294967295) two_tasks (Suspend K_dly).
Proof. show (dly_tsk_spec two_tasks (queues_now two_tasks) 4294967295 ltac:(run) ltac:(run) ltac:(run) ltac:(run)). Defined.

Lemma timer_handler_spec_witness :
  wf_now late = true /\ (tskstat <$> tcbs late !! 0) = Some TTS_WAI /\
  (tskstat <$> tcbs (after tkmc_timer_handler late) !! 0) = Some TTS_RDY /\
  exists Q', wf (after tkmc_timer_handler late) Q'.
Proof.
  split; [run|]. split; [run|]. split; [run|].
  assert (Hr : timer_in_reach late) by run.
  assert (Hc : 0 <= mtimecmp late < 2 ^ 64) by (apply (bool_decide_eq_true_1 _); vm_compute; reflexivity).
  destruct (result_wp tkmc_timer_handler late tt _ ltac:(run)
    (timer_handler_spec late (queues_now late) ltac:(run) Hr Hc)) as (Q' & r & c & n & _ & H & _).
  exists Q'. exact H.
Defined.

Lemma rel_wai_spec_witness : shown (tk_rel_wai 1) slept E_OK.
Proof. show (rel_wai_spec slept (queues_now slept) 1 ltac:(run)). Defined.

Lemma wup_tsk_spec_witness : shown (tk_wup_tsk 1) slept E_OK.
Proof. show (wup_tsk_spec slept (queues_now slept) 1 ltac:(run)). Defined.

Lemma cre_tsk_spec_witness : shown (tk_cre_tsk (Some (worker 7 200000))) slept 5.
Proof. show (cre_tsk_spec slept (queues_now slept) (Some (worker 7 200000)) ltac:(run)). Defined.

Lemma sta_tsk_spec_witness : shown (tk_sta_tsk 4 9) slept E_OK.
Proof. show (sta_tsk_spec slept (queues_now slept) 4 9 ltac:(run)). Defined.

Lemma exit_spec_witness : wf_now slept = true /\
  (exists Q', wf (after tk_ext_tsk slept) Q') /\ (exists Q', wf (after tk_exd_tsk slept) Q').
Proof.
  split; [run|].
  pose proof (exit_spec slept (queues_now slept) ltac:(run) ltac:(run)) as W.
  replace (may_block slept) with true in W by (vm_compute; reflexivity).
  destruct W as [W1 W2].
  destruct (result_wp tk_ext_tsk slept (Suspend K_ext) _ ltac:(run) W1) as (_ & t1 & c1 & _ & _ & H1 & _).
  destruct (result_wp tk_exd_tsk slept (Suspend K_ext) _ ltac:(run) W2) as (_ & t2 & c2 & _ & _ & H2 & _).
  split; eexists; [exact H1|exact H2].
Defined.

Lemma wai_sem_spec_witness : shown (tk_wai_sem 1 2 100) with_sem (Suspend K_sem).
Proof. show (wai_sem_spec with_sem (queues_now with_sem) 1 2 100 ltac:(run) ltac:(run) ltac:(run) ltac:(run) ltac:(run)). Defined.

Lemma sig_sem_spec_witness : shown (tk_sig_sem 1 2) sem_waited E_OK.
Proof. show (sig_sem_spec sem_waited (queues_now sem_waited) 1 2 ltac:(run) ltac:(run)). Defined.

Lemma del_sem_spec_witness : shown (tk_del_sem 1) sem_waited E_OK.
Proof. show (del_sem_spec sem_waited (queues_now sem_waited) 1 ltac:(run)). Defined.

Lemma wai_flg_spec_witness :
  shown (tk_wai_flg 1 3 (Z.lor TWF_ANDW TWF_BITCLR) 300 TMO_FEVR) with_flg (Suspend (K_flg 300)).
Proof.
  show (wai_flg_spec with_flg (queues_now with_flg) 1 3 (Z.lor TWF_ANDW TWF_BITCLR) 300 TMO_FEVR
    ltac:(run) ltac:(run) ltac:(run) ltac:(unfold TMO_FEVR; run)).
Defined.

Lemma set_flg_spec_witness : shown (tk_set_flg 1 6) flg_waited E_OK.
Proof. show (set_flg_spec flg_waited (queues_now flg_waited) 1 6 ltac:(run) ltac:(run)). Defined.

(** ** 64-bit registers

    Why [timer.c] does not use [in_d] and [out_d]. The time goes over a multiple of
    2^32 between the two reads, and the value read is 2^32 counts ahead; [read_mtime]
    reads again. Between the two writes the compare value is in the past; with
    [write_mtimecmp] it is never less than the old one. *)
Definition clock_over (n : nat) : Z := 2 ^ 32 - 5 + 10 * Z.of_nat n.
Definition at_edge : kernel :=
  set_cmp_log [] (set_mtimecmp (2 ^ 32 - 256) (set_reads 0 (set_clk clock_over booted))).

Example in_d_torn : result (in_d CLINT_MTIME_ADDRESS) at_edge = Some (clock_over 0 + 2 ^ 32).
Proof. run. Qed.

Example read_mtime_whole : result read_mtime at_edge = Some (clock_over 4).
Proof. run. Qed.

Example out_d_early :
  cmp_log (after (out_d CLINT_MTIMECMP_ADDRESS (2 ^ 32 + 16)) at_edge) = [2 ^ 32 + 16; 16].
Proof. run. Qed.

Example write_mtimecmp_late :
  cmp_log (after (write_mtimecmp (2 ^ 32 + 16)) at_edge) =
    [2 ^ 32 + 16; 2 ^ 33 - 1; 2 ^ 32 - 1].
Proof. run. Qed.
