(* ===== verification/Scenarios.v ===== *)
(** * Runs of the whole system

    A run from the boot on, step by step, in which the initial task waits for a
    semaphore with a time limit that runs out; the theorems on the system, the
    calls, the interrupts and the memory functions at states of this kind; and a
    run that shows what becomes of a task restarted before it was switched out. *)

From S2P Require Import Prelude DList Tkernel Kernel Inv Moves Rules Wait Sched Check.
From S2P Require Import Timer Block TimerHandler Task Semaphore EventFlag Mailbox.
From S2P Require Import IntCtl Start Boot Trap KernelTasks Types Globals Calls System Nesting LifeCycle Delivery Memory Frame Context Examples.

Open Scope Z_scope.

(** ** A run of the system *)

(** The machine time: 1 ms between two reads, up to one second. *)
Definition clock_run (n : nat) : Z := Z.of_nat (Nat.min n 1000) * 10000.

Lemma clock_run_ok : clock_ok clock_run.
Proof. split; intros n; unfold clock_run, READ_STEP; lia. Qed.

Lemma run_reach (k : kernel) : clk k = clock_run ->
  bool_decide (0 <= s_mtimecmp k < 2 ^ 63 + 2 ^ 62) &&
  bool_decide (clock_run (reads k) < s_mtimecmp k + MAX_LAG) = true -> timer_in_reach k.
Proof.
  intros E [H0%bool_decide_eq_true H1%bool_decide_eq_true]%andb_prop.
  split; [rewrite E; apply clock_run_ok|]. split; [done|]. by rewrite E.
Qed.

Lemma result_ret {A} (m : K A) k a : result m k = Some a -> m k = Ret a (after m k).
Proof. unfold result, after. destruct (m k); try done. intros. by simplify_eq. Qed.

Definition start_state : kernel := bss_state [100; 200] clock_run ∅ (mk_CSR false 0 0).
Definition up : kernel := after (_start 4096 8192 0) start_state.
Definition up_tsk : kernel := after (invoke (A_cre_tsk (Some (worker 5 65536)))) up.
Definition up_two : kernel := after (invoke (A_sta_tsk 3 42)) up_tsk.
Definition up_sem : kernel :=
  after (invoke (A_cre_sem (Some (mk_T_CSEM 0 TA_TPRI 0 4)))) up_two.
Definition up_asked : kernel := after (invoke (A_wai_sem 1 2 20)) up_sem.
Definition up_waits : kernel := after (mtrap_handler 5000) up_asked.
(** 600 ms later. *)
Definition up_late : kernel := set_reads 600 (set_mem (mem up_waits) up_waits).
Definition up_timeout : kernel := after (timer_interrupt 6000) up_late.

Definition in_wai_sem : gmap Z cont := {[0 := K_sem]}.

Lemma up_reachable : reachable (up, ∅).
Proof.
  exists (up, ∅). split; [|apply rtc_refl].
  exists 4096, 8192, 0, [100; 200], clock_run, ∅, (mk_CSR false 0 0).
  exists (default 0 (result (_start 4096 8192 0) start_state)).
  split; [by vm_compute|]. split; [by vm_compute|]. split; [left; by vm_compute|].
  split; [exact clock_run_ok|]. split; [|reflexivity].
  apply (result_ret (_start 4096 8192 0) start_state). vm_compute. reflexivity.
Qed.

Lemma reachable_step s s' : reachable s -> step s s' -> reachable s'.
Proof. intros (s0 & Hi & Hr) Hs. exists s0. split; [done|by eapply rtc_r]. Qed.

(** Arguments of their types. *)
Ltac args :=
  unfold arg_types, ty_ctsk, ty_csem, ty_cflg, ty_cmbx, is_u32, is_i32, TMO_FEVR, TMO_POL;
  try (intros ? [= <-]); apply (bool_decide_unpack _); vm_compute; exact I.

Ltac may_call :=
  apply owed_admissible; [split; [first [args | split; args]|exact I]|reflexivity].

(** The task [t] makes the call [a]. *)
Lemma reachable_call k C t a z C' : reachable (k, C) -> quiet k ->
  current k = Some t -> t <> IDLE -> C !! t = None -> admissible a k ->
  result (invoke a) k = Some (Return z) -> conts_after a z k C = C' ->
  reachable (after (invoke a) k, C').
Proof.
  intros Hr Hq Hc Hi HC Ha Hres <-. eapply reachable_step; [exact Hr|].
  eapply step_call; try eassumption. apply invoked_returns; [done|by apply result_ret].
Qed.

Lemma reachable_wait k C t a co : reachable (k, C) -> quiet k ->
  current k = Some t -> t <> IDLE -> C !! t = None -> admissible a k ->
  result (invoke a) k = Some (Suspend co) -> reachable (after (invoke a) k, <[t := co]> C).
Proof.
  intros Hr Hq Hc Hi HC Ha Hres. eapply reachable_step; [exact Hr|].
  eapply step_call; try eassumption. eapply invoked_suspends; [done|by apply result_ret|done].
Qed.

Lemma up_tsk_reachable : reachable (up_tsk, ∅).
Proof.
  unfold up_tsk. apply (reachable_call up ∅ 0 (A_cre_tsk (Some (worker 5 65536))) 3);
    [exact up_reachable|run|run|done|done|may_call|run|reflexivity].
Qed.

Lemma up_two_reachable : reachable (up_two, ∅).
Proof.
  unfold up_two. apply (reachable_call up_tsk ∅ 0 (A_sta_tsk 3 42) E_OK);
    [exact up_tsk_reachable|run|run|done|done|may_call|run|].
  unfold conts_after. case_decide; [apply delete_empty|reflexivity].
Qed.

Lemma up_sem_reachable : reachable (up_sem, ∅).
Proof.
  unfold up_sem. apply (reachable_call up_two ∅ 0 (A_cre_sem (Some (mk_T_CSEM 0 TA_TPRI 0 4))) 1);
    [exact up_two_reachable|run|run|done|done|may_call|run|reflexivity].
Qed.

Lemma up_sem_admissible : admissible (A_wai_sem 1 2 20) up_sem.
Proof.
  apply owed_admissible; [|reflexivity].
  split; [args|]. apply run_reach; vm_compute; reflexivity.
Qed.

Lemma up_asked_reachable : reachable (up_asked, in_wai_sem).
Proof.
  unfold up_asked, in_wai_sem. apply (reachable_wait up_sem ∅ 0 (A_wai_sem 1 2 20) K_sem);
    [exact up_sem_reachable|run|run|done|done|exact up_sem_admissible|run].
Qed.

Lemma up_waits_reachable : reachable (up_waits, in_wai_sem).
Proof.
  eapply reachable_step; [exact up_asked_reachable|].
  unfold up_waits. apply (step_switch up_asked in_wai_sem 5000 (default 0 (result (mtrap_handler 5000) up_asked)));
    [split; run|vm_compute; discriminate|run|].
  apply result_ret. vm_compute. reflexivity.
Qed.

Lemma up_late_reachable : reachable (up_late, in_wai_sem).
Proof.
  eapply reachable_step; [exact up_waits_reachable|]. unfold up_late. exact (step_outside up_waits in_wai_sem _ _).
Qed.

Lemma up_late_reach : timer_in_reach up_late /\ 0 <= mtimecmp up_late < 2 ^ 64.
Proof.
  split; [apply run_reach; vm_compute; reflexivity|].
  apply (bool_decide_eq_true_1 _). vm_compute. reflexivity.
Qed.

Lemma up_late_taken : taken up_late MTI.
Proof. split; run. Qed.

(** *** A task that is woken with a message *)

Definition loose_now (Q : queues) (n : link) : bool :=
  bool_decide (Q !! n = None) && bool_decide (map_Forall (fun _ ns => n ∉ ns) Q).

Lemma loose_now_sound Q n : loose_now Q n = true -> loose Q n.
Proof.
  intros [H1%bool_decide_eq_true H2%bool_decide_eq_true]%andb_prop. split; [by left|].
  intros h (ns & Hq & Hn). exact (H2 h ns Hq Hn).
Qed.

Lemma sendable_fifo k Q m msg mc :
  bool_decide (LMsg msg ∈ dom (links k)) && loose_now Q (LMsg msg) = true ->
  mbxcbs k !! m = Some mc -> Z.land (mbxatr mc) TA_MPRI = 0 -> sendable k Q m msg.
Proof.
  intros [H1%bool_decide_eq_true H2%loose_now_sound]%andb_prop Hm Ha. split; [done|done|].
  intros mc' msgs Hm' Ha'. by assert (mc' = mc) as -> by congruence.
Qed.

(** The initial task makes a mailbox and waits for it; the worker sends a message. *)
Definition up_mbx : kernel := after (invoke (A_cre_mbx (Some (mk_T_CMBX 0 TA_MFIFO)))) up_two.
Definition up_rcv : kernel := after (invoke (A_rcv_mbx 1 400 TMO_FEVR)) up_mbx.
Definition up_worker : kernel := after (mtrap_handler 5000) up_rcv.
Definition up_snd : kernel := after (invoke (A_snd_mbx 1 100)) up_worker.
Definition up_got : kernel := after (mtrap_handler 70000) up_snd.

Definition in_rcv_mbx : gmap Z cont := {[0 := K_mbx 400]}.

(** The requested switch. *)
Lemma reachable_switch k C frame r : reachable (k, C) -> mie k = true ->
  Z.testbit (mie_bits (csrs k)) MSI = true -> bool_decide (msip k = 0) = false -> is_u32 frame ->
  result (mtrap_handler frame) k = Some r -> reachable (after (mtrap_handler frame) k, C).
Proof.
  intros Hr Hm Hb Hs Hf E. eapply reachable_step; [exact Hr|]. apply (step_switch k C frame r);
    [by split|by apply (proj1 (bool_decide_eq_false _))|exact Hf|by apply result_ret].
Qed.

Lemma up_mbx_reachable : reachable (up_mbx, ∅).
Proof.
  unfold up_mbx. apply (reachable_call up_two ∅ 0 (A_cre_mbx (Some (mk_T_CMBX 0 TA_MFIFO))) 1);
    [exact up_two_reachable|run|run|done|done|may_call|run|reflexivity].
Qed.

Lemma up_rcv_reachable : reachable (up_rcv, in_rcv_mbx).
Proof.
  unfold up_rcv, in_rcv_mbx.
  apply (reachable_wait up_mbx ∅ 0 (A_rcv_mbx 1 400 TMO_FEVR) (K_mbx 400));
    [exact up_mbx_reachable|run|run|done|done| |run].
  apply owed_admissible; [|reflexivity].
  split; [args|]. apply run_reach; vm_compute; reflexivity.
Qed.

Lemma up_worker_reachable : reachable (up_worker, in_rcv_mbx).
Proof.
  exact (reachable_switch up_rcv in_rcv_mbx 5000 (default 0 (result (mtrap_handler 5000) up_rcv))
    up_rcv_reachable ltac:(run) ltac:(run) ltac:(run) ltac:(run) ltac:(run)).
Qed.

(** The message at 100 may be sent in the state [k]. *)
Ltac sends k :=
  apply owed_admissible; [|reflexivity];
  split; [args|]; exists (queues_now k); split; [run|];
  let mc := fresh in let Hm := fresh in
  destruct (mbxcbs k !! (1 - 1)) as [mc|] eqn:Hm; [|vm_compute in Hm; discriminate];
  intros _ _ _; apply (sendable_fifo _ _ _ _ mc); [vm_compute; reflexivity|exact Hm|];
  vm_compute in Hm; injection Hm as <-; reflexivity.

Lemma up_snd_admissible : admissible (A_snd_mbx 1 100) up_worker.
Proof. sends up_worker. Qed.

Lemma up_got_reachable : reachable (up_got, in_rcv_mbx).
Proof.
  apply (reachable_switch up_snd in_rcv_mbx 70000 (default 0 (result (mtrap_handler 70000) up_snd)));
    [|run|run|run|run|run].
  unfold up_snd. apply (reachable_call up_worker in_rcv_mbx 2 (A_snd_mbx 1 100) E_OK);
    [exact up_worker_reachable|run|run|done|reflexivity|exact up_snd_admissible|run|reflexivity].
Qed.

(** *** The idle task *)





(** ** The theorems on the system *)

(** The task that waited has the message. *)
Lemma resume_returns_witness : reachable (up_got, in_rcv_mbx) /\ current up_got = Some 0 /\
  exists k', resume (K_mbx 400) up_got = Ret E_OK k' /\ mem k' = <[400 := CWord 100]> (mem up_got).
Proof.
  split; [exact up_got_reachable|]. split; [run|].
  destruct (tcbs up_got !! 0) as [c|] eqn:Hc; [|vm_compute in Hc; discriminate].
  assert (Hr : runs up_got 0) by (split; [run|]; split; [run|]; split; run).
  destruct (resume_returns up_got in_rcv_mbx 0 (K_mbx 400) c up_got_reachable Hr ltac:(reflexivity) Hc)
    as (k' & E & Em & _).
  exists k'. assert (Ec : wupcause c = E_OK /\ winfo c = WMailbox 100).
  { vm_compute in Hc. injection Hc as <-. split; reflexivity. }
  destruct Ec as [E1 E2]. unfold resumed_with in E. rewrite E1 in E.
  unfold stored_by in Em. rewrite E2, E1, decide_True in Em by reflexivity. exact (conj E Em).
Defined.


(** Two sources with handlers, at the priorities 2 and 4. *)
Notation a_handler a := (Some (mk_T_DINT TA_HLNG (Some (F_user a)))) (only parsing).
Definition up_def3 : kernel := after (invoke (A_def_int 3 (a_handler 9))) up_two.
Definition up_on3 : kernel := after (invoke (A_enable_int 3 2)) up_def3.
Definition up_def5 : kernel := after (invoke (A_def_int 5 (a_handler 10))) up_on3.
Definition up_on5 : kernel := after (invoke (A_enable_int 5 4)) up_def5.

Lemma up_on5_reachable : reachable (up_on5, ∅).
Proof.
  unfold up_on5. apply (reachable_call up_def5 ∅ 0 (A_enable_int 5 4) E_OK);
    [|run|run|done|done|may_call|run|reflexivity].
  unfold up_def5. apply (reachable_call up_on3 ∅ 0 (A_def_int 5 (a_handler 10)) E_OK);
    [|run|run|done|done|may_call|run|reflexivity].
  unfold up_on3. apply (reachable_call up_def3 ∅ 0 (A_enable_int 3 2) E_OK);
    [|run|run|done|done|may_call|run|reflexivity].
  unfold up_def3. apply (reachable_call up_two ∅ 0 (A_def_int 3 (a_handler 9)) E_OK);
    [exact up_two_reachable|run|run|done|done|may_call|run|reflexivity].
Qed.

(** The handler of the source 3, with interrupts on again, and that of the source 5,
    which interrupts it. *)
Definition in_3 : kernel := set_mie true (handler_at up_on5 5000 3).
Definition in_5 : kernel := set_mie true (handler_at in_3 6000 5).

Lemma interrupts_now k frame src h : mie k = true -> Z.testbit (mie_bits (csrs k)) MEI = true ->
  is_u32 frame -> plic_enabled (plic k) src = true ->
  bool_decide (pl_threshold (plic k) < default 0 (pl_priority (plic k) !! src)) = true ->
  handler_of k src = Some h -> interrupts k frame src h.
Proof. intros H1 H2 H3 H4 H5%bool_decide_eq_true H6. split; [by split|]. split; [done|]. by split. Qed.

Lemma in_3_handler : in_handler up_on5 (in_3, ∅).
Proof.
  exact (in_first up_on5 ∅ 5000 3 (F_user 9) (in_3, ∅) up_on5_reachable
    (interrupts_now up_on5 5000 3 (F_user 9) ltac:(run) ltac:(run) ltac:(run) ltac:(run) ltac:(run)
      ltac:(run))
    (handler_mask (handler_at up_on5 5000 3) ∅ true (in_3, ∅) (handler_done _))).
Qed.

Lemma in_5_handler : in_handler up_on5 (in_5, ∅).
Proof.
  exact (in_nested up_on5 in_3 ∅ 6000 5 (F_user 10) (in_5, ∅) in_3_handler
    (interrupts_now in_3 6000 5 (F_user 10) ltac:(run) ltac:(run) ltac:(run) ltac:(run) ltac:(run)
      ltac:(run))
    (handler_mask (handler_at in_3 6000 5) ∅ true (in_5, ∅) (handler_done _))).
Qed.

(** A source without a handler comes there. *)
Definition no_handler (_ : text) (_ : Z) : K unit := ret tt.
Definition past_4 : kernel := after (external_interrupt no_handler 7000) (claims 4 in_5).

Lemma in_5_taken : taken in_5 MEI.
Proof. split; run. Qed.

Lemma ignored_4 : external 7000 7000 (in_5, ∅) (past_4, ∅).
Proof.
  exact (external_ignored in_5 ∅ no_handler 4 7000 7000 past_4
    in_5_taken ltac:(run) ltac:(done) ltac:(run)
    (result_ret (external_interrupt no_handler 7000) (claims 4 in_5) _ ltac:(run))).
Qed.

Lemma handlers_are_not_switched_witness : in_handler up_on5 (in_5, ∅) /\ mie in_5 = true /\
  isr_depth in_5 = 2 /\ current in_5 = current up_on5 /\ ~ taken in_5 MSI /\
  external 7000 7000 (in_5, ∅) (past_4, ∅) /\ current past_4 = current in_5.
Proof.
  destruct (handlers_are_not_switched up_on5 in_5 ∅ in_5_handler)
    as (H1 & _ & _ & H2 & _ & H3 & _).
  split; [exact in_5_handler|]. split; [run|]. split; [run|]. split; [exact H1|].
  split; [exact H2|]. split; [exact ignored_4|].
  assert (H4 : forall k1, external 7000 7000 (in_5, ∅) (k1, ∅) -> current k1 = current in_5)
    by (intros k1 He; exact (proj1 (proj2 (H3 _ _ _ He)))).
  exact (H4 past_4 ignored_4).
Defined.

Lemma reachable_ok_witness : reachable (up_late, in_wai_sem) /\ exists Q, wf up_late Q.
Proof.
  split; [exact up_late_reachable|].
  exact (so_wf _ (proj1 (reachable_ok _ up_late_reachable))).
Defined.

Lemma reachable_typed_witness : reachable (up_late, in_wai_sem) /\ typed up_late.
Proof.
  split; [exact up_late_reachable|]. exact (reachable_typed _ up_late_reachable).
Defined.

Lemma runs_the_highest_witness : reachable (up_waits, in_wai_sem) /\
  current up_waits = Some 2 /\ exists c, tcbs up_waits !! 2 = Some c /\ tskstat c = TTS_RUN.
Proof.
  split; [exact up_waits_reachable|]. split; [run|].
  destruct (runs_the_highest up_waits in_wai_sem 2 up_waits_reachable ltac:(run) ltac:(run))
    as (c & Hc & Hs & _). exists c. exact (conj Hc Hs).
Defined.

Lemma always_goes_on_witness : reachable (up_late, in_wai_sem) /\ mie up_late = true /\
  exists r k', timer_interrupt 6000 up_late = Ret r k'.
Proof.
  split; [exact up_late_reachable|]. split; [run|].
  destruct (always_goes_on up_late in_wai_sem up_late_reachable ltac:(run))
    as (_ & _ & _ & _ & H & _). destruct up_late_reach as [H1 H2]. exact (H 6000 ltac:(run) H1 H2).
Defined.

(** The initial task had 20 ms; it runs again with E_TMOUT. *)
Lemma timeout_delivered_witness : reachable (up_late, in_wai_sem) /\
  (tskstat <$> tcbs up_late !! 0) = Some TTS_WAI /\
  (wupcause <$> tcbs up_timeout !! 0) = Some E_TMOUT /\
  exists n log given, ledger n (tcbs up_late) (semcbs up_late) log given (tcbs up_timeout)
    (semcbs up_timeout) /\ 0 ∈ log.*1.
Proof.
  split; [exact up_late_reachable|]. split; [run|]. split; [run|].
  destruct (tcbs up_late !! 0) as [c|] eqn:Hc; [|vm_compute in Hc; discriminate].
  assert (Hs : bool_decide (tskstat c = TTS_WAI) && bool_decide (0 < delay_ticks c) &&
    bool_decide (s_mtimecmp up_late + (delay_ticks c - 1) * TICK_COUNTS <=
      clk up_late (reads up_late)) = true).
  { vm_compute in Hc. injection Hc as <-. vm_compute. reflexivity. }
  apply andb_prop in Hs as [[H1%bool_decide_eq_true H2%bool_decide_eq_true]%andb_prop
    H3%bool_decide_eq_true].
  destruct up_late_reach as [H4 H5].
  destruct (timeout_delivered up_late in_wai_sem 6000 (default 0 (result (timer_interrupt 6000) up_late))
    up_timeout 0 c up_late_reachable up_late_taken H4 H5 ltac:(run)
    (result_ret (timer_interrupt 6000) up_late _ ltac:(run)) Hc H1 H2 H3)
    as (n & log & given & _ & Hled & c' & Hc' & _ & Hcase).
  exists n, log, given. split; [exact Hled|].
  assert (Hw : (wupcause <$> tcbs up_timeout !! 0) = Some E_TMOUT) by run.
  rewrite Hc' in Hw. injection Hw as Hw. destruct Hcase as [[_ Hin]|[Hw' _]].
  - apply list_elem_of_fmap. exists (0, delay_ticks c). exact (conj eq_refl Hin).
  - rewrite Hw' in Hw. discriminate Hw.
Defined.

Lemma no_idle_wait_witness : reachable (up_waits, in_wai_sem) /\
  (tskstat <$> tcbs up_waits !! 0) = Some TTS_WAI /\ exists Q, wf up_waits Q.
Proof.
  split; [exact up_waits_reachable|]. split; [run|].
  destruct (tcbs up_waits !! 0) as [c|] eqn:Hc; [|vm_compute in Hc; discriminate].
  assert (Hs : tskstat c = TTS_WAI) by (vm_compute in Hc; injection Hc as <-; reflexivity).
  destruct (no_idle_wait up_waits in_wai_sem 0 c up_waits_reachable Hc Hs) as (Q & H & _).
  exists Q. exact H.
Defined.

(** The worker is started, and nothing else happens to any task. *)
Lemma life_cycle_witness : reachable (up_tsk, ∅) /\
  tasks_move (by_call (A_sta_tsk 3 42) up_tsk (queues_now up_tsk)) (tcbs up_tsk) (tcbs up_two) /\
  (phase_of <$> tcbs up_tsk !! 2) = Some Dormant /\ (phase_of <$> tcbs up_two !! 2) = Some Ready.
Proof.
  split; [exact up_tsk_reachable|]. split; [|split; run].
  exact (proj1 (life_cycle up_tsk ∅ (queues_now up_tsk) (proj1 (reachable_top _ up_tsk_reachable))
    ltac:(run))
    (A_sta_tsk 3 42) (Return E_OK) up_two ltac:(run) ltac:(may_call)
    (result_ret (invoke (A_sta_tsk 3 42)) up_tsk _ ltac:(run))).
Defined.

Lemma else_case (b : bool) (P R : Prop) : b = false -> (if b then P else R) -> R.
Proof. by intros ->. Qed.

Lemma calls_return_witness : wf_now sem_waited = true /\
  exists Q, wf (after (invoke (A_sig_sem 1 2)) sem_waited) Q.
Proof.
  split; [run|].
  pose proof (calls_return sem_waited (queues_now sem_waited) (A_sig_sem 1 2) ltac:(run) ltac:(run)
    ltac:(split; [args|exact I])) as H.
  apply else_case in H; [|reflexivity].
  exact (proj1 (result_wp (invoke (A_sig_sem 1 2)) sem_waited (Return E_OK) _ ltac:(run) H)).
Defined.

(** Nine units do not fit into the semaphore. *)
Lemma errors_change_nothing_witness :
  result (invoke (A_sig_sem 1 9)) sem_waited = Some (Return E_QOVR) /\
  after (invoke (A_sig_sem 1 9)) sem_waited = sem_waited.
Proof.
  split; [run|].
  apply (errors_change_nothing sem_waited (queues_now sem_waited) (A_sig_sem 1 9) E_QOVR);
    [run|run|split; [args|exact I]|apply result_ret; run|reflexivity].
Defined.

(** The state in which the reset code calls [tkmc_start]. *)
Definition reset_done : kernel := bss_state [100; 200] clock_run ∅ (mk_CSR false 0 ALL_TRAPS).

Lemma start_spec_witness : result (gets current) (after (tkmc_start 4096 8192 0) reset_done) =
    Some (Some 0) /\
  exists Q, wf (after (tkmc_start 4096 8192 0) reset_done) Q.
Proof.
  split; [run|].
  destruct (result_wp (tkmc_start 4096 8192 0) reset_done
    (default 0 (result (tkmc_start 4096 8192 0) reset_done)) _ ltac:(run)
    (start_spec 4096 8192 0 [100; 200] clock_run ∅ (mk_CSR false 0 ALL_TRAPS)
      ltac:(by vm_compute) ltac:(by vm_compute) ltac:(left; by vm_compute) clock_run_ok))
    as [_ H _ _ _ _ _ _ _ _ _ _ _ _ _ _ _ _ _ _].
  exact H.
Defined.

(** ** The switch, the mailboxes and the flags *)

Lemma schedule_spec_witness :
  wf_now (after (tk_slp_tsk 50) two_tasks) = true /\ exists Q, wf slept Q.
Proof.
  split; [run|].
  set (k := after (tk_slp_tsk 50) two_tasks).
  assert (Hm : msip k <> 0) by (vm_compute; discriminate).
  assert (Hh : is_Some (highest (queues_now k))).
  { destruct (highest (queues_now k)) eqn:E; [eexists; reflexivity|vm_compute in E; discriminate]. }
  destruct (result_wp (schedule 5000) (set_msip 0 k) (default 0 (result (schedule 5000) (set_msip 0 k)))
    _ ltac:(run) (schedule_spec k (queues_now k) 0 5000 ltac:(run) Hm ltac:(run) Hh))
    as (c & t & ct & _ & _ & _ & _ & _ & _ & H & _).
  exists (queues_now k). exact H.
Defined.

(** A mailbox in the order of sending, and one for which the initial task waits. *)
Definition with_mbx : kernel := after (tk_cre_mbx (Some (mk_T_CMBX 0 TA_MFIFO))) two_tasks.
Definition mbx_waited : kernel := switch (after (tk_rcv_mbx 1 400 TMO_FEVR) with_mbx).
Definition mbx_sent : kernel := switch (after (tk_snd_mbx 1 100) mbx_waited).

(** One in the order of priority, with two messages of the priorities 5 and 3. *)
Definition with_pri_mbx : kernel :=
  let k := after (tk_cre_mbx (Some (mk_T_CMBX 0 TA_MPRI))) two_tasks in
  set_mem (<[108 := CWord 5]> (<[208 := CWord 3]> (mem k))) k.

Lemma sendable_mbx_waited : sendable mbx_waited (queues_now mbx_waited) (1 - 1) 100.
Proof.
  destruct (mbxcbs mbx_waited !! (1 - 1)) as [mc|] eqn:Hm; [|vm_compute in Hm; discriminate].
  apply (sendable_fifo _ _ _ _ mc); [vm_compute; reflexivity|exact Hm|].
  vm_compute in Hm. injection Hm as <-. reflexivity.
Qed.

Lemma snd_mbx_spec_witness : shown (tk_snd_mbx 1 100) mbx_waited E_OK.
Proof.
  show (snd_mbx_spec mbx_waited (queues_now mbx_waited) 1 100 ltac:(run) (fun _ _ _ => sendable_mbx_waited)).
Defined.

Lemma rcv_mbx_spec_witness : shown (tk_rcv_mbx 1 400 TMO_FEVR) with_mbx (Suspend (K_mbx 400)).
Proof.
  show (rcv_mbx_spec with_mbx (queues_now with_mbx) 1 400 TMO_FEVR ltac:(run) ltac:(run)
    ltac:(run) ltac:(unfold TMO_FEVR; run)).
Defined.

Lemma del_mbx_spec_witness : shown (tk_del_mbx 1) mbx_waited E_OK.
Proof. show (del_mbx_spec mbx_waited (queues_now mbx_waited) 1 ltac:(run)). Defined.

Lemma in_two (a : Z) : a ∈ [100; 200] -> a = 100 \/ a = 200.
Proof. set_solver. Qed.

(** Two messages come back in the order of their priorities. *)
Lemma messages_in_order_witness : wf_now with_pri_mbx = true /\
  result (snd_all 1 [100; 200] ;;; rcv_all 1 400 2) with_pri_mbx = Some [200; 100] /\
  exists l k', (snd_all 1 [100; 200] ;;; rcv_all 1 400 2) with_pri_mbx = Ret l k' /\
    l ≡ₚ [100; 200].
Proof.
  split; [run|]. split; [run|].
  destruct (mbxcbs with_pri_mbx !! (1 - 1)) as [mc|] eqn:Hm; [|vm_compute in Hm; discriminate].
  assert (Hex : no_exist (mbxid mc) = false) by (vm_compute in Hm; injection Hm as <-; reflexivity).
  assert (Hw : mailbox_with (id := 1) (mc := mc) with_pri_mbx (queues_now with_pri_mbx) []).
  { split; [run|exact Hm|run|run]. }
  assert (Hms : messages with_pri_mbx (queues_now with_pri_mbx) mc [100; 200]).
  { split.
    - apply (bool_decide_unpack _). vm_compute. exact I.
    - assert (Hl : forall a, a = 100 \/ a = 200 -> LMsg a ∈ dom (links with_pri_mbx) /\
        loose_now (queues_now with_pri_mbx) (LMsg a) = true).
      { intros a [-> | ->]; (split; [apply (bool_decide_unpack _); vm_compute; exact I|run]). }
      intros a Ha. pose proof (in_two a Ha) as Ha'.
      destruct (Hl a Ha') as [H1 H2]. split; [lia|]. split; [exact H1|by apply loose_now_sound].
    - intros a Ha _. pose proof (in_two a Ha) as Ha'.
      destruct Ha' as [-> | ->]; [exists 5|exists 3]; (split; [run|reflexivity]). }
  destruct (messages_in_order (id := 1) (mc := mc) ltac:(run) Hex with_pri_mbx
    (queues_now with_pri_mbx) 400 [100; 200] Hw Hms ltac:(discriminate) ltac:(run) ltac:(run)
    ltac:(run)) as (l & k' & E & Hp & _).
  exists l, k'. exact (conj E Hp).
Defined.

(** ** Interrupts *)

(** A handler for the source 3 of the PLIC, which claims; it does nothing. *)
Definition handler_set : kernel :=
  after (EnableInt 3 2) (after (tk_def_int 3 (Some (mk_T_DINT TA_HLNG (Some (F_user 9))))) two_tasks).
Definition claimed : kernel := entered (claims 3 handler_set).
Definition no_work (_ : text) (_ : Z) : K unit := ret tt.

Lemma post_handled k (Psi : kernel -> Prop) h i u k' : external_interrupt_post k Psi u k' ->
  pl_claim (plic k) = i -> i <> 0 -> handler_of k i = Some h ->
  exists k1, Psi k1 /\ pl_threshold (plic k') = pl_threshold (plic k).
Proof.
  unfold external_interrupt_post. intros H <- Hi Hh. rewrite decide_False, Hh in H by done.
  destruct H as (k1 & H1 & _ & H2 & _). by exists k1.
Qed.

Lemma claimed_runs : forall h, handler_of claimed (pl_claim (plic claimed)) = Some h ->
  wp (no_work h (pl_claim (plic claimed)))
    (fun _ _ => True) (handler_entry claimed (pl_claim (plic claimed))).
Proof. intros h _. by apply wp_ret. Qed.

Lemma claimed_handlers i : 0 <= i < CFN_MAX_INTNO -> is_Some (s_handlers claimed !! i).
Proof.
  assert (Hf : Forall (fun i => is_Some (s_handlers claimed !! i)) (seqZ 0 CFN_MAX_INTNO)).
  { apply (bool_decide_unpack _). vm_compute. exact I. }
  intros Hi. rewrite Forall_forall in Hf. apply Hf. apply elem_of_seqZ. lia.
Qed.

Lemma claimed_source : 0 <= pl_claim (plic claimed) < PLIC_SOURCE_COUNT.
Proof. apply (bool_decide_unpack _). vm_compute. exact I. Qed.

Lemma external_interrupt_spec_witness :
  handler_of claimed 3 = Some (F_user 9) /\
  result (tkmc_external_interrupt no_work) claimed = Some tt /\
  pl_completed (plic (after (tkmc_external_interrupt no_work) claimed)) = [3] /\
  exists k1 : kernel, True /\
    pl_threshold (plic (after (tkmc_external_interrupt no_work) claimed)) =
    pl_threshold (plic claimed).
Proof.
  split; [run|]. split; [run|]. split; [run|].
  refine (post_handled claimed (fun _ => True) (F_user 9) 3 tt _
    (result_wp (tkmc_external_interrupt no_work) claimed tt _ ltac:(run)
      (external_interrupt_spec no_work claimed (fun _ => True) claimed_handlers claimed_source
        claimed_runs)) _ _ _); [run|discriminate|run].
Defined.

(** *** A task restarted before it was switched out

    The external interrupt comes before the software interrupt that [tk_ext_tsk]
    asked for, and its handler starts the task again. *)
Definition restarts (_ : text) (_ : Z) : K unit := tk_sta_tsk 3 9 ;;; ret tt.
Definition ended : kernel :=
  after tk_ext_tsk (after (EnableInt 3 2)
    (after (tk_def_int 3 (Some (mk_T_DINT TA_HLNG (Some (F_user 9))))) slept)).
Definition restarted : kernel := after (external_interrupt restarts 5000) (claims 3 ended).

(** The task has ended, and is started again with success; the frame that is
    restored in the end is the one of the old run, not the new first frame. *)
Lemma restart_before_switch :
  (tskstat <$> tcbs ended !! 2) = Some TTS_DMT /\
  result (tk_sta_tsk 3 9) ended = Some E_OK /\
  (sp <$> tcbs (after (tk_sta_tsk 3 9) ended) !! 2) = (initial_sp <$> tcbs ended !! 2) /\
  result (external_interrupt restarts 5000) (claims 3 ended) = Some 5000 /\
  current restarted = Some 2 /\
  (sp <$> tcbs restarted !! 2) = Some 5000 /\
  (sp <$> tcbs restarted !! 2) <> (initial_sp <$> tcbs restarted !! 2).
Proof. do 6 (split; [run|]). vm_compute. discriminate. Qed.

Lemma restart_keeps_old_frame_witness : wf_now ended = true /\ current ended = Some 2 /\
  exists k1 r k2 c2, tk_sta_tsk 3 9 ended = Ret E_OK k1 /\
    schedule 5000 (set_msip 0 k1) = Ret r k2 /\ tcbs k2 !! 2 = Some c2 /\ sp c2 = 5000.
Proof.
  split; [run|]. split; [run|].
  destruct (tcbs ended !! 2) as [c|] eqn:Hc; [|vm_compute in Hc; discriminate].
  assert (Hs : tskstat c = TTS_DMT) by (vm_compute in Hc; injection Hc as <-; reflexivity).
  destruct (restart_keeps_old_frame ended (queues_now ended) 2 c 9 5000 ltac:(run)
    ltac:(unfold CFN_MAX_TSKID; lia) ltac:(run) Hc Hs)
    as (k1 & r & k2 & c2 & E1 & _ & _ & E2 & Hc2 & Hsp & _).
  exists k1, r, k2, c2. exact (conj E1 (conj E2 (conj Hc2 Hsp))).
Defined.

(** [tk_rel_wai] of a handler that comes before the switch: the task waits, and is
    refused as the current one. *)
Lemma rel_wai_before_switch :
  let asleep := after (tk_slp_tsk 50) two_tasks in
  (tskstat <$> tcbs asleep !! 0) = Some TTS_WAI /\
  result (tk_rel_wai 1) (entered asleep) = Some E_OBJ /\
  result (tk_wup_tsk 1) (entered asleep) = Some E_OK.
Proof. split; [run|split; run]. Qed.

(** ** Memory *)

(** Eighty bytes from address 1. *)
Definition some_ram : gmap Z Z := list_to_map ((fun a => (a, a mod 7)) <$> seqZ 1 80).

Lemma some_ram_mapped a n : bool_decide (1 <= a /\ a + n <= 81) = true -> mapped some_ram a n.
Proof.
  intros [H1 H2]%bool_decide_eq_true i Hi.
  assert (Hf : Forall (fun i => is_Some (some_ram !! i)) (seqZ 1 80)).
  { apply (bool_decide_unpack _). vm_compute. exact I. }
  rewrite Forall_forall in Hf. apply Hf, elem_of_seqZ. lia.
Qed.

Lemma memset_fills_witness : exists m', tkmc_memset 3 255 45 some_ram = Ret 3 m' /\
  m' !! 2 = Some 2 /\ m' !! 3 = Some 255.
Proof.
  destruct (memset_fills 3 255 45 some_ram ltac:(lia) (some_ram_mapped 3 45 ltac:(run)))
    as (m' & E & H).
  exists m'. split; [exact E|]. split; rewrite H; reflexivity.
Defined.

Lemma some_ram_copyable : copyable some_ram 43 3 35.
Proof.
  split; [|apply some_ram_mapped; run|right; lia].
  intros i Hi. destruct (some_ram_mapped 3 35 ltac:(run) i Hi) as [b Eb]. exists b.
  split; [exact Eb|]. assert (Hf : Forall (fun i => 0 <= default 0 (some_ram !! i) < 256) (seqZ 3 35)).
  { apply (bool_decide_unpack _). vm_compute. exact I. }
  rewrite Forall_forall in Hf. specialize (Hf i ltac:(apply elem_of_seqZ; lia)).
  rewrite Eb in Hf. exact Hf.
Qed.

Lemma memcpy_copies_witness : exists m', tkmc_memcpy 43 3 35 some_ram = Ret 43 m' /\
  m' !! 43 = Some 3 /\ m' !! 42 = Some 0.
Proof.
  destruct (memcpy_copies 43 3 35 some_ram ltac:(lia) some_ram_copyable) as (m' & E & H).
  exists m'. split; [exact E|]. split; rewrite H; reflexivity.
Defined.

(** ** Frames *)

(** The initial task asks for a message with [sp] at 8192 and 1 in every register. Its
    registers are saved, the worker runs and sends the message, and the switch back is
    taken with the frame of the worker. *)
Definition ones : reg -> cell := fun _ => CWord 1.
Definition hart_ones : cpu := mk_cpu ones 8192 (CWord 40) (mem up_rcv).
Definition saved_ones : cpu := match SAVE_FRAME hart_ones with Ret _ x => x | _ => hart_ones end.
Definition rcv_saved : kernel := set_mem (xram saved_ones) up_rcv.
Definition rcv_worker : kernel := after (mtrap_handler 8064) rcv_saved.
Definition rcv_snd : kernel := after (invoke (A_snd_mbx 1 100)) rcv_worker.
Definition rcv_got : kernel := after (mtrap_handler 70000) rcv_snd.

Lemma trap_now k C frame r : mie k = true -> Z.testbit (mie_bits (csrs k)) MSI = true ->
  bool_decide (msip k = 0) = false -> is_u32 frame -> result (mtrap_handler frame) k = Some r ->
  trap frame r (k, C) (after (mtrap_handler frame) k, C).
Proof.
  intros Hm Hb Hs Hf E. apply trap_switch; [by split|by apply (proj1 (bool_decide_eq_false _))|
    exact Hf|by apply result_ret].
Qed.

Lemma rcv_snd_admissible : admissible (A_snd_mbx 1 100) rcv_worker.
Proof. sends rcv_worker. Qed.

Lemma rcv_away : rtc (away 0) (rcv_worker, in_rcv_mbx) (rcv_snd, in_rcv_mbx).
Proof.
  apply rtc_once. split; [vm_compute; discriminate|].
  eapply (step_call rcv_worker in_rcv_mbx 2); [run|run|done|reflexivity|].
  exact (invoked_returns rcv_worker in_rcv_mbx (A_snd_mbx 1 100) E_OK rcv_snd rcv_snd_admissible
    (result_ret (invoke (A_snd_mbx 1 100)) rcv_worker _ ltac:(run))).
Qed.

Lemma rcv_back : back_to 0 8064 (rcv_saved, in_rcv_mbx) 8064 (rcv_got, in_rcv_mbx).
Proof.
  exact (back_later 0 8064 (rcv_saved, in_rcv_mbx) 8064 (rcv_got, in_rcv_mbx)
    (default 0 (result (mtrap_handler 8064) rcv_saved))
    (rcv_worker, in_rcv_mbx) (rcv_snd, in_rcv_mbx) 70000
    (trap_now rcv_saved in_rcv_mbx 8064 _ ltac:(run) ltac:(run) ltac:(run) ltac:(run) ltac:(run))
    ltac:(vm_compute; discriminate) rcv_away ltac:(vm_compute; discriminate)
    (trap_now rcv_snd in_rcv_mbx 70000 8064 ltac:(run) ltac:(run) ltac:(run) ltac:(run) ltac:(run))
    ltac:(run)).
Qed.

Lemma rcv_same_frame : same_frame 8064 (xram saved_ones) (mem rcv_got).
Proof.
  intros i Hi. assert (Hf : Forall (fun i => mem rcv_got !! (8064 + 4 * i) =
    xram saved_ones !! (8064 + 4 * i)) (seqZ 0 29)).
  { apply (bool_decide_unpack _). vm_compute. exact I. }
  rewrite Forall_forall in Hf. apply Hf, elem_of_seqZ. lia.
Qed.

Lemma task_goes_on_witness : reachable (up_rcv, in_rcv_mbx) /\ current rcv_worker = Some 2 /\
  exists y, RESTORE_FRAME (mk_cpu (fun _ => CWord 0) 8064 (CWord 0) (mem rcv_got)) = Ret tt y /\
    xsp y = 8192 /\ xmepc y = CWord 40 /\ xreg y s7 = CWord 1.
Proof.
  split; [exact up_rcv_reachable|]. split; [run|].
  destruct (tcbs up_rcv !! 0) as [c|] eqn:Hc; [|vm_compute in Hc; discriminate].
  assert (Ha : alive c) by (vm_compute in Hc; injection Hc as <-; vm_compute; auto).
  destruct (task_goes_on 0 c up_rcv in_rcv_mbx ones 8192 (CWord 40) up_rcv_reachable ltac:(run)
    Hc Ha ltac:(unfold frame_at, FRAME_BYTES, FRAME_WORDS; lia) ltac:(lia)) as (x & Ex & H).
  assert (x = saved_ones) as ->.
  { unfold saved_ones, hart_ones. rewrite Ex. reflexivity. }
  assert (Es : xsp saved_ones = 8064) by run. rewrite Es in H.
  assert (G : forall k', back_to 0 8064 (rcv_saved, in_rcv_mbx) 8064 (k', in_rcv_mbx) ->
    same_frame 8064 (xram saved_ones) (mem k') ->
    exists y, RESTORE_FRAME (mk_cpu (fun _ => CWord 0) 8064 (CWord 0) (mem k')) = Ret tt y /\
      xsp y = 8192 /\ xmepc y = CWord 40 /\ xreg y s7 = CWord 1).
  { intros k' Hb Hsame. destruct (H 8064 (k', in_rcv_mbx) Hb) as (_ & Hy).
    destruct (Hy Hsame (fun _ => CWord 0) (CWord 0)) as (y & Ey & H1 & H2 & H3).
    exists y. split; [exact Ey|]. split; [exact H1|]. split; [exact H2|exact (H3 s7)]. }
  exact (G rcv_got rcv_back rcv_same_frame).
Defined.

(** The worker begins at its entry with the start code 42. *)
Definition worker_started : kernel := after (tk_sta_tsk 3 42) up_tsk.

Lemma started_task_begins_witness : exists c1, tcbs worker_started !! 2 = Some c1 /\
  exists y, launch_task (sp c1) (mk_cpu (fun _ => CWord 0) 0 (CWord 0) (mem worker_started)) =
    Ret (CText (F_user 5)) y /\ xreg y a0 = CWord 42.
Proof.
  destruct (tcbs up_tsk !! (3 - 1)) as [c|] eqn:Hc; [|vm_compute in Hc; discriminate].
  assert (Hf : frame_at (initial_sp c) /\ task c = Some (F_user 5)).
  { split; [apply (bool_decide_unpack _)|]; vm_compute in Hc; injection Hc as <-; vm_compute;
      [exact I|reflexivity]. }
  destruct Hf as [Hf Ht].
  assert (E : tk_sta_tsk 3 42 up_tsk = Ret E_OK worker_started).
  { unfold worker_started. apply (result_ret (tk_sta_tsk 3 42) up_tsk). vm_compute. reflexivity. }
  destruct (started_task_begins up_tsk (queues_now up_tsk) 3 42 worker_started c ltac:(run) Hc E Hf)
    as (c1 & Hc1 & _ & H).
  exists c1. split; [exact Hc1|].
  destruct (H (mk_cpu (fun _ => CWord 0) 0 (CWord 0) (mem worker_started)) eq_refl)
    as (_ & y & Ey & Ha & _).
  rewrite Ht in Ey. exists y. exact (conj Ey Ha).
Defined.
